(* ===== verification/_CoqProject ===== *)
-Q . S2P
Prelude.v
CLib.v
Controller.v
Common.v
Reltime.v
Eloop.v
Wpabuf.v
Ie.v
Elems.v
Channels.v
Client.v
ClientLoop.v
Hapd.v
Dfs.v
ProbeResp.v
StaTrack.v
ProbeReq.v
EndToEnd.v
EapolAuth.v
Ieee8021x.v
DataPath.v
DataGen.v
WpaCommon.v
WpaKeys.v
Pmksa.v
WpaIe.v
WpaSm.v
WpaAuth.v
WpaSteps.v
WpaTriples.v
WpaSafety.v
WpaEnds.v
WpaFrames.v
WpaOps.v
