(* ===== verification/Prelude.v ===== *)
(** * Data over management frames: a verification development

    The program lets a Wi-Fi client send data to an access point, and receive
    acknowledgements, in probe requests and probe responses, without being
    associated. This library models it from the source and proves what makes
    its parts correct. Paths below are relative to [src/data_over_wifi/].

    ** The program

    - The client ([probe_stuffing/]) reads messages from standard input, splits
      each into frames, a frame into vendor elements (OUI [01:02:03], with no type),
      and asks the kernel through nl80211 for a scan that carries the elements
      in its probe requests. It reads the acknowledgement out of the scan
      results and retries.
    - The access point ([hostapd/]) is a modified hostapd 2.6. Its element parser
      collects the stuffed elements, [handle_probe_req] reassembles the data,
      hands it to a controller with a shell command, and appends an
      acknowledgement element to the next probe response.
    - Around this sits the unmodified access point: the state the probe path
      reads, the DFS checks that decide whether it may answer, the event loop that
      calls everything, and, for stations that associate, the IEEE 802.1X
      authenticator and the WPA authenticator with its key handshakes, group keys
      and PMKSA cache.
    - The record of a frame goes through a client program to a controller
      ([src/controller_tcp/]), which puts it into a database; generators
      ([src/data_gen/]) send random data both ways.

    ** The files

    Layer by layer, each file with the code it models:

    - [Prelude]: outcomes of C code (defined, undefined behaviour of a kind, a
      loop out of iterations), machine integers, memory accesses, record update.
    - [CLib]: the C library: strings, [snprintf] of numbers, [atoi].
    - [Common]: [hostapd/src/utils/common.[ch]], the accessors, hexadecimal and
      MAC address helpers.
    - [Wpabuf]: [hostapd/src/utils/wpabuf.[ch]], growable buffers.
    - [Ie], [Elems], [Channels]: [hostapd/src/common/ieee802_11_common.c], lists
      of elements, the element parser with the stuffed elements
      ([ieee802_11_parse_elems]), channels, rates and frequencies.
    - [Client]: [probe_stuffing/utils.c] and the frame construction of
      [probe_stuffing/main.c]. [ClientLoop]: [probe_stuffing/nl_callbacks.c],
      [probe_stuffing.c] and the loops of [main.c].
    - [Hapd]: the state of the access point ([hostapd/src/ap/hostapd.h],
      [ap_config.h]). [Dfs]: the channel checks of [hostapd/src/ap/dfs.c].
    - [StaTrack], [ProbeResp], [ProbeReq]: [hostapd/src/ap/beacon.c] with the
      element writers of [ieee802_11.c], [ieee802_11_shared.c] and [wmm.c]: the
      list of stations seen, the probe response, the probe request handler.
    - [EndToEnd]: the client's frames received by the access point and the
      access point's responses read by the client.
    - [EapolAuth]: [hostapd/src/eapol_auth/eapol_auth_sm.c], the six state
      machines of the authenticator and the loop that runs them. [Ieee8021x]:
      [hostapd/src/ap/ieee802_1x.c], the frames, stations and notifications that
      drive them.
    - [Reltime], [Eloop]: [hostapd/src/utils/os.h] (times) and
      [hostapd/src/utils/eloop.c] in the build with [select]: sockets, timeouts,
      signals and the loop.
    - [Controller]: [src/controller_tcp/client.cpp] and [controller.cpp].
      [DataPath]: the record the access point makes of a frame and the statement for
      the database the controller makes of it. [DataGen]:
      [src/data_gen/*.cpp].
    - [WpaCommon], [WpaKeys]: [hostapd/src/common/wpa_common.c] and
      [hostapd/src/crypto/sha*-prf.c]: suites, RSN and WPA elements; the PRFs, the
      pairwise key, PMKID and MIC over the hash functions of the class [Crypto].
    - [Pmksa]: [hostapd/src/ap/pmksa_cache_auth.c]. [WpaIe]:
      [hostapd/src/ap/wpa_auth_ie.c], the access point's elements, the negotiation
      with a station, the KDEs of EAPOL-Key frames.
    - [WpaSm], [WpaAuth]: [hostapd/src/ap/wpa_auth.c] and [peerkey_auth.c]. [WpaSm]
      has what works on one station and its group - the states of the machines
      [WPA_PTK] and [WPA_PTK_GROUP], building and verifying EAPOL-Key frames -,
      [WpaAuth] the machine of a group, the loop of [wpa_sm_step] with the steps it
      nests, reception, timeouts and the functions the access point calls.
    - [WpaSteps]: the machines of a station as the relations [ptk_step] and
      [group_key_step], and that the operations of [WpaSm] are their steps.
      [WpaSafety]: the runs of the authenticator ([reaches]), their history and
      invariant. [WpaEnds]: the measure by which the steps end. [WpaOps]: that every
      operation ends. [WpaFrames]: the EAPOL-Key frames that are sent are the ones
      that are read. [WpaTriples]: what these share, triples of operations and
      their tactics.
    Names are those of the source. Where two functions of the source share a
    loop or a table, the model names it once.

    ** How the code is modelled

    A C object is the list of its octets; a pointer into it is the run of octets
    to the end of the object, and [None] is NULL. Every read or write is checked
    ([rd], [slice], [write]), so that a theorem that a function returns [Ok]
    states that it stays inside its objects. Integers are [Z] with the wrap of
    their type written out ([u8], [u16], [u32], [s32]). Allocation is decided by
    a parameter ([Malloc]). A [struct] is a record, updated with
    [r <| field := v |>]. The environment (kernel, network, other programs, the
    EAP server behind the authenticator) is a list of events to come or an
    interface with laws ([EapolEnv], [EapolEnvOk]); what the program does to it
    is a list of events or a log.

    Configuration: hostapd's [defconfig] with [CONFIG_LIBNL32] (no P2P, WPS,
    interworking, HS 2.0, 802.11n/ac, FST, MBO, WNM, taxonomy or testing
    options).

    ** What is proved

    - Memory safety and exact results of parsing: [Elems] (the parser classifies
      and collects, the eleventh stuffed element is written out of bounds),
      [Ie], [Channels], [ProbeReq.ssid_match_spec], [ProbeReq.reply_to_defined].
    - The client: frames are well formed and carry the data ([Client]). Whatever the
      kernel delivers, a scan comes to exactly what its messages determine
      ([ClientLoop.do_probe_stuffing_result]), and sending a message transmits the
      frames in order within its retries, or hangs at the first scan that never ends
      (one the kernel refused, for example), or is undefined at the first faulty
      acknowledgement ([ClientLoop.send_message_spec]).
    - The access point: what reception makes of the stuffed elements, the
      response fits its buffer and carries the acknowledgement once
      ([ProbeReq], [ProbeResp]), the list of stations stays bounded
      ([StaTrack]), DFS chooses from exactly the usable channels ([Dfs]).
    - Both together ([EndToEnd]): pieces of a message received in any state are
      recorded, a frame that is answered is acknowledged to the client, an
      acknowledgement left over reaches another station, and the length up to
      which the controller gets a frame whole.
    - The authenticator: over every sequence of frames, timers and
      notifications the port is opened only for an authenticated station
      ([Ieee8021x.port_opens_only_after_success], by induction on the steps), and
      EAP responses reach the EAP server exactly. How long a failed station is held
      is not claimed: the callbacks of the machine may disable its port before the
      quiet period is over.
    - The event loop runs its handlers consistently and in order ([Eloop]).
    - The controller: exactly what it makes of any text
      ([Controller.process_and_save_spec]) and of any activity of its sockets
      ([Controller.server_turn_spec]), and exactly when it stores something
      ([Controller.decode_stores]), which depends on what happens to lie behind its
      memory: in strict C it never does ([Controller.strict_stores_nothing]). The
      record of a frame is understood field by field ([DataPath.frame_stored]).
    - The WPA authenticator: no key is installed and no port opened without a
      received frame whose MIC is right under a key derived from a PMK of the access
      point for that station ([WpaSafety.port_needs_handshake], over every sequence of
      operations, each with the configuration of its time; within one operation a
      station without a PSK is taken to stay without);
      each turn refines the two machines ([WpaEnds.station_turn_refines]); the
      nested steps end ([WpaEnds.wpa_sm_step_ends]) and so does every operation
      ([WpaOps.operations_end]); frames are read back ([WpaFrames.sent_frame_read]); both sides derive the same key ([WpaKeys]);
      elements and key data are parsed inside their bounds and round-trip ([WpaIe],
      [WpaCommon]); the cache finds what a linear search finds and keeps its order
      and count under every session timeout, up to the one overflow it has ([Pmksa]).
    The theorems named as properties come last in each file, each followed by a
    concrete instance in which its hypotheses hold.

    ** Bounds and fuel

    Loops over a buffer recurse on fuel equal to its length, or on the length of
    what is left; every iteration consumes at least one octet, and the theorems
    that such a function returns [Ok] show that the fuel suffices. The loops of
    [ClientLoop] recurse on the retries the code counts down or on the batches
    of kernel messages still to come. [EapolAuth.step_run_from] has the bound of
    the code itself (100 rounds). Decimal printing recurses on the logarithm of
    the number ([CLib.udec_eq] is its equation).
    [WpaAuth.step_fuel] allows 200 turns of the loop of [wpa_sm_step]; a station
    and its group have at most 138 units of [WpaEnds.work] and [group_work], and
    each turn that is followed by another uses one. Steps nest at most as deep as
    there are stations, and in fact two deep. [WpaAuth.group_fuel] allows a group
    that no station is stepping ten turns, of which it takes at most four
    ([WpaOps.transitions_left]); renewing the keys takes a turn for each group. The loops of [Eloop] recurse on the turns to come.
    ** Not modelled

    Printing and logging; libnl, the kernel and the drivers; start-up and the
    configuration file parser; the control interface; beacons and
    authentication/association frames; EAP methods, RADIUS, TLS and the hash and
    cipher functions, which are parameters with their documented lengths
    ([WpaKeys.Crypto]); optional features that the build leaves out (P2P, WPS, FST,
    MACsec, HS 2.0, 802.11r). They are either input and output without state of
    the program's own, or upstream code that the data path does not reach. The shell that the
    access point hands its command to is not modelled either. What lies behind
    allocated memory, which some programs write to or read, is a parameter
    ([Controller.Layout]); so is what a variable that was never written holds. In the event loop the alarm that kills a program that
    does not react to SIGINT is left out, in the WPA authenticator the MIB and
    status texts. *)

From Stdlib Require Import ZArith Lia.
From stdpp Require Import base option list numbers decidable.

#[global] Set Default Goal Selector "!".

(** ** Outcomes of C code

    Every C function that can touch memory outside an object, dereference a
    null pointer or read indeterminate memory is modelled in the monad
    [outcome]: [Ok a] is a defined result, [Undef k] is C undefined behaviour
    of kind [k], and [Stuck] is a loop that used up the iterations the model
    gave it (every such loop has a theorem that [Stuck] is not its result). *)

Inductive ub : Set :=
| OutOfBounds      (** read or write outside an object *)
| NullDeref        (** dereference of a null pointer *)
| Indeterminate    (** use of memory that was never written *)
| Overflow         (** signed arithmetic outside the type's range *)
| Aborted          (** the program called abort() *).

Inductive outcome (A : Type) : Type :=
| Ok (a : A)
| Undef (k : ub)
| Stuck.
Arguments Ok {A} a.
Arguments Undef {A} k.
Arguments Stuck {A}.

#[export] Instance ub_eq_dec : EqDecision ub.
Proof. solve_decision. Defined.

#[export] Instance outcome_eq_dec {A} `{EqDecision A} : EqDecision (outcome A).
Proof. solve_decision. Defined.

#[export] Instance outcome_ret : MRet outcome := @Ok.

#[export] Instance outcome_bind : MBind outcome := λ A B f m,
  match m with
  | Ok a => f a
  | Undef k => Undef k
  | Stuck => Stuck
  end.

#[export] Instance outcome_fmap : FMap outcome := λ A B f m,
  match m with
  | Ok a => Ok (f a)
  | Undef k => Undef k
  | Stuck => Stuck
  end.

(** [guard_ub k b] continues when [b] holds and is undefined otherwise. *)
Definition guard_ub (k : ub) (b : bool) : outcome unit :=
  if b then Ok tt else Undef k.

Definition is_Ok {A} (m : outcome A) : Prop := ∃ a, m = Ok a.

Lemma bind_Ok {A B} (f : A → outcome B) (a : A) : (Ok a ≫= f) = f a.
Proof. reflexivity. Qed.

Lemma bind_Ok_inv {A B} (m : outcome A) (f : A → outcome B) b :
  (m ≫= f) = Ok b → ∃ a, m = Ok a ∧ f a = Ok b.
Proof. destruct m; cbn; intros; try discriminate; eauto. Qed.

Lemma bind_assoc {A B C} (m : outcome A) (f : A → outcome B) (g : B → outcome C) :
  ((m ≫= f) ≫= g) = (m ≫= λ a, f a ≫= g).
Proof. by destruct m. Qed.

Lemma guard_ub_true k : guard_ub k true = Ok tt.
Proof. reflexivity. Qed.

(** ** Machine integers *)

Definition u8 (z : Z) : Z := z `mod` 2 ^ 8.
Definition u16 (z : Z) : Z := z `mod` 2 ^ 16.
Definition u32 (z : Z) : Z := z `mod` 2 ^ 32.
Definition u64 (z : Z) : Z := z `mod` 2 ^ 64.

(** Conversion to a 32-bit two's complement [int]. *)
Definition s32 (z : Z) : Z := (z + 2 ^ 31) `mod` 2 ^ 32 - 2 ^ 31.

(** [flags & FLAG] *)
Definition has_flag (flags flag : Z) : bool := negb (Z.eqb (Z.land flags flag) 0).

Definition is_u8 (z : Z) : Prop := (0 ≤ z < 2 ^ 8)%Z.

(** A run of bytes of memory. *)
Abbreviation bytes := (list Z).

Definition bytes_ok (b : bytes) : Prop := Forall is_u8 b.

Definition zlen {A} (l : list A) : Z := Z.of_nat (length l).

Lemma u8_range z : is_u8 (u8 z).
Proof. unfold is_u8, u8. apply Z.mod_pos_bound. lia. Qed.

Lemma u8_small z : is_u8 z → u8 z = z.
Proof. unfold is_u8, u8. intros. apply Z.mod_small. lia. Qed.

Lemma zlen_nonneg {A} (l : list A) : (0 ≤ zlen l)%Z.
Proof. unfold zlen. lia. Qed.

Lemma zlen_app {A} (l1 l2 : list A) : zlen (l1 ++ l2) = (zlen l1 + zlen l2)%Z.
Proof. unfold zlen. rewrite length_app. lia. Qed.

Lemma zlen_cons {A} (x : A) l : zlen (x :: l) = (1 + zlen l)%Z.
Proof. unfold zlen. cbn [length]. lia. Qed.

Lemma zlen_snoc {A} (x : A) l : zlen (l ++ [x]) = (zlen l + 1)%Z.
Proof. rewrite zlen_app. reflexivity. Qed.

Lemma Forall2_map_same {A B C} (R : B → C → Prop) (f : A → B) (g : A → C) l :
  Forall (λ x, R (f x) (g x)) l → Forall2 R (map f l) (map g l).
Proof. induction 1; constructor; done. Qed.

Create HintDb cmodel.
Create Rewrite HintDb cmodel_rw.
#[export] Hint Rewrite @zlen_snoc @zlen_app @zlen_cons @bind_Ok : cmodel_rw.
#[export] Hint Resolve u8_range zlen_nonneg : cmodel.

(** ** Memory accesses *)

(** [rd b i] is the C access [b[i]] of an object holding the bytes [b]. *)
Definition rd (b : bytes) (i : nat) : outcome Z :=
  match b !! i with
  | Some x => Ok x
  | None => Undef OutOfBounds
  end.

(** [slice b off n] reads the [n] bytes starting at [b + off] (the source of a
    memcpy or memcmp): all of them must lie inside the object. *)
Definition slice (b : bytes) (off n : nat) : outcome bytes :=
  if decide (off + n ≤ length b) then Ok (take n (drop off b))
  else Undef OutOfBounds.

Lemma rd_lt b i : i < length b → ∃ x, rd b i = Ok x ∧ b !! i = Some x.
Proof.
  intros Hi. unfold rd.
  destruct (lookup_lt_is_Some_2 b i Hi) as [x Hx]. rewrite Hx. eauto.
Qed.

Lemma rd_app_r b1 b2 i : rd (b1 ++ b2) (length b1 + i) = rd b2 i.
Proof. unfold rd. rewrite lookup_app_r by lia. by rewrite Nat.add_comm, Nat.add_sub. Qed.

Lemma slice_ok b off n : off + n ≤ length b → slice b off n = Ok (take n (drop off b)).
Proof. intros H. unfold slice. by rewrite decide_True. Qed.

Lemma slice_length b off n s : slice b off n = Ok s → length s = n.
Proof.
  unfold slice. case_decide; intros; simplify_eq.
  rewrite length_take, length_drop. lia.
Qed.

Lemma slice_mid b1 b2 b3 : slice (b1 ++ b2 ++ b3) (length b1) (length b2) = Ok b2.
Proof.
  rewrite slice_ok; [|rewrite !length_app; lia].
  by rewrite drop_app_length, take_app_length.
Qed.

(** [write b off d] stores the bytes [d] at [b + off]. *)
Definition write (b : bytes) (off : nat) (d : bytes) : outcome bytes :=
  if decide (off + length d ≤ length b)
  then Ok (take off b ++ d ++ drop (off + length d) b)
  else Undef OutOfBounds.

Lemma write_length b off d b' : write b off d = Ok b' → length b' = length b.
Proof.
  unfold write. case_decide; intros; simplify_eq.
  rewrite !length_app, length_take, length_drop. lia.
Qed.

(** ** Allocation

    The C library decides whether an allocation succeeds. The model takes that
    decision as a parameter, a function of the requested size. *)
Class Malloc : Type := malloc_ok : Z → bool.

(** The allocator of the concrete examples: every allocation succeeds. *)
Definition malloc_always : Malloc := λ _, true.

(** Facts about concrete octets and lengths. *)
Ltac concrete :=
  repeat (cbn; first [exact I | done | split | constructor]); vm_compute; intuition congruence.

(** ** Record update

    [r <| f := v |>] is the C assignment [r.f = v]. A record type [R] whose
    constructor is [mk] declares [Eta R] once (the record rebuilt from its own
    projections); the setter of a field is then found by abstracting that
    projection from the rebuilt record. *)

Class Eta (R : Type) := eta : R → R.
Class Setter {R T : Type} (f : R → T) := setter : T → R → R.
Arguments setter {R T} f {_} v r /.

Ltac solve_setter f :=
  lazymatch type of f with
  | ?R → _ =>
    let e := eval unfold eta in (eta : R → R) in
    let b := (let inst := constr:(_ : Eta R) in eval cbv [eta] in inst) in
    let b' := eval hnf in b in
    let g := constr:(λ r : R, ltac:(
      let body := eval cbv beta in (b' r) in
      let p := eval pattern (f r) in body in
      lazymatch p with ?k _ => exact k end)) in
    let g' := eval cbv beta in (λ v r, g r v) in
    exact g'
  end.

#[export] Hint Extern 1 (Setter ?f) => solve_setter f : typeclass_instances.

Declare Scope record_scope.
Delimit Scope record_scope with record.
#[global] Open Scope record_scope.
Notation "r <| f := v |>" := (setter f v r)
  (at level 1, left associativity, f constr at level 9, format "r  <| f  :=  v |>") : record_scope.
