(* ===== verification/CLib.v ===== *)
(** * The C library routines the modelled code calls

    Strings are represented by their contents (the bytes before the
    terminating NUL) when the code owns a well-formed string, and by the bytes
    of the object holding them when the code reads through a pointer whose
    terminator may be missing. *)

From Stdlib Require Import ZArith Lia Strings.String.
From stdpp Require Import base option list numbers decidable.
From S2P Require Import Prelude.

(** The octets of a string literal. *)
Definition lit (s : string) : bytes :=
  map (λ c, Z.of_nat (Ascii.nat_of_ascii c)) (list_ascii_of_string s).
Arguments lit s%_string.

(** ** Reading strings *)

(** [strlen_cont b]: the contents of the C string starting at the first byte
    of the object [b]; reading past the object is undefined. *)
Fixpoint cstr (b : bytes) : outcome bytes :=
  match b with
  | [] => Undef OutOfBounds
  | c :: r => if decide (c = 0%Z) then Ok [] else s ← cstr r; Ok (c :: s)
  end.

(** The bytes [strncpy(dst, src, n)] copies from the object [b] at [off]. *)
Fixpoint strncpy_from (b : bytes) (n : nat) {struct n} : outcome bytes :=
  match n with
  | O => Ok []
  | S n' =>
    match b with
    | [] => Undef OutOfBounds
    | c :: r => if decide (c = 0%Z) then Ok [] else s ← strncpy_from r n'; Ok (c :: s)
    end
  end.

(** The octets before the first NUL. *)
Fixpoint upto_nul (b : bytes) : bytes :=
  match b with
  | [] => []
  | c :: r => if decide (c = 0%Z) then [] else c :: upto_nul r
  end.

Lemma cstr_upto b r : cstr (b ++ 0%Z :: r) = Ok (upto_nul b).
Proof.
  induction b as [|c b IH]; cbn; [done|]. case_decide; [done|]. by rewrite IH.
Qed.

Lemma strncpy_from_upto b r n : strncpy_from (b ++ 0%Z :: r) n = Ok (take n (upto_nul b)).
Proof.
  revert n. induction b as [|c b IH]; intros [|n]; cbn; try done.
  case_decide; [done|]. by rewrite IH.
Qed.

Lemma upto_nul_length b : length (upto_nul b) ≤ length b.
Proof. induction b as [|c b IH]; cbn; [lia|]. case_decide; cbn; lia. Qed.

(** A string without embedded NUL. *)
Definition no_nul (s : bytes) : Prop := Forall (λ c, c ≠ 0%Z) s.

Lemma cstr_app s r : no_nul s → cstr (s ++ 0%Z :: r) = Ok s.
Proof.
  induction 1 as [|c s Hc Hs IH]; cbn; [done|].
  rewrite decide_False by done. by rewrite IH.
Qed.

Lemma cstr_no_nul b s : cstr b = Ok s → no_nul s.
Proof.
  revert s. induction b as [|c b IH]; intros s; cbn; [done|].
  case_decide; intros; simplify_eq; [constructor|].
  destruct (cstr b) as [t| |]; cbn in *; simplify_eq. constructor; [done|]. by apply IH.
Qed.

Lemma upto_nul_id s : no_nul s → upto_nul s = s.
Proof. induction 1 as [|c s Hc Hs IH]; cbn; [done|]. rewrite decide_False by done. by rewrite IH. Qed.

Lemma upto_nul_no_nul b : no_nul (upto_nul b).
Proof. induction b as [|c b IH]; cbn; [constructor|]. case_decide; by constructor. Qed.

Lemma strncpy_from_app s r n :
  no_nul s → length s ≤ n → strncpy_from (s ++ 0%Z :: r) n = Ok s.
Proof.
  intros Hs. revert n. induction Hs as [|c s Hc Hs IH]; intros n Hn; cbn in *.
  - by destruct n.
  - destruct n as [|n]; [lia|]. cbn. rewrite decide_False by done.
    by rewrite IH by lia.
Qed.

(** Copying at most [n] bytes of a longer string takes its first [n] bytes. *)
Lemma strncpy_from_prefix s r n :
  no_nul s → n ≤ length s → strncpy_from (s ++ r) n = Ok (take n s).
Proof.
  intros Hs. revert n. induction Hs as [|c s Hc Hs IH]; intros n Hn; cbn in *.
  - destruct n; [done|lia].
  - destruct n as [|n]; [done|]. cbn. rewrite decide_False by done.
    by rewrite IH by lia.
Qed.

Lemma strncpy_from_length b n s : strncpy_from b n = Ok s → length s ≤ n.
Proof.
  revert b s. induction n as [|n IH]; intros b s; cbn; [by intros; simplify_eq|].
  destruct b as [|c b]; [done|]. case_decide; [intros; simplify_eq; cbn; lia|].
  destruct (strncpy_from b n) eqn:E; cbn; intros; simplify_eq. cbn.
  apply IH in E. lia.
Qed.

Lemma no_nul_app s t : no_nul (s ++ t) ↔ no_nul s ∧ no_nul t.
Proof. apply Forall_app. Qed.

Lemma no_nul_take n s : no_nul s → no_nul (take n s).
Proof. apply Forall_take. Qed.

Lemma no_nul_drop n s : no_nul s → no_nul (drop n s).
Proof. apply Forall_drop. Qed.

#[export] Hint Resolve no_nul_take no_nul_drop : cmodel.

(** ** Comparing strings *)

(** [tolower] of the C locale. *)
Definition tolower (c : Z) : Z := if decide (65 ≤ c ≤ 90)%Z then (c + 32)%Z else c.

(** [strcasecmp(a, b) == 0] *)
Definition strcase_eq (a b : bytes) : bool := bool_decide (map tolower a = map tolower b).

(** [strcmp(a, b) == 0] *)
Definition str_eq (a b : bytes) : bool := bool_decide (a = b).

(** ** Writing strings *)

(** [sprintf], [strcpy] and [strcat] into an object of [sz] bytes: the
    contents and the terminator must fit. *)
Definition put_str (sz : nat) (s : bytes) : outcome bytes :=
  if decide (length s < sz) then Ok s else Undef OutOfBounds.

(** [snprintf(buf, sz, ...)] stores at most [sz - 1] bytes. *)
Definition snprintf_cont (sz : nat) (s : bytes) : bytes := take (sz - 1) s.

Lemma put_str_ok sz s : length s < sz → put_str sz s = Ok s.
Proof. intros. unfold put_str. by rewrite decide_True. Qed.

(** ** Decimal output *)

Fixpoint udec_fuel (f : nat) (n : Z) : bytes :=
  match f with
  | O => [(48 + n)%Z]
  | S f' =>
    if decide (n < 10)%Z then [(48 + n)%Z]
    else udec_fuel f' (n / 10) ++ [(48 + n `mod` 10)%Z]
  end.

(** [%u] of a non-negative number; one digit needs at least one bit. *)
Definition udec (n : Z) : bytes := udec_fuel (Z.to_nat (Z.log2 n)) n.

(** [%d] *)
Definition sdec (n : Z) : bytes :=
  if decide (n < 0)%Z then 45%Z :: udec (- n) else udec n.

Definition zeros (n : nat) : bytes := replicate n 48%Z.

(** [%0wu] *)
Definition udec0 (w : nat) (n : Z) : bytes :=
  zeros (w - length (udec n)) ++ udec n.

(** [%0wd] *)
Definition sdec0 (w : nat) (n : Z) : bytes :=
  if decide (n < 0)%Z then 45%Z :: udec0 (w - 1) (- n) else udec0 w n.

(** A lower-case hexadecimal digit, as [%02x] prints it. *)
Definition hexdig (n : Z) : Z := if decide (n < 10)%Z then (48 + n)%Z else (87 + n)%Z.

Definition hex02 (n : Z) : bytes := [hexdig (n / 16); hexdig (n `mod` 16)].

Lemma udec_fuel_unfold f n :
  (0 ≤ n < 2 ^ (Z.of_nat f + 1))%Z →
  udec_fuel f n = if decide (n < 10)%Z then [(48 + n)%Z]
                  else udec_fuel (pred f) (n / 10) ++ [(48 + n `mod` 10)%Z].
Proof.
  intros Hn. destruct f as [|f]; cbn [udec_fuel pred].
  - case_decide; [done|]. change (2 ^ (Z.of_nat 0 + 1))%Z with 2%Z in Hn. lia.
  - done.
Qed.

Lemma udec_fuel_enough f g n :
  (0 ≤ n < 2 ^ (Z.of_nat f + 1))%Z → (0 ≤ n < 2 ^ (Z.of_nat g + 1))%Z →
  udec_fuel f n = udec_fuel g n.
Proof.
  revert g n. induction f as [|f IH]; intros g n Hf Hg.
  - rewrite (udec_fuel_unfold g) by done. cbn [udec_fuel].
    change (2 ^ (Z.of_nat 0 + 1))%Z with 2%Z in Hf.
    by rewrite decide_True by lia.
  - rewrite (udec_fuel_unfold g) by done. cbn [udec_fuel].
    case_decide as H10; [done|].
    destruct g as [|g]; cbn [pred].
    + change (2 ^ (Z.of_nat 0 + 1))%Z with 2%Z in Hg. lia.
    + f_equal. apply IH; (split; [apply Z.div_pos; lia|]).
      * apply Z.div_lt_upper_bound; [lia|]. replace (Z.of_nat (S f) + 1)%Z with (1 + (Z.of_nat f + 1))%Z in Hf by lia.
        rewrite Z.pow_add_r in Hf by lia. change (2 ^ 1)%Z with 2%Z in Hf. lia.
      * apply Z.div_lt_upper_bound; [lia|]. replace (Z.of_nat (S g) + 1)%Z with (1 + (Z.of_nat g + 1))%Z in Hg by lia.
        rewrite Z.pow_add_r in Hg by lia. change (2 ^ 1)%Z with 2%Z in Hg. lia.
Qed.

Lemma log2_fuel n : (0 ≤ n)%Z → (0 ≤ n < 2 ^ (Z.of_nat (Z.to_nat (Z.log2 n)) + 1))%Z.
Proof.
  intros Hn. split; [done|]. rewrite Z2Nat.id by apply Z.log2_nonneg.
  destruct (decide (n = 0)%Z) as [->|]; [done|].
  apply Z.log2_spec. lia.
Qed.

(** The recursion equation of decimal printing. *)
Lemma udec_eq n :
  (0 ≤ n)%Z →
  udec n = if decide (n < 10)%Z then [(48 + n)%Z]
           else udec (n / 10) ++ [(48 + n `mod` 10)%Z].
Proof.
  intros Hn. unfold udec at 1. rewrite udec_fuel_unfold by (by apply log2_fuel).
  case_decide as H10; [done|]. f_equal.
  assert (0 ≤ n / 10)%Z by (apply Z.div_pos; lia).
  apply udec_fuel_enough; [|by apply log2_fuel].
  split; [done|]. pose proof (log2_fuel n Hn) as [_ Hb].
  destruct (Z.to_nat (Z.log2 n)) as [|f] eqn:E; cbn [pred].
  { change (2 ^ (Z.of_nat 0 + 1))%Z with 2%Z in Hb. lia. }
  apply Z.div_lt_upper_bound; [lia|].
  replace (Z.of_nat (S f) + 1)%Z with (1 + (Z.of_nat f + 1))%Z in Hb by lia.
  rewrite Z.pow_add_r in Hb by lia. change (2 ^ 1)%Z with 2%Z in Hb. lia.
Qed.

(** ** Digits *)

Definition is_digit (c : Z) : bool := bool_decide (48 ≤ c ≤ 57)%Z.

Lemma udec_ind (P : Z → Prop) :
  (∀ n, (0 ≤ n < 10)%Z → P n) →
  (∀ n, (10 ≤ n)%Z → P (n / 10)%Z → P n) →
  ∀ n, (0 ≤ n)%Z → P n.
Proof.
  intros Hb Hs n Hn. revert Hn.
  induction (Z.lt_wf 0 n) as [n _ IH]. intros Hn.
  destruct (decide (n < 10)%Z); [by apply Hb|].
  apply Hs; [lia|]. apply IH; [|apply Z.div_pos; lia].
  split; [apply Z.div_pos; lia|]. apply Z.div_lt; lia.
Qed.

Lemma udec_digits n : (0 ≤ n)%Z → Forall (λ c, is_digit c = true) (udec n).
Proof.
  revert n. apply udec_ind; intros n Hn.
  - rewrite udec_eq by lia. rewrite decide_True by lia. repeat constructor.
    apply bool_decide_eq_true. lia.
  - intros IH. rewrite udec_eq by lia. rewrite decide_False by lia.
    apply Forall_app. split; [done|]. repeat constructor.
    apply bool_decide_eq_true. pose proof (Z.mod_pos_bound n 10). lia.
Qed.

Lemma digit_nonzero c : is_digit c = true → c ≠ 0%Z.
Proof. unfold is_digit. rewrite bool_decide_eq_true. lia. Qed.

Lemma digits_no_nul s : Forall (λ c, is_digit c = true) s → no_nul s.
Proof. intros H. induction H; constructor; [by apply digit_nonzero|done]. Qed.

Lemma zeros_digits n : Forall (λ c, is_digit c = true) (zeros n).
Proof. apply Forall_replicate. reflexivity. Qed.

Lemma udec0_digits w n : (0 ≤ n)%Z → Forall (λ c, is_digit c = true) (udec0 w n).
Proof. intros. apply Forall_app. split; [apply zeros_digits|by apply udec_digits]. Qed.

Lemma udec_length_pos n : (0 ≤ n)%Z → 0 < length (udec n).
Proof.
  intros Hn. rewrite udec_eq by done. case_decide; [cbn; lia|].
  rewrite length_app. cbn. lia.
Qed.

(** A number below [10 ^ w] prints in at most [w] digits. *)
Lemma udec_length_le w n : (0 ≤ n < 10 ^ Z.of_nat w)%Z → 0 < w → length (udec n) ≤ w.
Proof.
  revert n. induction w as [|w IH]; intros n Hn Hw; [lia|].
  rewrite udec_eq by lia. case_decide as H10; [cbn; lia|].
  rewrite length_app. cbn [length].
  destruct w as [|w].
  { change (10 ^ Z.of_nat 1)%Z with 10%Z in Hn. lia. }
  assert (length (udec (n / 10)) ≤ S w); [|lia].
  apply IH; [|lia]. split; [apply Z.div_pos; lia|].
  apply Z.div_lt_upper_bound; [lia|].
  replace (Z.of_nat (S (S w))) with (1 + Z.of_nat (S w))%Z in Hn by lia.
  rewrite Z.pow_add_r in Hn by lia. lia.
Qed.

Lemma udec0_length w n :
  (0 ≤ n < 10 ^ Z.of_nat w)%Z → 0 < w → length (udec0 w n) = w.
Proof.
  intros Hn Hw. unfold udec0, zeros. rewrite length_app, length_replicate.
  pose proof (udec_length_le w n Hn Hw). lia.
Qed.

(** ** [atoi] *)

Definition is_space (c : Z) : bool := bool_decide (c = 32 ∨ 9 ≤ c ≤ 13)%Z.

Fixpoint skip_spaces (s : bytes) : bytes :=
  match s with
  | c :: r => if is_space c then skip_spaces r else s
  | [] => []
  end.

(** The value of the leading digits of [s], continuing from [acc]. *)
Fixpoint digits_value (acc : Z) (s : bytes) : Z :=
  match s with
  | c :: r => if is_digit c then digits_value (10 * acc + (c - 48)) r else acc
  | [] => acc
  end.

(** The integer denoted by the longest valid prefix of the string. *)
Definition strtol10 (s : bytes) : Z :=
  match skip_spaces s with
  | c :: r =>
    if decide (c = 45%Z) then (- digits_value 0 r)%Z
    else if decide (c = 43%Z) then digits_value 0 r
    else digits_value 0 (c :: r)
  | [] => 0%Z
  end.

(** [atoi]: the behaviour is undefined when the value is not an [int]. *)
Definition atoi (s : bytes) : outcome Z :=
  let v := strtol10 s in
  if decide (- 2 ^ 31 ≤ v < 2 ^ 31)%Z then Ok v else Undef Overflow.

Lemma digits_value_app acc s t :
  Forall (λ c, is_digit c = true) s →
  digits_value acc (s ++ t) = digits_value (digits_value acc s) t.
Proof.
  intros Hs. revert acc. induction Hs as [|c s Hc Hs IH]; intros acc; [done|].
  cbn. rewrite Hc. apply IH.
Qed.

Lemma digits_value_zeros n s : digits_value 0 (zeros n ++ s) = digits_value 0 s.
Proof. induction n; [done|]. cbn. done. Qed.

Lemma digits_value_udec n : (0 ≤ n)%Z → digits_value 0 (udec n) = n.
Proof.
  revert n. apply udec_ind; intros n Hn.
  - rewrite udec_eq by lia. rewrite decide_True by lia. cbn.
    assert (is_digit (48 + n) = true) as -> by (apply bool_decide_eq_true; lia). lia.
  - intros IH. rewrite udec_eq by lia. rewrite decide_False by lia.
    rewrite digits_value_app by (apply udec_digits, Z.div_pos; lia).
    rewrite IH. pose proof (Z.mod_pos_bound n 10 ltac:(lia)).
    cbn -[Z.mul Z.add Z.modulo Z.div].
    assert (is_digit (48 + n `mod` 10) = true) as -> by (apply bool_decide_eq_true; lia).
    pose proof (Z.div_mod n 10 ltac:(lia)). lia.
Qed.

(** A string of digits is read as its value. *)
Lemma strtol10_digits s :
  Forall (λ c, is_digit c = true) s → strtol10 s = digits_value 0 s.
Proof.
  destruct s as [|c r]; [done|]. intros H. pose proof H as H'.
  apply Forall_cons_1 in H as [Hc _]. unfold strtol10. cbn [skip_spaces].
  unfold is_digit in Hc. rewrite bool_decide_eq_true in Hc.
  assert (is_space c = false) as -> by (apply bool_decide_eq_false; lia).
  by rewrite !decide_False by lia.
Qed.

Lemma atoi_udec0 w n : (0 ≤ n < 2 ^ 31)%Z → atoi (udec0 w n) = Ok n.
Proof.
  intros Hn. unfold atoi. rewrite strtol10_digits by (apply udec0_digits; lia).
  unfold udec0. rewrite digits_value_zeros, digits_value_udec by lia.
  rewrite decide_True by lia. done.
Qed.

Lemma atoi_udec n : (0 ≤ n < 2 ^ 31)%Z → atoi (udec n) = Ok n.
Proof.
  intros Hn. unfold atoi. rewrite strtol10_digits by (apply udec_digits; lia).
  rewrite digits_value_udec by lia. rewrite decide_True by lia. done.
Qed.

(** At most [n] digits have a value below [10 ^ n]. *)
Lemma digits_value_bound acc s m :
  (0 ≤ acc)%Z → length s ≤ m →
  (0 ≤ digits_value acc s < (acc + 1) * 10 ^ Z.of_nat m)%Z.
Proof.
  revert acc m. induction s as [|c s IH]; intros acc m Ha Hm; cbn [digits_value].
  - pose proof (Z.pow_pos_nonneg 10 (Z.of_nat m)). nia.
  - destruct m as [|m]; cbn [length] in Hm; [lia|].
    replace (Z.of_nat (S m)) with (1 + Z.of_nat m)%Z by lia.
    rewrite Z.pow_add_r by lia. pose proof (Z.pow_pos_nonneg 10 (Z.of_nat m)).
    destruct (is_digit c) eqn:Hc; [|nia].
    unfold is_digit in Hc. rewrite bool_decide_eq_true in Hc.
    specialize (IH (10 * acc + (c - 48))%Z m ltac:(lia) ltac:(lia)). nia.
Qed.

Lemma skip_spaces_length s : length (skip_spaces s) ≤ length s.
Proof. induction s as [|c s IH]; cbn; [lia|]. destruct (is_space c); cbn; lia. Qed.

(** [atoi] of a string of at most [m] characters: one of them is the sign of a
    negative number. *)
Lemma strtol10_bound s m :
  length s ≤ S m → (- 10 ^ Z.of_nat m < strtol10 s < 10 ^ Z.of_nat (S m))%Z.
Proof.
  intros Hs. unfold strtol10. pose proof (skip_spaces_length s).
  assert (0 < 10 ^ Z.of_nat m)%Z by (apply Z.pow_pos_nonneg; lia).
  assert (10 ^ Z.of_nat (S m) = 10 * 10 ^ Z.of_nat m)%Z as Hp.
  { replace (Z.of_nat (S m)) with (1 + Z.of_nat m)%Z by lia. by rewrite Z.pow_add_r by lia. }
  destruct (skip_spaces s) as [|c r]; [lia|]. cbn [length] in *.
  pose proof (digits_value_bound 0 r m ltac:(lia) ltac:(lia)).
  pose proof (digits_value_bound 0 (c :: r) (S m) ltac:(lia) ltac:(cbn; lia)).
  repeat case_decide; lia.
Qed.
