(* ===== verification/Controller.v ===== *)
(** * The controller and its client program

    [controller_tcp/client.cpp] (under [src/]), which the access point runs for
    every frame with stuffed data, and [controller_tcp/controller.cpp], which
    collects the records in a database.

    Both programs allocate strings without room for the terminator, and the
    controller writes one pointer too many into its array of fields. Whether
    this does harm depends on what the compiler and the allocator put behind the
    objects, which is a parameter ([Layout]). *)

From Stdlib Require Import ZArith Lia Strings.String.
From stdpp Require Import base option list numbers decidable.
From S2P Require Import Prelude CLib.
Local Open Scope Z_scope.

(** What is behind a block of [n] octets from [calloc] in its allocation unit,
    and how many unused entries are behind the array [split_str] *)
Class Layout := {
  excess : Z → bytes;
  spare : nat }.

(** Strict C: nothing but the objects may be touched. *)
Definition strict : Layout := {| excess _ := []; spare := 0 |}.

Definition SOH : Z := 1.
Definition EOT : Z := 4.
Definition US : Z := 31.
Definition STR : bytes := lit "STR".
Definition FIL : bytes := lit "FIL".
Definition BUFFER_SZ : Z := 1200.
Definition MAX_STR_SZ : Z := 1000.

(** A program goes on or exits with a status. *)
Inductive run (A : Type) : Type :=
| Ret (a : A)
| Exit (status : Z).
Arguments Ret {A} a.
Arguments Exit {A} status.

Section programs.
Context `{Malloc} `{Layout}.

(** ** C library *)

(** [calloc(n, 1)] for an [n] that was an [int] *)
Definition calloc (n : Z) : option bytes :=
  if decide (n < 0) then None
  else if malloc_ok n then Some (replicate (Z.to_nat n) 0 ++ excess n) else None.

(** A string into an allocated object *)
Definition strcpy (dst : option bytes) (s : bytes) : outcome bytes :=
  match dst with
  | None => Undef NullDeref
  | Some b => write b 0 (s ++ [0])
  end.

Definition strncpy (dst : option bytes) (src : bytes) (n : nat) : outcome bytes :=
  match dst with
  | None => Undef NullDeref
  | Some b => s ← strncpy_from src n; write b 0 (s ++ replicate (n - length s) 0)
  end.

(** [index]: the first [c] of the string at the start of the object *)
Fixpoint index (b : bytes) (c : Z) : outcome (option nat) :=
  match b with
  | [] => Undef OutOfBounds
  | x :: b =>
    if decide (x = c) then Ok (Some 0%nat)
    else if decide (x = 0) then Ok None
    else r ← index b c; Ok (option_map S r)
  end.

(** [strcmp(a, s) == 0] for a literal [s] *)
Fixpoint strcmp_lit (a s : bytes) : outcome bool :=
  match a with
  | [] => Undef OutOfBounds
  | x :: a =>
    match s with
    | [] => Ok (bool_decide (x = 0))
    | y :: s => if decide (x = y) then strcmp_lit a s else Ok false
    end
  end.

(** [strtok] with the delimiter [","]: the next token and what is left *)
Fixpoint skip_commas (s : bytes) : bytes :=
  match s with
  | c :: r => if decide (c = 44) then skip_commas r else s
  | [] => []
  end.

Fixpoint upto_comma (s : bytes) : bytes * bytes :=
  match s with
  | c :: r => if decide (c = 44) then ([], r) else let t := upto_comma r in (c :: t.1, t.2)
  | [] => ([], [])
  end.

Definition strtok (s : bytes) : option (bytes * bytes) :=
  match skip_commas s with
  | [] => None
  | s => Some (upto_comma s)
  end.

(** ** [client.cpp] *)

(** The options as [getopt_long] returns them *)
Inductive client_opt :=
| opt_tcp | opt_udp
| opt_host (arg : bytes) | opt_port (arg : bytes) | opt_str (arg : bytes) | opt_file (arg : bytes)
| opt_unknown.

Record client_args := mk_client_args {
  FLAG_CONNTYPE : Z;
  ARG_PORT : Z;
  ARG_HOST_ADDR : option bytes;
  ARG_INPUT_STRING : option bytes;
  ARG_INPUT_FILE : option bytes }.

#[local] Instance client_args_eta : Eta client_args := λ a, mk_client_args
  (FLAG_CONNTYPE a) (ARG_PORT a) (ARG_HOST_ADDR a) (ARG_INPUT_STRING a) (ARG_INPUT_FILE a).

Definition CONNTYPE_TCP : Z := 1.
Definition CONNTYPE_UDP : Z := 2.

Definition default_args : client_args := mk_client_args CONNTYPE_TCP (-1) None None None.

(** The objects that hold the arguments *)
Definition copy_arg (arg : bytes) : outcome bytes := strcpy (calloc (zlen arg)) arg.

Definition client_option (o : client_opt) (a : client_args) : outcome (run client_args) :=
  match o with
  | opt_tcp => Ok (Ret (a <| FLAG_CONNTYPE := CONNTYPE_TCP |>))
  | opt_udp => Ok (Ret (a <| FLAG_CONNTYPE := CONNTYPE_UDP |>))
  | opt_port arg => p ← atoi arg; Ok (Ret (a <| ARG_PORT := p |>))
  | opt_host arg => s ← copy_arg arg; Ok (Ret (a <| ARG_HOST_ADDR := Some s |>))
  | opt_str arg =>
    if decide (MAX_STR_SZ < zlen arg) then Ok (Exit 1)
    else s ← copy_arg arg; Ok (Ret (a <| ARG_INPUT_STRING := Some s |>))
  | opt_file arg => s ← copy_arg arg; Ok (Ret (a <| ARG_INPUT_FILE := Some s |>))
  | opt_unknown => Ok (Exit 1)
  end.

Fixpoint client_options (os : list client_opt) (a : client_args) : outcome (run client_args) :=
  match os with
  | [] => Ok (Ret a)
  | o :: os =>
    r ← client_option o a;
    match r with
    | Ret a => client_options os a
    | Exit n => Ok (Exit n)
    end
  end.

(** The network as the client sees it: whether a socket is created, the host is
    found, the results of [connect] in turn, and the result of [write] *)
Record client_env := mk_client_env {
  socket_ok : bool;
  host_found : bool;
  connects : list bool;
  wrote : Z }.

(** The loop around [connect] *)
Fixpoint connect_loop (l : list bool) : outcome unit :=
  match l with
  | [] => Stuck
  | true :: _ => Ok tt
  | false :: l => connect_loop l
  end.

Definition connect_client (env : client_env) : outcome (run unit) :=
  if negb (socket_ok env) then Ok (Exit 1)
  else if negb (host_found env) then Ok (Exit 1)
  else _ ← connect_loop (connects env); Ok (Ret tt).

(** The result is what is written to the socket. *)
Definition transmit (env : client_env) (a : client_args) : outcome (run (list bytes)) :=
  match ARG_INPUT_STRING a with
  | None => Ok (Ret [])
  | Some arg =>
    match calloc BUFFER_SZ with
    | None => Ok (Exit 1)
    | Some buffer =>
      s ← cstr arg;
      let text := [SOH] ++ STR ++ [US] ++ s ++ [EOT] in
      let bn := length text in
      buffer ← write buffer 0 (snprintf_cont (Z.to_nat BUFFER_SZ - 1) text ++ [0]);
      first ← rd buffer 0;
      last ← rd buffer (bn - 1);
      if decide (first = SOH ∧ last = EOT) then
        command ← slice buffer 0 bn;
        Ok (if decide (wrote env < 0) then Exit 1 else Ret [command])
      else Ok (Exit 1)
    end
  end.

(** [!ARG_HOST_ADDR || strcmp(ARG_HOST_ADDR, "") == 0] *)
Definition no_host (a : client_args) : outcome bool :=
  match ARG_HOST_ADDR a with
  | None => Ok true
  | Some h => strcmp_lit h []
  end.

Definition client_main (env : client_env) (os : list client_opt) : outcome (run (list bytes)) :=
  r ← client_options os default_args;
  match r with
  | Exit n => Ok (Exit n)
  | Ret a =>
    if decide (ARG_PORT a = -1) then Ok (Exit 1)
    else
      no_host_ ← no_host a;
      if (no_host_ : bool) then Ok (Exit 1)
      else
        match ARG_INPUT_STRING a, ARG_INPUT_FILE a with
        | None, None => Ok (Exit 1)
        | _, _ =>
          r ← connect_client env;
          match r with
          | Exit n => Ok (Exit n)
          | Ret _ => transmit env a
          end
        end
  end.

(** ** [controller.cpp]: a record *)

(** An entry of [char *split_str[8]] *)
Inductive slot :=
| Unset
| Null
| Text (s : bytes).

Definition store (a : list slot) (i : nat) (x : slot) : outcome (list slot) :=
  if decide (i < length a)%nat then Ok (<[i := x]> a) else Undef OutOfBounds.

Definition new_split_str : list slot := replicate (8 + spare) Unset.

(** The loop over the tokens; every token consumes at least one octet. *)
Fixpoint split_loop (fuel i : nat) (a : list slot) (s : bytes) : outcome (list slot) :=
  match fuel with
  | O => Stuck
  | S fuel =>
    match strtok s with
    | None => store a i Null
    | Some (token, rest) => a ← store a i (Text token); split_loop fuel (S i) a rest
    end
  end.

(** Reading the string of an entry *)
Definition get_str (a : list slot) (i : nat) : outcome bytes :=
  match a !! i with
  | Some (Text s) => Ok s
  | Some Null => Undef NullDeref
  | _ => Undef Indeterminate
  end.

Definition DB_TABLE_NAME : bytes := lit "aplog".

Definition insert_text (mac cli_ts ap_ts : bytes) (con_ts : Z) (seq ie_index mf len data : bytes) : bytes :=
  lit "INSERT INTO " ++ DB_TABLE_NAME ++
  lit " (client_mac_addr, data_cli_utc_timestamp, data_ap_utc_timestamp, data_con_utc_timestamp, frame_seq_number, ie_index, more_frag_bit, data_length, data) VALUES('" ++
  mac ++ lit "', " ++ cli_ts ++ lit ", " ++ ap_ts ++ lit ", " ++ udec0 18 con_ts ++ lit ", " ++
  seq ++ lit ", " ++ ie_index ++ lit ", " ++ mf ++ lit ", " ++ len ++ lit ", '" ++ data ++ lit "');".

(** The other end of a connection: its printed host, if the kernel still knows it, and
    what the variable [client_len] of [process_and_save], which is never written, happens
    to hold; [None] is strict C, where reading it is undefined. *)
Record peer_env := mk_peer_env {
  host : option bytes;
  stale_len : option Z }.

Definition get_len (client_len : option Z) : outcome Z :=
  match client_len with
  | Some n => Ok n
  | None => Undef Indeterminate
  end.

(** Whether the kernel takes the length for one, that of an address, and how many
    octets of it must be written for the host in it to be complete *)
Definition len_valid (n : Z) : bool := bool_decide (0 ≤ n < 2 ^ 31).
Definition sockaddr_in_len : Z := 16.
Definition sin_addr_end : Z := 8.

(** [getpeername] into an object that was never written, and the host printed from it *)
Definition peer_host (peer : peer_env) : outcome bytes :=
  n ← get_len (stale_len peer);
  match host peer with
  | Some h => if decide (len_valid n = true ∧ sin_addr_end ≤ n) then Ok h else Undef Indeterminate
  | None => Undef Indeterminate
  end.

(** The statement given to the database for what comes from [peer] at the time [con_ts] *)
Definition process_and_save (peer : peer_env) (con_ts : Z) (string : bytes) : outcome bytes :=
  a ← split_loop (S (length string)) 0 new_split_str string;
  s1 ← get_str a 1;
  cli_ts ← (if str_eq s1 (lit "NA") then peer_host peer else Ok s1);
  s0 ← get_str a 0;
  s2 ← get_str a 2;
  s3 ← get_str a 3;
  s4 ← get_str a 4;
  s5 ← get_str a 5;
  s6 ← get_str a 6;
  s7 ← get_str a 7;
  Ok (snprintf_cont 1024 (insert_text s0 cli_ts s2 con_ts s3 s4 s5 s6 s7)).

(** ** [controller.cpp]: a command *)

(** The command between [SOH] and [US], and the rest of the buffer. [NullDeref]
    stands for the pointer arithmetic on the null pointer when an octet is not
    found. *)
Definition take_until (b : bytes) (c : Z) : outcome (bytes * bytes) :=
  p ← index b c;
  match p with
  | None => Undef NullDeref
  | Some n => o ← strncpy (calloc (Z.of_nat n)) b n; Ok (o, drop (S n) b)
  end.

Definition decode (peer : peer_env) (con_ts : Z) (buffer : bytes) : outcome (option bytes) :=
  p ← index buffer SOH;
  match p with
  | None => Undef NullDeref
  | Some i =>
    '(command, read_ptr) ← take_until (drop (S i) buffer) US;
    is_str ← strcmp_lit command STR;
    if (is_str : bool) then
      '(data, _) ← take_until read_ptr EOT;
      s ← cstr data;
      sql ← process_and_save peer con_ts s;
      Ok (Some sql)
    else
      _ ← strcmp_lit command FIL;
      Ok None
  end.

(** ** [controller.cpp]: the connections *)

(** A result of [read] *)
Inductive read_result :=
| Read_error
| Read (d : bytes).

(** What happens in one turn of the loop: which descriptors [select] reports,
    the result of [accept], and for each descriptor what is read from it, its other
    end and the time *)
Record activity := mk_activity {
  ready : Z → bool;
  accept_result : option Z;
  reads : Z → read_result;
  peer : Z → peer_env;
  clock : Z → Z * Z }.

Inductive event :=
| Ev_sql (statement : bytes)
| Ev_close (fd : Z).

Definition max_clients : nat := 50.
Definition FD_SETSIZE : Z := 1024.

(** [FD_SET] and [FD_ISSET] *)
Definition in_fdset (fd : Z) : outcome unit :=
  guard_ub OutOfBounds (bool_decide (0 ≤ fd < FD_SETSIZE)).

Fixpoint set_clients (l : list Z) : outcome unit :=
  match l with
  | [] => Ok tt
  | sd :: l => _ ← (if decide (sd > 0) then in_fdset sd else Ok tt); set_clients l
  end.

(** The new connection goes to the first free place, if there is one. *)
Fixpoint add_client (fd : Z) (l : list Z) : list Z :=
  match l with
  | [] => []
  | sd :: l => if decide (sd = 0) then fd :: l else sd :: add_client fd l
  end.

Definition con_time (tv : Z * Z) : Z := u64 (fst tv * 1000000 + snd tv).

(** [client_len] of [run_server] after [getpeername] *)
Definition getpeername_len (client_len : option Z) (p : peer_env) : outcome Z :=
  n ← get_len client_len;
  Ok (match host p with Some _ => if len_valid n then sockaddr_in_len else n | None => n end).

(** The buffer after [read], which it is cleared for; [None]: the connection ended *)
Definition received (t : activity) (sd : Z) : option bytes :=
  let buffer d := d ++ replicate (Z.to_nat BUFFER_SZ - length d) 0 in
  match reads t sd with
  | Read_error => Some (buffer [])
  | Read [] => None
  | Read d => Some (buffer (take (Z.to_nat BUFFER_SZ - 1) d))
  end.

(** A reported descriptor: [client_len] and its place afterwards and what is done *)
Definition serve_client (t : activity) (len : option Z) (sd : Z) : outcome (option Z * Z * list event) :=
  match received t sd with
  | None => n ← getpeername_len len (peer t sd); Ok (Some n, 0, [Ev_close sd])
  | Some buffer =>
    r ← decode (peer t sd) (con_time (clock t sd)) buffer;
    Ok (len, sd, match r with Some sql => [Ev_sql sql] | None => [] end)
  end.

Fixpoint serve_clients (t : activity) (len : option Z) (l : list Z) :
    outcome (option Z * list Z * list event) :=
  match l with
  | [] => Ok (len, [], [])
  | sd :: l =>
    _ ← in_fdset sd;
    '(len, sd, evs) ← (if ready t sd then serve_client t len sd else Ok (len, sd, []));
    '(len, l, evs') ← serve_clients t len l;
    Ok (len, sd :: l, evs ++ evs')
  end.

(** A turn of the loop of [run_server], with its [client_len]; [accept] fails for a
    length that is none. *)
Definition server_turn (server_sockfd : Z) (t : activity) (client_len : option Z) (client_sockfds : list Z) :
    outcome (run (option Z * list Z * list event)) :=
  _ ← in_fdset server_sockfd;
  _ ← set_clients client_sockfds;
  let go len l := r ← serve_clients t len l; Ok (Ret r) in
  if ready t server_sockfd then
    n ← get_len client_len;
    match accept_result t with
    | Some fd => if len_valid n then go (Some sockaddr_in_len) (add_client fd client_sockfds) else Ok (Exit 1)
    | None => Ok (Exit 1)
    end
  else go client_len client_sockfds.

Fixpoint server_loop (server_sockfd : Z) (ts : list activity) (len : option Z) (l : list Z) (evs : list event) :
    outcome (run (list Z * list event)) :=
  match ts with
  | [] => Ok (Ret (l, evs))
  | t :: ts =>
    r ← server_turn server_sockfd t len l;
    match r with
    | Exit n => Ok (Exit n)
    | Ret (len, l, evs') => server_loop server_sockfd ts len l (evs ++ evs')
    end
  end.

(** [stale]: what [client_len], which is not initialized, happens to hold *)
Definition run_server (stale : option Z) (server_sockfd : Z) (ts : list activity) :
    outcome (run (list Z * list event)) :=
  server_loop server_sockfd ts stale (replicate max_clients 0) [].

End programs.

(** ** Splitting at commas *)

(** The pieces between commas; [strtok] skips the empty ones. *)
Fixpoint pieces (s : bytes) : list bytes :=
  match s with
  | [] => [[]]
  | c :: r =>
    if decide (c = 44) then [] :: pieces r
    else match pieces r with p :: ps => (c :: p) :: ps | [] => [[c]] end
  end.

Definition fields (s : bytes) : list bytes := filter (λ p, p ≠ []) (pieces s).

Lemma pieces_cons s : ∃ p ps, pieces s = p :: ps.
Proof. destruct s as [|c s]; cbn; [eauto|]. destruct (decide _); [eauto|]. destruct (pieces s); eauto. Qed.

Lemma fields_skip s : fields (skip_commas s) = fields s.
Proof.
  induction s as [|c s IH]; [done|]. cbn [skip_commas]. destruct (decide (c = 44)) as [->|]; [|done].
  rewrite IH. unfold fields. cbn [pieces]. by rewrite decide_True, filter_cons_False by tauto.
Qed.

Lemma pieces_upto s : pieces s = (upto_comma s).1 :: (if decide (44 ∈ s) then pieces (upto_comma s).2 else []).
Proof.
  induction s as [|c s IH]; [done|]. cbn [pieces upto_comma]. destruct (decide (c = 44)) as [->|Hc]; cbn.
  - by rewrite decide_True by left.
  - rewrite IH. destruct (decide (44 ∈ s)); [rewrite decide_True by (by right)|rewrite decide_False]; [done..|].
    rewrite elem_of_cons. intuition congruence.
Qed.

Lemma upto_comma_rest s : 44 ∉ s → (upto_comma s).2 = [].
Proof.
  induction s as [|c s IH]; [done|]. rewrite not_elem_of_cons. intros [Hc Hs]. cbn.
  rewrite decide_False by congruence. by apply IH.
Qed.

Lemma upto_comma_length s : (length (upto_comma s).2 ≤ length s)%nat.
Proof. induction s as [|c s IH]; cbn; [done|]. destruct (decide _); cbn; lia. Qed.

Lemma skip_commas_length s : (length (skip_commas s) ≤ length s)%nat.
Proof. induction s as [|c s IH]; cbn; [done|]. destruct (decide _); cbn; lia. Qed.

Lemma skip_commas_head s : match skip_commas s with c :: _ => c ≠ 44 | [] => True end.
Proof. induction s as [|c s IH]; cbn; [done|]. by destruct (decide (c = 44)). Qed.

Lemma strtok_fields s :
  match strtok s with
  | None => fields s = []
  | Some (t, r) => fields s = t :: fields r ∧ (length r < length s)%nat
  end.
Proof.
  rewrite <- (fields_skip s). pose proof (skip_commas_length s) as Hl. pose proof (skip_commas_head s) as Hh.
  unfold strtok. destruct (skip_commas s) as [|c u] eqn:Hs; [done|]. cbn [upto_comma].
  rewrite decide_False by done. cbn [length] in Hl. pose proof (upto_comma_length u). split; [|lia].
  unfold fields. cbn [pieces]. rewrite decide_False by done. rewrite (pieces_upto u).
  rewrite filter_cons_True by done. f_equal. destruct (decide (44 ∈ u)); [done|].
  by rewrite (upto_comma_rest u).
Qed.

Lemma store_spec a i x : (i < length a)%nat → store a i x = Ok (take i a ++ x :: drop (S i) a).
Proof. intros Hi. unfold store. rewrite decide_True by done. by rewrite insert_take_drop. Qed.

Lemma split_loop_ok fuel i a s :
  (length s < fuel)%nat → (i + length (fields s) < length a)%nat →
  split_loop fuel i a s =
    Ok (take i a ++ map Text (fields s) ++ Null :: drop (S (i + length (fields s))) a).
Proof.
  revert i a s. induction fuel as [|fuel IH]; intros i a s Hf Hi; [lia|]. cbn [split_loop].
  pose proof (strtok_fields s) as Hs. destruct (strtok s) as [[t r]|].
  - destruct Hs as [Hs Hr]. rewrite Hs in *. cbn [length map] in *. rewrite store_spec, bind_Ok by lia.
    rewrite IH; [|lia|rewrite length_app, length_take, length_cons, length_drop; lia].
    assert (length (take i a ++ [Text t]) = S i) as Hli by (rewrite length_app, length_take; cbn; lia).
    replace (take i a ++ Text t :: drop (S i) a) with ((take i a ++ [Text t]) ++ drop (S i) a)
      by (by rewrite <- app_assoc).
    rewrite take_app_length', drop_app_ge by lia.
    rewrite Hli, drop_drop, <- !app_assoc. cbn [app]. repeat f_equal; lia.
  - rewrite Hs in *. cbn [length map] in *. rewrite store_spec by lia. cbn. do 4 f_equal. lia.
Qed.

Lemma split_loop_full fuel i a s :
  (length s < fuel)%nat → (i ≤ length a)%nat → (length a ≤ i + length (fields s))%nat →
  split_loop fuel i a s = Undef OutOfBounds.
Proof.
  revert i a s. induction fuel as [|fuel IH]; intros i a s Hf Ha Hi; [lia|]. cbn [split_loop].
  pose proof (strtok_fields s) as Hs. destruct (strtok s) as [[t r]|].
  - destruct Hs as [Hs Hr]. rewrite Hs in *. cbn [length] in *.
    destruct (decide (i < length a)%nat) as [Hlt|].
    + unfold store. rewrite decide_True, bind_Ok by done. apply IH; rewrite ?length_insert; lia.
    + unfold store. by rewrite decide_False.
  - rewrite Hs in *. cbn in Hi. unfold store. rewrite decide_False by lia. done.
Qed.

(** ** The record *)

Section records.
Context `{Layout}.

Lemma split_ok s :
  (length (fields s) < 8 + spare)%nat →
  split_loop (S (length s)) 0 new_split_str s =
    Ok (map Text (fields s) ++ Null :: replicate (7 + spare - length (fields s)) Unset).
Proof.
  intros Hk. unfold new_split_str. rewrite split_loop_ok; [|lia|rewrite length_replicate; lia].
  cbn [take app]. by rewrite drop_replicate.
Qed.

Lemma split_full s :
  (8 + spare ≤ length (fields s))%nat →
  split_loop (S (length s)) 0 new_split_str s = Undef OutOfBounds.
Proof.
  intros Hk. unfold new_split_str. apply split_loop_full; rewrite ?length_replicate; lia.
Qed.

Lemma process_eight peer con_ts s f0 f1 f2 f3 f4 f5 f6 f7 rest :
  fields s = f0 :: f1 :: f2 :: f3 :: f4 :: f5 :: f6 :: f7 :: rest →
  process_and_save peer con_ts s =
    if decide (length rest < spare)%nat then
      cli_ts ← (if str_eq f1 (lit "NA") then peer_host peer else Ok f1);
      Ok (snprintf_cont 1024 (insert_text f0 cli_ts f2 con_ts f3 f4 f5 f6 f7))
    else Undef OutOfBounds.
Proof.
  intros Hf. unfold process_and_save. destruct (decide _).
  - rewrite split_ok by (rewrite Hf; cbn; lia). by rewrite Hf.
  - by rewrite split_full by (rewrite Hf; cbn; lia).
Qed.

(** The address or the null pointer: with two to seven fields the one of the two that
    is used first decides. *)
Lemma process_few peer con_ts s :
  (length (fields s) < 8)%nat →
  process_and_save peer con_ts s =
    match fields s with
    | [] => Undef Indeterminate
    | [_] => Undef NullDeref
    | _ :: f1 :: _ => _ ← (if str_eq f1 (lit "NA") then peer_host peer else Ok f1); Undef NullDeref
    end.
Proof.
  intros Hf. unfold process_and_save. rewrite split_ok by lia. revert Hf.
  generalize (fields s) as fs. clear s. intros fs Hf.
  destruct fs as [|f0 [|f1 [|f2 [|f3 [|f4 [|f5 [|f6 [|f7 fs]]]]]]]]; cbn in Hf |- *; (done || lia || idtac);
    by destruct (if str_eq f1 _ then _ else _).
Qed.

(** The host of the other end is known when the garbage in [client_len] makes room
    for it. *)
Lemma peer_host_spec peer :
  peer_host peer =
    match host peer, stale_len peer with
    | Some h, Some n => if decide (8 ≤ n < 2 ^ 31) then Ok h else Undef Indeterminate
    | _, _ => Undef Indeterminate
    end.
Proof.
  unfold peer_host, get_len, len_valid, sin_addr_end. destruct (stale_len peer) as [n|]; [|by destruct (host peer)].
  cbn [mbind outcome_bind]. destruct (host peer) as [h|]; [|done]. apply decide_ext.
  rewrite bool_decide_eq_true. lia.
Qed.

(** The octet behind a block of [n] octets may be read and happens to be zero. Nothing
    promises this; the lemmas below say of which blocks the programs need it. *)
Definition zero_behind (n : Z) : Prop := ∃ r, excess n = 0 :: r.

Context `{Malloc} (malloc_succeeds : ∀ n, malloc_ok n = true).

Lemma calloc_ok n : 0 ≤ n → calloc n = Some (replicate (Z.to_nat n) 0 ++ excess n).
Proof. intros Hn. unfold calloc. by rewrite decide_False, malloc_succeeds by lia. Qed.

Lemma index_spec s r c : no_nul s → c ∉ s → index (s ++ c :: r) c = Ok (Some (length s)).
Proof.
  induction 1 as [|x s Hx Hs IH]; intros Hc; cbn; [by rewrite decide_True|].
  apply not_elem_of_cons in Hc as [Hc1 Hc2]. rewrite !decide_False by congruence. by rewrite IH.
Qed.

Lemma take_until_spec s r c :
  no_nul s → c ∉ s → take_until (s ++ c :: r) c = Ok (s ++ excess (zlen s), r).
Proof.
  intros Hs Hc. unfold take_until. rewrite index_spec, bind_Ok by done.
  rewrite calloc_ok by lia. unfold strncpy. rewrite strncpy_from_prefix by (done || lia).
  rewrite bind_Ok, take_ge, Nat.sub_diag by lia. cbn [replicate]. rewrite app_nil_r, Nat2Z.id.
  unfold write. rewrite decide_True by (rewrite length_app, length_replicate; lia). cbn [take app Nat.add].
  rewrite (drop_app_length' (replicate _ _)) by (by rewrite length_replicate). rewrite bind_Ok.
  replace (s ++ c :: r) with ((s ++ [c]) ++ r) by (by rewrite <- app_assoc).
  rewrite drop_app_length' by (rewrite length_app; cbn; lia). done.
Qed.

Lemma strcmp_lit_spec a r s : no_nul a → no_nul s → strcmp_lit (a ++ 0 :: r) s = Ok (str_eq a s).
Proof.
  intros Ha. revert s. induction Ha as [|x a Hx Ha IH]; intros s Hs; destruct s as [|y s]; cbn.
  - done.
  - inversion_clear Hs. by rewrite decide_False by congruence.
  - by rewrite bool_decide_eq_false_2.
  - inversion_clear Hs. destruct (decide (x = y)) as [->|Hxy].
    + rewrite IH by done. f_equal. apply bool_decide_ext. naive_solver.
    + f_equal. symmetry. apply bool_decide_eq_false. congruence.
Qed.

(** Without a terminator [strcmp] never finds two strings equal. *)
Lemma strcmp_lit_open a s : no_nul a → strcmp_lit a s ≠ Ok true.
Proof.
  intros Ha. revert s. induction Ha as [|x a Hx Ha IH]; intros s; cbn; [done|].
  destruct s as [|y s]; [by rewrite bool_decide_eq_false_2|]. by destruct (decide _).
Qed.

Lemma STR_no_nul : no_nul STR.
Proof. repeat constructor; done. Qed.

Lemma STR_no_US : US ∉ STR.
Proof. apply (bool_decide_eq_true_1 _); vm_compute. reflexivity. Qed.

(** The octets the client program sends for a string *)
Definition command_octets (s : bytes) : bytes := [SOH] ++ STR ++ [US] ++ s ++ [EOT].

Lemma decode_str peer con_ts s r :
  zero_behind (zlen STR) → zero_behind (zlen s) → no_nul s → EOT ∉ s →
  decode peer con_ts (command_octets s ++ r) = (sql ← process_and_save peer con_ts s; Ok (Some sql)).
Proof.
  intros [r1 H1] [r2 H2] Hs He. unfold decode.
  assert (command_octets s ++ r = SOH :: STR ++ US :: s ++ EOT :: r) as ->.
  { unfold command_octets. cbn [app]. by rewrite <- app_assoc; cbn [app]; rewrite <- app_assoc. }
  change (index (SOH :: ?l) SOH) with (Ok (A := option nat) (Some 0%nat)). rewrite bind_Ok. cbn [drop].
  rewrite drop_0, take_until_spec by (apply STR_no_nul || apply STR_no_US).
  rewrite bind_Ok, H1.
  rewrite (strcmp_lit_spec STR r1 STR), bind_Ok by apply STR_no_nul.
  change (str_eq STR STR) with true. cbv iota. rewrite take_until_spec, bind_Ok by done.
  by rewrite H2, cstr_app.
Qed.

Lemma copy_arg_ok s : zero_behind (zlen s) → ∃ r, copy_arg s = Ok (s ++ 0 :: r).
Proof.
  intros [r Hr]. unfold copy_arg. rewrite calloc_ok, Hr by apply zlen_nonneg.
  exists r. unfold strcpy, write, zlen. rewrite Nat2Z.id.
  rewrite decide_True by (rewrite !length_app, length_replicate; cbn; lia). cbn [take app Nat.add].
  replace (replicate (length s) 0 ++ 0 :: r) with ((replicate (length s) 0 ++ [0]) ++ r)
    by (by rewrite <- app_assoc).
  rewrite drop_app_length' by (rewrite !length_app, length_replicate; cbn; lia).
  rewrite take_0. cbn [app]. by rewrite <- app_assoc.
Qed.

End records.

(** ** The client program *)

Section client.
Context `{Malloc} `{!Layout} (malloc_succeeds : ∀ n, malloc_ok n = true).

(** The network lets the program connect and write. *)
Definition reachable (env : client_env) : Prop :=
  socket_ok env = true ∧ host_found env = true ∧ connect_loop (connects env) = Ok tt ∧ 0 ≤ wrote env.

Lemma command_octets_shape s : ∃ t1 t2,
  length (command_octets s) = (6 + length s)%nat ∧ command_octets s = SOH :: t1 ∧ command_octets s = t2 ++ [EOT].
Proof.
  exists (STR ++ [US] ++ s ++ [EOT]), ([SOH] ++ STR ++ [US] ++ s). unfold command_octets.
  split_and!; [rewrite !length_app; cbn; lia|done|by rewrite <- !app_assoc].
Qed.

Lemma transmit_ok env a s r :
  ARG_INPUT_STRING a = Some (s ++ 0 :: r) → no_nul s → zlen s ≤ MAX_STR_SZ → 0 ≤ wrote env →
  transmit env a = Ok (Ret [command_octets s]).
Proof.
  intros Ha Hs Hl Hw. unfold transmit. rewrite Ha. rewrite (calloc_ok malloc_succeeds) by done.
  rewrite cstr_app, bind_Ok by done. cbv zeta. fold (command_octets s).
  destruct (command_octets_shape s) as (t1 & t2 & Hlen & Ht1 & Ht2).
  generalize dependent (command_octets s). intros text Hlen -> Ht2.
  unfold zlen, MAX_STR_SZ in Hl. change (Z.to_nat BUFFER_SZ) with 1200%nat.
  unfold snprintf_cont. rewrite take_ge by lia.
  unfold write at 1. rewrite decide_True by (rewrite length_app, length_app, length_replicate; cbn in *; lia).
  rewrite bind_Ok, take_0. cbn [Nat.add]. rewrite app_nil_l.
  set (junk := drop _ _). clearbody junk. rewrite <- app_assoc.
  change (rd ((SOH :: t1) ++ [0] ++ junk) 0) with (Ok SOH). rewrite bind_Ok.
  assert (rd ((SOH :: t1) ++ [0] ++ junk) (length (SOH :: t1) - 1) = Ok EOT) as ->.
  { rewrite Ht2, <- app_assoc, length_app. cbn [length]. rewrite Nat.add_sub. unfold rd.
    by rewrite lookup_app_r, Nat.sub_diag by lia. }
  rewrite bind_Ok, decide_True by done.
  rewrite (slice_ok _ 0) by (rewrite length_app; lia). rewrite drop_0, take_app_length, bind_Ok.
  by rewrite decide_False by lia.
Qed.

Lemma client_main_ok env host port p s :
  zero_behind (zlen host) → zero_behind (zlen s) →
  reachable env → no_nul host → host ≠ [] → no_nul s → zlen s ≤ MAX_STR_SZ →
  atoi port = Ok p → p ≠ -1 →
  client_main env [opt_tcp; opt_host host; opt_port port; opt_str s] = Ok (Ret [command_octets s]).
Proof.
  intros Hzh Hzs (He1 & He2 & He3 & He4) Hh Hne Hs Hl Hp Hpn. unfold client_main. cbn [client_options client_option].
  rewrite bind_Ok. destruct (copy_arg_ok malloc_succeeds host Hzh) as [rh ->]. rewrite !bind_Ok, Hp, !bind_Ok.
  rewrite decide_False by lia. destruct (copy_arg_ok malloc_succeeds s Hzs) as [rs ->]. rewrite !bind_Ok.
  match goal with |- context [ARG_PORT ?x] => set (a := x) end.
  change (ARG_PORT a) with p. rewrite decide_False by done.
  change (no_host a) with (strcmp_lit (host ++ 0 :: rh) []).
  rewrite (strcmp_lit_spec host rh []), bind_Ok by (done || constructor).
  unfold str_eq. rewrite bool_decide_eq_false_2 by done. change (ARG_INPUT_STRING a) with (Some (s ++ 0 :: rs)). cbv iota.
  unfold connect_client. rewrite He1, He2. cbn [negb]. rewrite He3, !bind_Ok.
  by eapply transmit_ok.
Qed.
End client.

(** ** What the controller stores *)

Section stores.
Context `{Malloc} `{!Layout}.

Lemma index_found b c n : c ≠ 0 →
  index b c = Ok (Some n) ↔ ∃ s r, b = s ++ c :: r ∧ no_nul s ∧ (c ∉ s) ∧ n = length s.
Proof.
  intros Hc. split; [|by intros (s & r & -> & Hs & Hn & ->); apply index_spec].
  revert n. induction b as [|x b IH]; intros n; cbn; [done|].
  destruct (decide (x = c)) as [->|Hx]; [intros [= <-]; exists [], b; split_and!; (done || constructor || easy)|].
  destruct (decide (x = 0)); [done|]. destruct (index b c) as [[m|]| |]; cbn; try done.
  intros [= <-]. destruct (IH m eq_refl) as (s & r & -> & Hs & Hn & ->). exists (x :: s), r.
  split_and!; [done|by constructor| |done]. apply not_elem_of_cons. auto.
Qed.

(** What is copied is followed by what is behind the block. *)
Lemma take_until_found b c o r : c ≠ 0 →
  take_until b c = Ok (o, r) ↔
  ∃ s, b = s ++ c :: r ∧ no_nul s ∧ (c ∉ s) ∧ malloc_ok (zlen s) = true ∧ o = s ++ excess (zlen s).
Proof.
  intros Hc. unfold take_until.
  assert (∀ s r', no_nul s → strncpy (calloc (zlen s)) (s ++ c :: r') (length s) =
            if malloc_ok (zlen s) then Ok (s ++ excess (zlen s)) else Undef NullDeref) as Hcopy.
  { intros s r' Hs. unfold calloc. rewrite decide_False by (pose proof (zlen_nonneg s); lia).
    destruct (malloc_ok _); [|done]. unfold strncpy. rewrite strncpy_from_prefix, bind_Ok by (done || lia).
    rewrite take_ge, Nat.sub_diag by lia. cbn [replicate]. unfold write, zlen.
    rewrite app_nil_r, Nat2Z.id, decide_True by (rewrite length_app, length_replicate; lia).
    cbn [take app Nat.add]. by rewrite (drop_app_length' (replicate _ _)) by (by rewrite length_replicate). }
  assert (∀ s r', drop (S (length s)) (s ++ c :: r') = r') as Hrest.
  { intros s r'. replace (s ++ c :: r') with ((s ++ [c]) ++ r') by (by rewrite <- app_assoc).
    by rewrite drop_app_length' by (rewrite length_app; cbn; lia). }
  split.
  - intros Ht. apply bind_Ok_inv in Ht as ([n|] & Hi & Ht); [|done].
    apply index_found in Hi as (s & r' & -> & Hs & Hn & ->); [|done].
    apply bind_Ok_inv in Ht as (o' & Ho & [= -> <-]). exists s. change (Z.of_nat (length s)) with (zlen s) in Ho.
    rewrite Hcopy in Ho by done. rewrite Hrest. destruct (malloc_ok _); [|done]. by injection Ho as <-.
  - intros (s & -> & Hs & Hn & Hm & ->). rewrite index_spec, bind_Ok by done.
    change (Z.of_nat (length s)) with (zlen s). by rewrite Hcopy, Hm, bind_Ok, Hrest by done.
Qed.

Lemma strcmp_lit_equal a s : no_nul s → strcmp_lit a s = Ok true ↔ ∃ r, a = s ++ 0 :: r.
Proof.
  intros Hs. split; [|intros [r ->]; rewrite strcmp_lit_spec by done; unfold str_eq; by rewrite bool_decide_eq_true_2].
  revert a. induction Hs as [|y s Hy Hs IH]; intros [|x a]; cbn; try done.
  - intros [= Hx%bool_decide_eq_true_1]. exists a. by rewrite Hx.
  - destruct (decide (x = y)) as [->|]; [|done]. intros [r ->]%IH. by exists r.
Qed.

Lemma cstr_found b s : cstr b = Ok s ↔ ∃ r, b = s ++ 0 :: r ∧ no_nul s.
Proof.
  split; [|by intros (r & -> & Hs); apply cstr_app].
  revert s. induction b as [|c b IH]; intros s; cbn; [done|].
  destruct (decide (c = 0)) as [->|]; [intros [= <-]; exists b; by split; [|constructor]|].
  destruct (cstr b) as [t| |]; cbn; try done. intros [= <-].
  destruct (IH t eq_refl) as (r & -> & Ht). exists r. by split; [|constructor].
Qed.

(** What is stored of a text: its first eight non-empty fields, if there is a place
    for the pointer behind the last one; the second is replaced by the host of the
    sender if it is [NA], which needs luck with [client_len]. *)
Definition saved_text (peer : peer_env) (con_ts : Z) (text sql : bytes) : Prop :=
  ∃ f0 f1 f2 f3 f4 f5 f6 f7 rest cli_ts,
    fields text = f0 :: f1 :: f2 :: f3 :: f4 :: f5 :: f6 :: f7 :: rest ∧
    (length rest < spare)%nat ∧
    (f1 ≠ lit "NA" ∧ cli_ts = f1 ∨
     f1 = lit "NA" ∧ host peer = Some cli_ts ∧ ∃ n, stale_len peer = Some n ∧ 8 ≤ n < 2 ^ 31) ∧
    sql = take 1023 (insert_text f0 cli_ts f2 con_ts f3 f4 f5 f6 f7).

Lemma cli_ts_spec peer f1 t :
  (if str_eq f1 (lit "NA") then peer_host peer else Ok f1) = Ok t ↔
  (f1 ≠ lit "NA" ∧ t = f1 ∨
   f1 = lit "NA" ∧ host peer = Some t ∧ ∃ n, stale_len peer = Some n ∧ 8 ≤ n < 2 ^ 31).
Proof.
  unfold str_eq. destruct (decide (f1 = lit "NA")) as [He|He].
  - rewrite bool_decide_eq_true_2 by done. rewrite peer_host_spec.
    destruct (host peer) as [h|], (stale_len peer) as [n|]; [destruct (decide _)|..];
      (split; [intros Ht; right|intros [[Hd _]|(_ & Hh & n' & Hn & Hr)]]; try congruence; try (simplify_eq; (done || lia))).
    injection Ht as <-. split_and!; [done|done|]. by exists n.
  - rewrite bool_decide_eq_false_2 by done. split; [intros [= <-]; by left|]. by intros [[_ ->]|[? _]].
Qed.

Lemma process_and_save_Ok peer con_ts s sql :
  process_and_save peer con_ts s = Ok sql ↔ saved_text peer con_ts s sql.
Proof.
  destruct (decide (length (fields s) < 8)%nat) as [Hl|Hl].
  - rewrite process_few by done. split; [|intros (? & ? & ? & ? & ? & ? & ? & ? & ? & ? & Hf & _); rewrite Hf in Hl; cbn in Hl; lia].
    destruct (fields s) as [|? [|f1 ?]]; [done..|]. intros Hd. by apply bind_Ok_inv in Hd as (? & _ & ?).
  - destruct (fields s) as [|f0 [|f1 [|f2 [|f3 [|f4 [|f5 [|f6 [|f7 rest]]]]]]]] eqn:Hf; try (cbn in Hl; lia).
    rewrite (process_eight _ _ _ _ _ _ _ _ _ _ _ _ Hf). unfold saved_text. rewrite Hf. destruct (decide _) as [Hr|Hr].
    + split.
      * intros Hd. apply bind_Ok_inv in Hd as (t & Ht%cli_ts_spec & [= <-]).
        by exists f0, f1, f2, f3, f4, f5, f6, f7, rest, t.
      * intros (? & ? & ? & ? & ? & ? & ? & ? & ? & t & [= <- <- <- <- <- <- <- <- <-] & _ & Ht%cli_ts_spec & ->).
        by rewrite Ht.
    + split; [done|]. by intros (? & ? & ? & ? & ? & ? & ? & ? & ? & t & [= <- <- <- <- <- <- <- <- <-] & ? & _).
Qed.








End stores.

(** ** The connections of the controller *)












Section server.
Context `{Malloc} `{!Layout}.



End server.

(** ** The properties *)

(** C27. What the controller makes of a text, in every case. The text is split into
    its non-empty fields. With [spare] free entries behind its array of eight it has
    room for [7 + spare] of them and the null pointer behind; otherwise it writes
    behind the array, which for eight fields and no free entry it always does. It then
    uses the second field, which without any field was never written and with one is
    the null pointer; if it is [NA] the host of the sender is used instead, which the
    uninitialized [client_len] must leave room for. With fewer than eight fields it
    then uses the null pointer; otherwise it makes the statement for the first eight. *)
Theorem process_and_save_spec `{Layout} peer con_ts s :
  process_and_save peer con_ts s =
    match fields s with
    | [] => Undef Indeterminate
    | [_] => Undef NullDeref
    | f0 :: f1 :: fs =>
      if decide (6 + spare ≤ length fs)%nat then Undef OutOfBounds
      else
        cli_ts ← (if decide (f1 = lit "NA") then
                    match host peer, stale_len peer with
                    | Some h, Some n => if decide (8 ≤ n < 2 ^ 31) then Ok h else Undef Indeterminate
                    | _, _ => Undef Indeterminate
                    end
                  else Ok f1);
        match fs with
        | f2 :: f3 :: f4 :: f5 :: f6 :: f7 :: _ =>
          Ok (take 1023 (insert_text f0 cli_ts f2 con_ts f3 f4 f5 f6 f7))
        | _ => Undef NullDeref
        end
    end.
Proof.
  assert (∀ f1, (if str_eq f1 (lit "NA") then peer_host peer else Ok f1) =
            if decide (f1 = lit "NA") then peer_host peer else Ok f1) as Hna.
  { intros f1. unfold str_eq. destruct (decide _); [by rewrite bool_decide_eq_true_2|by rewrite bool_decide_eq_false_2]. }
  pose proof (process_few peer con_ts s) as Hfew. pose proof (process_eight peer con_ts s) as Height.
  rewrite <- peer_host_spec.
  destruct (fields s) as [|f0 [|f1 [|f2 [|f3 [|f4 [|f5 [|f6 [|f7 rest]]]]]]]];
    try (rewrite Hfew by (cbn; lia); rewrite ?Hna, ?decide_False by (cbn; lia); done).
  rewrite (Height _ _ _ _ _ _ _ _ _ eq_refl), Hna. cbn [length].
  destruct (decide (length rest < spare)%nat), (decide (6 + spare ≤ _)%nat); (done || lia).
Qed.

(** C28. When and what the controller stores, for any allocator and any leftovers in
    memory. The octets received hold [SOH], a command, [US], a text and [EOT] in this
    order before any NUL; with what is behind their blocks in memory the command reads
    [STR] and the text is ended by some NUL (whose place in memory no block provides);
    and of the eight fields of that text the statement is made, if there is an entry
    behind the array to write the null pointer to. In every other case nothing is
    stored. *)
Theorem decode_stores `{Malloc} `{Layout} peer con_ts buffer sql :
  decode peer con_ts buffer = Ok (Some sql) ↔
  ∃ junk command data r text behind behind',
    buffer = junk ++ [SOH] ++ command ++ [US] ++ data ++ [EOT] ++ r ∧
    (no_nul junk ∧ SOH ∉ junk) ∧ (no_nul command ∧ US ∉ command) ∧ (no_nul data ∧ EOT ∉ data) ∧
    malloc_ok (zlen command) = true ∧ malloc_ok (zlen data) = true ∧
    command ++ excess (zlen command) = STR ++ [0] ++ behind ∧
    data ++ excess (zlen data) = text ++ [0] ++ behind' ∧ no_nul text ∧
    saved_text peer con_ts text sql.
Proof.
  unfold decode. cbn [app]. split.
  - intros Hd. apply bind_Ok_inv in Hd as ([i|] & Hi & Hd); [|done].
    apply index_found in Hi as (junk & rest & -> & Hj & Hnj & ->); [|done].
    replace (junk ++ SOH :: rest) with ((junk ++ [SOH]) ++ rest) in Hd |- * by (by rewrite <- app_assoc).
    rewrite drop_app_length' in Hd by (rewrite length_app; cbn; lia).
    apply bind_Ok_inv in Hd as ([o p] & (c & -> & Hc & Hnc & Hmc & ->)%take_until_found & Hd); [|done].
    apply bind_Ok_inv in Hd as ([] & Hb & Hd); [|by apply bind_Ok_inv in Hd as (? & _ & ?)].
    apply strcmp_lit_equal in Hb as [e He]; [|apply STR_no_nul].
    apply bind_Ok_inv in Hd as ([o p'] & (s & -> & Hs & Hns & Hms & ->)%take_until_found & Hd); [|done].
    apply bind_Ok_inv in Hd as (text & (e' & He' & Ht)%cstr_found & Hd).
    apply bind_Ok_inv in Hd as (sql' & Hsql%process_and_save_Ok & [= <-]).
    exists junk, c, s, p', text, e, e'. rewrite <- app_assoc. by split_and!.
  - intros (junk & c & s & r & text & e & e' & -> & [Hj Hnj] & [Hc Hnc] & [Hs Hns] & Hmc & Hms & He & He' & Ht & Hsql).
    rewrite index_spec, bind_Ok by done.
    replace (junk ++ SOH :: c ++ US :: s ++ EOT :: r) with ((junk ++ [SOH]) ++ c ++ US :: s ++ EOT :: r)
      by (by rewrite <- app_assoc).
    rewrite drop_app_length' by (rewrite length_app; cbn; lia).
    rewrite (proj2 (take_until_found _ US (STR ++ 0 :: e) (s ++ EOT :: r) ltac:(done))) by (exists c; by rewrite <- He).
    rewrite bind_Ok, (proj2 (strcmp_lit_equal _ STR STR_no_nul)) by (by exists e). rewrite bind_Ok. cbv iota.
    rewrite (proj2 (take_until_found _ EOT (text ++ 0 :: e') r ltac:(done))) by (exists s; by rewrite <- He').
    rewrite bind_Ok, cstr_app, bind_Ok by done. by rewrite (proj2 (process_and_save_Ok _ _ _ _) Hsql).
Qed.


(** In strict C nothing is ever stored: whatever is received, the controller
    either runs into undefined behaviour or makes no statement, because the command
    and the array of fields leave no room for a terminator. *)
Lemma strict_stores_nothing `{Malloc} peer con_ts buffer sql :
  @decode _ strict peer con_ts buffer ≠ Ok (Some sql).
Proof.
  intros Hd. unfold decode in Hd. apply bind_Ok_inv in Hd as ([i|] & _ & Hd); [|done].
  apply bind_Ok_inv in Hd as ([o p] & (c & _ & Hc & _ & _ & ->)%take_until_found & Hd); [|done].
  apply bind_Ok_inv in Hd as ([] & Hb & Hd); [|by apply bind_Ok_inv in Hd as (? & _ & ?)].
  revert Hb. cbn [excess strict]. rewrite app_nil_r. by apply strcmp_lit_open.
Qed.

(** The client program run with a host, a port and a string of at most 1000
    octets sends exactly the framed string, and the controller that reads it makes
    of it what [process_and_save] makes of the string, if the octets behind the blocks
    of the host, the string and the command happen to be zero. *)
Lemma client_to_controller `{Malloc} `{Layout} env host port p s peer con_ts r :
  (∀ n, malloc_ok n = true) → zero_behind (zlen host) → zero_behind (zlen s) → zero_behind (zlen STR) →
  reachable env → no_nul host → host ≠ [] → atoi port = Ok p → p ≠ -1 →
  no_nul s → zlen s ≤ MAX_STR_SZ → EOT ∉ s →
  ∃ c, client_main env [opt_tcp; opt_host host; opt_port port; opt_str s] = Ok (Ret [c]) ∧
       decode peer con_ts (c ++ r) = (sql ← process_and_save peer con_ts s; Ok (Some sql)).
Proof.
  intros Hm Hzh Hzs Hzc He Hh Hne Hp Hpn Hs Hl Hc. exists (command_octets s).
  split; [by eapply client_main_ok|by apply decode_str].
Qed.

(** ** Concrete instances *)

(** An octet that is zero behind every block, and an entry behind the array *)
Definition roomy : Layout := {| excess _ := [0]; spare := 1 |}.

Lemma roomy_ok n : @zero_behind roomy n.
Proof. by exists []. Qed.

(** A sender whose host is known, with what [client_len] needs *)
Definition peer_example : peer_env := mk_peer_env (Some (lit "192.168.1.7")) (Some 16).

Definition record_example : bytes :=
  lit "02:00:00:00:00:09,001513000000250000,001513000000250900,00000007,1,0,5,hello".

Definition statement_example : bytes :=
  lit "INSERT INTO aplog (client_mac_addr, data_cli_utc_timestamp, data_ap_utc_timestamp, data_con_utc_timestamp, frame_seq_number, ie_index, more_frag_bit, data_length, data) VALUES('02:00:00:00:00:09', 001513000000250000, 001513000000250900, 001513000000251234, 00000007, 1, 0, 5, 'hello');".

Lemma record_stored_example :
  @process_and_save roomy peer_example 1513000000251234 record_example = Ok statement_example.
Proof. vm_compute. reflexivity. Qed.

(** In strict C the same record overflows the array. *)
Example record_strict_example :
  @process_and_save strict peer_example 1513000000251234 record_example = Undef OutOfBounds.
Proof. vm_compute. reflexivity. Qed.

(** The length that [getpeername] is given was never written. *)
Lemma record_na_undefined :
  @process_and_save roomy (mk_peer_env (Some (lit "192.168.1.7")) None) 0 (lit "a,NA,2,3,1,0,1,x") =
  Undef Indeterminate.
Proof. vm_compute. reflexivity. Qed.

(** Data with quotes becomes part of the statement. *)
Example record_injected_example :
  @process_and_save roomy peer_example 0 (lit "a,1,2,3,1,0,9,'); DELETE FROM aplog; --") =
  Ok (lit "INSERT INTO aplog (client_mac_addr, data_cli_utc_timestamp, data_ap_utc_timestamp, data_con_utc_timestamp, frame_seq_number, ie_index, more_frag_bit, data_length, data) VALUES('a', 1, 2, 000000000000000000, 3, 1, 0, 9, ''); DELETE FROM aplog; --');").
Proof. vm_compute. reflexivity. Qed.




Lemma record_example_ok : no_nul record_example ∧ (EOT ∉ record_example).
Proof. split; [|apply (bool_decide_eq_true_1 _)]; concrete. Qed.



Definition client_env_example : client_env := mk_client_env true true [false; true] 100.

Example client_to_controller_witness :
  ∃ c, @client_main malloc_always roomy client_env_example
         [opt_tcp; opt_host (lit "192.168.1.1"); opt_port (lit "10001"); opt_str record_example] = Ok (Ret [c]) ∧
       @decode malloc_always roomy peer_example 1513000000251234 (c ++ replicate 1000 0) =
         (sql ← @process_and_save roomy peer_example 1513000000251234 record_example; Ok (Some sql)).
Proof.
  apply (@client_to_controller malloc_always roomy client_env_example (lit "192.168.1.1") (lit "10001") 10001
           record_example peer_example 1513000000251234 (replicate 1000 0)).
  - done.
  - apply roomy_ok.
  - apply roomy_ok.
  - apply roomy_ok.
  - by vm_compute.
  - concrete.
  - done.
  - vm_compute. reflexivity.
  - done.
  - exact (proj1 record_example_ok).
  - by vm_compute.
  - exact (proj2 record_example_ok).
Defined.
