(* ===== verification/Common.v ===== *)
(** * Byte order, hexadecimal text and byte arrays

    [src/utils/common.h] (the unaligned accessors [WPA_GET_*]/[WPA_PUT_*]) and
    the conversion helpers of [src/utils/common.c]. A pointer argument is the
    run of bytes from the pointer to the end of the object. *)

From Stdlib Require Import ZArith Lia.
From stdpp Require Import base option list numbers decidable.
From S2P Require Import Prelude CLib.
Local Open Scope Z_scope.

(** ** Identifiers shared by the element and the key code *)

Definition WLAN_EID_RSN : Z := 48.
Definition WLAN_EID_MOBILITY_DOMAIN : Z := 54.
Definition WLAN_EID_VENDOR_SPECIFIC : Z := 221.
Definition OUI_WFA : Z := 0x506f9a.
Definition HS20_OSEN_OUI_TYPE : Z := 18.

(** ** Unaligned accessors *)

Definition WPA_GET_BE16 (a : bytes) : outcome Z :=
  a0 ← rd a 0; a1 ← rd a 1; Ok (Z.lor (Z.shiftl a0 8) a1).

Definition WPA_PUT_BE16 (val : Z) : bytes := [u8 (Z.shiftr val 8); Z.land val 255].

Definition WPA_GET_LE16 (a : bytes) : outcome Z :=
  a1 ← rd a 1; a0 ← rd a 0; Ok (Z.lor (Z.shiftl a1 8) a0).

Definition WPA_PUT_LE16 (val : Z) : bytes := [Z.land val 255; u8 (Z.shiftr val 8)].

Definition WPA_GET_BE24 (a : bytes) : outcome Z :=
  a0 ← rd a 0; a1 ← rd a 1; a2 ← rd a 2;
  Ok (Z.lor (Z.lor (Z.shiftl a0 16) (Z.shiftl a1 8)) a2).

Definition WPA_PUT_BE24 (val : Z) : bytes :=
  [Z.land (Z.shiftr val 16) 255; Z.land (Z.shiftr val 8) 255; Z.land val 255].

Definition WPA_GET_BE32 (a : bytes) : outcome Z :=
  a0 ← rd a 0; a1 ← rd a 1; a2 ← rd a 2; a3 ← rd a 3;
  Ok (Z.lor (Z.lor (Z.lor (u32 (Z.shiftl a0 24)) (Z.shiftl a1 16)) (Z.shiftl a2 8)) a3).

Definition WPA_PUT_BE32 (val : Z) : bytes :=
  [Z.land (Z.shiftr val 24) 255; Z.land (Z.shiftr val 16) 255;
   Z.land (Z.shiftr val 8) 255; Z.land val 255].

Definition WPA_GET_LE32 (a : bytes) : outcome Z :=
  a3 ← rd a 3; a2 ← rd a 2; a1 ← rd a 1; a0 ← rd a 0;
  Ok (Z.lor (Z.lor (Z.lor (u32 (Z.shiftl a3 24)) (Z.shiftl a2 16)) (Z.shiftl a1 8)) a0).

Definition WPA_PUT_LE32 (val : Z) : bytes :=
  [Z.land val 255; Z.land (Z.shiftr val 8) 255;
   Z.land (Z.shiftr val 16) 255; Z.land (Z.shiftr val 24) 255].

(** ** Hexadecimal digits *)

Definition hex2num (c : Z) : Z :=
  if decide (48 ≤ c ∧ c ≤ 57) then c - 48
  else if decide (97 ≤ c ∧ c ≤ 102) then c - 97 + 10
  else if decide (65 ≤ c ∧ c ≤ 70) then c - 65 + 10
  else -1.

Definition hex2byte (hex : bytes) : outcome Z :=
  c0 ← rd hex 0;
  let a := hex2num c0 in
  if decide (a < 0) then Ok (-1) else
  c1 ← rd hex 1;
  let b := hex2num c1 in
  if decide (b < 0) then Ok (-1) else
  Ok (Z.lor (Z.shiftl a 4) b).

(** [k] octets are still to be written to [opos]; the result is the return
    value with the octets stored so far. *)
Fixpoint hexstr2bin_loop (k : nat) (ipos : bytes) (out : bytes) : outcome (Z * bytes) :=
  match k with
  | O => Ok (0, out)
  | S k' =>
    a ← hex2byte ipos;
    if decide (a < 0) then Ok (-1, out)
    else hexstr2bin_loop k' (drop 2 ipos) (out ++ [a])
  end.

Definition hexstr2bin (hex : bytes) (len : nat) : outcome (Z * bytes) :=
  hexstr2bin_loop len hex [].

(** ** MAC addresses *)

Definition ETH_ALEN : nat := 6.

(** [k] is the number of octets still to parse, [ETH_ALEN - i]. [None] stands
    for the NULL result; the octets parsed before a failure are stored. *)
Fixpoint hwaddr_parse_loop (k : nat) (txt addr : bytes) : outcome (option bytes * bytes) :=
  match k with
  | O => Ok (Some txt, addr)
  | S k' =>
    a ← hex2byte txt;
    if decide (a < 0) then Ok (None, addr) else
    let txt := drop 2 txt in
    let addr := <[(ETH_ALEN - k)%nat := a]> addr in
    if decide (k' = 0%nat) then hwaddr_parse_loop k' txt addr else
    c ← rd txt 0;
    if decide (c = 58) then hwaddr_parse_loop k' (drop 1 txt) addr
    else Ok (None, addr)
  end.

Definition hwaddr_parse (txt addr : bytes) : outcome (option bytes * bytes) :=
  hwaddr_parse_loop ETH_ALEN txt addr.

Definition hwaddr_aton (txt addr : bytes) : outcome (Z * bytes) :=
  '(r, addr) ← hwaddr_parse txt addr;
  Ok (match r with Some _ => 0 | None => -1 end, addr).

Definition hwaddr_masked_aton (txt addr mask : bytes) (maskable : bool)
    : outcome (Z * bytes * bytes) :=
  '(r, addr) ← hwaddr_parse txt addr;
  match r with
  | None => Ok (-1, addr, mask)
  | Some r =>
    c ← rd r 0;
    if bool_decide (c = 0) || is_space c then Ok (0, addr, replicate ETH_ALEN 255)
    else if maskable && bool_decide (c = 47) then
      '(r, mask) ← hwaddr_parse (drop 1 r) mask;
      Ok (match r with Some _ => 0 | None => -1 end, addr, mask)
    else Ok (-1, addr, mask)
  end.

Fixpoint hwaddr_compact_loop (k : nat) (txt addr : bytes) : outcome (Z * bytes) :=
  match k with
  | O => Ok (0, addr)
  | S k' =>
    c0 ← rd txt 0;
    let a := hex2num c0 in
    if decide (a < 0) then Ok (-1, addr) else
    c1 ← rd txt 1;
    let b := hex2num c1 in
    if decide (b < 0) then Ok (-1, addr) else
    hwaddr_compact_loop k' (drop 2 txt) (<[(6 - k)%nat := Z.lor (Z.shiftl a 4) b]> addr)
  end.

Definition hwaddr_compact_aton (txt addr : bytes) : outcome (Z * bytes) :=
  hwaddr_compact_loop 6 txt addr.

(** [while ( *pos == ':' || *pos == '.' || *pos == '-') pos++;] *)
Fixpoint skip_addr_seps (pos : bytes) : outcome bytes :=
  match pos with
  | [] => Undef OutOfBounds
  | c :: r => if decide (c = 58 ∨ c = 46 ∨ c = 45) then skip_addr_seps r else Ok pos
  end.

Fixpoint hwaddr_aton2_loop (k : nat) (txt_len : nat) (pos addr : bytes) : outcome (Z * bytes) :=
  match k with
  | O => Ok (Z.of_nat (txt_len - length pos), addr)
  | S k' =>
    pos ← skip_addr_seps pos;
    c0 ← rd pos 0;
    let a := hex2num c0 in
    if decide (a < 0) then Ok (-1, addr) else
    c1 ← rd pos 1;
    let b := hex2num c1 in
    if decide (b < 0) then Ok (-1, addr) else
    hwaddr_aton2_loop k' txt_len (drop 2 pos)
      (<[(6 - k)%nat := Z.lor (Z.shiftl a 4) b]> addr)
  end.

Definition hwaddr_aton2 (txt addr : bytes) : outcome (Z * bytes) :=
  hwaddr_aton2_loop 6 (length txt) txt addr.

(** [MACSTR] with [MAC2STR(a)]: six [%02x] separated by colons. *)
Definition mac_txt (a : bytes) : outcome bytes :=
  a0 ← rd a 0; a1 ← rd a 1; a2 ← rd a 2; a3 ← rd a 3; a4 ← rd a 4; a5 ← rd a 5;
  Ok (hex02 a0 ++ 58 :: hex02 a1 ++ 58 :: hex02 a2 ++ 58 ::
      hex02 a3 ++ 58 :: hex02 a4 ++ 58 :: hex02 a5).

(** ** Counters *)

(** The iterations with [pos = k - 1, k - 2, ..., 0]. *)
Fixpoint inc_byte_loop (k : nat) (counter : bytes) : bytes :=
  match k with
  | O => counter
  | S pos =>
    let c := u8 (default 0 (counter !! pos) + 1) in
    let counter := <[pos := c]> counter in
    if decide (c ≠ 0) then counter else inc_byte_loop pos counter
  end.

Definition inc_byte_array (counter : bytes) : bytes :=
  inc_byte_loop (length counter) counter.

(** ** Concatenation into a fixed buffer *)

(** [res] has [res_len] octets; [None] is a NULL source. *)
Definition merge_byte_arrays (res_len : nat) (src1 src2 : option bytes) : bytes * nat :=
  let res := replicate res_len 0 in
  let write off s := (take off res ++ s ++ drop (off + length s) res) in
  let second (len : nat) (res : bytes) :=
    match src2 with
    | None => (res, len)
    | Some s2 =>
      if decide (res_len ≤ len + length s2)%nat
      then (take len res ++ take (res_len - len) s2, res_len)
      else (take len res ++ s2 ++ drop (len + length s2) res, (len + length s2)%nat)
    end in
  match src1 with
  | None => second 0%nat res
  | Some s1 =>
    if decide (res_len ≤ length s1)%nat then (take res_len s1, res_len)
    else second (length s1) (write 0%nat s1)
  end.

(** ** Character classes *)

Definition is_hex (data : bytes) : bool :=
  existsb (λ c, bool_decide (c < 32 ∨ 127 ≤ c)) data.

Definition has_ctrl_char (data : bytes) : bool :=
  existsb (λ c, bool_decide (c < 32 ∨ c = 127)) data.

Definition has_newline (str : bytes) : bool :=
  existsb (λ c, bool_decide (c = 10 ∨ c = 13)) str.

(** ** Lemmas: bit operations as arithmetic *)

Lemma land_255 z : Z.land z 255 = z `mod` 2 ^ 8.
Proof. change 255 with (Z.ones 8). by rewrite Z.land_ones by lia. Qed.

Lemma shiftr_div z n : 0 ≤ n → Z.shiftr z n = z / 2 ^ n.
Proof. apply Z.shiftr_div_pow2. Qed.

(** The octet [v >> n & 0xff]. *)
Lemma octet_range z n : is_u8 (Z.land (Z.shiftr z n) 255).
Proof. rewrite land_255. apply u8_range. Qed.

(** Octets are closed under the bit operations. *)
Lemma is_u8_land z : is_u8 z ↔ Z.land z 255 = z.
Proof.
  rewrite land_255. split; [apply u8_small|]. intros <-. apply u8_range.
Qed.

Lemma is_u8_lor x y : is_u8 x → is_u8 y → is_u8 (Z.lor x y).
Proof. rewrite !is_u8_land. intros Hx Hy. by rewrite Z.land_lor_distr_l, Hx, Hy. Qed.

Lemma is_u8_mask x m : is_u8 m → is_u8 (Z.land x m).
Proof. rewrite !is_u8_land. intros Hm. by rewrite <- Z.land_assoc, Hm. Qed.

Lemma put_le16_ok v : bytes_ok (WPA_PUT_LE16 v).
Proof.
  constructor; [rewrite land_255; apply u8_range|]. constructor; [apply u8_range|constructor].
Qed.

#[export] Hint Resolve is_u8_lor is_u8_mask put_le16_ok : cmodel.

(** An OR of disjoint bit ranges is a sum. *)
Lemma lor_add x y n : 0 ≤ n → x `mod` 2 ^ n = 0 → 0 ≤ y < 2 ^ n → Z.lor x y = x + y.
Proof.
  intros Hn Hx Hy.
  assert (Z.land x y = 0) as H0.
  { rewrite <- (Z.mod_small y (2 ^ n)) by lia. rewrite <- Z.land_ones by lia.
    rewrite (Z.land_comm y), Z.land_assoc, Z.land_ones, Hx by lia. apply Z.land_0_l. }
  rewrite <- Z.lxor_lor by done. symmetry. by apply Z.add_nocarry_lxor.
Qed.

Lemma lor_shiftl_add x y n : 0 ≤ n → 0 ≤ y < 2 ^ n → Z.lor (Z.shiftl x n) y = x * 2 ^ n + y.
Proof.
  intros Hn Hy. rewrite Z.shiftl_mul_pow2 by lia.
  apply lor_add with (n := n); [lia| |lia]. apply Z.mod_mul. lia.
Qed.

(** The numerals a polynomial in powers of 256 is made of. *)
Lemma WPA_GET_BE32_val a0 a1 a2 a3 r :
  is_u8 a0 → is_u8 a1 → is_u8 a2 → is_u8 a3 →
  WPA_GET_BE32 (a0 :: a1 :: a2 :: a3 :: r) = Ok (a0 * 2 ^ 24 + a1 * 2 ^ 16 + a2 * 2 ^ 8 + a3).
Proof.
  unfold is_u8. intros H0 H1 H2 H3. unfold WPA_GET_BE32. cbn -[Z.shiftl Z.lor u32 Z.pow].
  f_equal. rewrite !Z.shiftl_mul_pow2 by lia.
  unfold u32. rewrite (Z.mod_small (a0 * 2 ^ 24)) by lia.
  rewrite (lor_add (a0 * 2 ^ 24) _ 24); [|lia|apply Z.mod_mul; lia|lia].
  rewrite (lor_add _ (a2 * 2 ^ 8) 16); [|lia| |lia].
  2:{ replace (a0 * 2 ^ 24 + a1 * 2 ^ 16) with ((a0 * 2 ^ 8 + a1) * 2 ^ 16) by lia.
      apply Z.mod_mul. lia. }
  rewrite (lor_add _ a3 8); [done|lia| |lia].
  replace (a0 * 2 ^ 24 + a1 * 2 ^ 16 + a2 * 2 ^ 8)
    with ((a0 * 2 ^ 16 + a1 * 2 ^ 8 + a2) * 2 ^ 8) by lia.
  apply Z.mod_mul. lia.
Qed.

Lemma WPA_GET_LE32_BE32 a0 a1 a2 a3 r :
  WPA_GET_LE32 (a0 :: a1 :: a2 :: a3 :: r) = WPA_GET_BE32 (a3 :: a2 :: a1 :: a0 :: r).
Proof. reflexivity. Qed.

Lemma WPA_GET_BE24_val a0 a1 a2 r :
  is_u8 a0 → is_u8 a1 → is_u8 a2 →
  WPA_GET_BE24 (a0 :: a1 :: a2 :: r) = Ok (a0 * 2 ^ 16 + a1 * 2 ^ 8 + a2).
Proof.
  unfold is_u8. intros H0 H1 H2. unfold WPA_GET_BE24. cbn -[Z.shiftl Z.lor Z.pow].
  f_equal. rewrite !Z.shiftl_mul_pow2 by lia.
  rewrite (lor_add (a0 * 2 ^ 16) _ 16); [|lia|apply Z.mod_mul; lia|lia].
  rewrite (lor_add _ a2 8); [done|lia| |lia].
  replace (a0 * 2 ^ 16 + a1 * 2 ^ 8) with ((a0 * 2 ^ 8 + a1) * 2 ^ 8) by lia.
  apply Z.mod_mul. lia.
Qed.

Lemma WPA_GET_BE16_val a0 a1 r :
  is_u8 a0 → is_u8 a1 → WPA_GET_BE16 (a0 :: a1 :: r) = Ok (a0 * 2 ^ 8 + a1).
Proof.
  unfold is_u8. intros H0 H1. unfold WPA_GET_BE16. cbn -[Z.shiftl Z.lor Z.pow].
  by rewrite lor_shiftl_add by lia.
Qed.

(** What was put is what is read back, whatever follows. *)
Lemma get_put_be32 v r : 0 ≤ v < 2 ^ 32 → WPA_GET_BE32 (WPA_PUT_BE32 v ++ r) = Ok v.
Proof.
  intros Hv. unfold WPA_PUT_BE32. cbn [app].
  rewrite WPA_GET_BE32_val by (try apply octet_range; rewrite land_255; apply u8_range).
  rewrite !land_255, !shiftr_div by lia. f_equal.
  change (2 ^ 32) with 4294967296 in *. change (2 ^ 24) with 16777216.
  change (2 ^ 16) with 65536. change (2 ^ 8) with 256. Z.to_euclidean_division_equations. lia.
Qed.

Lemma get_put_le32 v r : 0 ≤ v < 2 ^ 32 → WPA_GET_LE32 (WPA_PUT_LE32 v ++ r) = Ok v.
Proof.
  intros Hv. unfold WPA_PUT_LE32. cbn [app].
  rewrite WPA_GET_LE32_BE32. apply (get_put_be32 v r Hv).
Qed.

Lemma get_put_be24 v r : 0 ≤ v < 2 ^ 24 → WPA_GET_BE24 (WPA_PUT_BE24 v ++ r) = Ok v.
Proof.
  intros Hv. unfold WPA_PUT_BE24. cbn [app].
  rewrite WPA_GET_BE24_val by (try apply octet_range; rewrite land_255; apply u8_range).
  rewrite !land_255, !shiftr_div by lia. f_equal.
  change (2 ^ 24) with 16777216 in *. change (2 ^ 16) with 65536.
  change (2 ^ 8) with 256. Z.to_euclidean_division_equations. lia.
Qed.

Lemma get_put_be16 v r : 0 ≤ v < 2 ^ 16 → WPA_GET_BE16 (WPA_PUT_BE16 v ++ r) = Ok v.
Proof.
  intros Hv. unfold WPA_PUT_BE16. cbn [app].
  rewrite WPA_GET_BE16_val by (try apply u8_range; rewrite land_255; apply u8_range).
  unfold u8. rewrite !land_255, !shiftr_div by lia. f_equal.
  change (2 ^ 16) with 65536 in *. change (2 ^ 8) with 256.
  Z.to_euclidean_division_equations. lia.
Qed.

Lemma get_put_le16 v r : 0 ≤ v < 2 ^ 16 → WPA_GET_LE16 (WPA_PUT_LE16 v ++ r) = Ok v.
Proof.
  intros Hv. unfold WPA_PUT_LE16. cbn [app].
  change (WPA_GET_LE16 (?a :: ?b :: r)) with (WPA_GET_BE16 (b :: a :: r)).
  apply (get_put_be16 v r Hv).
Qed.

(** ** Lemmas: hexadecimal round trips *)

Lemma hex2num_hexdig n : 0 ≤ n < 16 → hex2num (hexdig n) = n.
Proof.
  intros Hn. unfold hexdig, hex2num. repeat case_decide; lia.
Qed.

Lemma hex2byte_hex02 b r : is_u8 b → hex2byte (hex02 b ++ r) = Ok b.
Proof.
  unfold is_u8. intros Hb. unfold hex2byte, hex02. cbn [app rd lookup list_lookup].
  pose proof (Z.mod_pos_bound b 16 ltac:(lia)).
  assert (0 ≤ b / 16 < 16) by (split; [apply Z.div_pos; lia|apply Z.div_lt_upper_bound; lia]).
  unfold rd. cbn [lookup list_lookup mbind outcome_bind]. rewrite !hex2num_hexdig by lia.
  rewrite !decide_False by lia. f_equal. rewrite lor_shiftl_add by lia.
  pose proof (Z.div_mod b 16 ltac:(lia)). lia.
Qed.

(** The text of a byte string, two lower-case digits per octet. *)
Definition hex_txt (b : bytes) : bytes := concat (map hex02 b).

Lemma hexstr2bin_loop_spec data out r :
  bytes_ok data →
  hexstr2bin_loop (length data) (hex_txt data ++ r) out = Ok (0, out ++ data).
Proof.
  intros Hd. revert out. induction Hd as [|b data Hb Hd IH]; intros out.
  - cbn. by rewrite app_nil_r.
  - unfold hex_txt. cbn [length map concat hexstr2bin_loop].
    rewrite <- app_assoc, hex2byte_hex02 by done. cbn [mbind outcome_bind].
    unfold is_u8 in Hb. rewrite decide_False by lia.
    change (drop 2 (hex02 b ++ ?t)) with t. unfold hex_txt in IH.
    rewrite IH, <- app_assoc. done.
Qed.

(** A result of [hex2byte] is an octet or -1. *)
Lemma hex2num_range c : -1 ≤ hex2num c < 16.
Proof. unfold hex2num. repeat case_decide; lia. Qed.

Lemma hex2byte_range h v : hex2byte h = Ok v → v = -1 ∨ is_u8 v.
Proof.
  unfold hex2byte. intros (c0 & _ & H)%bind_Ok_inv.
  pose proof (hex2num_range c0). case_decide; [left; by simplify_eq|].
  apply bind_Ok_inv in H as (c1 & _ & H). pose proof (hex2num_range c1).
  case_decide; [left; by simplify_eq|]. right. simplify_eq.
  rewrite lor_shiftl_add by lia. unfold is_u8. lia.
Qed.

(** ** Lemmas: counters *)

(** The big-endian value of a byte string. *)
Definition be_val (b : bytes) : Z := fold_left (λ acc c, 256 * acc + c) b 0.

Lemma be_val_snoc b c : be_val (b ++ [c]) = 256 * be_val b + c.
Proof. unfold be_val. by rewrite fold_left_app. Qed.

Lemma be_val_bound b : bytes_ok b → 0 ≤ be_val b < 256 ^ zlen b.
Proof.
  induction b as [|c b IH] using rev_ind; [done|].
  intros [Hb Hc]%Forall_app. apply Forall_cons_1 in Hc as [Hc _]. specialize (IH Hb).
  rewrite be_val_snoc, zlen_snoc. unfold is_u8 in Hc.
  pose proof (zlen_nonneg b). rewrite Z.pow_add_r by lia. change (256 ^ 1) with 256. lia.
Qed.

Lemma be_val_app b r : be_val (b ++ r) = be_val b * 256 ^ zlen r + be_val r.
Proof.
  induction r as [|c r IH] using rev_ind.
  - rewrite app_nil_r. change (zlen []) with 0. cbn. lia.
  - rewrite app_assoc, !be_val_snoc, IH, zlen_snoc.
    pose proof (zlen_nonneg r). rewrite Z.pow_add_r by lia. change (256 ^ 1) with 256. lia.
Qed.

Lemma be_val_zeros n : be_val (replicate n 0) = 0.
Proof.
  induction n as [|n IH]; [done|].
  change (replicate (S n) 0) with ([0] ++ replicate n 0). by rewrite be_val_app, IH.
Qed.

Lemma inc_byte_loop_spec b t :
  bytes_ok b →
  let r := inc_byte_loop (length b) (b ++ t) in
  ∃ b', r = b' ++ t ∧ length b' = length b ∧ bytes_ok b' ∧
        be_val b' = (be_val b + 1) `mod` 256 ^ zlen b.
Proof.
  revert t. induction b as [|c b IH] using rev_ind; intros t; cbn zeta.
  { intros _. exists []. split_and!; [done|done|constructor|done]. }
  intros [Hb Hc]%Forall_app. apply Forall_cons_1 in Hc as [Hc _].
  rewrite length_app, Nat.add_1_r, <- app_assoc. cbn [app inc_byte_loop].
  rewrite (list_lookup_middle b t c _ eq_refl). cbn [default from_option]. unfold id.
  rewrite insert_app_r_alt, Nat.sub_diag by lia. cbn [insert list_insert].
  pose proof (be_val_bound b Hb) as Hbv. pose proof (zlen_nonneg b).
  rewrite be_val_snoc, zlen_snoc.
  assert (256 ^ (zlen b + 1) = 256 * 256 ^ zlen b) as Hpow.
  { rewrite Z.pow_add_r by lia. change (256 ^ 1) with 256. lia. }
  unfold is_u8 in Hc. unfold u8. change (2 ^ 8) with 256 in *.
  destruct (decide (c = 255)) as [->|Hne].
  - rewrite decide_False by (rewrite Z.mod_same; lia).
    destruct (IH (((255 + 1) `mod` 256) :: t) Hb) as (b' & Hr & Hl & Hok & Hv).
    rewrite Hr. exists (b' ++ [(255 + 1) `mod` 256]).
    change ((255 + 1) `mod` 256) with 0. rewrite <- app_assoc, be_val_snoc, Hv.
    split_and!; [done|rewrite length_app; cbn; lia| |].
    + apply Forall_app. split; [done|]. repeat constructor; done.
    + rewrite Hpow. replace (256 * be_val b + 255 + 1) with (256 * (be_val b + 1)) by lia.
      rewrite Zmult_mod_distr_l. lia.
  - rewrite decide_True by (rewrite Z.mod_small; lia).
    rewrite Z.mod_small by lia. exists (b ++ [c + 1]).
    rewrite <- app_assoc, be_val_snoc.
    split_and!; [done|rewrite length_app; cbn; lia| |].
    + apply Forall_app. split; [done|]. repeat constructor; unfold is_u8; lia.
    + rewrite Hpow, Z.mod_small by lia. lia.
Qed.

(** ** Properties *)

(** Incrementing a counter of any length adds one to its big-endian value
    modulo [256 ^ length]: carries propagate to the more significant octets and
    the counter wraps around; its length never changes. *)
Lemma inc_byte_array_value (counter : bytes) :
  bytes_ok counter →
  length (inc_byte_array counter) = length counter ∧
  bytes_ok (inc_byte_array counter) ∧
  be_val (inc_byte_array counter) = (be_val counter + 1) `mod` 256 ^ zlen counter.
Proof.
  intros Hc. unfold inc_byte_array.
  destruct (inc_byte_loop_spec counter [] Hc) as (b' & Hr & Hl & Hok & Hv).
  rewrite app_nil_r in Hr. rewrite Hr, app_nil_r. done.
Qed.

Lemma inc_byte_array_value_witness :
  bytes_ok [0; 255; 255] ∧
  inc_byte_array [0; 255; 255] = [1; 0; 0] ∧
  be_val (inc_byte_array [0; 255; 255]) = (be_val [0; 255; 255] + 1) `mod` 256 ^ 3.
Proof.
  assert (bytes_ok [0; 255; 255]) as H by (repeat constructor; done).
  split; [exact H|]. split; [reflexivity|].
  exact (proj2 (proj2 (inc_byte_array_value [0; 255; 255] H))).
Defined.

Lemma hwaddr_parse_loop_colon k b r addr :
  is_u8 b →
  hwaddr_parse_loop (S (S k)) (hex02 b ++ 58 :: r) addr =
  hwaddr_parse_loop (S k) r (<[(ETH_ALEN - S (S k))%nat := b]> addr).
Proof.
  intros Hb. cbn [hwaddr_parse_loop]. rewrite hex2byte_hex02 by done.
  cbn [mbind outcome_bind]. unfold is_u8 in Hb. rewrite decide_False by lia. reflexivity.
Qed.

Lemma hwaddr_parse_loop_last b r addr :
  is_u8 b →
  hwaddr_parse_loop 1 (hex02 b ++ r) addr = Ok (Some r, <[5%nat := b]> addr).
Proof.
  intros Hb. cbn [hwaddr_parse_loop]. rewrite hex2byte_hex02 by done.
  cbn [mbind outcome_bind]. unfold is_u8 in Hb. rewrite decide_False by lia. reflexivity.
Qed.

(** The text 02:00:5e:10:ab:cd. *)
Definition lit_mac_example : bytes :=
  [48; 50; 58; 48; 48; 58; 53; 101; 58; 49; 48; 58; 97; 98; 58; 99; 100].

(** A MAC address survives printing with [MACSTR] and parsing with
    [hwaddr_aton]: every octet is recovered whatever the output buffer held
    before and whatever text follows. *)
Lemma hwaddr_aton_mac_txt a0 a1 a2 a3 a4 a5 txt r addr :
  bytes_ok [a0; a1; a2; a3; a4; a5] → length addr = ETH_ALEN →
  mac_txt [a0; a1; a2; a3; a4; a5] = Ok txt →
  hwaddr_aton (txt ++ r) addr = Ok (0, [a0; a1; a2; a3; a4; a5]).
Proof.
  intros Ha Hl Ht. unfold bytes_ok in Ha. rewrite !Forall_cons_iff in Ha.
  destruct Ha as (H0 & H1 & H2 & H3 & H4 & H5 & _).
  destruct addr as [|x0 [|x1 [|x2 [|x3 [|x4 [|x5 [|]]]]]]]; try discriminate Hl.
  assert (txt = hex02 a0 ++ 58 :: hex02 a1 ++ 58 :: hex02 a2 ++ 58 ::
      hex02 a3 ++ 58 :: hex02 a4 ++ 58 :: hex02 a5) as ->.
  { symmetry. by injection Ht. }
  unfold hwaddr_aton, hwaddr_parse. change ETH_ALEN with 6%nat at 1.
  repeat (rewrite <- app_assoc; rewrite <- app_comm_cons;
          rewrite hwaddr_parse_loop_colon by done).
  by rewrite hwaddr_parse_loop_last by done.
Qed.

Lemma hwaddr_aton_mac_txt_witness :
  mac_txt [2; 0; 94; 16; 171; 205] = Ok (lit_mac_example) ∧
  hwaddr_aton (lit_mac_example ++ [0]) [0; 0; 0; 0; 0; 0] = Ok (0, [2; 0; 94; 16; 171; 205]).
Proof.
  assert (mac_txt [2; 0; 94; 16; 171; 205] = Ok lit_mac_example) as H by reflexivity.
  split; [exact H|].
  apply (hwaddr_aton_mac_txt 2 0 94 16 171 205 lit_mac_example [0] [0; 0; 0; 0; 0; 0]);
    [repeat constructor; done|reflexivity|exact H].
Defined.
