(* ===== verification/Reltime.v ===== *)
(** * Times and ordered lists

    [struct os_reltime] of [src/utils/os.h] as a pair of seconds and
    microseconds, the order of times, and lists sorted by a relation. *)

From Stdlib Require Import ZArith Lia Sorted.
From stdpp Require Import base option list numbers decidable.
From S2P Require Import Prelude.
Local Open Scope Z_scope.

Definition os_reltime_sub (a b : Z * Z) : Z * Z :=
  let sec := fst a - fst b in
  let usec := snd a - snd b in
  if decide (usec < 0) then (sec - 1, usec + 1000000) else (sec, usec).

Definition os_reltime_expired (now ts : Z * Z) (timeout_secs : Z) : bool :=
  let age := os_reltime_sub now ts in
  bool_decide (timeout_secs < fst age) ||
  (bool_decide (fst age = timeout_secs) && bool_decide (0 < snd age)).

Definition os_reltime_before (a b : Z * Z) : bool :=
  bool_decide (fst a < fst b) || (bool_decide (fst a = fst b) && bool_decide (snd a < snd b)).

(** ** The order of times *)

Definition usec_ok (t : Z * Z) : Prop := 0 ≤ snd t < 1000000.

(** [a] is not later than [b]. *)
Definition time_le (a b : Z * Z) : Prop := fst a < fst b ∨ (fst a = fst b ∧ snd a ≤ snd b).

Lemma before_true a b : os_reltime_before a b = true ↔ time_le a b ∧ a ≠ b.
Proof.
  destruct a as [a1 a2], b as [b1 b2]. unfold os_reltime_before, time_le. cbn.
  rewrite orb_true_iff, andb_true_iff, !bool_decide_eq_true. split.
  - intros H. split; [lia|]. intros [= ]. lia.
  - intros [H Hne]. destruct (decide (a1 = b1)) as [->|]; [|lia].
    destruct (decide (a2 = b2)) as [->|]; [done|lia].
Qed.

Lemma before_false a b : os_reltime_before a b = false ↔ time_le b a.
Proof.
  destruct a as [a1 a2], b as [b1 b2]. unfold os_reltime_before, time_le. cbn.
  rewrite orb_false_iff, andb_false_iff, !bool_decide_eq_false. lia.
Qed.

#[export] Instance time_le_preorder : PreOrder time_le.
Proof.
  split; [intros [a1 a2]; unfold time_le; cbn; lia|].
  intros [a1 a2] [b1 b2] [c1 c2]. unfold time_le. cbn. lia.
Qed.

Lemma expired_earlier now a b s :
  usec_ok now → usec_ok a → usec_ok b → time_le a b →
  os_reltime_expired now b s = true → os_reltime_expired now a s = true.
Proof.
  destruct now as [n1 n2], a as [a1 a2], b as [b1 b2]. unfold usec_ok, time_le. cbn.
  intros Hn Ha Hb Hle. unfold os_reltime_expired, os_reltime_sub. cbn.
  rewrite !orb_true_iff, !andb_true_iff, !bool_decide_eq_true.
  destruct (decide (n2 - b2 < 0)), (decide (n2 - a2 < 0)); cbn; lia.
Qed.

(** ** Sorted lists *)

Lemma sorted_filter {A} (R : A → A → Prop) f l : StronglySorted R l → StronglySorted R (List.filter f l).
Proof.
  induction 1 as [|x l Hs IH Hx]; [constructor|]. cbn. destruct (f x); [|done]. constructor; [done|].
  apply List.Forall_forall. intros y [Hy _]%filter_In. rewrite List.Forall_forall in Hx. by apply Hx.
Qed.

Lemma sorted_drop {A} (R : A → A → Prop) k (l : list A) : StronglySorted R l → StronglySorted R (drop k l).
Proof. intros H. revert k. induction H; intros [|k]; cbn; try constructor; done. Qed.

Lemma sorted_snoc {A} (R : A → A → Prop) l x :
  StronglySorted R l → Forall (λ y, R y x) l → StronglySorted R (l ++ [x]).
Proof.
  induction 1 as [|y l Hs IH Hy]; intros Hx; cbn; [constructor; constructor|].
  apply Forall_cons_iff in Hx as [Hyx Hx]. constructor; [by apply IH|].
  apply Forall_app. split; [done|by constructor].
Qed.

(** Inserting before the first greater element of a sorted list *)
Lemma sorted_insert {A} (R : A → A → Prop) l1 l2 x :
  StronglySorted R (l1 ++ l2) → Forall (λ y, R y x) l1 → Forall (R x) l2 →
  StronglySorted R (l1 ++ x :: l2).
Proof.
  induction l1 as [|y l1 IH]; intros Hs H1 H2; cbn in *; [by constructor|].
  apply StronglySorted_inv in Hs as [Hs Hy]. apply Forall_cons_iff in H1 as [Hyx H1].
  constructor; [by apply IH|]. apply Forall_app in Hy as [Hy1 Hy2].
  apply Forall_app. split; [done|by constructor].
Qed.
