(* ===== verification/Eloop.v ===== *)
(** * The event loop

    [src/utils/eloop.c] in the build with [select] (the default): registered
    sockets, timeouts and signals, and the loop that calls their handlers.
    Pointers (handlers and their data) are numbers. The linked list of timeouts
    is a list, the three socket tables are lists with their [changed] flags.

    A handler is a function on the event loop's data and on the rest of the
    program ([Handlers]); handlers use the event loop through its interface only
    ([HandlersOk]). What a turn of the loop sees of the outside (the clock, the
    result of [select], signals) is a [turn]. *)

From Stdlib Require Import ZArith Lia Sorted.
From stdpp Require Import base option list numbers decidable relations.
From S2P Require Import Prelude Reltime.
Local Open Scope Z_scope.

(** ** Data *)

Record eloop_sock := mk_sock {
  sock_fd : Z;
  sock_handler : Z;
  sock_eloop_data : Z;
  sock_user_data : Z }.

Record eloop_timeout := mk_timeout {
  time : Z * Z;
  t_handler : Z;
  t_eloop_data : Z;
  t_user_data : Z }.

Record eloop_signal := mk_signal {
  sig : Z;
  sig_handler : Z;
  sig_user_data : Z;
  sig_signaled : Z }.

Record eloop_sock_table := mk_table {
  table : list eloop_sock;
  changed : bool }.

#[export] Instance eloop_sock_table_eta : Eta eloop_sock_table := λ t, mk_table (table t) (changed t).

Inductive eloop_event_type : Set := EVENT_TYPE_READ | EVENT_TYPE_WRITE | EVENT_TYPE_EXCEPTION.

#[export] Instance eloop_event_type_eq_dec : EqDecision eloop_event_type.
Proof. solve_decision. Defined.

(** [struct eloop_data] *)
Record eloop_data := mk_eloop {
  max_sock : Z;
  count : Z;
  readers : eloop_sock_table;
  writers : eloop_sock_table;
  exceptions : eloop_sock_table;
  timeout : list eloop_timeout;
  signals : list eloop_signal;
  signaled : Z;
  pending_terminate : bool;
  terminate : bool }.

#[export] Instance eloop_data_eta : Eta eloop_data := λ e, mk_eloop
  (max_sock e) (count e) (readers e) (writers e) (exceptions e) (timeout e) (signals e) (signaled e)
  (pending_terminate e) (terminate e).

Definition ELOOP_ALL_CTX : Z := -1.
Definition FD_SETSIZE : Z := 1024.
Definition SIGHUP : Z := 1.
Definition SIGINT : Z := 2.
Definition SIGTERM : Z := 15.

(** [eloop_init] *)
Definition eloop_init : eloop_data :=
  mk_eloop 0 0 (mk_table [] false) (mk_table [] false) (mk_table [] false) [] [] 0 false false.

(** ** Sockets *)

Definition eloop_get_sock_table (type : eloop_event_type) (e : eloop_data) : eloop_sock_table :=
  match type with
  | EVENT_TYPE_READ => readers e
  | EVENT_TYPE_WRITE => writers e
  | EVENT_TYPE_EXCEPTION => exceptions e
  end.

Definition set_table (type : eloop_event_type) (t : eloop_sock_table) (e : eloop_data) : eloop_data :=
  match type with
  | EVENT_TYPE_READ => e <| readers := t |>
  | EVENT_TYPE_WRITE => e <| writers := t |>
  | EVENT_TYPE_EXCEPTION => e <| exceptions := t |>
  end.

(** [mem] tells whether the table can be reallocated. *)
Definition eloop_sock_table_add_sock (mem : bool) (type : eloop_event_type) (s : eloop_sock)
    (e : eloop_data) : Z * eloop_data :=
  let new_max_sock := if decide (sock_fd s > max_sock e) then sock_fd s else max_sock e in
  if negb mem then (-1, e)
  else
    let t := eloop_get_sock_table type e in
    (0, set_table type (mk_table (table t ++ [s]) true) e
          <| max_sock := new_max_sock |> <| count := count e + 1 |>).

(** The first socket of the table with the descriptor, and the table without it *)
Definition find_sock (sock : Z) (l : list eloop_sock) : option nat :=
  fst <$> list_find (λ s, sock_fd s = sock) l.

Definition eloop_sock_table_remove_sock (type : eloop_event_type) (sock : Z) (e : eloop_data) : eloop_data :=
  let t := eloop_get_sock_table type e in
  match find_sock sock (table t) with
  | None => e
  | Some i => set_table type (mk_table (delete i (table t)) true) e <| count := count e - 1 |>
  end.

(** [assert(sock >= 0)] *)
Definition eloop_register_sock (mem : bool) (sock : Z) (type : eloop_event_type)
    (handler eloop_data_ user_data : Z) (e : eloop_data) : outcome (Z * eloop_data) :=
  if decide (0 ≤ sock) then
    Ok (eloop_sock_table_add_sock mem type (mk_sock sock handler eloop_data_ user_data) e)
  else Undef Aborted.

Definition eloop_unregister_sock (sock : Z) (type : eloop_event_type) : eloop_data → eloop_data :=
  eloop_sock_table_remove_sock type sock.

Definition eloop_register_read_sock (mem : bool) (sock handler eloop_data_ user_data : Z) :
    eloop_data → outcome (Z * eloop_data) :=
  eloop_register_sock mem sock EVENT_TYPE_READ handler eloop_data_ user_data.

Definition eloop_unregister_read_sock (sock : Z) : eloop_data → eloop_data :=
  eloop_unregister_sock sock EVENT_TYPE_READ.

(** ** Timeouts *)

(** The loop that carries microseconds over: [usec] is below [2 ^ 32 + 10 ^ 6], so
    that it has at most 4296 rounds. *)
Fixpoint carry (rounds : nat) (sec usec : Z) : Z * Z :=
  match rounds with
  | O => (sec, usec)
  | S n => if decide (1000000 ≤ usec) then carry n (sec + 1) (usec - 1000000) else (sec, usec)
  end.

(** [os_time_t] is a [long]. *)
Definition s64 (z : Z) : Z := (z + 2 ^ 63) `mod` 2 ^ 64 - 2 ^ 63.

(** The [dl_list_for_each] loop *)
Fixpoint insert_timeout (t : eloop_timeout) (l : list eloop_timeout) : list eloop_timeout :=
  match l with
  | [] => [t]
  | tmp :: l =>
    if os_reltime_before (time t) (time tmp) then t :: tmp :: l else tmp :: insert_timeout t l
  end.

(** [mem] tells whether the timeout can be allocated, [now] is the result of
    [os_get_reltime]. *)
Definition eloop_register_timeout (mem : bool) (now : option (Z * Z)) (secs usecs : Z)
    (handler eloop_data_ user_data : Z) (e : eloop_data) : Z * eloop_data :=
  if negb mem then (-1, e)
  else
    match now with
    | None => (-1, e)
    | Some (now_sec, now_usec) =>
      let sec := s64 (now_sec + secs) in
      if decide (sec < now_sec) then (0, e)
      else
        let t := mk_timeout (carry 4296 sec (now_usec + usecs)) handler eloop_data_ user_data in
        (0, e <| timeout := insert_timeout t (timeout e) |>)
    end.

Definition matches (handler eloop_data_ user_data : Z) (t : eloop_timeout) : bool :=
  bool_decide (t_handler t = handler) && bool_decide (t_eloop_data t = eloop_data_) &&
  bool_decide (t_user_data t = user_data).

(** The condition of [eloop_cancel_timeout] *)
Definition matches_ctx (handler eloop_data_ user_data : Z) (t : eloop_timeout) : bool :=
  bool_decide (t_handler t = handler) &&
  (bool_decide (t_eloop_data t = eloop_data_) || bool_decide (eloop_data_ = ELOOP_ALL_CTX)) &&
  (bool_decide (t_user_data t = user_data) || bool_decide (user_data = ELOOP_ALL_CTX)).

(** A loop that removes the timeouts it finds; [one] stops after the first. *)
Fixpoint remove_timeouts (f : eloop_timeout → bool) (one : bool) (l : list eloop_timeout) :
    list eloop_timeout * Z :=
  match l with
  | [] => ([], 0)
  | t :: l =>
    if f t then
      if one then (l, 1) else let r := remove_timeouts f one l in (r.1, r.2 + 1)
    else let r := remove_timeouts f one l in (t :: r.1, r.2)
  end.

Definition eloop_cancel_timeout (handler eloop_data_ user_data : Z) (e : eloop_data) : Z * eloop_data :=
  let r := remove_timeouts (matches_ctx handler eloop_data_ user_data) false (timeout e) in
  (r.2, e <| timeout := r.1 |>).

(** The first timeout registered for the arguments *)
Definition find_timeout (handler eloop_data_ user_data : Z) (e : eloop_data) : option eloop_timeout :=
  List.find (matches handler eloop_data_ user_data) (timeout e).

(** The last component is [*remaining]. *)
Definition eloop_cancel_timeout_one (now : Z * Z) (handler eloop_data_ user_data : Z)
    (e : eloop_data) : Z * eloop_data * (Z * Z) :=
  let r := remove_timeouts (matches handler eloop_data_ user_data) true (timeout e) in
  (r.2, e <| timeout := r.1 |>,
   match find_timeout handler eloop_data_ user_data e with
   | Some t => if os_reltime_before now (time t) then os_reltime_sub (time t) now else (0, 0)
   | None => (0, 0)
   end).

Definition eloop_is_timeout_registered (handler eloop_data_ user_data : Z) (e : eloop_data) : bool :=
  bool_decide (is_Some (find_timeout handler eloop_data_ user_data e)).

(** The common part of the next two: [worse requested remaining] decides whether
    the timeout is replaced. [now] and [now'] are the two readings of the clock. *)
Definition change_timeout (worse : Z * Z → Z * Z → bool) (mem : bool) (now : Z * Z)
    (now' : option (Z * Z)) (req_secs req_usecs handler eloop_data_ user_data : Z)
    (e : eloop_data) : Z * eloop_data :=
  match find_timeout handler eloop_data_ user_data e with
  | None => (-1, e)
  | Some tmp =>
    if worse (req_secs, req_usecs) (os_reltime_sub (time tmp) now) then
      let e := (eloop_cancel_timeout handler eloop_data_ user_data e).2 in
      (1, (eloop_register_timeout mem now' req_secs req_usecs handler eloop_data_ user_data e).2)
    else (0, e)
  end.

Definition eloop_deplete_timeout := change_timeout (λ requested remaining, os_reltime_before requested remaining).
Definition eloop_replenish_timeout := change_timeout (λ requested remaining, os_reltime_before remaining requested).

(** ** Signals *)

Definition eloop_register_signal (mem : bool) (s handler user_data : Z) (e : eloop_data) : Z * eloop_data :=
  if negb mem then (-1, e)
  else (0, e <| signals := signals e ++ [mk_signal s handler user_data 0] |>).

Definition eloop_register_signal_terminate (mem1 mem2 : bool) (handler user_data : Z)
    (e : eloop_data) : Z * eloop_data :=
  let r := eloop_register_signal mem1 SIGINT handler user_data e in
  if decide (r.1 = 0) then eloop_register_signal mem2 SIGTERM handler user_data r.2 else r.

Definition eloop_register_signal_reconfig (mem : bool) (handler user_data : Z) :
    eloop_data → Z * eloop_data :=
  eloop_register_signal mem SIGHUP handler user_data.

(** [eloop_handle_signal]: the first entry for the signal is counted. *)
Fixpoint mark_signal (s : Z) (l : list eloop_signal) : list eloop_signal :=
  match l with
  | [] => []
  | x :: l =>
    if decide (sig x = s) then mk_signal (sig x) (sig_handler x) (sig_user_data x) (sig_signaled x + 1) :: l
    else x :: mark_signal s l
  end.

Definition eloop_handle_signal (s : Z) (e : eloop_data) : eloop_data :=
  let e := if (bool_decide (s = SIGINT) || bool_decide (s = SIGTERM)) && negb (pending_terminate e)
           then e <| pending_terminate := true |> else e in
  e <| signaled := signaled e + 1 |> <| signals := mark_signal s (signals e) |>.

Definition eloop_terminate (e : eloop_data) : eloop_data := e <| terminate := true |>.

Definition eloop_terminated (e : eloop_data) : bool := terminate e || pending_terminate e.

(** ** The loop *)

(** What the handlers do with the event loop and the rest of the program *)
Class Handlers (W : Type) := {
  on_timeout : eloop_timeout → eloop_data * W → eloop_data * W;
  on_sock : eloop_sock → eloop_data * W → eloop_data * W;
  on_signal : eloop_signal → eloop_data * W → eloop_data * W }.

(** One turn as seen from outside: the clock before and after [select], the
    signals that arrive meanwhile, the result of [select] with [errno] (whether
    it is [EINTR] or 0), and the descriptors that are ready *)
Record turn := mk_turn {
  now_before : Z * Z;
  select_result : Z;
  errno_harmless : bool;
  ready : eloop_event_type → Z → bool;
  signals_in : list Z;
  now_after : Z * Z }.

Inductive turn_end : Set := Continue | Break | Out.

Section loop.
Context {W : Type} `{Handlers W}.

(** The data of the loop, the program, and what happened, newest first: the
    timeouts that fired, each with the time and the timeouts then left, and the
    waits given to [select], each with the time and the timeouts registered *)
Record loop := mk_loop {
  ev : eloop_data;
  program : W;
  fired : list (eloop_timeout * (Z * Z) * list eloop_timeout);
  waits : list (option (Z * Z) * (Z * Z) * list eloop_timeout) }.

Definition on_ev (f : eloop_data → eloop_data) (s : loop) : loop :=
  mk_loop (f (ev s)) (program s) (fired s) (waits s).

Definition run_handler (h : eloop_data * W → eloop_data * W) (s : loop) : loop :=
  let r := h (ev s, program s) in mk_loop r.1 r.2 (fired s) (waits s).

(** The loop over [eloop.signals] from index [i]; a signal registered by one of
    the handlers is not marked, so that the [n] entries at the start are all that
    matter. *)
Fixpoint signal_loop (n i : nat) (s : loop) : loop :=
  match n with
  | O => s
  | S n =>
    match signals (ev s) !! i with
    | Some x =>
      if decide (sig_signaled x ≠ 0) then
        let x0 := mk_signal (sig x) (sig_handler x) (sig_user_data x) 0 in
        signal_loop n (S i)
          (run_handler (on_signal x0) (on_ev (λ e, e <| signals := <[i := x0]> (signals e) |>) s))
      else signal_loop n (S i) s
    | None => s
    end
  end.

Definition eloop_process_pending_signals (s : loop) : loop :=
  if decide (signaled (ev s) = 0) then s
  else
    let s := on_ev (λ e, e <| signaled := 0 |> <| pending_terminate := false |>) s in
    signal_loop (length (signals (ev s))) 0 s.

(** What [select] waits at most: nothing for an expired timeout, [None] without
    timeouts *)
Definition select_timeout (now : Z * Z) (e : eloop_data) : option (Z * Z) :=
  match timeout e with
  | [] => None
  | t :: _ => Some (if os_reltime_before now (time t) then os_reltime_sub (time t) now else (0, 0))
  end.

(** The sockets are put into a set of [FD_SETSIZE] bits; a negative one fails
    the assertion. *)
Definition eloop_sock_table_set_fds (t : eloop_sock_table) : outcome unit :=
  if forallb (λ s, bool_decide (0 ≤ sock_fd s)) (table t)
  then guard_ub OutOfBounds (forallb (λ s, bool_decide (sock_fd s < FD_SETSIZE)) (table t))
  else Undef Aborted.

(** The loop of [eloop_sock_table_dispatch] from index [i]: it stops when a
    handler changed the table, so that the table has [n] entries until it ends. *)
Fixpoint dispatch_loop (n i : nat) (type : eloop_event_type) (fds : Z → bool) (s : loop) : loop :=
  match n with
  | O => s
  | S n =>
    match table (eloop_get_sock_table type (ev s)) !! i with
    | Some x =>
      if fds (sock_fd x) then
        let s := run_handler (on_sock x) s in
        if changed (eloop_get_sock_table type (ev s)) then s
        else dispatch_loop n (S i) type fds s
      else dispatch_loop n (S i) type fds s
    | None => s
    end
  end.

Definition eloop_sock_table_dispatch (type : eloop_event_type) (fds : Z → bool) (s : loop) : loop :=
  let s := on_ev (λ e, set_table type ((eloop_get_sock_table type e) <| changed := false |>) e) s in
  dispatch_loop (length (table (eloop_get_sock_table type (ev s)))) 0 type fds s.

Definition eloop_remove_timeout (e : eloop_data) : eloop_data := e <| timeout := tail (timeout e) |>.

(** "check if some registered timeouts have occurred": at most one is run. *)
Definition run_timeout (now : Z * Z) (s : loop) : loop :=
  match timeout (ev s) with
  | [] => s
  | t :: rest =>
    if os_reltime_before now (time t) then s
    else
      let s := on_ev eloop_remove_timeout s in
      run_handler (on_timeout t) (mk_loop (ev s) (program s) ((t, now, rest) :: fired s) (waits s))
  end.

Definition clear_changed (e : eloop_data) : eloop_data :=
  e <| readers := (readers e) <| changed := false |> |>
    <| writers := (writers e) <| changed := false |> |>
    <| exceptions := (exceptions e) <| changed := false |> |>.

Definition any_changed (e : eloop_data) : bool :=
  changed (readers e) || changed (writers e) || changed (exceptions e).

(** A turn after the check for a pending termination *)
Definition eloop_turn_body (t : turn) (s : loop) : outcome (turn_end * loop) :=
  let s := mk_loop (ev s) (program s) (fired s)
    ((select_timeout (now_before t) (ev s), now_before t, timeout (ev s)) :: waits s) in
  _ ← eloop_sock_table_set_fds (readers (ev s));
  _ ← eloop_sock_table_set_fds (writers (ev s));
  _ ← eloop_sock_table_set_fds (exceptions (ev s));
  let s := on_ev (λ e, foldl (λ e x, eloop_handle_signal x e) e (signals_in t)) s in
  if bool_decide (select_result t < 0) && negb (errno_harmless t) then Ok (Out, s)
  else
    let s := eloop_process_pending_signals (on_ev clear_changed s) in
    let s := run_timeout (now_after t) s in
    if decide (select_result t ≤ 0) then Ok (Continue, s)
    else if any_changed (ev s) then Ok (Continue, s)
    else
      let s := eloop_sock_table_dispatch EVENT_TYPE_READ (ready t EVENT_TYPE_READ) s in
      let s := eloop_sock_table_dispatch EVENT_TYPE_WRITE (ready t EVENT_TYPE_WRITE) s in
      Ok (Continue, eloop_sock_table_dispatch EVENT_TYPE_EXCEPTION (ready t EVENT_TYPE_EXCEPTION) s).

Definition eloop_turn (t : turn) (s : loop) : outcome (turn_end * loop) :=
  if pending_terminate (ev s) then
    let s := eloop_process_pending_signals s in
    if terminate (ev s) then Ok (Break, s) else eloop_turn_body t s
  else eloop_turn_body t s.

(** The condition of the [while] loop *)
Definition has_work (e : eloop_data) : bool :=
  negb (terminate e) &&
  negb (bool_decide (timeout e = []) && bool_decide (table (readers e) = []) &&
        bool_decide (table (writers e) = []) && bool_decide (table (exceptions e) = [])).

(** The loop with the turns to come *)
Fixpoint eloop_loop (ts : list turn) (s : loop) : outcome loop :=
  let stop := λ s, Ok (on_ev (λ e, e <| terminate := false |>) s) in
  if has_work (ev s) then
    match ts with
    | [] => Stuck
    | t :: ts =>
      r ← eloop_turn t s;
      match r.1 with
      | Continue => eloop_loop ts r.2
      | Break => stop r.2
      | Out => Ok r.2
      end
    end
  else stop s.

(** [mem] tells whether the three descriptor sets can be allocated. *)
Definition eloop_run (mem : bool) (ts : list turn) (s : loop) : outcome loop :=
  if mem then eloop_loop ts s else Ok s.

End loop.

Arguments loop W : clear implicits.

(** ** The interface the handlers use *)

Inductive eloop_api : eloop_data → eloop_data → Prop :=
| Api_register_sock mem sock type h d u e r e' :
    eloop_register_sock mem sock type h d u e = Ok (r, e') → eloop_api e e'
| Api_unregister_sock sock type e : eloop_api e (eloop_unregister_sock sock type e)
| Api_register_timeout mem now secs usecs h d u e :
    from_option usec_ok True now → 0 ≤ usecs < 2 ^ 32 →
    eloop_api e (eloop_register_timeout mem now secs usecs h d u e).2
| Api_cancel_timeout h d u e : eloop_api e (eloop_cancel_timeout h d u e).2
| Api_cancel_timeout_one now h d u e : eloop_api e (eloop_cancel_timeout_one now h d u e).1.2
| Api_deplete_timeout mem now now' secs usecs h d u e :
    from_option usec_ok True now' → 0 ≤ usecs < 2 ^ 32 →
    eloop_api e (eloop_deplete_timeout mem now now' secs usecs h d u e).2
| Api_replenish_timeout mem now now' secs usecs h d u e :
    from_option usec_ok True now' → 0 ≤ usecs < 2 ^ 32 →
    eloop_api e (eloop_replenish_timeout mem now now' secs usecs h d u e).2
| Api_register_signal mem sg h u e : eloop_api e (eloop_register_signal mem sg h u e).2
| Api_terminate e : eloop_api e (eloop_terminate e).

(** Handlers use the event loop through its interface only. *)
Class HandlersOk (W : Type) `{Handlers W} : Prop := {
  on_timeout_api t e w : rtc eloop_api e (on_timeout t (e, w)).1;
  on_sock_api x e w : rtc eloop_api e (on_sock x (e, w)).1;
  on_signal_api x e w : rtc eloop_api e (on_signal x (e, w)).1 }.

(** ** The invariant *)

Definition timeout_le (a b : eloop_timeout) : Prop := time_le (time a) (time b).

(** Timeouts are in order, sockets are valid and below [max_sock], and the number
    of sockets is counted. *)
Record eloop_ok (e : eloop_data) : Prop := {
  ok_sorted : StronglySorted timeout_le (timeout e);
  ok_usec : Forall (λ t, usec_ok (time t)) (timeout e);
  ok_socks type : Forall (λ s, 0 ≤ sock_fd s ≤ max_sock e) (table (eloop_get_sock_table type e));
  ok_count : count e = zlen (table (readers e)) + zlen (table (writers e)) + zlen (table (exceptions e)) }.

Lemma carry_spec n sec usec :
  0 ≤ usec < (Z.of_nat n + 1) * 1000000 →
  carry n sec usec = (sec + usec / 1000000, usec `mod` 1000000).
Proof.
  revert sec usec. induction n as [|n IH]; intros sec usec Hu; cbn [carry].
  - rewrite Z.div_small, Z.mod_small by lia. f_equal. lia.
  - destruct (decide _).
    + rewrite IH by lia. replace usec with (usec - 1000000 + 1 * 1000000) at 3 4 by lia.
      rewrite Z.div_add, Z.mod_add by lia. f_equal. lia.
    + rewrite Z.div_small, Z.mod_small by lia. f_equal. lia.
Qed.

#[global] Arguments carry : simpl never.

Lemma carry_usec sec usec : 0 ≤ usec < 4297000000 → usec_ok (carry 4296 sec usec).
Proof.
  intros Hu. rewrite carry_spec by lia. unfold usec_ok. cbn [snd]. apply Z.mod_pos_bound. lia.
Qed.

(** A timeout goes behind those that are due no later and before the others. *)
Lemma insert_timeout_split t l :
  StronglySorted timeout_le l →
  ∃ l1 l2, l = l1 ++ l2 ∧ insert_timeout t l = l1 ++ t :: l2 ∧
    Forall (λ x, timeout_le x t) l1 ∧ Forall (λ x, os_reltime_before (time t) (time x) = true) l2.
Proof.
  induction 1 as [|x l Hs IH Hx]; cbn [insert_timeout].
  - exists [], []. by repeat constructor.
  - destruct (os_reltime_before (time t) (time x)) eqn:Hb.
    + exists [], (x :: l). split_and!; [done|done|constructor|]. constructor; [done|].
      eapply Forall_impl; [exact Hx|]. intros y Hxy. apply before_true in Hb as [Hb Hne].
      apply before_true. split; [by transitivity (time x)|]. intros He. unfold timeout_le in Hxy.
      rewrite <- He in Hxy. apply Hne. destruct (time t), (time x). unfold time_le in *. cbn in *.
      f_equal; lia.
    + destruct IH as (l1 & l2 & -> & -> & H1 & H2). exists (x :: l1), l2.
      split_and!; [done|done| |done]. constructor; [|done]. by apply before_false.
Qed.

Lemma insert_timeout_sorted t l :
  StronglySorted timeout_le l → StronglySorted timeout_le (insert_timeout t l).
Proof.
  intros Hs. destruct (insert_timeout_split t l Hs) as (l1 & l2 & -> & -> & H1 & H2).
  apply sorted_insert; [done|done|]. eapply Forall_impl; [exact H2|]. by intros x [Hx _]%before_true.
Qed.

Lemma sublist_Forall {A} (P : A → Prop) l k : sublist k l → Forall P l → Forall P k.
Proof.
  induction 1 as [|x k l Hk IH|x k l Hk IH]; intros Hl; [done|..];
    apply Forall_cons_iff in Hl as [Hx Hl]; [constructor|]; auto.
Qed.

Lemma sorted_sublist {A} (R : A → A → Prop) l k :
  sublist k l → StronglySorted R l → StronglySorted R k.
Proof.
  induction 1 as [|x k l Hk IH|x k l Hk IH]; intros Hs; [constructor|..];
    apply StronglySorted_inv in Hs as [Hs Hx]; [|by apply IH].
  constructor; [by apply IH|]. by eapply sublist_Forall.
Qed.

Lemma remove_timeouts_sublist f one l : sublist (remove_timeouts f one l).1 l.
Proof.
  induction l as [|t l IH]; cbn; [constructor|].
  destruct (f t); cbn; [|by constructor]. destruct one; cbn; constructor; [done|exact IH].
Qed.

Lemma eloop_ok_timeouts e l :
  eloop_ok e → StronglySorted timeout_le l → Forall (λ t, usec_ok (time t)) l →
  eloop_ok (e <| timeout := l |>).
Proof. intros [_ _ Hs Hc] H1 H2. split; [done|done| |done]. intros []; [apply (Hs EVENT_TYPE_READ)|apply (Hs EVENT_TYPE_WRITE)|apply (Hs EVENT_TYPE_EXCEPTION)]. Qed.

Lemma cancelled_ok f one e :
  eloop_ok e → eloop_ok (e <| timeout := (remove_timeouts f one (timeout e)).1 |>).
Proof.
  intros He. apply eloop_ok_timeouts; [done|..].
  - eapply sorted_sublist; [apply remove_timeouts_sublist|apply He].
  - eapply sublist_Forall; [apply remove_timeouts_sublist|apply He].
Qed.

Lemma insert_timeout_Forall (P : eloop_timeout → Prop) t l : P t → Forall P l → Forall P (insert_timeout t l).
Proof.
  intros Ht. induction 1 as [|x l Hx Hl IH]; cbn; [by constructor|].
  destruct (os_reltime_before _ _); by repeat constructor.
Qed.

Lemma register_timeout_ok mem now secs usecs h d u e :
  from_option usec_ok True now → 0 ≤ usecs < 2 ^ 32 → eloop_ok e →
  eloop_ok (eloop_register_timeout mem now secs usecs h d u e).2.
Proof.
  intros Hnow Hu He. unfold eloop_register_timeout. destruct mem; [cbn [negb]|done].
  destruct now as [[sec usec]|]; [|done]. cbn in Hnow. unfold usec_ok in Hnow. cbn in Hnow.
  destruct (decide _); [done|]. cbn [snd]. apply eloop_ok_timeouts; [done|..].
  - apply insert_timeout_sorted, He.
  - apply insert_timeout_Forall; [|apply He]. apply carry_usec. lia.
Qed.

Lemma change_timeout_ok worse mem now now' secs usecs h d u e :
  from_option usec_ok True now' → 0 ≤ usecs < 2 ^ 32 → eloop_ok e →
  eloop_ok (change_timeout worse mem now now' secs usecs h d u e).2.
Proof.
  intros Hn Hu He. unfold change_timeout. destruct (find_timeout _ _ _ _); [|done].
  destruct (worse _ _); [|done]. by apply register_timeout_ok, cancelled_ok.
Qed.

Lemma register_sock_ok mem sock type h d u e r e' :
  eloop_register_sock mem sock type h d u e = Ok (r, e') → eloop_ok e → eloop_ok e'.
Proof.
  unfold eloop_register_sock. destruct (decide _) as [Hs|]; [|done]. intros [= Hr] He.
  revert Hr. unfold eloop_sock_table_add_sock. destruct mem; cbn; intros [= <- <-]; [|done].
  set (m := if decide _ then _ else _). assert (max_sock e ≤ m ∧ sock ≤ m) as [Hm1 Hm2].
  { unfold m. destruct (decide _); lia. }
  clearbody m. destruct He as [H1 H2 H3 H4].
  assert (∀ ty, Forall (λ s, 0 ≤ sock_fd s ≤ m) (table (eloop_get_sock_table ty e))) as H3'.
  { intros ty. eapply Forall_impl; [apply (H3 ty)|]. cbn. lia. }
  destruct type; cbn in *; (split; [done|done| |cbn; rewrite zlen_snoc; lia]);
    intros []; cbn; try apply Forall_app_2; try apply (H3' EVENT_TYPE_READ);
      try apply (H3' EVENT_TYPE_WRITE); try apply (H3' EVENT_TYPE_EXCEPTION);
      by constructor.
Qed.

Lemma find_sock_lt sock l i : find_sock sock l = Some i → (i < length l)%nat.
Proof.
  unfold find_sock. intros H. apply fmap_Some in H as ([j x] & Hf & ->).
  apply list_find_Some in Hf as (Hl & _). cbn. by apply lookup_lt_Some in Hl.
Qed.

Lemma zlen_delete {A} (l : list A) i : (i < length l)%nat → zlen (delete i l) = zlen l - 1.
Proof. intros Hi. unfold zlen. rewrite length_delete by (by apply lookup_lt_is_Some_2). lia. Qed.

Lemma Forall_delete' {A} (P : A → Prop) l i : Forall P l → Forall P (delete i l).
Proof. apply sublist_Forall, sublist_delete. Qed.

Lemma unregister_sock_ok sock type e : eloop_ok e → eloop_ok (eloop_unregister_sock sock type e).
Proof.
  intros He. unfold eloop_unregister_sock, eloop_sock_table_remove_sock.
  destruct (find_sock _ _) as [i|] eqn:Hi; [|done]. apply find_sock_lt in Hi.
  destruct He as [H1 H2 H3 H4].
  destruct type; cbn in *; (split; [done|done| |cbn; rewrite zlen_delete by done; lia]);
    intros []; cbn; try apply Forall_delete'; try apply (H3 EVENT_TYPE_READ);
      try apply (H3 EVENT_TYPE_WRITE); try apply (H3 EVENT_TYPE_EXCEPTION).
Qed.

(** The invariant is about these parts of the data only. *)
Lemma eloop_ok_ext e e' :
  timeout e' = timeout e → max_sock e' = max_sock e → count e' = count e →
  (∀ ty, table (eloop_get_sock_table ty e') = table (eloop_get_sock_table ty e)) →
  eloop_ok e → eloop_ok e'.
Proof.
  intros Ht Hm Hc Hs [H1 H2 H3 H4]. split; rewrite ?Ht, ?Hm, ?Hc; [done|done| |].
  - intros ty. rewrite Hs. apply H3.
  - pose proof (Hs EVENT_TYPE_READ) as Hr. pose proof (Hs EVENT_TYPE_WRITE) as Hw.
    pose proof (Hs EVENT_TYPE_EXCEPTION) as Hx. cbn in Hr, Hw, Hx. by rewrite Hr, Hw, Hx.
Qed.

Lemma register_signal_ok mem sg h u e : eloop_ok e → eloop_ok (eloop_register_signal mem sg h u e).2.
Proof. intros He. destruct mem; [|done]. by apply (eloop_ok_ext e); [..|intros []|]. Qed.

Lemma api_ok e e' : eloop_api e e' → eloop_ok e → eloop_ok e'.
Proof.
  destruct 1; intros He.
  - by eapply register_sock_ok.
  - by apply unregister_sock_ok.
  - by apply register_timeout_ok.
  - by apply cancelled_ok.
  - by apply cancelled_ok.
  - by apply change_timeout_ok.
  - by apply change_timeout_ok.
  - by apply register_signal_ok.
  - by apply (eloop_ok_ext e); [..|intros []|].
Qed.

Lemma api_rtc_ok e e' : rtc eloop_api e e' → eloop_ok e → eloop_ok e'.
Proof. induction 1; eauto using api_ok. Qed.

(** ** The runs of the loop *)

Definition us (t : Z * Z) : Z := fst t * 1000000 + snd t.

(** A timeout that fired was due, and none of those left was due earlier. *)
Definition fired_ok (f : eloop_timeout * (Z * Z) * list eloop_timeout) : Prop :=
  us (time f.1.1) ≤ us f.1.2 ∧ Forall (λ x, us (time f.1.1) ≤ us (time x)) f.2.

(** [select] waits until the first timeout is due; for ever only without
    timeouts. *)
Definition wait_ok (f : option (Z * Z) * (Z * Z) * list eloop_timeout) : Prop :=
  match f.1.1 with
  | None => f.2 = []
  | Some d => usec_ok d ∧ ∃ t, t ∈ f.2 ∧ Forall (λ x, us (time t) ≤ us (time x)) f.2 ∧
      us d = Z.max 0 (us (time t) - us f.1.2)
  end.

Definition turn_ok (t : turn) : Prop := usec_ok (now_before t) ∧ usec_ok (now_after t).

Record loop_ok {W} (s : loop W) : Prop := {
  ok_ev : eloop_ok (ev s);
  ok_fired : Forall fired_ok (fired s);
  ok_waits : Forall wait_ok (waits s) }.

Lemma time_le_us a b : usec_ok a → usec_ok b → time_le a b ↔ us a ≤ us b.
Proof. destruct a, b. unfold usec_ok, time_le, us. cbn. lia. Qed.

Lemma us_sub a b : usec_ok a → usec_ok b → us (os_reltime_sub a b) = us a - us b ∧ usec_ok (os_reltime_sub a b).
Proof.
  destruct a, b. unfold usec_ok, os_reltime_sub, us. cbn. destruct (decide _); cbn; lia.
Qed.

Lemma sorted_us t l :
  StronglySorted timeout_le (t :: l) → Forall (λ t, usec_ok (time t)) (t :: l) →
  Forall (λ x, us (time t) ≤ us (time x)) l.
Proof.
  intros [_ Hs]%StronglySorted_inv [Ht Hl]%Forall_cons_iff.
  rewrite Forall_forall in Hs, Hl |- *. intros x Hx. apply time_le_us; [done|by apply Hl|].
  by apply Hs.
Qed.

Lemma select_timeout_ok now e :
  usec_ok now → eloop_ok e → wait_ok (select_timeout now e, now, timeout e).
Proof.
  intros Hn He. unfold select_timeout, wait_ok. pose proof (ok_sorted e He) as Hs.
  pose proof (ok_usec e He) as Hu. destruct (timeout e) as [|t l]; cbn [fst snd]; [done|].
  pose proof (sorted_us t l Hs Hu) as Hl. apply Forall_cons_iff in Hu as [Ht _].
  assert (Forall (λ x, us (time t) ≤ us (time x)) (t :: l)) as Hmin by (constructor; [lia|done]).
  destruct (os_reltime_before now (time t)) eqn:Hb.
  - destruct (us_sub (time t) now Ht Hn) as [Hsub Hok]. split; [done|]. exists t.
    split_and!; [by left|done|]. apply before_true in Hb as [Hle%time_le_us _]; [|done..]. lia.
  - split; [by unfold usec_ok; cbn|]. exists t. split_and!; [by left|done|].
    apply before_false in Hb. apply time_le_us in Hb; [|done..]. unfold us at 1. cbn. lia.
Qed.

Section runs.
Context {W : Type} `{HandlersOk W}.
Implicit Types s : loop W.

(** What preserves the invariant and leaves the two logs alone *)
Definition quiet (f : loop W → loop W) : Prop :=
  ∀ s, fired (f s) = fired s ∧ waits (f s) = waits s ∧ (eloop_ok (ev s) → eloop_ok (ev (f s))).

Lemma quiet_id : quiet (λ s, s).
Proof. done. Qed.

Lemma quiet_comp f g : quiet f → quiet g → quiet (λ s, g (f s)).
Proof.
  intros Hf Hg s. destruct (Hf s) as (Hf1 & Hf2 & Hf3), (Hg (f s)) as (Hg1 & Hg2 & Hg3).
  rewrite Hg1, Hg2, Hf1, Hf2. auto.
Qed.

Lemma quiet_ok f s : quiet f → loop_ok s → loop_ok (f s).
Proof.
  intros Hf [H1 H2 H3]. destruct (Hf s) as (Hf1 & Hf2 & Hf3). split; rewrite ?Hf1, ?Hf2; auto.
Qed.

Lemma quiet_handler h : (∀ e w, rtc eloop_api e (h (e, w)).1) → quiet (run_handler h).
Proof. intros Hh s. split_and!; [done|done|]. apply api_rtc_ok, Hh. Qed.

Lemma quiet_ev f : (∀ e, eloop_ok e → eloop_ok (f e)) → quiet (on_ev f).
Proof. intros Hf s. split_and!; [done|done|]. apply Hf. Qed.

Lemma quiet_signal_loop n i : quiet (signal_loop n i).
Proof.
  revert i. induction n as [|n IH]; intros i; [apply quiet_id|]. intros s. cbn [signal_loop].
  destruct (signals (ev s) !! i) as [x|]; [|apply quiet_id].
  destruct (decide _); [|apply (IH (S i))]. set (x0 := mk_signal _ _ _ _).
  set (put := λ e : eloop_data, _).
  apply (quiet_comp (on_ev put) (λ s, signal_loop n (S i) (run_handler (on_signal x0) s))).
  - apply quiet_ev. intros e. by apply eloop_ok_ext; [..|intros []].
  - apply quiet_comp; [|apply IH]. apply quiet_handler, on_signal_api.
Qed.

Lemma quiet_process_pending_signals : quiet eloop_process_pending_signals.
Proof.
  intros s. unfold eloop_process_pending_signals. destruct (decide _); [apply quiet_id|].
  set (f := λ e : eloop_data, _). set (s1 := on_ev f s).
  destruct (quiet_signal_loop (length (signals (ev s1))) 0 s1) as (H1 & H2 & H3).
  rewrite H1, H2. split_and!; [done|done|]. intros He. apply H3. revert He.
  by apply eloop_ok_ext; [..|intros []].
Qed.

Lemma quiet_dispatch_loop n i type fds : quiet (dispatch_loop n i type fds).
Proof.
  revert i. induction n as [|n IH]; intros i; [apply quiet_id|]. intros s. cbn [dispatch_loop].
  destruct (table _ !! i) as [x|]; [|apply quiet_id].
  destruct (fds _); [|apply (IH (S i))].
  pose proof (quiet_handler (on_sock x) (on_sock_api x)) as Hh.
  destruct (changed _); [apply Hh|]. by apply (quiet_comp _ _ Hh (IH (S i))).
Qed.

Lemma quiet_dispatch type fds : quiet (eloop_sock_table_dispatch type fds).
Proof.
  intros s. unfold eloop_sock_table_dispatch. set (f := λ e : eloop_data, _). set (s1 := on_ev f s).
  destruct (quiet_dispatch_loop (length (table (eloop_get_sock_table type (ev s1)))) 0 type fds s1)
    as (H1 & H2 & H3).
  rewrite H1, H2. split_and!; [done|done|]. intros He. apply H3. revert He.
  apply eloop_ok_ext; try by destruct type. by intros []; destruct type.
Qed.

Lemma quiet_dispatch_all t : quiet (λ s,
  eloop_sock_table_dispatch EVENT_TYPE_EXCEPTION (ready t EVENT_TYPE_EXCEPTION)
    (eloop_sock_table_dispatch EVENT_TYPE_WRITE (ready t EVENT_TYPE_WRITE)
      (eloop_sock_table_dispatch EVENT_TYPE_READ (ready t EVENT_TYPE_READ) s))).
Proof.
  apply (quiet_comp (eloop_sock_table_dispatch _ _) (λ s,
    eloop_sock_table_dispatch EVENT_TYPE_EXCEPTION _ (eloop_sock_table_dispatch EVENT_TYPE_WRITE _ s)));
    [apply quiet_dispatch|].
  apply quiet_comp; apply quiet_dispatch.
Qed.

Lemma quiet_signals_in l : quiet (on_ev (λ e, foldl (λ e x, eloop_handle_signal x e) e l)).
Proof.
  apply quiet_ev. induction l as [|x l IH]; intros e He; cbn; [done|]. apply IH. revert He.
  unfold eloop_handle_signal. destruct (_ && _); by apply eloop_ok_ext; [..|intros []].
Qed.

Lemma quiet_clear_changed : quiet (on_ev clear_changed).
Proof. apply quiet_ev. intros e. by apply eloop_ok_ext; [..|intros []]. Qed.

Lemma run_timeout_ok now s : usec_ok now → loop_ok s → loop_ok (run_timeout now s).
Proof.
  intros Hn Hs. unfold run_timeout. destruct (timeout (ev s)) as [|t l] eqn:Ht; [done|].
  destruct (os_reltime_before now (time t)) eqn:Hb; [done|].
  apply (quiet_ok (run_handler (on_timeout t))); [apply quiet_handler, on_timeout_api|].
  destruct Hs as [[H1 H2 H3 H4] Hf Hw]. rewrite Ht in H1, H2. split; cbn; [|constructor; [|done]|done].
  - apply StronglySorted_inv in H1 as [H1 H1t]. apply Forall_cons_iff in H2 as [H2t H2].
    unfold eloop_remove_timeout. rewrite Ht. cbn. by apply eloop_ok_timeouts; [split; rewrite ?Ht; try constructor|..].
  - split; cbn; [|by apply sorted_us]. apply before_false in Hb.
    apply time_le_us in Hb; [done| |done]. by apply Forall_cons_iff in H2 as [H2 _].
Qed.

Lemma set_fds_spec t :
  Forall (λ x, 0 ≤ sock_fd x) (table t) →
  eloop_sock_table_set_fds t = Ok tt ∧ Forall (λ x, sock_fd x < FD_SETSIZE) (table t) ∨
  eloop_sock_table_set_fds t = Undef OutOfBounds ∧ ¬ Forall (λ x, sock_fd x < FD_SETSIZE) (table t).
Proof.
  intros Hpos. unfold eloop_sock_table_set_fds.
  replace (forallb _ _) with true.
  - destruct (forallb _ _) eqn:Hb; [left|right]; (split; [done|]).
    + apply Forall_forall. intros x Hx%list_elem_of_In. rewrite forallb_forall in Hb.
      by eapply bool_decide_eq_true, Hb.
    + intros Hall. apply not_true_iff_false in Hb. apply Hb, forallb_forall. intros x Hx%list_elem_of_In.
      apply bool_decide_eq_true. exact (proj1 (Forall_forall _ _) Hall x Hx).
  - symmetry. apply forallb_forall. intros x Hx%list_elem_of_In. apply bool_decide_eq_true.
    exact (proj1 (Forall_forall _ _) Hpos x Hx).
Qed.

Definition small_socks (e : eloop_data) : Prop :=
  ∀ ty, Forall (λ x, sock_fd x < FD_SETSIZE) (table (eloop_get_sock_table ty e)).

(** The turn after the sets of descriptors were filled *)
Definition turn_rest (t : turn) (s : loop W) : turn_end * loop W :=
  let s := on_ev (λ e, foldl (λ e x, eloop_handle_signal x e) e (signals_in t)) s in
  if bool_decide (select_result t < 0) && negb (errno_harmless t) then (Out, s)
  else
    let s := run_timeout (now_after t) (eloop_process_pending_signals (on_ev clear_changed s)) in
    if decide (select_result t ≤ 0) then (Continue, s)
    else if any_changed (ev s) then (Continue, s)
    else
      (Continue,
       eloop_sock_table_dispatch EVENT_TYPE_EXCEPTION (ready t EVENT_TYPE_EXCEPTION)
        (eloop_sock_table_dispatch EVENT_TYPE_WRITE (ready t EVENT_TYPE_WRITE)
          (eloop_sock_table_dispatch EVENT_TYPE_READ (ready t EVENT_TYPE_READ) s))).

Definition log_wait (t : turn) (s : loop W) : loop W :=
  mk_loop (ev s) (program s) (fired s)
    ((select_timeout (now_before t) (ev s), now_before t, timeout (ev s)) :: waits s).

Lemma turn_body_spec t s :
  eloop_ok (ev s) →
  (small_socks (ev s) ∧ eloop_turn_body t s = Ok (turn_rest t (log_wait t s))) ∨
  (¬ small_socks (ev s) ∧ eloop_turn_body t s = Undef OutOfBounds).
Proof.
  intros He. unfold eloop_turn_body. fold (log_wait t s). cbv zeta.
  change (ev (log_wait t s)) with (ev s).
  assert (∀ ty, Forall (λ x, 0 ≤ sock_fd x) (table (eloop_get_sock_table ty (ev s)))) as Hpos.
  { intros ty. eapply Forall_impl; [apply (ok_socks _ He ty)|]. cbn. lia. }
  destruct (set_fds_spec _ (Hpos EVENT_TYPE_READ)) as [[Hr HR]|[Hr HR]];
    cbn in Hr; rewrite Hr; cbn [mbind outcome_bind]; [|right; split; [|done]; intros Hs; apply HR, (Hs EVENT_TYPE_READ)].
  destruct (set_fds_spec _ (Hpos EVENT_TYPE_WRITE)) as [[Hw HW]|[Hw HW]];
    cbn in Hw; rewrite Hw; cbn [mbind outcome_bind]; [|right; split; [|done]; intros Hs; apply HW, (Hs EVENT_TYPE_WRITE)].
  destruct (set_fds_spec _ (Hpos EVENT_TYPE_EXCEPTION)) as [[Hx HX]|[Hx HX]];
    cbn in Hx; rewrite Hx; cbn [mbind outcome_bind]; [|right; split; [|done]; intros Hs; apply HX, (Hs EVENT_TYPE_EXCEPTION)].
  left. split; [by intros []|]. unfold turn_rest. cbv zeta.
  destruct (_ && _); [done|]. destruct (decide _); [done|]. by destruct (any_changed _).
Qed.

Lemma log_wait_ok t s : turn_ok t → loop_ok s → loop_ok (log_wait t s).
Proof.
  intros [Hn _] [H1 H2 H3]. split; [done|done|]. constructor; [by apply select_timeout_ok|done].
Qed.

Lemma turn_rest_ok t s : turn_ok t → loop_ok s → loop_ok (turn_rest t s).2.
Proof.
  intros [_ Hn] Hs. unfold turn_rest. cbv zeta.
  apply (quiet_ok _ _ (quiet_signals_in (signals_in t))) in Hs.
  destruct (_ && _); [done|].
  apply (quiet_ok _ _ quiet_clear_changed) in Hs. apply (quiet_ok _ _ quiet_process_pending_signals) in Hs.
  apply (run_timeout_ok (now_after t)) in Hs; [|done].
  destruct (decide _); [done|]. destruct (any_changed _); [done|].
  by apply (quiet_ok _ _ (quiet_dispatch_all t)).
Qed.

(** What holds of an outcome of the loop *)
Definition outcome_ok {A} (P : A → Prop) (o : outcome A) : Prop :=
  match o with Ok a => P a | Undef k => k = OutOfBounds | Stuck => True end.

Lemma turn_body_ok t s : turn_ok t → loop_ok s → outcome_ok (λ r, loop_ok r.2) (eloop_turn_body t s).
Proof.
  intros Ht Hs. destruct (turn_body_spec t s (ok_ev _ Hs)) as [[_ ->]|[_ ->]]; cbn; [|done].
  by apply turn_rest_ok, log_wait_ok.
Qed.

Lemma turn_spec t s : turn_ok t → loop_ok s → outcome_ok (λ r, loop_ok r.2) (eloop_turn t s).
Proof.
  intros Ht Hs. unfold eloop_turn. destruct (pending_terminate _); [|by apply turn_body_ok].
  apply (quiet_ok _ _ quiet_process_pending_signals) in Hs.
  destruct (terminate _); [done|by apply turn_body_ok].
Qed.

Lemma stop_ok s : loop_ok s → loop_ok (on_ev (λ e, e <| terminate := false |>) s).
Proof. apply quiet_ok, quiet_ev. intros e. by apply eloop_ok_ext; [..|intros []]. Qed.

Lemma loop_spec ts s : Forall turn_ok ts → loop_ok s → outcome_ok loop_ok (eloop_loop ts s).
Proof.
  intros Hts. revert s. induction Hts as [|t ts Ht Hts IH]; intros s Hs; cbn [eloop_loop];
    (destruct (has_work _); [|by apply stop_ok]); [done|].
  pose proof (turn_spec t s Ht Hs) as Hr. destruct (eloop_turn t s) as [[[] s']| |]; cbn in *;
    [by apply IH|by apply stop_ok|done..].
Qed.

Lemma run_timeout_due now s t rest :
  timeout (ev s) = t :: rest → os_reltime_before now (time t) = false →
  fired (run_timeout now s) = (t, now, rest) :: fired s.
Proof. intros Ht Hb. unfold run_timeout. by rewrite Ht, Hb. Qed.

Lemma turn_rest_fires t s x rest :
  signals_in t = [] → signaled (ev s) = 0 → errno_harmless t = true ∨ 0 ≤ select_result t →
  timeout (ev s) = x :: rest → os_reltime_before (now_after t) (time x) = false →
  (turn_rest t s).1 = Continue ∧ fired (turn_rest t s).2 = (x, now_after t, rest) :: fired s.
Proof.
  intros Hsig Hs0 Hsel Hx Hdue. unfold turn_rest. cbv zeta. rewrite Hsig.
  replace (_ && _) with false.
  2:{ symmetry. apply andb_false_iff. rewrite bool_decide_eq_false, negb_false_iff. destruct Hsel; [by right|left; lia]. }
  set (s1 := on_ev clear_changed _).
  assert (eloop_process_pending_signals s1 = s1) as ->.
  { unfold eloop_process_pending_signals. by rewrite decide_True by done. }
  assert (fired (run_timeout (now_after t) s1) = (x, now_after t, rest) :: fired s) as Hf
    by (by apply (run_timeout_due (now_after t) s1)).
  destruct (decide _); [done|]. destruct (any_changed _); [done|]. split; [done|].
  destruct (quiet_dispatch_all t (run_timeout (now_after t) s1)) as (Hq & _). cbn [snd]. by rewrite Hq.
Qed.

End runs.

(** ** The properties *)

Lemma us_carry sec usec : 0 ≤ usec < 4297000000 → us (carry 4296 sec usec) = sec * 1000000 + usec.
Proof.
  intros Hu. rewrite carry_spec by lia. unfold us. cbn [fst snd].
  pose proof (Z.div_mod usec 1000000). lia.
Qed.

Lemma s64_small z : 0 ≤ z < 2 ^ 63 → s64 z = z.
Proof. intros Hz. unfold s64. rewrite Z.mod_small by lia. lia. Qed.

(** Where a timeout goes, and when it is due *)
Lemma register_timeout_at now secs usecs handler d u e :
  eloop_ok e → usec_ok now → 0 ≤ fst now → fst now + secs < 2 ^ 63 → 0 ≤ secs → 0 ≤ usecs < 2 ^ 32 →
  ∃ l1 l2 t,
    timeout e = l1 ++ l2 ∧
    eloop_register_timeout true (Some now) secs usecs handler d u e = (0, e <| timeout := l1 ++ t :: l2 |>) ∧
    (t_handler t, t_eloop_data t, t_user_data t) = (handler, d, u) ∧
    usec_ok (time t) ∧ us (time t) = us now + secs * 1000000 + usecs ∧
    Forall (λ x, us (time x) ≤ us (time t)) l1 ∧ Forall (λ x, us (time t) < us (time x)) l2.
Proof.
  intros He Hnow H0 Hsec Hs Hu. destruct now as [sec usec]. cbn [fst snd] in *.
  set (t := mk_timeout (carry 4296 (sec + secs) (usec + usecs)) handler d u).
  unfold usec_ok in Hnow. cbn [snd] in Hnow.
  assert (usec_ok (time t)) as Hok by (apply carry_usec; lia).
  destruct (insert_timeout_split t (timeout e) (ok_sorted e He)) as (l1 & l2 & Hl & Hi & H1 & H2).
  pose proof (ok_usec e He) as Hus. rewrite Hl in Hus. apply Forall_app in Hus as [Hu1 Hu2].
  exists l1, l2, t. split_and!; [done| |done|done| | |].
  - unfold eloop_register_timeout. cbn [negb]. rewrite s64_small by lia. rewrite decide_False by lia.
    fold t. by rewrite Hi.
  - unfold t. cbn [time]. rewrite us_carry by lia. unfold us. cbn [fst snd]. lia.
  - rewrite Forall_forall in H1, Hu1 |- *. intros x Hx. apply time_le_us; [by apply Hu1|done|by apply H1].
  - rewrite Forall_forall in H2, Hu2 |- *. intros x Hx. specialize (H2 x Hx). specialize (Hu2 x Hx).
    destruct (decide (us (time x) ≤ us (time t))) as [Hle|]; [|lia].
    apply time_le_us in Hle; [|done..]. apply before_false in Hle. congruence.
Qed.

(** Unless memory, the clock or the range of seconds fails,
    [eloop_register_timeout] registers exactly one timeout, due the given seconds
    and microseconds after the current time, behind every registered timeout
    that is due no later (so that equal ones keep their order) and before all that
    are due later. *)
Lemma eloop_register_timeout_spec now secs usecs handler d u e :
  eloop_ok e → usec_ok now → 0 ≤ fst now → fst now + secs < 2 ^ 63 → 0 ≤ secs → 0 ≤ usecs < 2 ^ 32 →
  ∃ l1 l2 t,
    timeout e = l1 ++ l2 ∧
    eloop_register_timeout true (Some now) secs usecs handler d u e = (0, e <| timeout := l1 ++ t :: l2 |>) ∧
    (t_handler t, t_eloop_data t, t_user_data t) = (handler, d, u) ∧
    usec_ok (time t) ∧ us (time t) = us now + secs * 1000000 + usecs ∧
    Forall (λ x, us (time x) ≤ us (time t)) l1 ∧ Forall (λ x, us (time t) < us (time x)) l2.
Proof. apply register_timeout_at. Qed.

(** C25. Whatever the handlers do through the interface of the event loop, and
    whatever happens outside, [eloop_run] keeps the invariant of its data; every
    timeout it fires is due and none of those left was due earlier, and every wait
    in [select] ends exactly when the next timeout is due (at once for one that is
    overdue; for ever only without timeouts). The only undefined behaviour is a
    descriptor too large for [FD_SET]. *)
Theorem eloop_run_spec {W} `{HandlersOk W} mem ts (s : loop W) :
  Forall turn_ok ts → loop_ok s → outcome_ok loop_ok (eloop_run mem ts s).
Proof. intros Hts Hs. destruct mem; [by apply loop_spec|done]. Qed.

(** C26. A due timeout fires: a turn of the loop that neither fails in [select] nor
    handles signals runs the first timeout if it is due after [select], whether or
    not sockets are ready, and the loop continues. *)
Theorem eloop_due_timeout_fires {W} `{HandlersOk W} t (s : loop W) x rest :
  loop_ok s → small_socks (ev s) →
  signals_in t = [] → signaled (ev s) = 0 → pending_terminate (ev s) = false →
  errno_harmless t = true ∨ 0 ≤ select_result t →
  timeout (ev s) = x :: rest → us (time x) ≤ us (now_after t) → turn_ok t →
  ∃ s', eloop_turn t s = Ok (Continue, s') ∧ loop_ok s' ∧ fired s' = (x, now_after t, rest) :: fired s.
Proof.
  intros Hs Hsm Hsig Hs0 Hp Hsel Hx Hdue Ht. pose proof (ok_usec _ (ok_ev _ Hs)) as Hu.
  rewrite Hx in Hu. apply Forall_cons_iff in Hu as [Hux _].
  assert (os_reltime_before (now_after t) (time x) = false) as Hb
    by (apply before_false, time_le_us; [done|apply Ht|done]).
  exists (turn_rest t (log_wait t s)).2. unfold eloop_turn. rewrite Hp.
  destruct (turn_body_spec t s (ok_ev _ Hs)) as [[_ ->]|[Hn _]]; [|done].
  destruct (turn_rest_fires t (log_wait t s) x rest Hsig Hs0 Hsel Hx Hb) as [Hc Hf].
  split_and!; [|by apply turn_rest_ok, log_wait_ok|done].
  rewrite <- Hc. by destruct (turn_rest t (log_wait t s)).
Qed.

(** ** An example: a timer that registers itself again for a second later *)

Definition ticker : eloop_timeout → eloop_data * Z → eloop_data * Z := λ t s,
  ((eloop_register_timeout true (Some (time t)) 1 500000 (t_handler t) 0 s.2 s.1).2, s.2 + 1).

#[export] Instance ticking : Handlers Z := {|
  on_timeout := λ t s, if decide (usec_ok (time t)) then ticker t s else s;
  on_sock _ s := s;
  on_signal _ s := (eloop_terminate s.1, s.2) |}.

#[export] Instance ticking_ok : HandlersOk Z.
Proof.
  split; intros x e w; cbn [on_timeout on_sock on_signal ticking].
  - destruct (decide _); [|apply rtc_refl]. by apply rtc_once, Api_register_timeout.
  - apply rtc_refl.
  - apply rtc_once. constructor.
Qed.

Definition ticking_start : loop Z :=
  mk_loop (eloop_register_timeout true (Some (10, 700000)) 2 0 7 0 0
    (eloop_register_signal true SIGINT 8 0 eloop_init).2).2 0 [] [].

Definition tick (before after : Z * Z) : turn := mk_turn before 0 true (λ _ _, false) [] after.

Definition ticking_turns : list turn :=
  [tick (10, 800000) (12, 700000); tick (12, 700100) (14, 200000); mk_turn (14, 200300) (-1) true (λ _ _, false) [SIGINT] (14, 200400)].

Lemma eloop_init_ok : eloop_ok eloop_init.
Proof. split; [constructor|constructor|intros []; constructor|done]. Qed.

Lemma ticking_start_ok : loop_ok ticking_start.
Proof.
  split; [|constructor|constructor]. by apply register_timeout_ok, register_signal_ok, eloop_init_ok.
Qed.

Lemma ticking_turns_ok : Forall turn_ok ticking_turns.
Proof. repeat constructor; done. Qed.

Example eloop_register_timeout_spec_witness :
  timeout (ev ticking_start) = [mk_timeout (12, 700000) 7 0 0] ∧
  ∃ l1 l2 t, timeout (ev ticking_start) = l1 ++ l2 ∧
    eloop_register_timeout true (Some (11, 500000)) 1 200000 9 1 2 (ev ticking_start) =
      (0, (ev ticking_start) <| timeout := l1 ++ t :: l2 |>) ∧
    (t_handler t, t_eloop_data t, t_user_data t) = (9, 1, 2) ∧
    usec_ok (time t) ∧ us (time t) = us (11, 500000) + 1 * 1000000 + 200000 ∧
    Forall (λ x, us (time x) ≤ us (time t)) l1 ∧ Forall (λ x, us (time t) < us (time x)) l2.
Proof.
  split; [vm_compute; reflexivity|].
  by apply (eloop_register_timeout_spec (11, 500000) 1 200000 9 1 2 (ev ticking_start) (ok_ev _ ticking_start_ok)).
Defined.

(** Two timeouts fire, the signal ends the loop, one timeout is left. *)
Example eloop_run_spec_witness :
  outcome_ok loop_ok (eloop_run true ticking_turns ticking_start) ∧
  (s ← eloop_run true ticking_turns ticking_start;
   Ok (program s, map (λ f, (time f.1.1, f.1.2)) (fired s), map (λ w, w.1.1) (waits s), map time (timeout (ev s)))) =
  Ok (2, [((14, 200000), (14, 200000)); ((12, 700000), (12, 700000))],
      [Some (1, 499700); Some (1, 499900); Some (1, 900000)], [(15, 700000)]).
Proof.
  split; [exact (eloop_run_spec true ticking_turns ticking_start ticking_turns_ok ticking_start_ok)|].
  vm_compute. reflexivity.
Defined.

Example eloop_due_timeout_fires_witness :
  ∃ s', eloop_turn (tick (12, 0) (13, 0)) ticking_start = Ok (Continue, s') ∧ loop_ok s' ∧
    fired s' = [(mk_timeout (12, 700000) 7 0 0, (13, 0), [])].
Proof.
  apply (eloop_due_timeout_fires (tick (12, 0) (13, 0)) ticking_start (mk_timeout (12, 700000) 7 0 0) []);
    [exact ticking_start_ok|intros []; constructor|reflexivity..|by left|vm_compute; reflexivity|vm_compute; discriminate|done].
Defined.
