(* ===== verification/Wpabuf.v ===== *)
(** * Dynamic data buffers ([src/utils/wpabuf.c], [wpabuf.h])

    A [wpabuf] is modelled with its size, the number of octets used, the memory
    of its data area and its flags. The build does not define [WPA_TRACE].
    Each operation that writes checks the write against the data area; the
    library's own overflow check calls [abort()], which is [Undef Aborted].
    The abstract view of a buffer is its capacity and its contents, the first
    [used] octets. *)

From Stdlib Require Import ZArith Lia.
From stdpp Require Import base option list numbers decidable.
From S2P Require Import Prelude CLib Common.
Local Open Scope Z_scope.

(** ** The structure *)

Record wpabuf := mk_wpabuf {
  size : Z;       (** total size of the allocated buffer *)
  used : Z;       (** length of data in the buffer *)
  buf : bytes;    (** the data area *)
  ext_data : bool (** WPABUF_FLAG_EXT_DATA *) }.

#[export] Instance wpabuf_eta : Eta wpabuf :=
  λ b, mk_wpabuf (size b) (used b) (buf b) (ext_data b).

(** [sizeof(struct wpabuf)] on a 64-bit target. *)
Definition sizeof_wpabuf : Z := 32.

Section ops.
Context `{Malloc}.

Definition wpabuf_alloc (len : Z) : option wpabuf :=
  let total := u64 (sizeof_wpabuf + len) in
  if malloc_ok total
  then Some (mk_wpabuf len 0 (replicate (Z.to_nat (total - sizeof_wpabuf)) 0) false)
  else None.

Definition wpabuf_alloc_ext_data (data : bytes) (len : Z) : option wpabuf :=
  if malloc_ok sizeof_wpabuf then Some (mk_wpabuf len len data true) else None.

Definition wpabuf_size (b : wpabuf) : Z := size b.
Definition wpabuf_len (b : wpabuf) : Z := used b.
Definition wpabuf_tailroom (b : wpabuf) : Z := u64 (size b - used b).

(** The octets [wpabuf_head(buf)[0 .. wpabuf_len(buf) - 1]]. *)
Definition contents (b : wpabuf) : bytes := take (Z.to_nat (used b)) (buf b).

(** The result is the offset of the reserved octets in the data area. *)
Definition wpabuf_put (b : wpabuf) (len : Z) : outcome (Z * wpabuf) :=
  let tmp := wpabuf_len b in
  let b := b <| used := u64 (used b + len) |> in
  if decide (size b < used b) then Undef Aborted (* wpabuf_overflow *)
  else Ok (tmp, b).

Definition put_bytes (b : wpabuf) (len : Z) (d : bytes) : outcome wpabuf :=
  '(pos, b) ← wpabuf_put b len;
  m ← write (buf b) (Z.to_nat pos) d;
  Ok (b <| buf := m |>).

Definition wpabuf_put_u8 (b : wpabuf) (data : Z) : outcome wpabuf := put_bytes b 1 [data].
Definition wpabuf_put_le16 (b : wpabuf) (data : Z) : outcome wpabuf :=
  put_bytes b 2 (WPA_PUT_LE16 data).
Definition wpabuf_put_le32 (b : wpabuf) (data : Z) : outcome wpabuf :=
  put_bytes b 4 (WPA_PUT_LE32 data).
Definition wpabuf_put_be16 (b : wpabuf) (data : Z) : outcome wpabuf :=
  put_bytes b 2 (WPA_PUT_BE16 data).
Definition wpabuf_put_be24 (b : wpabuf) (data : Z) : outcome wpabuf :=
  put_bytes b 3 (WPA_PUT_BE24 data).
Definition wpabuf_put_be32 (b : wpabuf) (data : Z) : outcome wpabuf :=
  put_bytes b 4 (WPA_PUT_BE32 data).

(** [data] is [None] for a null pointer, which is ignored; otherwise the [len]
    octets at the pointer are copied. The size check comes first. *)
Definition wpabuf_put_data (b : wpabuf) (data : option bytes) (len : Z) : outcome wpabuf :=
  match data with
  | None => Ok b
  | Some d =>
    '(pos, b) ← wpabuf_put b len;
    s ← slice d 0 (Z.to_nat len);
    m ← write (buf b) (Z.to_nat pos) s;
    Ok (b <| buf := m |>)
  end.

Definition wpabuf_put_buf (dst src : wpabuf) : outcome wpabuf :=
  wpabuf_put_data dst (Some (buf src)) (wpabuf_len src).

Definition wpabuf_put_str (dst : wpabuf) (str : bytes) : outcome wpabuf :=
  wpabuf_put_data dst (Some str) (zlen str).

Definition wpabuf_set (data : bytes) (len : Z) : wpabuf := mk_wpabuf len len data true.

Definition wpabuf_alloc_copy (data : bytes) (len : Z) : outcome (option wpabuf) :=
  match wpabuf_alloc len with
  | Some b => Some <$> wpabuf_put_data b (Some data) len
  | None => Ok None
  end.

Definition wpabuf_dup (src : wpabuf) : outcome (option wpabuf) :=
  match wpabuf_alloc (wpabuf_len src) with
  | Some b => Some <$> wpabuf_put_data b (Some (buf src)) (wpabuf_len src)
  | None => Ok None
  end.

(** The first component is the return value. *)
Definition wpabuf_resize (b : option wpabuf) (add_len : Z) : Z * option wpabuf :=
  match b with
  | None =>
    match wpabuf_alloc add_len with
    | None => (-1, None)
    | Some n => (0, Some n)
    end
  | Some b =>
    if decide (size b < u64 (used b + add_len)) then
      let request :=
        if ext_data b then u64 (used b + add_len)
        else u64 (sizeof_wpabuf + used b + add_len) in
      if malloc_ok request then
        (0, Some (b <| buf := take (Z.to_nat (used b)) (buf b) ++ replicate (Z.to_nat add_len) 0 |>
                    <| size := u64 (used b + add_len) |>))
      else (-1, Some b)
    else (0, Some b)
  end.

(** Both arguments are freed. *)
Definition wpabuf_concat (a b : option wpabuf) : outcome (option wpabuf) :=
  match b with
  | None => Ok a
  | Some b =>
    let len := u64 (match a with Some a => wpabuf_len a | None => 0 end + wpabuf_len b) in
    match wpabuf_alloc len with
    | None => Ok None
    | Some n =>
      n ← match a with Some a => wpabuf_put_buf n a | None => Ok n end;
      n ← wpabuf_put_buf n b;
      Ok (Some n)
    end
  end.

Definition wpabuf_zeropad (b : option wpabuf) (len : Z) : outcome (option wpabuf) :=
  match b with
  | None => Ok None
  | Some b =>
    let blen := wpabuf_len b in
    if decide (len ≤ blen) then Ok (Some b) else
    match wpabuf_alloc len with
    | None => Ok None
    | Some ret =>
      '(pos, ret) ← wpabuf_put ret (len - blen);
      m ← write (buf ret) (Z.to_nat pos) (replicate (Z.to_nat (len - blen)) 0);
      ret ← wpabuf_put_buf (ret <| buf := m |>) b;
      Ok (Some ret)
    end
  end.

(** [str] is the object holding the null-terminated text. *)
Definition wpabuf_parse_bin (str : bytes) : outcome (option wpabuf) :=
  s ← cstr str;
  let len := zlen s in
  if decide (Z.land len 1 ≠ 0) then Ok None else
  let len := len / 2 in
  match wpabuf_alloc len with
  | None => Ok None
  | Some ret =>
    '(pos, ret) ← wpabuf_put ret len;
    '(rc, out) ← hexstr2bin str (Z.to_nat len);
    m ← write (buf ret) (Z.to_nat pos) out;
    Ok (if decide (rc ≠ 0) then None else Some (ret <| buf := m |>))
  end.

(** ** Well-formed buffers *)

Definition wf (b : wpabuf) : Prop :=
  0 ≤ used b ≤ size b ∧ size b = zlen (buf b) ∧ size b < 2 ^ 64 - sizeof_wpabuf.

Lemma wf_alloc len b :
  0 ≤ len < 2 ^ 64 - sizeof_wpabuf → wpabuf_alloc len = Some b →
  wf b ∧ contents b = [] ∧ size b = len.
Proof.
  unfold wpabuf_alloc, sizeof_wpabuf. intros Hl.
  unfold u64. rewrite Z.mod_small by lia.
  destruct (malloc_ok _); [|done]. intros [= <-].
  unfold wf, contents, zlen, sizeof_wpabuf. cbn [size used buf].
  rewrite length_replicate. split_and!; try done; lia.
Qed.

Lemma contents_length b : wf b → zlen (contents b) = used b.
Proof.
  intros (Hu & Hs & _). unfold contents, zlen in *. rewrite length_take. lia.
Qed.

(** One write into a buffer: appended when it fits, [abort()] when not. *)
Lemma put_data_fits b d :
  wf b → used b + zlen d ≤ size b →
  ∃ b', wpabuf_put_data b (Some d) (zlen d) = Ok b' ∧
        wf b' ∧ contents b' = contents b ++ d ∧ size b' = size b ∧
        used b' = used b + zlen d ∧ ext_data b' = ext_data b.
Proof.
  intros (Hu & Hs & Hmax) Hfit. unfold sizeof_wpabuf in *. pose proof (zlen_nonneg d).
  unfold wpabuf_put_data, wpabuf_put, wpabuf_len. cbn.
  unfold u64. rewrite Z.mod_small by lia.
  rewrite decide_False by lia. cbn.
  unfold zlen in *. rewrite Nat2Z.id.
  rewrite slice_ok by (cbn; lia). cbn. rewrite take_ge by (rewrite drop_0; lia).
  unfold write. rewrite decide_True by (rewrite drop_0; lia). cbn.
  eexists. split; [done|]. unfold wf, contents, zlen, sizeof_wpabuf. cbn. rewrite drop_0 in *.
  rewrite !length_app, length_take, length_drop. split_and!; try lia; [|done].
  rewrite app_assoc. rewrite take_app_le by (rewrite length_app, length_take; lia).
  apply take_ge. rewrite length_app, length_take. lia.
Qed.

Lemma put_data_overflow b d :
  wf b → size b < used b + zlen d → used b + zlen d < 2 ^ 64 →
  wpabuf_put_data b (Some d) (zlen d) = Undef Aborted.
Proof.
  intros (Hu & Hs & Hmax) Hfit Hw. pose proof (zlen_nonneg d).
  unfold wpabuf_put_data, wpabuf_put, wpabuf_len. cbn.
  unfold u64. rewrite Z.mod_small by lia. by rewrite decide_True by lia.
Qed.

Lemma put_data_src_longer b d r :
  wf b → used b + zlen d ≤ size b →
  wpabuf_put_data b (Some (d ++ r)) (zlen d) = wpabuf_put_data b (Some d) (zlen d).
Proof.
  intros _ _. unfold wpabuf_put_data. destruct (wpabuf_put b (zlen d)) as [[pos b']| |]; [|done|done].
  cbn. unfold zlen. rewrite Nat2Z.id, !slice_ok by (rewrite ?length_app; lia).
  by rewrite !drop_0, take_app_length, take_ge by lia.
Qed.

Lemma put_bytes_data b d : put_bytes b (zlen d) d = wpabuf_put_data b (Some d) (zlen d).
Proof.
  unfold put_bytes, wpabuf_put_data.
  destruct (wpabuf_put b (zlen d)) as [[pos b']| |]; [|done|done]. cbn.
  unfold zlen. rewrite Nat2Z.id, slice_ok by lia. cbn. by rewrite drop_0, take_ge by lia.
Qed.

Lemma put_u8_data b d : wpabuf_put_u8 b d = wpabuf_put_data b (Some [d]) (zlen [d]).
Proof. exact (put_bytes_data b [d]). Qed.
End ops.

(** ** Derived facts *)

Section facts.
Context `{Malloc}.

Lemma wf_used_small b : wf b → 0 ≤ used b < 2 ^ 64 - sizeof_wpabuf.
Proof. intros (? & ? & ?). lia. Qed.

(** Reading back a whole buffer. *)
Lemma put_buf_fits dst src :
  wf dst → wf src → used dst + used src ≤ size dst →
  ∃ b, wpabuf_put_buf dst src = Ok b ∧
       wf b ∧ contents b = contents dst ++ contents src ∧ size b = size dst ∧
       used b = used dst + used src.
Proof.
  intros Hd Hs Hfit. unfold wpabuf_put_buf, wpabuf_len.
  pose proof (contents_length src Hs) as Hc.
  destruct (put_data_fits dst (contents src) Hd) as (b & Hp & Hw & Hco & Hsz & Hu & _); [lia|].
  pose proof (put_data_src_longer dst (contents src) (drop (Z.to_nat (used src)) (buf src)) Hd) as Hl.
  unfold contents in Hl at 2. rewrite take_drop in Hl. rewrite Hc in *.
  exists b. rewrite Hl by lia. done.
Qed.

(** [wpabuf_put] followed by a write of as many octets. *)
Lemma put_write_fits b d :
  wf b → used b + zlen d ≤ size b →
  ∃ pos b1 m, wpabuf_put b (zlen d) = Ok (pos, b1) ∧
    write (buf b1) (Z.to_nat pos) d = Ok m ∧
    wf (b1 <| buf := m |>) ∧ contents (b1 <| buf := m |>) = contents b ++ d ∧
    size b1 = size b ∧ used b1 = used b + zlen d.
Proof.
  intros Hw Hfit. destruct (put_data_fits b d Hw Hfit) as (b' & Hp & Hw' & Hc & Hs & Hu & _).
  unfold wpabuf_put_data in Hp. apply bind_Ok_inv in Hp as ([pos b1] & Hput & Hp).
  apply bind_Ok_inv in Hp as (s & Hsl & Hp). apply bind_Ok_inv in Hp as (m & Hm & Hp).
  unfold slice in Hsl. case_decide; [|done]. simplify_eq.
  rewrite drop_0 in Hm. unfold zlen in Hm. rewrite Nat2Z.id, take_ge in Hm by lia.
  exists pos, b1, m. rewrite Hput. cbn in Hs, Hu. done.
Qed.

End facts.

(** ** Properties *)

Section properties.
Context `{Malloc}.

(** Appending to a well-formed buffer: when the data fits the result is a
    well-formed buffer of the same size whose contents are the old contents
    followed by the data; when it does not fit the program aborts before any
    octet is written. There is no third outcome. *)
Lemma wpabuf_put_data_spec b d :
  wf b → used b + zlen d < 2 ^ 64 →
  match wpabuf_put_data b (Some d) (zlen d) with
  | Ok b' => used b + zlen d ≤ size b ∧ wf b' ∧ size b' = size b ∧
             contents b' = contents b ++ d
  | Undef k => size b < used b + zlen d ∧ k = Aborted
  | Stuck => False
  end.
Proof.
  intros Hw Hmax. destruct (decide (used b + zlen d ≤ size b)).
  - destruct (put_data_fits b d Hw) as (b' & -> & ? & ? & ? & _); [done|]. done.
  - rewrite put_data_overflow by (done || lia). split; [lia|done].
Qed.

(** [wpabuf_resize] makes room for [add_len] more octets without changing
    the contents, or fails and leaves the buffer as it was. *)
Lemma wpabuf_resize_spec b add_len :
  wf b → 0 ≤ add_len → used b + add_len < 2 ^ 64 - sizeof_wpabuf →
  match wpabuf_resize (Some b) add_len with
  | (ret, Some b') =>
      contents b' = contents b ∧ wf b' ∧
      (ret = 0 ∧ add_len ≤ wpabuf_tailroom b' ∨ ret = -1 ∧ b' = b)
  | (_, None) => False
  end.
Proof.
  intros Hw Ha Hmax. destruct (id Hw) as (Hu & Hs & Hm).
  unfold sizeof_wpabuf in *.
  unfold wpabuf_resize, wpabuf_tailroom, u64. rewrite (Z.mod_small (used b + add_len)) by lia.
  case_decide as Hgrow.
  - destruct (malloc_ok _); [|split_and!; [done|done|by right]].
    assert (length (take (Z.to_nat (used b)) (buf b)) = Z.to_nat (used b)) as Hl
      by (rewrite length_take; unfold zlen in *; lia).
    unfold contents, wf, zlen, sizeof_wpabuf. cbn -[take].
    rewrite length_app, length_replicate, Hl.
    split_and!; try lia.
    + rewrite take_app_le by lia. apply take_ge. lia.
    + left. rewrite Z.mod_small by lia. lia.
  - split_and!; [done|done|]. left. rewrite Z.mod_small by lia. lia.
Qed.

(** [wpabuf_zeropad] returns a buffer as is when it is long enough and
    otherwise a buffer of exactly [len] octets: zeros followed by the old
    contents, so that the big-endian number they encode is unchanged. *)
Theorem wpabuf_zeropad_spec b len :
  wf b → bytes_ok (contents b) → len < 2 ^ 64 - sizeof_wpabuf →
  (∀ n, malloc_ok n = true) →
  ∃ b', wpabuf_zeropad (Some b) len = Ok (Some b') ∧ wf b' ∧
        used b' = Z.max (used b) len ∧ be_val (contents b') = be_val (contents b).
Proof.
  intros Hw Hok Hlen Hma. pose proof (wf_used_small b Hw) as Hub. unfold wpabuf_zeropad, wpabuf_len.
  case_decide as Hle. { exists b. split_and!; try done. lia. }
  destruct (wpabuf_alloc len) as [r|] eqn:Hal.
  2:{ unfold wpabuf_alloc in Hal. by rewrite Hma in Hal. }
  apply wf_alloc in Hal as (Hr & Hrc & Hrs); [|lia].
  pose proof (contents_length r Hr) as Hru. rewrite Hrc in Hru. change (zlen []) with 0 in Hru.
  set (z := replicate (Z.to_nat (len - used b)) 0).
  assert (zlen z = len - used b) as Hz by (unfold zlen, z; rewrite length_replicate; lia).
  destruct (put_write_fits r z Hr) as (pos & b1 & m & Hp & Hm & Hw1 & Hc1 & Hs1 & Hu1); [lia|].
  rewrite Hz in Hp. rewrite Hp. cbn [mbind outcome_bind]. fold z. rewrite Hm. cbn [mbind outcome_bind].
  destruct (put_buf_fits (b1 <| buf := m |>) b Hw1 Hw) as (b2 & Hb2 & Hw2 & Hc2 & Hs2 & Hu2).
  { cbn. lia. }
  rewrite Hb2. exists b2. split_and!; [done|done| |].
  - cbn in Hu2. lia.
  - rewrite Hc2, Hc1, Hrc, be_val_app. cbn [app].
    assert (be_val z = 0) as ->; [|lia].
    apply be_val_zeros.
Qed.

End properties.

(** ** Examples *)

Definition buf_example : wpabuf := mk_wpabuf 4 1 [7; 0; 0; 0] false.

Lemma buf_example_wf : wf buf_example.
Proof. unfold wf. cbn. unfold zlen, sizeof_wpabuf. cbn. lia. Defined.

Lemma wpabuf_put_data_spec_witness :
  wf buf_example ∧
  ∃ b', wpabuf_put_data buf_example (Some [8; 9]) 2 = Ok b' ∧ wf b' ∧ contents b' = [7; 8; 9].
Proof.
  split; [exact buf_example_wf|].
  pose proof (wpabuf_put_data_spec buf_example [8; 9] buf_example_wf) as H.
  destruct H as (_ & Hw & _ & Hc); [reflexivity|].
  eexists. split; [reflexivity|]. split; [exact Hw|exact Hc].
Defined.

Lemma wpabuf_resize_spec_witness :
  wf buf_example ∧
  ∃ b', @wpabuf_resize malloc_always (Some buf_example) 7 = (0, Some b') ∧ wf b' ∧
        contents b' = [7].
Proof.
  split; [exact buf_example_wf|].
  pose proof (@wpabuf_resize_spec malloc_always buf_example 7 buf_example_wf) as H.
  destruct H as (Hc & Hw & _); [lia|reflexivity|].
  eexists. split; [reflexivity|]. split; [exact Hw|exact Hc].
Defined.

Lemma wpabuf_zeropad_spec_witness :
  wf buf_example ∧
  ∃ b', @wpabuf_zeropad malloc_always (Some buf_example) 3 = Ok (Some b') ∧
        used b' = 3 ∧ be_val (contents b') = 7.
Proof.
  split; [exact buf_example_wf|].
  destruct (@wpabuf_zeropad_spec malloc_always buf_example 3 buf_example_wf)
    as (b' & H & _ & Hu & Hv);
    [repeat constructor; done|reflexivity|reflexivity|].
  exists b'. split; [exact H|]. split; [exact Hu|exact Hv].
Defined.
