(* ===== verification/Ie.v ===== *)
(** * Information elements

    An information element (IE) is an octet [id], an octet giving the length of
    the body, and the body. This file has the abstract view of an IE buffer (a
    list of elements followed by a remainder too short to be one) and the
    routines of [src/common/ieee802_11_common.c] that walk over a buffer. Their
    loops share one shape, [ie_walk]. *)

From Stdlib Require Import ZArith Lia.
From stdpp Require Import base option list numbers decidable.
From S2P Require Import Prelude CLib Common Wpabuf.
Local Open Scope Z_scope.

(** ** The abstract view *)

Record ie := mk_ie { ie_id : Z; ie_body : bytes }.

Definition ie_ok (e : ie) : Prop :=
  is_u8 (ie_id e) ∧ bytes_ok (ie_body e) ∧ zlen (ie_body e) < 256.

Definition ie_enc (e : ie) : bytes := ie_id e :: zlen (ie_body e) :: ie_body e.

Definition ies_enc (l : list ie) : bytes := concat (map ie_enc l).

(** A remainder that does not start with a complete element. *)
Definition ie_trunc (b : bytes) : Prop :=
  match b with
  | _ :: l :: r => zlen r < l
  | _ => True
  end.

#[export] Instance ie_trunc_dec b : Decision (ie_trunc b).
Proof. destruct b as [|? [|? ?]]; apply _. Defined.

Lemma ie_enc_length e : length (ie_enc e) = (2 + length (ie_body e))%nat.
Proof. reflexivity. Qed.

Lemma ie_enc_ok e : ie_ok e → bytes_ok (ie_enc e).
Proof.
  intros (Hi & Hb & Hl). pose proof (zlen_nonneg (ie_body e)).
  unfold bytes_ok, ie_enc. rewrite !Forall_cons_iff. split_and!; [done| |done].
  unfold is_u8. lia.
Qed.

(** Every buffer is a sequence of elements followed by a remainder. *)
Lemma ie_split_ind (P : bytes → Prop) :
  (∀ b, bytes_ok b → ie_trunc b → P b) →
  (∀ e b, ie_ok e → bytes_ok b → P b → P (ie_enc e ++ b)) →
  ∀ b, bytes_ok b → P b.
Proof.
  intros Ht Hc b. induction b as [b IH] using (induction_ltof1 _ (@length Z)).
  unfold ltof in IH. intros Hb. destruct (decide (ie_trunc b)) as [Htr|Htr]; [by apply Ht|].
  destruct b as [|i [|l r]]; [by destruct Htr|by destruct Htr|]. cbn in Htr.
  unfold bytes_ok in Hb. rewrite !Forall_cons_iff in Hb. destruct Hb as (Hi & Hl & Hr).
  assert (i :: l :: r = ie_enc (mk_ie i (take (Z.to_nat l) r)) ++ drop (Z.to_nat l) r) as ->.
  { unfold ie_enc. cbn. rewrite take_drop. do 2 f_equal. unfold zlen in *. rewrite length_take.
    unfold is_u8 in Hl. lia. }
  assert (bytes_ok (drop (Z.to_nat l) r)) by (by apply Forall_drop).
  apply Hc; [|done|].
  - split_and!; [done|by apply Forall_take|]. cbn. unfold zlen. rewrite length_take.
    unfold is_u8 in Hl. lia.
  - apply IH; [|done]. cbn. rewrite length_drop. lia.
Qed.

Lemma ie_decompose b : bytes_ok b → ∃ l r, b = ies_enc l ++ r ∧ Forall ie_ok l ∧ ie_trunc r ∧ bytes_ok r.
Proof.
  revert b. apply ie_split_ind.
  - intros b Hb Ht. exists [], b. by split_and!.
  - intros e b He Hb (l & r & -> & Hl & Hr & Hro). exists (e :: l), r.
    split_and!; try done; [|by constructor]. unfold ies_enc. cbn [map concat]. by rewrite app_assoc.
Qed.

Lemma zlen_2_inv (b : bytes) : 2 ≤ zlen b → ∃ i l r, b = i :: l :: r.
Proof. destruct b as [|i [|l r]]; unfold zlen; cbn; intros; try lia. eauto. Qed.

(** ** The shared loop

    [while (end - pos >= 2 && go_on) { if (2 + pos[1] > end - pos) on_trunc;
    on_ie; pos += 2 + pos[1]; } on_end]: [on_ie] either returns from the
    function ([inl]) or continues with a new state ([inr]). *)

Section walk.
Context {S R : Type}.
Context (go_on : S → bool) (on_ie : bytes → Z → S → outcome (R + S))
        (on_trunc on_end : S → outcome R).

Fixpoint ie_walk_fuel (fuel : nat) (pos : bytes) (s : S) : outcome R :=
  match fuel with
  | O => Stuck
  | Datatypes.S f =>
    if bool_decide (2 ≤ zlen pos) && go_on s then
      l ← rd pos 1;
      if decide (zlen pos < 2 + l) then on_trunc s else
      r ← on_ie pos l s;
      match r with
      | inl r => Ok r
      | inr s => ie_walk_fuel f (drop (Z.to_nat (2 + l)) pos) s
      end
    else on_end s
  end.

(** Every iteration consumes at least two octets. *)
Definition ie_walk (pos : bytes) (s : S) : outcome R := ie_walk_fuel (Datatypes.S (length pos)) pos s.

Lemma ie_walk_fuel_enough f g pos s :
  bytes_ok pos → (length pos < f)%nat → (length pos < g)%nat →
  ie_walk_fuel f pos s = ie_walk_fuel g pos s.
Proof.
  revert g pos s. induction f as [|f IH]; intros g pos s Hok Hf Hg; [lia|].
  destruct g as [|g]; [lia|]. cbn [ie_walk_fuel].
  case_bool_decide as H2; [|done]. cbn [andb].
  destruct (go_on s); [|done].
  apply zlen_2_inv in H2 as (i & l & r & ->). cbn [rd lookup list_lookup mbind outcome_bind].
  destruct (decide (zlen (i :: l :: r) < 2 + l)); [done|].
  destruct (on_ie _ l s) as [[|s']| |]; cbn; try done.
  pose proof Hok as Hok'. unfold bytes_ok in Hok'.
  rewrite !Forall_cons_iff in Hok'. destruct Hok' as (_ & Hl & _).
  unfold is_u8 in Hl. apply IH.
  - by apply Forall_drop.
  - rewrite length_drop. cbn in *. lia.
  - rewrite length_drop. cbn in *. lia.
Qed.

Lemma ie_walk_trunc pos s :
  ie_trunc pos → ie_walk pos s = if bool_decide (2 ≤ zlen pos) && go_on s then on_trunc s else on_end s.
Proof.
  intros Ht. unfold ie_walk. cbn [ie_walk_fuel].
  case_bool_decide as H2; [|done]. cbn [andb].
  destruct (go_on s); [|done]. apply zlen_2_inv in H2 as (i & l & r & ->).
  cbn in Ht. cbn [rd lookup list_lookup mbind outcome_bind].
  rewrite decide_True; [done|]. rewrite !zlen_cons. lia.
Qed.

Lemma ie_walk_cons e b s :
  ie_ok e → bytes_ok b →
  ie_walk (ie_enc e ++ b) s =
  if go_on s then
    r ← on_ie (ie_enc e ++ b) (zlen (ie_body e)) s;
    match r with inl r => Ok r | inr s => ie_walk b s end
  else on_end s.
Proof.
  intros He Hb. unfold ie_walk at 1. cbn [ie_walk_fuel].
  pose proof (zlen_nonneg (ie_body e)). pose proof (zlen_nonneg b).
  assert (zlen (ie_enc e ++ b) = 2 + zlen (ie_body e) + zlen b) as Hlen
    by (unfold zlen; rewrite length_app; cbn [ie_enc length]; lia).
  rewrite bool_decide_eq_true_2 by lia. cbn [andb]. destruct (go_on s); [|done].
  unfold rd. cbn [ie_enc app lookup list_lookup mbind outcome_bind].
  change (ie_id e :: zlen (ie_body e) :: ie_body e ++ b) with (ie_enc e ++ b).
  rewrite decide_False by lia.
  destruct (on_ie _ _ s) as [[|s']| |]; cbn [mbind outcome_bind]; try done.
  assert (drop (Z.to_nat (2 + zlen (ie_body e))) (ie_enc e ++ b) = b) as ->.
  { apply drop_app_length'. unfold zlen. cbn [ie_enc length]. lia. }
  apply ie_walk_fuel_enough; [done| |lia]. rewrite length_app. cbn [ie_enc length]. lia.
Qed.
End walk.

(** ** Identifiers ([src/common/ieee802_11_defs.h]) *)

Definition WLAN_EID_SSID : Z := 0.
Definition WLAN_EID_SUPP_RATES : Z := 1.
Definition WLAN_EID_DS_PARAMS : Z := 3.
Definition WLAN_EID_CF_PARAMS : Z := 4.
Definition WLAN_EID_TIM : Z := 5.
Definition WLAN_EID_COUNTRY : Z := 7.
Definition WLAN_EID_BSS_LOAD : Z := 11.
Definition WLAN_EID_CHALLENGE : Z := 16.
Definition WLAN_EID_PWR_CONSTRAINT : Z := 32.
Definition WLAN_EID_PWR_CAPABILITY : Z := 33.
Definition WLAN_EID_SUPPORTED_CHANNELS : Z := 36.
Definition WLAN_EID_CHANNEL_SWITCH : Z := 37.
Definition WLAN_EID_ERP_INFO : Z := 42.
Definition WLAN_EID_HT_CAP : Z := 45.
Definition WLAN_EID_EXT_SUPP_RATES : Z := 50.
Definition WLAN_EID_FAST_BSS_TRANSITION : Z := 55.
Definition WLAN_EID_TIMEOUT_INTERVAL : Z := 56.
Definition WLAN_EID_SUPPORTED_OPERATING_CLASSES : Z := 59.
Definition WLAN_EID_EXT_CHANSWITCH_ANN : Z := 60.
Definition WLAN_EID_HT_OPERATION : Z := 61.
Definition WLAN_EID_TIME_ADVERTISEMENT : Z := 69.
Definition WLAN_EID_RRM_ENABLED_CAPABILITIES : Z := 70.
Definition WLAN_EID_SSID_LIST : Z := 84.
Definition WLAN_EID_BSS_MAX_IDLE_PERIOD : Z := 90.
Definition WLAN_EID_TIME_ZONE : Z := 98.
Definition WLAN_EID_LINK_ID : Z := 101.
Definition WLAN_EID_INTERWORKING : Z := 107.
Definition WLAN_EID_QOS_MAP_SET : Z := 110.
Definition WLAN_EID_MESH_CONFIG : Z := 113.
Definition WLAN_EID_MESH_ID : Z := 114.
Definition WLAN_EID_PEER_MGMT : Z := 117.
Definition WLAN_EID_EXT_CAPAB : Z := 127.
Definition WLAN_EID_AMPE : Z := 139.
Definition WLAN_EID_MIC : Z := 140.
Definition WLAN_EID_MULTI_BAND : Z := 158.
Definition WLAN_EID_VHT_CAP : Z := 191.
Definition WLAN_EID_VHT_OPERATION : Z := 192.
Definition WLAN_EID_VHT_OPERATING_MODE_NOTIFICATION : Z := 199.

Definition OUI_MICROSOFT : Z := 0x0050f2.
Definition OUI_PROBE_STUFFING : Z := 0x010203.
Definition OUI_BROADCOM : Z := 0x00904c.
Definition OUI_QCA : Z := 0x001374.
Definition MBO_OUI_TYPE : Z := 22.

(** ** Walking over a buffer of elements

    A null pointer is [None]; a pointer into the buffer is the run of octets
    from it to the end of the buffer. *)

(** [ies_len] is the length of the buffer. *)
Definition ieee802_11_ie_count (ies : option bytes) : outcome Z :=
  match ies with
  | None => Ok 0
  | Some ies =>
    ie_walk (λ _, true) (λ _ _ count, Ok (inr (count + 1))) (@Ok Z) (@Ok Z) ies 0
  end.

Definition get_ie (ies : option bytes) (eid : Z) : outcome (option bytes) :=
  match ies with
  | None => Ok None
  | Some ies =>
    ie_walk (λ _, true)
      (λ pos _ _, id ← rd pos 0; Ok (if decide (id = eid) then inl (Some pos) else inr tt))
      (λ _, Ok None) (λ _, Ok None) ies tt
  end.

(** [pos[0] == WLAN_EID_VENDOR_SPECIFIC && pos[1] >= 4 &&
    WPA_GET_BE32(&pos[2]) == oui_type] *)
Definition is_vendor_ie (oui_type : Z) (pos : bytes) (l : Z) : outcome bool :=
  id ← rd pos 0;
  if decide (id = WLAN_EID_VENDOR_SPECIFIC ∧ 4 ≤ l) then
    v ← WPA_GET_BE32 (drop 2 pos); Ok (bool_decide (v = oui_type))
  else Ok false.

Section vendor.
Context `{Malloc}.

Definition ieee802_11_vendor_ie_concat (ies : bytes) (oui_type : Z) : outcome (option wpabuf) :=
  ie ← ie_walk (λ _, true)
        (λ pos l _, m ← is_vendor_ie oui_type pos l;
                    Ok (if m : bool then inl (Some pos) else inr tt))
        (λ _, Ok None) (λ _, Ok None) ies tt;
  match ie with
  | None => Ok None (* No specified vendor IE found *)
  | Some pos =>
    match wpabuf_alloc (zlen ies) with
    | None => Ok None
    | Some b =>
      b ← ie_walk (λ _, true)
            (λ pos l b, m ← is_vendor_ie oui_type pos l;
                        if m : bool then inr <$> wpabuf_put_data b (Some (drop 6 pos)) (l - 4)
                        else Ok (inr b))
            (@Ok wpabuf) (@Ok wpabuf) pos b;
      Ok (Some b)
    end
  end.

(** ** Multi-band elements *)

Definition MAX_NOF_MB_IES_SUPPORTED : nat := 5.

(** [struct mb_ies_info]: the entries in use, [(ie, ie_len)]; [nof_ies] is
    their number. *)
Definition mb_ies_info : Type := list (bytes * Z).

Definition mb_ies_info_by_ies (ies_buf : option bytes) : outcome (Z * mb_ies_info) :=
  match ies_buf with
  | None => Ok (0, [])
  | Some ies =>
    ie_walk (λ info, bool_decide (length info < MAX_NOF_MB_IES_SUPPORTED)%nat)
      (λ pos l info,
        id ← rd pos 0;
        Ok (inr (if decide (id = WLAN_EID_MULTI_BAND) then info ++ [(drop 2 pos, l)] else info)))
      (λ info, Ok (-1, info)) (λ info, Ok (0, info)) ies []
  end.

Fixpoint mb_ies_put (mb_ies : wpabuf) (info : mb_ies_info) : outcome wpabuf :=
  match info with
  | [] => Ok mb_ies
  | (ie, ie_len) :: r =>
    b ← wpabuf_put_u8 mb_ies WLAN_EID_MULTI_BAND;
    b ← wpabuf_put_u8 b ie_len;
    b ← wpabuf_put_data b (Some ie) ie_len;
    mb_ies_put b r
  end.

Definition mb_ies_by_info (info : mb_ies_info) : outcome (option wpabuf) :=
  if decide (length info = 0%nat) then Ok None else
  let mb_ies_size := fold_left (λ n e, u64 (n + (2 + e.2))) info 0 in
  match wpabuf_alloc mb_ies_size with
  | None => Ok None
  | Some b => Some <$> mb_ies_put b info
  end.
End vendor.

(** The octets written at [buf]; the return value of the C function is their
    number. *)
Definition mbo_add_ie (len : Z) (attr : bytes) : bytes :=
  if decide (len < 6 + zlen attr) then []
  else WLAN_EID_VENDOR_SPECIFIC :: u8 (zlen attr + 4) ::
       WPA_PUT_BE24 OUI_WFA ++ MBO_OUI_TYPE :: attr.

(** ** Facts about the walks *)

Lemma ies_enc_cons e l : ies_enc (e :: l) = ie_enc e ++ ies_enc l.
Proof. reflexivity. Qed.

Lemma ies_enc_app l1 l2 : ies_enc (l1 ++ l2) = ies_enc l1 ++ ies_enc l2.
Proof. unfold ies_enc. by rewrite map_app, concat_app. Qed.

Lemma ies_enc_ok l : Forall ie_ok l → bytes_ok (ies_enc l).
Proof.
  induction 1 as [|e l He Hl IH]; [constructor|]. rewrite ies_enc_cons.
  apply Forall_app. split; [by apply ie_enc_ok|done].
Qed.

Lemma ies_enc_ok_app l r : Forall ie_ok l → bytes_ok r → bytes_ok (ies_enc l ++ r).
Proof. intros. apply Forall_app. split; [by apply ies_enc_ok|done]. Qed.

#[export] Hint Resolve ies_enc_ok ies_enc_ok_app : cmodel.

Lemma rd_ie_id e b : rd (ie_enc e ++ b) 0 = Ok (ie_id e).
Proof. reflexivity. Qed.

Lemma drop_ie_hdr e b : drop 2 (ie_enc e ++ b) = ie_body e ++ b.
Proof. reflexivity. Qed.

(** The elements [ieee802_11_vendor_ie_concat] selects: vendor specific ones
    that start with the four octets of OUI and type. *)
Definition vendor_match (oui_type : Z) (e : ie) : bool :=
  bool_decide (ie_id e = WLAN_EID_VENDOR_SPECIFIC ∧ 4 ≤ zlen (ie_body e) ∧
               be_val (take 4 (ie_body e)) = oui_type).

Lemma is_vendor_ie_spec oui e b :
  ie_ok e → is_vendor_ie oui (ie_enc e ++ b) (zlen (ie_body e)) = Ok (vendor_match oui e).
Proof.
  intros (Hid & Hb & Hl). unfold is_vendor_ie. rewrite rd_ie_id, drop_ie_hdr.
  cbn [mbind outcome_bind]. unfold vendor_match. case_decide as Hv.
  2:{ f_equal. symmetry. apply bool_decide_eq_false. tauto. }
  destruct Hv as [Hv H4]. destruct (ie_body e) as [|a0 [|a1 [|a2 [|a3 t]]]];
    try (unfold zlen in H4; cbn in H4; lia).
  unfold bytes_ok in Hb. rewrite !Forall_cons_iff in Hb. destruct Hb as (H0 & H1 & H2 & H3 & _).
  rewrite <- !app_comm_cons, WPA_GET_BE32_val by done. cbn [mbind outcome_bind]. f_equal.
  apply bool_decide_ext.
  assert (be_val (take 4 (a0 :: a1 :: a2 :: a3 :: t)) =
          a0 * 2 ^ 24 + a1 * 2 ^ 16 + a2 * 2 ^ 8 + a3) as ->; [|tauto].
  change (take 4 _) with [a0; a1; a2; a3]. unfold be_val. cbn [fold_left]. lia.
Qed.

(** The data fields [ieee802_11_vendor_ie_concat] concatenates. *)
Definition vendor_payload (oui : Z) (l : list ie) : bytes :=
  concat (map (λ e, drop 4 (ie_body e)) (List.filter (vendor_match oui) l)).

Lemma vendor_payload_length oui l : zlen (vendor_payload oui l) ≤ zlen (ies_enc l).
Proof.
  unfold vendor_payload. induction l as [|e l IH]; [done|].
  rewrite ies_enc_cons, zlen_app. cbn [List.filter]. unfold ie_enc. rewrite !zlen_cons.
  pose proof (zlen_nonneg (ie_body e)).
  destruct (vendor_match oui e); cbn [map concat]; [|lia].
  rewrite zlen_app. unfold zlen in *. rewrite length_drop. lia.
Qed.

Section vendor_facts.
Context `{Malloc}.

(** The first loop stops at the first matching element. *)
Lemma vendor_find_spec oui l r :
  Forall ie_ok l → bytes_ok r → ie_trunc r →
  let found := ie_walk (λ _ : unit, true)
    (λ pos l _, m ← is_vendor_ie oui pos l; Ok (if m : bool then inl (Some pos) else inr tt))
    (λ _, Ok None) (λ _, Ok None) (ies_enc l ++ r) tt in
  (List.filter (vendor_match oui) l = [] ∧ found = Ok None) ∨
  (∃ l1 e l2, l = l1 ++ e :: l2 ∧ List.filter (vendor_match oui) l1 = [] ∧
    vendor_match oui e = true ∧ found = Ok (Some (ies_enc (e :: l2) ++ r))).
Proof.
  intros Hl Hr Ht. cbn zeta. induction Hl as [|e l He Hl IH].
  - left. split; [done|]. cbn [ies_enc map concat app]. rewrite ie_walk_trunc by done.
    by destruct (_ && _).
  - rewrite ies_enc_cons, <- app_assoc, ie_walk_cons by auto with cmodel.
    rewrite is_vendor_ie_spec by done. cbn [mbind outcome_bind List.filter].
    destruct (vendor_match oui e) eqn:Hm.
    + right. exists [], e, l. rewrite ies_enc_cons, <- app_assoc. done.
    + destruct IH as [[Hf IH]|(l1 & e' & l2 & -> & Hf & He' & IH)]; [by left|].
      right. exists (e :: l1), e', l2. cbn [List.filter]. by rewrite Hm.
Qed.

(** The second loop appends every matching payload. *)
Lemma vendor_copy_spec oui l r b :
  Forall ie_ok l → bytes_ok r → ie_trunc r → wf b →
  used b + zlen (vendor_payload oui l) ≤ size b →
  ∃ b', ie_walk (λ _, true)
          (λ pos l b, m ← is_vendor_ie oui pos l;
                      if m : bool then inr <$> wpabuf_put_data b (Some (drop 6 pos)) (l - 4)
                      else Ok (inr b))
          (@Ok wpabuf) (@Ok wpabuf) (ies_enc l ++ r) b = Ok b' ∧
        wf b' ∧ contents b' = contents b ++ vendor_payload oui l.
Proof.
  intros Hl Hr Ht. revert b. induction Hl as [|e l He Hl IH]; intros b Hw Hfit.
  - exists b. cbn [ies_enc map concat app]. rewrite ie_walk_trunc by done.
    rewrite app_nil_r. by destruct (_ && _).
  - rewrite ies_enc_cons, <- app_assoc, ie_walk_cons by auto with cmodel.
    rewrite is_vendor_ie_spec by done. cbn [mbind outcome_bind].
    unfold vendor_payload in *. cbn [List.filter] in *.
    destruct (vendor_match oui e) eqn:Hm; [|by apply IH].
    apply bool_decide_eq_true in Hm as (_ & H4 & _). cbn [map concat] in *.
    rewrite zlen_app in Hfit.
    change (drop 6 (ie_enc e ++ ies_enc l ++ r)) with (drop 4 (ie_body e ++ ies_enc l ++ r)).
    rewrite drop_app_le by (unfold zlen in H4; lia).
    assert (zlen (ie_body e) - 4 = zlen (drop 4 (ie_body e))) as ->
      by (unfold zlen in *; rewrite length_drop; lia).
    pose proof (zlen_nonneg (concat (map (λ e0, drop 4 (ie_body e0)) (List.filter (vendor_match oui) l)))).
    rewrite put_data_src_longer by (done || lia).
    destruct (put_data_fits b (drop 4 (ie_body e)) Hw) as (b1 & -> & Hw1 & Hc1 & Hs1 & Hu1 & _); [lia|].
    cbn [fmap outcome_fmap mbind outcome_bind].
    destruct (IH b1 Hw1) as (b2 & -> & Hw2 & Hc2); [lia|].
    exists b2. rewrite Hc2, Hc1, <- app_assoc. done.
Qed.
End vendor_facts.

(** ** Multi-band elements collected and written again *)

Definition is_mb (e : ie) : bool := bool_decide (ie_id e = WLAN_EID_MULTI_BAND).

(** An entry [(ie, ie_len)] of the table describes the element [e]. *)
Definition mb_entry (e : ie) (p : bytes * Z) : Prop :=
  p.2 = zlen (ie_body e) ∧ ∃ t, p.1 = ie_body e ++ t.

Lemma mb_collect_spec l info es :
  Forall ie_ok l → Forall2 mb_entry es info → (length info ≤ MAX_NOF_MB_IES_SUPPORTED)%nat →
  ∃ info', ie_walk (λ info, bool_decide (length info < MAX_NOF_MB_IES_SUPPORTED)%nat)
      (λ pos l info,
        id ← rd pos 0;
        Ok (inr (if decide (id = WLAN_EID_MULTI_BAND) then info ++ [(drop 2 pos, l)] else info)))
      (λ info, Ok (-1, info)) (λ info, Ok (0, info)) (ies_enc l) info = Ok (0, info') ∧
    Forall2 mb_entry (take MAX_NOF_MB_IES_SUPPORTED (es ++ List.filter is_mb l)) info'.
Proof.
  intros Hl. revert info es. induction Hl as [|e l He Hl IH]; intros info es Hin Hlen.
  - exists info. rewrite app_nil_r. split; [by cbn|].
    rewrite take_ge; [done|]. by rewrite (Forall2_length Hin).
  - rewrite ies_enc_cons, ie_walk_cons by auto with cmodel.
    rewrite rd_ie_id, drop_ie_hdr. cbn [mbind outcome_bind List.filter]. unfold is_mb at 1.
    case_bool_decide as Hfull.
    + case_decide as Hid.
      * rewrite bool_decide_eq_true_2 by done.
        destruct (IH (info ++ [(ie_body e ++ ies_enc l, zlen (ie_body e))]) (es ++ [e]))
          as (info' & -> & Hin').
        { apply Forall2_app; [done|]. repeat constructor. by exists (ies_enc l). }
        { rewrite length_app. cbn. lia. }
        exists info'. rewrite <- app_assoc in Hin'. done.
      * rewrite bool_decide_eq_false_2 by done. by apply IH.
    + exists info. split; [done|]. pose proof (Forall2_length Hin).
      rewrite take_app_le, take_ge by lia. done.
Qed.

Section mb_facts.
Context `{Malloc}.

Lemma mb_put_spec es info b :
  Forall ie_ok es → Forall2 mb_entry es info → wf b → used b + zlen (ies_enc es) ≤ size b →
  ∃ b', mb_ies_put b info = Ok b' ∧ wf b' ∧
        contents b' = contents b ++ concat (map (λ e, WLAN_EID_MULTI_BAND :: zlen (ie_body e) :: ie_body e) es).
Proof.
  intros Hes Hin. revert b. induction Hin as [|e [p n] es info [Hn [t Ht]] Hin IH]; intros b Hw Hfit.
  { exists b. cbn. by rewrite app_nil_r. }
  cbn in Hn, Ht. subst n p. apply Forall_cons_1 in Hes as [He Hes].
  rewrite ies_enc_cons, zlen_app in Hfit. unfold ie_enc in Hfit. rewrite !zlen_cons in Hfit.
  pose proof (zlen_nonneg (ie_body e)). pose proof (zlen_nonneg (ies_enc es)).
  cbn [mb_ies_put]. rewrite put_u8_data.
  destruct (put_data_fits b [WLAN_EID_MULTI_BAND] Hw) as (b1 & -> & Hw1 & Hc1 & Hs1 & Hu1 & _).
  { change (zlen [_]) with 1. lia. }
  cbn [mbind outcome_bind]. change (zlen [_]) with 1 in Hu1.
  rewrite put_u8_data.
  destruct (put_data_fits b1 [zlen (ie_body e)] Hw1) as (b2 & -> & Hw2 & Hc2 & Hs2 & Hu2 & _).
  { change (zlen [_]) with 1. lia. }
  cbn [mbind outcome_bind]. change (zlen [_]) with 1 in Hu2.
  rewrite put_data_src_longer by (done || lia).
  destruct (put_data_fits b2 (ie_body e) Hw2) as (b3 & -> & Hw3 & Hc3 & Hs3 & Hu3 & _); [lia|].
  cbn [mbind outcome_bind]. destruct (IH Hes b3 Hw3) as (b4 & -> & Hw4 & Hc4); [lia|].
  exists b4. split_and!; [done|done|]. cbn [map concat].
  rewrite Hc4, Hc3, Hc2, Hc1, <- !app_assoc. done.
Qed.

Lemma mb_size_spec es info n :
  Forall2 mb_entry es info → 0 ≤ n → n + zlen (ies_enc es) < 2 ^ 64 →
  fold_left (λ n e, u64 (n + (2 + e.2))) info n = n + zlen (ies_enc es).
Proof.
  intros Hin. revert n. induction Hin as [|e [p m] es info [Hn _] Hin IH]; intros n H0 Hmax.
  { cbn [fold_left]. change (zlen (ies_enc [])) with 0. lia. }
  cbn in Hn. subst m. rewrite ies_enc_cons, zlen_app in *. unfold ie_enc in *.
  rewrite !zlen_cons in *. cbn [fold_left snd].
  pose proof (zlen_nonneg (ie_body e)). pose proof (zlen_nonneg (ies_enc es)).
  unfold u64. rewrite Z.mod_small by lia. rewrite IH by lia. lia.
Qed.
End mb_facts.

(** ** Properties *)

(** Counting elements: whatever the octets are, the result is the number of
    complete elements at the start of the buffer. *)
Theorem ieee802_11_ie_count_spec b :
  bytes_ok b →
  ∃ l r, b = ies_enc l ++ r ∧ Forall ie_ok l ∧ ie_trunc r ∧
         ieee802_11_ie_count (Some b) = Ok (Z.of_nat (length l)).
Proof.
  intros Hb. destruct (ie_decompose b Hb) as (l & r & -> & Hl & Hr & Hro).
  exists l, r. split_and!; try done. unfold ieee802_11_ie_count.
  replace (Z.of_nat (length l)) with (0 + zlen l) by (unfold zlen; lia).
  generalize 0. clear Hb. induction Hl as [|e l He Hl IH]; intros c.
  - cbn [ies_enc map concat app]. rewrite ie_walk_trunc by done.
    rewrite Z.add_0_r. by destruct (_ && _).
  - rewrite ies_enc_cons, <- app_assoc, ie_walk_cons by auto with cmodel.
    cbn [mbind outcome_bind]. rewrite IH, zlen_cons. f_equal. lia.
Qed.

(** [get_ie] returns a pointer to the first element with the given id, and
    NULL exactly when no complete element has it. *)
Theorem get_ie_spec b eid :
  bytes_ok b →
  ∃ l r, b = ies_enc l ++ r ∧ Forall ie_ok l ∧ ie_trunc r ∧
    ((∀ e, In e l → ie_id e ≠ eid) ∧ get_ie (Some b) eid = Ok None ∨
     ∃ l1 e l2, l = l1 ++ e :: l2 ∧ ie_id e = eid ∧ (∀ e, In e l1 → ie_id e ≠ eid) ∧
       get_ie (Some b) eid = Ok (Some (ies_enc (e :: l2) ++ r))).
Proof.
  intros Hb. destruct (ie_decompose b Hb) as (l & r & -> & Hl & Hr & Hro).
  exists l, r. split_and!; try done. unfold get_ie. clear Hb.
  induction Hl as [|e l He Hl IH].
  - left. split; [by intros ? []|]. cbn [ies_enc map concat app].
    rewrite ie_walk_trunc by done. by destruct (_ && _).
  - rewrite ies_enc_cons, <- app_assoc, ie_walk_cons by auto with cmodel.
    rewrite rd_ie_id. cbn [mbind outcome_bind]. case_decide as Hid.
    + right. exists [], e, l. rewrite ies_enc_cons, <- app_assoc. by split_and!.
    + destruct IH as [[Hn IH]|(l1 & e' & l2 & -> & He' & Hn & IH)].
      * left. split; [|done]. intros x [<-|Hx]; auto.
      * right. exists (e :: l1), e', l2. split_and!; try done. intros x [<-|Hx]; auto.
Qed.

(** C15. [ieee802_11_vendor_ie_concat] never overflows its buffer: it returns
    NULL exactly when no vendor element of the requested type precedes the first
    truncated element, and otherwise the concatenation of the data fields of
    all of them. *)
Theorem ieee802_11_vendor_ie_concat_spec `{Malloc} b oui :
  bytes_ok b → zlen b < 2 ^ 64 - sizeof_wpabuf → (∀ n, malloc_ok n = true) →
  ∃ l r, b = ies_enc l ++ r ∧ Forall ie_ok l ∧ ie_trunc r ∧
    if decide (List.filter (vendor_match oui) l = [])
    then ieee802_11_vendor_ie_concat b oui = Ok None
    else ∃ w, ieee802_11_vendor_ie_concat b oui = Ok (Some w) ∧ wf w ∧
              contents w = vendor_payload oui l.
Proof.
  intros Hb Hlen Hma. destruct (ie_decompose b Hb) as (l & r & -> & Hl & Hr & Hro).
  exists l, r. split_and!; try done. unfold ieee802_11_vendor_ie_concat.
  destruct (vendor_find_spec oui l r Hl Hro Hr) as [[Hf ->]|(l1 & e & l2 & -> & Hf & He & ->)];
    cbn [mbind outcome_bind].
  { by rewrite decide_True. }
  destruct (wpabuf_alloc _) as [w|] eqn:Hal.
  2:{ unfold wpabuf_alloc in Hal. by rewrite Hma in Hal. }
  apply wf_alloc in Hal as (Hw & Hc & Hs).
  2:{ split; [apply zlen_nonneg|lia]. }
  apply Forall_app in Hl as [Hl1 Hl2].
  pose proof (contents_length w Hw) as Hu. rewrite Hc in Hu. change (zlen []) with 0 in Hu.
  assert (vendor_payload oui (l1 ++ e :: l2) = vendor_payload oui (e :: l2)) as Hp.
  { unfold vendor_payload. by rewrite List.filter_app, Hf. }
  destruct (vendor_copy_spec oui (e :: l2) r w Hl2 Hro Hr Hw) as (w' & -> & Hw' & Hc').
  { rewrite <- Hp. pose proof (vendor_payload_length oui (l1 ++ e :: l2)).
    rewrite zlen_app in Hs. pose proof (zlen_nonneg r). lia. }
  cbn [mbind outcome_bind]. rewrite decide_False.
  2:{ rewrite List.filter_app, Hf. cbn [List.filter]. by rewrite He. }
  exists w'. split_and!; [done|done|]. by rewrite Hc', Hc, Hp.
Qed.

(** Collecting the multi-band elements of a well-formed buffer with
    [mb_ies_info_by_ies] and writing the table out with [mb_ies_by_info] gives
    back exactly the first five of them, in order. *)
Lemma mb_ies_roundtrip `{Malloc} l :
  Forall ie_ok l → (∀ n, malloc_ok n = true) →
  let mb := take MAX_NOF_MB_IES_SUPPORTED (List.filter is_mb l) in
  ∃ info, mb_ies_info_by_ies (Some (ies_enc l)) = Ok (0, info) ∧
    if decide (mb = []) then mb_ies_by_info info = Ok None
    else ∃ w, mb_ies_by_info info = Ok (Some w) ∧ contents w = ies_enc mb.
Proof.
  intros Hl Hma mb.
  destruct (mb_collect_spec l [] [] Hl) as (info & Hw & Hin); [constructor|cbn; lia|].
  exists info. split; [exact Hw|]. cbn [app] in Hin. fold mb in Hin.
  assert (Forall (λ e, ie_ok e ∧ is_mb e = true) mb) as Hmb.
  { apply Forall_take. apply List.Forall_forall. intros e [Hi Hm]%filter_In.
    split; [|done]. by apply (proj1 (List.Forall_forall _ _) Hl). }
  apply List.Forall_and_inv in Hmb as [Hok His].
  unfold mb_ies_by_info. pose proof (Forall2_length Hin) as Hll.
  case_decide as Hnil.
  { rewrite Hnil in Hll. cbn in Hll. by rewrite decide_True by lia. }
  rewrite decide_False by (destruct mb; [done|cbn in Hll; lia]).
  assert (zlen (ies_enc mb) ≤ 257 * zlen mb) as Hsz.
  { clear -Hok. induction Hok as [|e es He Hes IH]; [done|].
    rewrite ies_enc_cons, zlen_app. unfold ie_enc. rewrite !zlen_cons.
    destruct He as (_ & _ & ?). lia. }
  assert (zlen mb ≤ 5).
  { unfold zlen, mb, MAX_NOF_MB_IES_SUPPORTED. rewrite length_take. lia. }
  rewrite (mb_size_spec mb info 0) by (done || lia). rewrite Z.add_0_l.
  destruct (wpabuf_alloc _) as [w|] eqn:Hal.
  2:{ unfold wpabuf_alloc in Hal. by rewrite Hma in Hal. }
  apply wf_alloc in Hal as (Hww & Hc & Hs).
  2:{ unfold sizeof_wpabuf. pose proof (zlen_nonneg (ies_enc mb)). lia. }
  pose proof (contents_length w Hww) as Hu. rewrite Hc in Hu. change (zlen []) with 0 in Hu.
  destruct (mb_put_spec mb info w Hok Hin Hww) as (w' & -> & Hw' & Hc'); [lia|].
  exists w'. split; [done|]. rewrite Hc', Hc. cbn [app]. unfold ies_enc. f_equal.
  clear -His. induction His as [|e es He Hes IH]; [done|]. cbn [map].
  unfold is_mb in He. apply bool_decide_eq_true in He. rewrite <- IH, <- He. done.
Qed.

(** ** Examples *)

(** An SSID element, a vendor element, a multi-band element and one stray octet. *)
Definition ies_example : list ie :=
  [mk_ie 0 [97; 98]; mk_ie 221 [80; 111; 154; 9; 1; 2]; mk_ie 158 [5]].

Definition ies_bytes : bytes := ies_enc ies_example ++ [42].

Lemma ies_bytes_ok : bytes_ok ies_bytes.
Proof. repeat constructor; done. Defined.

Lemma ies_example_ok : Forall ie_ok ies_example.
Proof. repeat constructor; done. Defined.

Lemma ieee802_11_ie_count_spec_witness :
  bytes_ok ies_bytes ∧
  ∃ l : list ie, ieee802_11_ie_count (Some ies_bytes) = Ok (Z.of_nat (length l)) ∧ Z.of_nat (length l) = 3.
Proof.
  split; [exact ies_bytes_ok|].
  destruct (ieee802_11_ie_count_spec ies_bytes ies_bytes_ok) as (l & r & _ & _ & _ & H).
  exists l. split; [exact H|].
  assert (ieee802_11_ie_count (Some ies_bytes) = Ok 3) as H' by reflexivity.
  rewrite H in H'. injection H' as H'. exact H'.
Defined.

Lemma get_ie_spec_witness :
  bytes_ok ies_bytes ∧ get_ie (Some ies_bytes) 158 = Ok (Some [158; 1; 5; 42]) ∧
  ∃ e t r, [158; 1; 5; 42] = ies_enc (e :: t) ++ r ∧ ie_id e = 158.
Proof.
  assert (get_ie (Some ies_bytes) 158 = Ok (Some [158; 1; 5; 42])) as Hg by reflexivity.
  split; [exact ies_bytes_ok|]. split; [exact Hg|].
  destruct (get_ie_spec ies_bytes 158 ies_bytes_ok)
    as (l & r & _ & _ & _ & [[_ H]|(l1 & e & l2 & _ & He & _ & H)]).
  - rewrite Hg in H. discriminate H.
  - rewrite Hg in H. exists e, l2, r. split; [|exact He].
    exact (f_equal (λ o, match o with Ok (Some p) => p | _ => [] end) H).
Defined.

Lemma ieee802_11_vendor_ie_concat_spec_witness :
  bytes_ok ies_bytes ∧
  ∃ w, @ieee802_11_vendor_ie_concat malloc_always ies_bytes 0x506f9a09 = Ok (Some w) ∧ wf w.
Proof.
  split; [exact ies_bytes_ok|].
  destruct (@ieee802_11_vendor_ie_concat_spec malloc_always ies_bytes 0x506f9a09 ies_bytes_ok)
    as (l & r & _ & _ & _ & H); [reflexivity|reflexivity|].
  case_decide.
  - assert (@ieee802_11_vendor_ie_concat malloc_always ies_bytes 0x506f9a09 ≠ Ok None) as Hn
      by (vm_compute; discriminate).
    destruct (Hn H).
  - destruct H as (w & Hw & Hwf & _). exists w. split; [exact Hw|exact Hwf].
Defined.

Lemma mb_ies_roundtrip_witness :
  Forall ie_ok ies_example ∧
  ∃ info w, mb_ies_info_by_ies (Some (ies_enc ies_example)) = Ok (0, info) ∧
    @mb_ies_by_info malloc_always info = Ok (Some w) ∧ contents w = [158; 1; 5].
Proof.
  split; [exact ies_example_ok|].
  destruct (@mb_ies_roundtrip malloc_always ies_example ies_example_ok (λ _, eq_refl))
    as (info & Hi & H).
  destruct H as (w & Hw & Hc). exists info, w. split; [exact Hi|]. split; [exact Hw|exact Hc].
Defined.
