(* ===== verification/Elems.v ===== *)
(** * Parsing the elements of a management frame

    [ieee802_11_parse_elems] and [ieee802_11_parse_vendor_specific] of
    [src/common/ieee802_11_common.c], with the structure they fill
    ([src/common/ieee802_11_common.h]). A [const u8 *] field is [None] for NULL
    and otherwise the run of octets from the pointer to the end of the frame.
    The debug output is not modelled ([show_errors] only controls it). *)

From Stdlib Require Import ZArith Lia.
From stdpp Require Import base option list numbers decidable.
From S2P Require Import Prelude CLib Common Wpabuf Ie.
Local Open Scope Z_scope.

Abbreviation cptr := (option bytes).

(** ** The structure *)

Module elems.

(** [struct ieee802_11_elems] *)
Record t := mk {
  ssid : cptr;
  supp_rates : cptr;
  ds_params : cptr;
  challenge : cptr;
  erp_info : cptr;
  ext_supp_rates : cptr;
  wpa_ie : cptr;
  rsn_ie : cptr;
  wmm : cptr;
  wmm_tspec : cptr;
  wps_ie : cptr;
  supp_channels : cptr;
  mdie : cptr;
  ftie : cptr;
  timeout_int : cptr;
  ht_capabilities : cptr;
  ht_operation : cptr;
  mesh_config : cptr;
  mesh_id : cptr;
  peer_mgmt : cptr;
  vht_capabilities : cptr;
  vht_operation : cptr;
  vht_opmode_notif : cptr;
  vendor_ht_cap : cptr;
  vendor_vht : cptr;
  p2p : cptr;
  wfd : cptr;
  link_id : cptr;
  interworking : cptr;
  qos_map_set : cptr;
  hs20 : cptr;
  ext_capab : cptr;
  bss_max_idle_period : cptr;
  ssid_list : cptr;
  osen : cptr;
  mbo : cptr;
  ampe : cptr;
  mic : cptr;
  pref_freq_list : cptr;
  supp_op_classes : cptr;
  rrm_enabled : cptr;
  stuffed_data : list cptr;    (** 10 entries *)
  ssid_len : Z;
  supp_rates_len : Z;
  challenge_len : Z;
  ext_supp_rates_len : Z;
  wpa_ie_len : Z;
  rsn_ie_len : Z;
  wmm_len : Z;
  wmm_tspec_len : Z;
  wps_ie_len : Z;
  supp_channels_len : Z;
  mdie_len : Z;
  ftie_len : Z;
  mesh_config_len : Z;
  mesh_id_len : Z;
  peer_mgmt_len : Z;
  vendor_ht_cap_len : Z;
  vendor_vht_len : Z;
  p2p_len : Z;
  wfd_len : Z;
  interworking_len : Z;
  qos_map_set_len : Z;
  hs20_len : Z;
  ext_capab_len : Z;
  ssid_list_len : Z;
  osen_len : Z;
  mbo_len : Z;
  ampe_len : Z;
  mic_len : Z;
  pref_freq_list_len : Z;
  supp_op_classes_len : Z;
  rrm_enabled_len : Z;
  n_stuffed_ies : Z;
  stuffed_data_len : list Z;   (** 10 entries *)
  last_recv_seq_num : Z;
  mb_ies : mb_ies_info }.

#[export] Instance eta_t : Eta t := λ e, mk
  (ssid e) (supp_rates e) (ds_params e) (challenge e) (erp_info e) (ext_supp_rates e)
  (wpa_ie e) (rsn_ie e) (wmm e) (wmm_tspec e) (wps_ie e) (supp_channels e) (mdie e)
  (ftie e) (timeout_int e) (ht_capabilities e) (ht_operation e) (mesh_config e)
  (mesh_id e) (peer_mgmt e) (vht_capabilities e) (vht_operation e) (vht_opmode_notif e)
  (vendor_ht_cap e) (vendor_vht e) (p2p e) (wfd e) (link_id e) (interworking e)
  (qos_map_set e) (hs20 e) (ext_capab e) (bss_max_idle_period e) (ssid_list e) (osen e)
  (mbo e) (ampe e) (mic e) (pref_freq_list e) (supp_op_classes e) (rrm_enabled e)
  (stuffed_data e) (ssid_len e) (supp_rates_len e) (challenge_len e)
  (ext_supp_rates_len e) (wpa_ie_len e) (rsn_ie_len e) (wmm_len e) (wmm_tspec_len e)
  (wps_ie_len e) (supp_channels_len e) (mdie_len e) (ftie_len e) (mesh_config_len e)
  (mesh_id_len e) (peer_mgmt_len e) (vendor_ht_cap_len e) (vendor_vht_len e)
  (p2p_len e) (wfd_len e) (interworking_len e) (qos_map_set_len e) (hs20_len e)
  (ext_capab_len e) (ssid_list_len e) (osen_len e) (mbo_len e) (ampe_len e) (mic_len e)
  (pref_freq_list_len e) (supp_op_classes_len e) (rrm_enabled_len e) (n_stuffed_ies e)
  (stuffed_data_len e) (last_recv_seq_num e) (mb_ies e).

(** [os_memset(elems, 0, sizeof( *elems))] *)
Definition zero : t := mk
  None None None None None None None None None None None None None None None None None
  None None None None None None None None None None None None None None None None None
  None None None None None None None (replicate 10 None) 0 0 0 0 0 0 0 0 0 0 0 0 0 0 0
  0 0 0 0 0 0 0 0 0 0 0 0 0 0 0 0 0 (replicate 10 0) 0 [].

End elems.
Import elems.

Inductive ParseRes : Set := ParseOK | ParseUnknown | ParseFailed.

#[export] Instance ParseRes_eq_dec : EqDecision ParseRes.
Proof. solve_decision. Defined.

(** ** Constants *)

Definition SSID_MAX_LEN : Z := 32.
Definition WMM_OUI_TYPE : Z := 2.
Definition WMM_OUI_SUBTYPE_INFORMATION_ELEMENT : Z := 0.
Definition WMM_OUI_SUBTYPE_PARAMETER_ELEMENT : Z := 1.
Definition WMM_OUI_SUBTYPE_TSPEC_ELEMENT : Z := 2.
Definition P2P_OUI_TYPE : Z := 9.
Definition WFD_OUI_TYPE : Z := 10.
Definition HS20_INDICATION_OUI_TYPE : Z := 16.
Definition VENDOR_HT_CAPAB_OUI_TYPE : Z := 0x33.
Definition VENDOR_VHT_TYPE : Z := 0x04.
Definition VENDOR_VHT_SUBTYPE : Z := 0x08.
Definition VENDOR_VHT_SUBTYPE2 : Z := 0x00.
Definition QCA_VENDOR_ELEM_P2P_PREF_CHAN_LIST : Z := 0.

Definition sizeof_rsn_mdie : Z := 3.
Definition sizeof_rsn_ftie : Z := 82.
Definition sizeof_ieee80211_ht_capabilities : Z := 26.
Definition sizeof_ieee80211_ht_operation : Z := 22.
Definition sizeof_ieee80211_vht_capabilities : Z := 12.
Definition sizeof_ieee80211_vht_operation : Z := 5.

(** ** Vendor specific elements *)

(** The body of [case OUI_PROBE_STUFFING]: record the element in the next free
    entry of the two arrays. *)
Definition record_stuffed (pos : bytes) (elen : Z) (e : elems.t) : outcome elems.t :=
  let n := Z.to_nat (n_stuffed_ies e) in
  _ ← guard_ub OutOfBounds (bool_decide (n < length (stuffed_data e))%nat);
  let e := e <| stuffed_data := <[n := Some pos]> (stuffed_data e) |> in
  _ ← guard_ub OutOfBounds (bool_decide (n < length (stuffed_data_len e))%nat);
  let e := e <| stuffed_data_len := <[n := elen]> (stuffed_data_len e) |> in
  Ok (e <| n_stuffed_ies := u8 (n_stuffed_ies e + 1) |>).

(** The first component is the return value. *)
Definition ieee802_11_parse_vendor_specific (pos : bytes) (elen : Z) (e : elems.t)
    : outcome (Z * elems.t) :=
  if decide (elen < 4) then Ok (-1, e) else
  oui ← WPA_GET_BE24 pos;
  ty ← rd pos 3;
  if decide (oui = OUI_MICROSOFT) then
    if decide (ty = 1) then
      Ok (0, e <| wpa_ie := Some pos |> <| wpa_ie_len := elen |>)
    else if decide (ty = WMM_OUI_TYPE) then
      if decide (elen < 5) then Ok (-1, e) else
      sub ← rd pos 4;
      if decide (sub = WMM_OUI_SUBTYPE_INFORMATION_ELEMENT
                 ∨ sub = WMM_OUI_SUBTYPE_PARAMETER_ELEMENT) then
        Ok (0, e <| wmm := Some pos |> <| wmm_len := elen |>)
      else if decide (sub = WMM_OUI_SUBTYPE_TSPEC_ELEMENT) then
        Ok (0, e <| wmm_tspec := Some pos |> <| wmm_tspec_len := elen |>)
      else Ok (-1, e)
    else if decide (ty = 4) then
      Ok (0, e <| wps_ie := Some pos |> <| wps_ie_len := elen |>)
    else Ok (-1, e)
  else if decide (oui = OUI_WFA) then
    if decide (ty = P2P_OUI_TYPE) then
      Ok (0, e <| p2p := Some pos |> <| p2p_len := elen |>)
    else if decide (ty = WFD_OUI_TYPE) then
      Ok (0, e <| wfd := Some pos |> <| wfd_len := elen |>)
    else if decide (ty = HS20_INDICATION_OUI_TYPE) then
      Ok (0, e <| hs20 := Some pos |> <| hs20_len := elen |>)
    else if decide (ty = HS20_OSEN_OUI_TYPE) then
      Ok (0, e <| osen := Some pos |> <| osen_len := elen |>)
    else if decide (ty = MBO_OUI_TYPE) then
      Ok (0, e <| mbo := Some pos |> <| mbo_len := elen |>)
    else Ok (-1, e)
  else if decide (oui = OUI_BROADCOM) then
    if decide (ty = VENDOR_HT_CAPAB_OUI_TYPE) then
      Ok (0, e <| vendor_ht_cap := Some pos |> <| vendor_ht_cap_len := elen |>)
    else if decide (ty = VENDOR_VHT_TYPE) then
      if decide (4 < elen) then
        sub ← rd pos 4;
        if decide (sub = VENDOR_VHT_SUBTYPE ∨ sub = VENDOR_VHT_SUBTYPE2) then
          Ok (0, e <| vendor_vht := Some pos |> <| vendor_vht_len := elen |>)
        else Ok (-1, e)
      else Ok (-1, e)
    else Ok (-1, e)
  else if decide (oui = OUI_QCA) then
    if decide (ty = QCA_VENDOR_ELEM_P2P_PREF_CHAN_LIST) then
      Ok (0, e <| pref_freq_list := Some pos |> <| pref_freq_list_len := elen |>)
    else Ok (-1, e)
  else if decide (oui = OUI_PROBE_STUFFING) then
    e ← record_stuffed pos elen e;
    Ok (-1, e) (* falls through to the default case *)
  else Ok (-1, e).

(** ** The elements of a frame *)

(** The [switch (id)] of the loop, for the elements that only record a pointer
    and possibly a length; [None] is the [default] case. *)
Definition parse_known (id : Z) (pos : bytes) (elen : Z) (e : elems.t) : option elems.t :=
  let p := Some pos in
  if decide (id = WLAN_EID_SSID) then
    Some (if decide (SSID_MAX_LEN < elen) then e
          else e <| ssid := p |> <| ssid_len := elen |>)
  else if decide (id = WLAN_EID_SUPP_RATES) then
    Some (e <| supp_rates := p |> <| supp_rates_len := elen |>)
  else if decide (id = WLAN_EID_DS_PARAMS) then
    Some (if decide (elen < 1) then e else e <| ds_params := p |>)
  else if decide (id = WLAN_EID_CF_PARAMS ∨ id = WLAN_EID_TIM) then Some e
  else if decide (id = WLAN_EID_CHALLENGE) then
    Some (e <| challenge := p |> <| challenge_len := elen |>)
  else if decide (id = WLAN_EID_ERP_INFO) then
    Some (if decide (elen < 1) then e else e <| erp_info := p |>)
  else if decide (id = WLAN_EID_EXT_SUPP_RATES) then
    Some (e <| ext_supp_rates := p |> <| ext_supp_rates_len := elen |>)
  else if decide (id = WLAN_EID_RSN) then
    Some (e <| rsn_ie := p |> <| rsn_ie_len := elen |>)
  else if decide (id = WLAN_EID_PWR_CAPABILITY) then Some e
  else if decide (id = WLAN_EID_SUPPORTED_CHANNELS) then
    Some (e <| supp_channels := p |> <| supp_channels_len := elen |>)
  else if decide (id = WLAN_EID_MOBILITY_DOMAIN) then
    Some (if decide (elen < sizeof_rsn_mdie) then e
          else e <| mdie := p |> <| mdie_len := elen |>)
  else if decide (id = WLAN_EID_FAST_BSS_TRANSITION) then
    Some (if decide (elen < sizeof_rsn_ftie) then e
          else e <| ftie := p |> <| ftie_len := elen |>)
  else if decide (id = WLAN_EID_TIMEOUT_INTERVAL) then
    Some (if decide (elen ≠ 5) then e else e <| timeout_int := p |>)
  else if decide (id = WLAN_EID_HT_CAP) then
    Some (if decide (elen < sizeof_ieee80211_ht_capabilities) then e
          else e <| ht_capabilities := p |>)
  else if decide (id = WLAN_EID_HT_OPERATION) then
    Some (if decide (elen < sizeof_ieee80211_ht_operation) then e
          else e <| ht_operation := p |>)
  else if decide (id = WLAN_EID_MESH_CONFIG) then
    Some (e <| mesh_config := p |> <| mesh_config_len := elen |>)
  else if decide (id = WLAN_EID_MESH_ID) then
    Some (e <| mesh_id := p |> <| mesh_id_len := elen |>)
  else if decide (id = WLAN_EID_PEER_MGMT) then
    Some (e <| peer_mgmt := p |> <| peer_mgmt_len := elen |>)
  else if decide (id = WLAN_EID_VHT_CAP) then
    Some (if decide (elen < sizeof_ieee80211_vht_capabilities) then e
          else e <| vht_capabilities := p |>)
  else if decide (id = WLAN_EID_VHT_OPERATION) then
    Some (if decide (elen < sizeof_ieee80211_vht_operation) then e
          else e <| vht_operation := p |>)
  else if decide (id = WLAN_EID_VHT_OPERATING_MODE_NOTIFICATION) then
    Some (if decide (elen ≠ 1) then e else e <| vht_opmode_notif := p |>)
  else if decide (id = WLAN_EID_LINK_ID) then
    Some (if decide (elen < 18) then e else e <| link_id := p |>)
  else if decide (id = WLAN_EID_INTERWORKING) then
    Some (e <| interworking := p |> <| interworking_len := elen |>)
  else if decide (id = WLAN_EID_QOS_MAP_SET) then
    Some (if decide (elen < 16) then e
          else e <| qos_map_set := p |> <| qos_map_set_len := elen |>)
  else if decide (id = WLAN_EID_EXT_CAPAB) then
    Some (e <| ext_capab := p |> <| ext_capab_len := elen |>)
  else if decide (id = WLAN_EID_BSS_MAX_IDLE_PERIOD) then
    Some (if decide (elen < 3) then e else e <| bss_max_idle_period := p |>)
  else if decide (id = WLAN_EID_SSID_LIST) then
    Some (e <| ssid_list := p |> <| ssid_list_len := elen |>)
  else if decide (id = WLAN_EID_AMPE) then
    Some (e <| ampe := p |> <| ampe_len := elen |>)
  else if decide (id = WLAN_EID_MIC) then
    Some (e <| mic := p |> <| mic_len := elen |>)
  else if decide (id = WLAN_EID_MULTI_BAND) then
    Some (if decide (MAX_NOF_MB_IES_SUPPORTED ≤ length (mb_ies e))%nat then e
          else e <| mb_ies := mb_ies e ++ [(pos, elen)] |>)
  else if decide (id = WLAN_EID_SUPPORTED_OPERATING_CLASSES) then
    Some (e <| supp_op_classes := p |> <| supp_op_classes_len := elen |>)
  else if decide (id = WLAN_EID_RRM_ENABLED_CAPABILITIES) then
    Some (e <| rrm_enabled := p |> <| rrm_enabled_len := elen |>)
  else None.

(** One element: the structure and the number of unknown elements after it. *)
Definition parse_one (id : Z) (pos : bytes) (elen : Z) (e : elems.t) (unknown : Z)
    : outcome (elems.t * Z) :=
  if decide (id = WLAN_EID_VENDOR_SPECIFIC) then
    '(ret, e) ← ieee802_11_parse_vendor_specific pos elen e;
    Ok (e, if decide (ret ≠ 0) then unknown + 1 else unknown)
  else match parse_known id pos elen e with
       | Some e => Ok (e, unknown)
       | None => Ok (e, unknown + 1)
       end.

(** [left] is the number of octets still to parse; the case of the MIC element
    sets it to [elen], because what follows is encrypted. *)
Fixpoint parse_loop (fuel : nat) (left : Z) (pos : bytes) (e : elems.t) (unknown : Z)
    : outcome (ParseRes * elems.t) :=
  match fuel with
  | O => Stuck
  | S f =>
    if decide (2 ≤ left) then
      id ← rd pos 0;
      elen ← rd pos 1;
      let pos := drop 2 pos in
      let left := left - 2 in
      if decide (left < elen) then Ok (ParseFailed, e) else
      '(e, unknown) ← parse_one id pos elen e unknown;
      let left := if decide (id = WLAN_EID_MIC) then elen else left in
      parse_loop f (left - elen) (drop (Z.to_nat elen) pos) e unknown
    else if decide (left ≠ 0) then Ok (ParseFailed, e)
    else Ok (if decide (unknown ≠ 0) then ParseUnknown else ParseOK, e)
  end.

(** [start] holds the [len] octets of elements; every iteration consumes at
    least two of them. *)
Definition ieee802_11_parse_elems (start : bytes) : outcome (ParseRes * elems.t) :=
  parse_loop (S (length start)) (zlen start) start elems.zero 0.

(** ** The parse of a list of elements

    What the loop does, told over the elements of the buffer: [r] is the
    remainder after them, and nothing is looked at after a MIC element. *)

Definition parse_done (e : elems.t) (unknown : Z) : ParseRes * elems.t :=
  (if decide (unknown ≠ 0) then ParseUnknown else ParseOK, e).

Fixpoint parse_ies (l : list ie) (r : bytes) (e : elems.t) (unknown : Z)
    : outcome (ParseRes * elems.t) :=
  match l with
  | [] => Ok (if decide (r = []) then parse_done e unknown else (ParseFailed, e))
  | x :: l =>
    '(e, unknown) ← parse_one (ie_id x) (ie_body x ++ ies_enc l ++ r) (zlen (ie_body x)) e unknown;
    if decide (ie_id x = WLAN_EID_MIC) then Ok (parse_done e unknown)
    else parse_ies l r e unknown
  end.

Lemma parse_loop_ies l r : Forall ie_ok l → ie_trunc r → ∀ fuel e unknown,
  (length (ies_enc l ++ r) < fuel)%nat →
  parse_loop fuel (zlen (ies_enc l ++ r)) (ies_enc l ++ r) e unknown = parse_ies l r e unknown.
Proof.
  intros Hl Hr. induction Hl as [|x l Hx Hl IH]; intros fuel e unknown Hf;
    (destruct fuel as [|fuel]; [lia|]); cbn [parse_loop parse_ies].
  - cbn [ies_enc map concat app]. case_decide as H2.
    + apply zlen_2_inv in H2 as (i & n & t & ->). cbn [rd lookup list_lookup mbind outcome_bind].
      cbn in Hr. rewrite !decide_True by (rewrite ?zlen_cons; lia). done.
    + destruct r as [|? [|? ?]]; [done|done|]. unfold zlen in H2. cbn in H2. lia.
  - destruct Hx as (_ & _ & Hb). pose proof (zlen_nonneg (ie_body x)).
    pose proof (zlen_nonneg (ies_enc l ++ r)).
    rewrite ies_enc_cons, <- app_assoc in *. unfold ie_enc in *.
    rewrite <- !app_comm_cons in *. unfold rd. cbn [lookup list_lookup mbind outcome_bind].
    rewrite !zlen_cons, zlen_app. rewrite decide_True by lia.
    change (drop 2 (?a :: ?b :: ?t)) with t. rewrite decide_False by lia.
    destruct (parse_one _ _ _ _ _) as [[e' u']| |]; cbn [mbind outcome_bind]; [|done|done].
    cbn [length] in Hf. rewrite length_app in Hf.
    rewrite drop_app_length' by (unfold zlen; lia). case_decide.
    + rewrite Z.sub_diag. destruct fuel; [lia|]. cbn [parse_loop].
      by rewrite decide_False, decide_False by lia.
    + replace (1 + (1 + (zlen (ie_body x) + zlen (ies_enc l ++ r))) - 2 - zlen (ie_body x))
        with (zlen (ies_enc l ++ r)) by lia.
      apply IH. lia.
Qed.

Lemma parse_elems_ies l r : Forall ie_ok l → ie_trunc r →
  ieee802_11_parse_elems (ies_enc l ++ r) = parse_ies l r elems.zero 0.
Proof. intros. apply parse_loop_ies; [done|done|lia]. Qed.

(** The elements that are parsed. *)
Fixpoint upto_mic (l : list ie) : list ie :=
  match l with
  | [] => []
  | x :: l => x :: if decide (ie_id x = WLAN_EID_MIC) then [] else upto_mic l
  end.

Definition has_mic (l : list ie) : Prop := ∃ x, In x l ∧ ie_id x = WLAN_EID_MIC.

#[export] Instance has_mic_dec l : Decision (has_mic l).
Proof.
  refine (cast_if (decide (Exists (λ x, ie_id x = WLAN_EID_MIC) l)));
    unfold has_mic; by rewrite <- List.Exists_exists.
Defined.

(** ** Elements that carry stuffed data *)

Definition is_stuffing (x : ie) : bool :=
  bool_decide (ie_id x = WLAN_EID_VENDOR_SPECIFIC ∧ 4 ≤ zlen (ie_body x) ∧
               be_val (take 3 (ie_body x)) = OUI_PROBE_STUFFING).

Definition stuffing (l : list ie) : list ie := List.filter is_stuffing l.

(** The table of stuffed elements of [e] describes the elements [xs]. *)
Record stuffed_inv (xs : list ie) (e : elems.t) : Prop := {
  si_len1 : length (stuffed_data e) = 10%nat;
  si_len2 : length (stuffed_data_len e) = 10%nat;
  si_n : n_stuffed_ies e = zlen xs;
  si_max : zlen xs ≤ 10;
  si_at : ∀ i x, xs !! i = Some x →
    ∃ t, stuffed_data e !! i = Some (Some (ie_body x ++ t)) ∧
         stuffed_data_len e !! i = Some (zlen (ie_body x)) }.

Definition same_stuffed (e e' : elems.t) : Prop :=
  stuffed_data e' = stuffed_data e ∧ stuffed_data_len e' = stuffed_data_len e ∧
  n_stuffed_ies e' = n_stuffed_ies e.

Lemma stuffed_inv_same xs e e' : stuffed_inv xs e → same_stuffed e e' → stuffed_inv xs e'.
Proof. intros [????] (H1 & H2 & H3). by constructor; rewrite ?H1, ?H2, ?H3. Qed.

Lemma stuffed_inv_zero : stuffed_inv [] elems.zero.
Proof. by constructor; [| | |done|]. Qed.

Lemma record_stuffed_ok xs x t e :
  stuffed_inv xs e → zlen xs < 10 →
  ∃ e', record_stuffed (ie_body x ++ t) (zlen (ie_body x)) e = Ok e' ∧ stuffed_inv (xs ++ [x]) e'.
Proof.
  intros [H1 H2 Hn _ Hat] Hlt. unfold record_stuffed. rewrite Hn. cbn zeta.
  assert (Z.to_nat (zlen xs) = length xs) as Hz by (unfold zlen; lia). rewrite Hz.
  unfold zlen in Hlt.
  rewrite (bool_decide_eq_true_2 (length xs < length (stuffed_data e))%nat) by lia.
  cbn [guard_ub mbind outcome_bind].
  rewrite bool_decide_eq_true_2 by (cbn; lia). cbn [guard_ub mbind outcome_bind].
  eexists. split; [done|]. constructor; cbn -[u8].
  - by rewrite length_insert.
  - by rewrite length_insert.
  - rewrite Hn, zlen_snoc. apply u8_small. unfold is_u8, zlen. lia.
  - rewrite zlen_snoc. unfold zlen. lia.
  - intros i y [[Hi Hy]|[Hi Hy]]%lookup_snoc_Some.
    + destruct (Hat i y Hy) as (t' & Ha & Hb). exists t'.
      split; (etrans; [apply list_lookup_insert_ne; lia|done]).
    + subst. exists t. split; apply list_lookup_insert_eq; lia.
Qed.

Lemma record_stuffed_full xs x t e :
  stuffed_inv xs e → zlen xs = 10 →
  record_stuffed (ie_body x ++ t) (zlen (ie_body x)) e = Undef OutOfBounds.
Proof.
  intros [H1 H2 Hn _ _] Hx. unfold record_stuffed. rewrite Hn, Hx. cbn zeta.
  rewrite (bool_decide_eq_false_2 (Z.to_nat 10 < length (stuffed_data e))%nat); [done|].
  rewrite H1. lia.
Qed.

Lemma parse_vendor_cases x t e :
  ie_ok x → ie_id x = WLAN_EID_VENDOR_SPECIFIC →
  if is_stuffing x
  then ieee802_11_parse_vendor_specific (ie_body x ++ t) (zlen (ie_body x)) e =
       (e ← record_stuffed (ie_body x ++ t) (zlen (ie_body x)) e; Ok (-1, e))
  else ∃ ret e', ieee802_11_parse_vendor_specific (ie_body x ++ t) (zlen (ie_body x)) e =
                 Ok (ret, e') ∧ same_stuffed e e'.
Proof.
  intros (_ & Hb & _) Hid. unfold is_stuffing, ieee802_11_parse_vendor_specific.
  case_decide as H4.
  { rewrite bool_decide_eq_false_2 by lia. by exists (-1), e. }
  destruct (ie_body x) as [|a0 [|a1 [|a2 [|a3 b]]]] eqn:Hbx;
    try (unfold zlen in H4; cbn in H4; lia).
  unfold bytes_ok in Hb. rewrite !Forall_cons_iff in Hb. destruct Hb as (H0 & H1 & H2 & H3 & _).
  rewrite <- !app_comm_cons, WPA_GET_BE24_val by done.
  change (rd _ 3) with (Ok a3).
  change (take 3 _) with [a0; a1; a2]. cbn [mbind outcome_bind].
  assert (be_val [a0; a1; a2] = a0 * 2 ^ 16 + a1 * 2 ^ 8 + a2) as ->
    by (unfold be_val; cbn [fold_left]; lia).
  set (oui := a0 * 2 ^ 16 + a1 * 2 ^ 8 + a2). set (n := zlen _) in *.
  assert (∀ f : Z → outcome (Z * elems.t), (4 < n → ∀ v, ∃ ret e', f v = Ok (ret, e') ∧ same_stuffed e e') →
     4 < n → ∃ ret e', (v ← rd (a0 :: a1 :: a2 :: a3 :: b ++ t) 4; f v) = Ok (ret, e') ∧ same_stuffed e e') as Hsub.
  { intros f Hf Hn. destruct b as [|a4 b]; [done|]. apply (Hf Hn a4). }
  case_bool_decide as Hst.
  - destruct Hst as (_ & _ & ->). rewrite !decide_False by done. by rewrite decide_True.
  - repeat first [case_decide | apply Hsub; [intros ? ?|lia]];
      try (do 2 eexists; split; [reflexivity|done]). subst oui. exfalso. apply Hst. split_and!; [done|lia|done].
Qed.

Lemma parse_known_same id p n e e' : parse_known id p n e = Some e' → same_stuffed e e'.
Proof.
  unfold parse_known, same_stuffed. intros H.
  repeat case_decide; try (injection H as <-; done); discriminate H.
Qed.

(** One element: only an element with stuffed data changes the table, and only
    the eleventh of them fails. *)
Lemma parse_one_stuffed xs x t e u :
  ie_ok x → stuffed_inv xs e →
  if is_stuffing x && bool_decide (zlen xs = 10)
  then parse_one (ie_id x) (ie_body x ++ t) (zlen (ie_body x)) e u = Undef OutOfBounds
  else ∃ e' u', parse_one (ie_id x) (ie_body x ++ t) (zlen (ie_body x)) e u = Ok (e', u') ∧
                stuffed_inv (xs ++ stuffing [x]) e'.
Proof.
  intros Hx Hinv. unfold parse_one, stuffing. cbn [List.filter]. case_decide as Hid.
  - pose proof (parse_vendor_cases x t e Hx Hid) as Hv. destruct (is_stuffing x); cbn [andb].
    + rewrite Hv. clear Hv. case_bool_decide as Hfull.
      * by rewrite (record_stuffed_full xs).
      * pose proof (si_max _ _ Hinv).
        destruct (record_stuffed_ok xs x t e Hinv) as (e' & -> & He'); [lia|].
        cbn [mbind outcome_bind]. by eauto.
    + destruct Hv as (ret & e' & -> & He'). cbn [mbind outcome_bind]. rewrite app_nil_r.
      do 2 eexists. split; [done|]. by apply (stuffed_inv_same _ e).
  - assert (is_stuffing x = false) as -> by (apply bool_decide_eq_false; tauto).
    cbn [andb]. rewrite app_nil_r. destruct (parse_known _ _ _ _) as [e'|] eqn:Hk.
    + do 2 eexists. split; [done|]. apply parse_known_same in Hk. by apply (stuffed_inv_same _ e).
    + by eauto.
Qed.

Lemma upto_mic_cons x l :
  upto_mic (x :: l) = x :: if decide (ie_id x = WLAN_EID_MIC) then [] else upto_mic l.
Proof. reflexivity. Qed.

Lemma has_mic_cons x l : has_mic (x :: l) ↔ ie_id x = WLAN_EID_MIC ∨ has_mic l.
Proof.
  unfold has_mic. split.
  - intros (y & [->|Hy] & Hm); eauto.
  - intros [Hm|(y & Hy & Hm)]; [exists x|exists y]; split; cbn; auto.
Qed.

Lemma stuffing_cons x l : stuffing (x :: l) = stuffing [x] ++ stuffing l.
Proof. unfold stuffing. cbn. by destruct (is_stuffing x). Qed.

Lemma zlen_stuffing_1 x : zlen (stuffing [x]) = if is_stuffing x then 1 else 0.
Proof. unfold stuffing. cbn. by destruct (is_stuffing x). Qed.

Lemma parse_ies_stuffed l r : Forall ie_ok l → ∀ xs e u, stuffed_inv xs e →
  if decide (zlen (xs ++ stuffing (upto_mic l)) ≤ 10)
  then ∃ res e', parse_ies l r e u = Ok (res, e') ∧ stuffed_inv (xs ++ stuffing (upto_mic l)) e' ∧
                 (res = ParseFailed ↔ ¬ has_mic l ∧ r ≠ [])
  else parse_ies l r e u = Undef OutOfBounds.
Proof.
  intros Hl. induction Hl as [|x l Hx Hl IH]; intros xs e u Hinv.
  - cbn [upto_mic stuffing List.filter parse_ies]. rewrite app_nil_r.
    rewrite decide_True by apply (si_max _ _ Hinv). unfold parse_done.
    case_decide; do 2 eexists; (split; [done|]); (split; [done|]).
    + case_decide; split; [done|tauto|done|tauto].
    + split; [|done]. intros _. split; [|done]. by intros (? & [] & _).
  - pose proof (parse_one_stuffed xs x (ies_enc l ++ r) e u Hx Hinv) as Hp.
    rewrite upto_mic_cons, stuffing_cons, zlen_app, zlen_app, zlen_stuffing_1.
    match goal with |- context [stuffing ?b] =>
      pose proof (zlen_nonneg (stuffing b)); set (rest := stuffing b) in * end.
    pose proof (si_max _ _ Hinv). cbn [parse_ies].
    destruct (is_stuffing x && bool_decide (zlen xs = 10)) eqn:Hfull.
    + apply andb_true_iff in Hfull as [-> Hf%bool_decide_eq_true].
      rewrite decide_False by lia. by rewrite Hp.
    + destruct Hp as (e' & u' & -> & Hinv'). cbn [mbind outcome_bind].
      pose proof (has_mic_cons x l).
      subst rest. case_decide as Hm.
      * change (stuffing []) with (@nil ie). rewrite app_nil_r.
        pose proof (si_max _ _ Hinv') as Hmax. rewrite zlen_app, zlen_stuffing_1 in Hmax.
        rewrite decide_True by (change (zlen []) with 0; lia). unfold parse_done.
        do 2 eexists. split; [done|]. split; [done|].
        destruct (decide (u' ≠ 0)); split; [done|tauto|done|tauto].
      * specialize (IH _ _ u' Hinv'). rewrite !zlen_app, zlen_stuffing_1 in IH.
        rewrite app_assoc, Z.add_assoc.
        destruct (decide (zlen xs + (if is_stuffing x then 1 else 0) + zlen (stuffing (upto_mic l)) ≤ 10));
          [|done].
        destruct IH as (res & e'' & -> & Hi & Hr). exists res, e''. split_and!; [done|done|]. tauto.
Qed.

(** *** Where the recorded pointers lead *)

(** The pointers of the structure, each with the number of octets the rest of
    hostapd reads behind it: the recorded length, or the size of the structure
    the pointer is cast to. *)
Definition fields (e : elems.t) : list (cptr * Z) :=
  [(ssid e, ssid_len e); (supp_rates e, supp_rates_len e); (ds_params e, 1);
   (challenge e, challenge_len e); (erp_info e, 1); (ext_supp_rates e, ext_supp_rates_len e);
   (wpa_ie e, wpa_ie_len e); (rsn_ie e, rsn_ie_len e); (wmm e, wmm_len e);
   (wmm_tspec e, wmm_tspec_len e); (wps_ie e, wps_ie_len e);
   (supp_channels e, supp_channels_len e); (mdie e, mdie_len e); (mdie e, sizeof_rsn_mdie);
   (ftie e, ftie_len e); (ftie e, sizeof_rsn_ftie); (timeout_int e, 5);
   (ht_capabilities e, sizeof_ieee80211_ht_capabilities);
   (ht_operation e, sizeof_ieee80211_ht_operation); (mesh_config e, mesh_config_len e);
   (mesh_id e, mesh_id_len e); (peer_mgmt e, peer_mgmt_len e);
   (vht_capabilities e, sizeof_ieee80211_vht_capabilities);
   (vht_operation e, sizeof_ieee80211_vht_operation); (vht_opmode_notif e, 1);
   (vendor_ht_cap e, vendor_ht_cap_len e); (vendor_vht e, vendor_vht_len e);
   (p2p e, p2p_len e); (wfd e, wfd_len e); (link_id e, 18); (interworking e, interworking_len e);
   (qos_map_set e, qos_map_set_len e); (hs20 e, hs20_len e); (ext_capab e, ext_capab_len e);
   (bss_max_idle_period e, 3); (ssid_list e, ssid_list_len e); (osen e, osen_len e);
   (mbo e, mbo_len e); (ampe e, ampe_len e); (mic e, mic_len e);
   (pref_freq_list e, pref_freq_list_len e); (supp_op_classes e, supp_op_classes_len e);
   (rrm_enabled e, rrm_enabled_len e)].

Definition inside (b : bytes) (f : cptr * Z) : Prop :=
  match f.1 with
  | None => True
  | Some p => (∃ pre, b = pre ++ p) ∧ 0 ≤ f.2 ≤ zlen p
  end.

Record elems_inside (b : bytes) (e : elems.t) : Prop := {
  ei_fields : Forall (inside b) (fields e);
  ei_stuffed : ∀ i p, stuffed_data e !! i = Some (Some p) →
    ∃ n, stuffed_data_len e !! i = Some n ∧ inside b (Some p, n);
  ei_mb : Forall (λ '(p, n), inside b (Some p, n)) (mb_ies e);
  ei_lens : length (stuffed_data e) = length (stuffed_data_len e) }.

Ltac inside_fields e H Hp :=
  repeat match goal with Hn : _ ≠ _ |- _ => clear Hn | Hn : ¬ (_ ∨ _) |- _ => clear Hn end;
  destruct e; lazy -[inside] in H; lazy -[inside];
  repeat (let Hx := fresh in
          apply Forall_cons_iff in H as [Hx H]; apply Forall_cons_iff; split;
          [first [exact Hx | exact Hp
                 | split; [exact (proj1 Hp)|cbn; pose proof (proj2 Hp) as Hle; cbn in Hle;
                    unfold sizeof_rsn_mdie, sizeof_rsn_ftie, sizeof_ieee80211_ht_capabilities,
                      sizeof_ieee80211_ht_operation, sizeof_ieee80211_vht_capabilities,
                      sizeof_ieee80211_vht_operation in *; lia]]
          |clear Hx]);
  apply Forall_nil; exact I.

Lemma inside_zero b : elems_inside b elems.zero.
Proof.
  constructor; [repeat constructor| |constructor|done].
  intros i p Hi. cbn in Hi. do 10 (destruct i as [|i]; [done|]). done.
Qed.

Lemma known_inside b id p n e e' :
  elems_inside b e → inside b (Some p, n) → parse_known id p n e = Some e' → elems_inside b e'.
Proof.
  intros He Hp. pose proof He as [Hf Hs Hm Hl]. unfold parse_known. cbn zeta. intros H.
  repeat case_decide; try discriminate H; injection H as <-; try exact He; clear He;
    (constructor; [clear Hs Hm Hl; inside_fields e Hf Hp|exact Hs| |exact Hl]);
    try exact Hm. cbn. apply Forall_app. split; [exact Hm|].
  constructor; [exact Hp|constructor].
Qed.

Lemma record_inside b p n e e' :
  elems_inside b e → inside b (Some p, n) → record_stuffed p n e = Ok e' → elems_inside b e'.
Proof.
  intros [Hf Hs Hm Hl] Hp (? & Hg & H)%bind_Ok_inv. unfold guard_ub in Hg. case_bool_decide as Hn; [|done].
  apply bind_Ok_inv in H as (? & _ & [= <-]).
  constructor; [exact Hf| |exact Hm|cbn; by rewrite !length_insert].
  cbn. intros i q Hi. destruct (decide (i = Z.to_nat (n_stuffed_ies e))) as [->|Hne].
  - rewrite list_lookup_insert_eq in Hi by done. injection Hi as <-. exists n. split; [|done].
    apply list_lookup_insert_eq. lia.
  - rewrite list_lookup_insert_ne in Hi by done. rewrite list_lookup_insert_ne by done. by apply Hs.
Qed.

Lemma vendor_inside b p n e ret e' :
  elems_inside b e → inside b (Some p, n) →
  ieee802_11_parse_vendor_specific p n e = Ok (ret, e') → elems_inside b e'.
Proof.
  intros He Hp. pose proof He as [Hf Hs Hm Hl]. unfold ieee802_11_parse_vendor_specific.
  case_decide; [by intros [= _ <-]|]. intros (oui & _ & Hq)%bind_Ok_inv.
  apply bind_Ok_inv in Hq as (ty & _ & Hq).
  repeat case_decide;
    lazymatch type of Hq with
    | (_ ← record_stuffed _ _ _; _) = _ =>
      apply bind_Ok_inv in Hq as (e1 & Hq & [= _ <-]); exact (record_inside b p n e e1 He Hp Hq)
    | (_ ← _; _) = _ =>
      apply bind_Ok_inv in Hq as (sub & _ & Hq); repeat case_decide
    | _ => idtac
    end;
    injection Hq as _ <-; try exact He; clear He;
    (constructor; [clear Hs Hm Hl; inside_fields e Hf Hp|exact Hs|exact Hm|exact Hl]).
Qed.

Lemma parse_one_inside b id p n e u e' u' :
  elems_inside b e → inside b (Some p, n) → parse_one id p n e u = Ok (e', u') → elems_inside b e'.
Proof.
  intros He Hp. unfold parse_one. case_decide.
  - intros ([ret e1] & Hv & [= <- _])%bind_Ok_inv. by apply (vendor_inside b p n e ret).
  - destruct (parse_known id p n e) as [e1|] eqn:Hk; intros [= <- _]; [|done].
    by apply (known_inside b id p n e).
Qed.

Lemma parse_ies_inside b l r : ∀ pre e u res e',
  b = pre ++ ies_enc l ++ r → elems_inside b e →
  parse_ies l r e u = Ok (res, e') → elems_inside b e'.
Proof.
  induction l as [|x l IH]; intros pre e u res e' Hb He; cbn [parse_ies].
  - unfold parse_done. destruct (decide (r = [])); by intros [= _ <-].
  - intros ([e1 u1] & H1 & H)%bind_Ok_inv. rewrite ies_enc_cons in Hb. unfold ie_enc in Hb.
    apply parse_one_inside with (b := b) in H1; [|done|].
    2:{ split; cbn; [|rewrite zlen_app; pose proof (zlen_nonneg (ies_enc l ++ r));
              pose proof (zlen_nonneg (ie_body x)); lia].
        exists (pre ++ [ie_id x; zlen (ie_body x)]). rewrite Hb, <- !app_assoc. done. }
    destruct (decide (ie_id x = WLAN_EID_MIC)).
    + unfold parse_done in H. by injection H as _ <-.
    + apply (IH (pre ++ ie_enc x) e1 u1 res); [|done|done].
      rewrite Hb. unfold ie_enc. by rewrite <- !app_assoc.
Qed.

(** What the parser leaves in the table of stuffed data. *)
Lemma parse_elems_stuffed l r :
  Forall ie_ok l → ie_trunc r → bytes_ok r →
  if decide (zlen (stuffing (upto_mic l)) ≤ 10)
  then ∃ res e, ieee802_11_parse_elems (ies_enc l ++ r) = Ok (res, e) ∧
         stuffed_inv (stuffing (upto_mic l)) e ∧
         (res = ParseFailed ↔ ¬ has_mic l ∧ r ≠ [])
  else ieee802_11_parse_elems (ies_enc l ++ r) = Undef OutOfBounds.
Proof.
  intros Hl Hr Hb. rewrite parse_elems_ies by done.
  apply (parse_ies_stuffed l r Hl [] elems.zero 0 stuffed_inv_zero).
Qed.

Lemma parse_elems_pointers b res e :
  bytes_ok b → ieee802_11_parse_elems b = Ok (res, e) → elems_inside b e.
Proof.
  intros Hb H. destruct (ie_decompose b Hb) as (l & r & Heq & Hl & Hr & _). subst b.
  rewrite parse_elems_ies in H by done.
  apply (parse_ies_inside (ies_enc l ++ r) l r [] elems.zero 0 res e); [done| |done].
  apply inside_zero.
Qed.

(** ** Properties *)

(** C1. The parse of the received elements, on every input. The buffer is a list
    of complete elements [l] followed by a remainder [r] that is not one; the
    elements up to the first MIC element are parsed. As long as at most ten of
    them carry stuffed data, the function returns a result, never an
    out-of-bounds access: [ParseFailed] exactly when octets are left over and no
    MIC element hides them, and the table of stuffed data lists exactly the
    elements with the probe stuffing OUI, in order, with their lengths. With an
    eleventh one it writes past the arrays [stuffed_data] and
    [stuffed_data_len]. *)
Theorem ieee802_11_parse_elems_spec b :
  bytes_ok b →
  ∃ l r, b = ies_enc l ++ r ∧ Forall ie_ok l ∧ ie_trunc r ∧
    if decide (zlen (stuffing (upto_mic l)) ≤ 10)
    then ∃ res e, ieee802_11_parse_elems b = Ok (res, e) ∧
           stuffed_inv (stuffing (upto_mic l)) e ∧
           (res = ParseFailed ↔ ¬ has_mic l ∧ r ≠ [])
    else ieee802_11_parse_elems b = Undef OutOfBounds.
Proof.
  intros Hb. destruct (ie_decompose b Hb) as (l & r & -> & Hl & Hr & Hrb). exists l, r.
  split_and!; try done. by apply parse_elems_stuffed.
Qed.

(** C2. Whatever was received, every pointer recorded in the parsed structure
    points into the frame, and the octets hostapd reads behind it (the recorded
    length, or the size of the structure it is cast to) lie inside the frame:
    the fixed fields, the stuffed data and the multi-band elements. *)
Theorem ieee802_11_parse_elems_inside b res e :
  bytes_ok b → ieee802_11_parse_elems b = Ok (res, e) → elems_inside b e.
Proof. apply parse_elems_pointers. Qed.

(** ** Examples *)

(** An SSID, an element with stuffed data and a truncated element. *)
Definition frame_example : bytes :=
  [0; 2; 97; 98; 221; 6; 1; 2; 3; 65; 66; 67; 48; 9; 1].

Lemma frame_example_ok : bytes_ok frame_example.
Proof. repeat constructor; done. Defined.

Lemma ieee802_11_parse_elems_spec_witness :
  bytes_ok frame_example ∧
  ∃ l r, frame_example = ies_enc l ++ r ∧ ie_trunc r ∧
    if decide (zlen (stuffing (upto_mic l)) ≤ 10)
    then ∃ e, ieee802_11_parse_elems frame_example = Ok (ParseFailed, e) ∧
           stuffed_inv (stuffing (upto_mic l)) e
    else False.
Proof.
  split; [exact frame_example_ok|].
  destruct (ieee802_11_parse_elems_spec frame_example frame_example_ok)
    as (l & r & Hlr & _ & Hr & H).
  exists l, r. split; [exact Hlr|]. split; [exact Hr|].
  destruct (ieee802_11_parse_elems frame_example) as [[res e]|k|] eqn:Hp;
    vm_compute in Hp; try discriminate Hp.
  case_decide; [|discriminate H]. destruct H as (res' & e' & He & Hinv & _).
  injection He as He1 He2. subst e' res'. exists e. injection Hp as <- _.
  split; [reflexivity|exact Hinv].
Defined.

Lemma ieee802_11_parse_elems_inside_witness :
  bytes_ok frame_example ∧
  ∃ res e, ieee802_11_parse_elems frame_example = Ok (res, e) ∧ n_stuffed_ies e = 1 ∧
           elems_inside frame_example e.
Proof.
  split; [exact frame_example_ok|]. do 2 eexists. split; [reflexivity|]. split; [reflexivity|].
  eapply ieee802_11_parse_elems_inside; [exact frame_example_ok|reflexivity].
Defined.
