(* ===== verification/Channels.v ===== *)
(** * Channels, frequencies, frame types

    The rest of [src/common/ieee802_11_common.c]: the conversions between
    channels, operating classes and frequencies with their tables, the WMM
    parameters of the configuration file, and the helpers that look at a frame
    header or at the supported rates of a station. *)

From Stdlib Require Import ZArith Lia Strings.String.
From stdpp Require Import base option list numbers decidable.
From S2P Require Import Prelude CLib Common Wpabuf Ie Elems.
Local Open Scope Z_scope.

(** ** Hardware modes *)

Inductive hostapd_hw_mode : Set :=
| HOSTAPD_MODE_IEEE80211B
| HOSTAPD_MODE_IEEE80211G
| HOSTAPD_MODE_IEEE80211A
| HOSTAPD_MODE_IEEE80211AD
| HOSTAPD_MODE_IEEE80211ANY
| NUM_HOSTAPD_MODES.

#[export] Instance hostapd_hw_mode_eq_dec : EqDecision hostapd_hw_mode.
Proof. solve_decision. Defined.

Definition VHT_CHANWIDTH_USE_HT : Z := 0.
Definition VHT_CHANWIDTH_80MHZ : Z := 1.
Definition VHT_CHANWIDTH_160MHZ : Z := 2.
Definition VHT_CHANWIDTH_80P80MHZ : Z := 3.

(** ** Frequency to channel

    The function stores through [op_class] and [channel] exactly when it does
    not return [NUM_HOSTAPD_MODES]: [Some (mode, op_class, channel)] is a
    success and [None] is [NUM_HOSTAPD_MODES] with nothing stored. *)
Definition ieee80211_freq_to_channel_ext (freq sec_channel vht : Z)
    : option (hostapd_hw_mode * Z * Z) :=
  if decide (1 < sec_channel ∨ sec_channel < -1) then None else
  if decide (2412 ≤ freq ∧ freq ≤ 2472) then
    if decide ((freq - 2407) mod 5 ≠ 0) then None else
    if decide (vht ≠ 0) then None else
    let op_class := if decide (sec_channel = 1) then 83
                    else if decide (sec_channel = -1) then 84 else 81 in
    Some (HOSTAPD_MODE_IEEE80211G, op_class, u8 ((freq - 2407) / 5))
  else if decide (freq = 2484) then
    if decide (sec_channel ≠ 0 ∨ vht ≠ 0) then None else
    Some (HOSTAPD_MODE_IEEE80211B, 82, 14)
  else if decide (4900 ≤ freq ∧ freq < 5000) then
    if decide ((freq - 4000) mod 5 ≠ 0) then None else
    Some (HOSTAPD_MODE_IEEE80211A, 0, u8 ((freq - 4000) / 5))
  else
  let vht_opclass := if decide (vht = VHT_CHANWIDTH_80MHZ) then 128
                     else if decide (vht = VHT_CHANWIDTH_160MHZ) then 129
                     else if decide (vht = VHT_CHANWIDTH_80P80MHZ) then 130
                     else 0 in
  if decide (5180 ≤ freq ∧ freq ≤ 5240) then
    if decide ((freq - 5000) mod 5 ≠ 0) then None else
    let op_class := if decide (vht_opclass ≠ 0) then vht_opclass
                    else if decide (sec_channel = 1) then 116
                    else if decide (sec_channel = -1) then 117 else 115 in
    Some (HOSTAPD_MODE_IEEE80211A, op_class, u8 ((freq - 5000) / 5))
  else if decide (5745 ≤ freq ∧ freq ≤ 5845) then
    if decide ((freq - 5000) mod 5 ≠ 0) then None else
    let op_class := if decide (vht_opclass ≠ 0) then vht_opclass
                    else if decide (sec_channel = 1) then 126
                    else if decide (sec_channel = -1) then 127
                    else if decide (freq ≤ 5805) then 124 else 125 in
    Some (HOSTAPD_MODE_IEEE80211A, op_class, u8 ((freq - 5000) / 5))
  else if decide (5000 ≤ freq ∧ freq ≤ 5700) then
    if decide ((freq - 5000) mod 5 ≠ 0) then None else
    let op_class := if decide (vht_opclass ≠ 0) then vht_opclass
                    else if decide (sec_channel = 1) then 122
                    else if decide (sec_channel = -1) then 123 else 121 in
    Some (HOSTAPD_MODE_IEEE80211A, op_class, u8 ((freq - 5000) / 5))
  else if decide (5000 ≤ freq ∧ freq < 5900) then
    if decide ((freq - 5000) mod 5 ≠ 0) then None else
    Some (HOSTAPD_MODE_IEEE80211A, 0, u8 ((freq - 5000) / 5))
  else if decide (56160 + 2160 * 1 ≤ freq ∧ freq ≤ 56160 + 2160 * 4) then
    if decide (sec_channel ≠ 0 ∨ vht ≠ 0) then None else
    Some (HOSTAPD_MODE_IEEE80211AD, 180, u8 ((freq - 56160) / 2160))
  else None.

(** The operating class goes to a local variable. *)
Definition ieee80211_freq_to_chan (freq : Z) : option (hostapd_hw_mode * Z) :=
  match ieee80211_freq_to_channel_ext (u32 freq) 0 VHT_CHANWIDTH_USE_HT with
  | Some (mode, _, channel) => Some (mode, channel)
  | None => None
  end.

(** ** Channel to frequency *)

Local Open Scope string_scope.

Definition us_op_class_cc : list string := ["US"; "CA"].

Definition eu_op_class_cc : list string :=
  ["AL"; "AM"; "AT"; "AZ"; "BA"; "BE"; "BG"; "BY"; "CH"; "CY"; "CZ"; "DE";
   "DK"; "EE"; "EL"; "ES"; "FI"; "FR"; "GE"; "HR"; "HU"; "IE"; "IS"; "IT";
   "LI"; "LT"; "LU"; "LV"; "MD"; "ME"; "MK"; "MT"; "NL"; "NO"; "PL"; "PT";
   "RO"; "RS"; "RU"; "SE"; "SI"; "SK"; "TR"; "UA"; "UK"].

Definition jp_op_class_cc : list string := ["JP"].

Definition cn_op_class_cc : list string := ["CN"].

Local Close Scope string_scope.

Definition cc_at (cc : string) (i : nat) : Z := default 0 (lit cc !! i).

(** [country] points into an object; its second octet is read only when the
    first one matches. *)
Fixpoint country_match (cc : list string) (country : option bytes) : outcome bool :=
  match country with
  | None => Ok false
  | Some c =>
    match cc with
    | [] => Ok false
    | x :: cc =>
      c0 ← rd c 0;
      if decide (cc_at x 0 = c0) then
        c1 ← rd c 1;
        if decide (cc_at x 1 = c1) then Ok true else country_match cc country
      else country_match cc country
    end
  end.

(** [if (chan < lo || chan > hi) return -1; return freq;] *)
Definition in_range (lo hi chan freq : Z) : Z :=
  if decide (chan < lo ∨ hi < chan) then -1 else freq.

(** The labels of a [switch]. *)
Definition is_case (op_class : Z) (labels : list Z) : bool := existsb (Z.eqb op_class) labels.

Definition ieee80211_chan_to_freq_us (op_class chan : Z) : Z :=
  if is_case op_class [12; 32; 33] then in_range 1 11 chan (2407 + 5 * chan)
  else if is_case op_class [1; 2; 22; 23; 27; 28] then in_range 36 64 chan (5000 + 5 * chan)
  else if is_case op_class [4; 24] then in_range 100 144 chan (5000 + 5 * chan)
  else if is_case op_class [3; 25; 26; 30; 31] then in_range 149 161 chan (5000 + 5 * chan)
  else if is_case op_class [5] then in_range 149 165 chan (5000 + 5 * chan)
  else if is_case op_class [34] then in_range 1 3 chan (56160 + 2160 * chan)
  else -1.

Definition ieee80211_chan_to_freq_eu (op_class chan : Z) : Z :=
  if is_case op_class [4; 11; 12] then in_range 1 13 chan (2407 + 5 * chan)
  else if is_case op_class [1; 2; 5; 6; 8; 9] then in_range 36 64 chan (5000 + 5 * chan)
  else if is_case op_class [3; 7; 10; 16] then in_range 100 140 chan (5000 + 5 * chan)
  else if is_case op_class [17] then in_range 149 169 chan (5000 + 5 * chan)
  else if is_case op_class [18] then in_range 1 4 chan (56160 + 2160 * chan)
  else -1.

Definition ieee80211_chan_to_freq_jp (op_class chan : Z) : Z :=
  if is_case op_class [30; 56; 57] then in_range 1 13 chan (2407 + 5 * chan)
  else if is_case op_class [31] then if decide (chan ≠ 14) then -1 else 2414 + 5 * chan
  else if is_case op_class [1; 32; 33; 36; 37; 38; 41; 42; 43] then
    in_range 34 64 chan (5000 + 5 * chan)
  else if is_case op_class [34; 35; 39; 40; 44; 45; 58] then in_range 100 140 chan (5000 + 5 * chan)
  else if is_case op_class [59] then in_range 1 3 chan (56160 + 2160 * chan)
  else -1.

Definition ieee80211_chan_to_freq_cn (op_class chan : Z) : Z :=
  if is_case op_class [7; 8; 9] then in_range 1 13 chan (2407 + 5 * chan)
  else if is_case op_class [1; 2; 4; 5] then in_range 36 64 chan (5000 + 5 * chan)
  else if is_case op_class [3; 6] then in_range 149 165 chan (5000 + 5 * chan)
  else -1.

Definition ieee80211_chan_to_freq_global (op_class chan : Z) : Z :=
  if is_case op_class [81] then in_range 1 13 chan (2407 + 5 * chan)
  else if is_case op_class [82] then if decide (chan ≠ 14) then -1 else 2414 + 5 * chan
  else if is_case op_class [83; 84] then in_range 1 13 chan (2407 + 5 * chan)
  else if is_case op_class [115; 116; 117; 118; 119; 120] then
    in_range 36 64 chan (5000 + 5 * chan)
  else if is_case op_class [121; 122; 123] then in_range 100 140 chan (5000 + 5 * chan)
  else if is_case op_class [124; 126; 127] then in_range 149 161 chan (5000 + 5 * chan)
  else if is_case op_class [125] then in_range 149 169 chan (5000 + 5 * chan)
  else if is_case op_class [128; 130] then in_range 36 161 chan (5000 + 5 * chan)
  else if is_case op_class [129] then in_range 50 114 chan (5000 + 5 * chan)
  else if is_case op_class [180] then in_range 1 4 chan (56160 + 2160 * chan)
  else -1.

(** One of the four [if (country_match ...) { ... if (freq > 0) return freq; }]. *)
Definition try_country (cc : list string) (country : option bytes) (freq : Z)
    (k : outcome Z) : outcome Z :=
  m ← country_match cc country;
  if (m : bool) then if decide (0 < freq) then Ok freq else k else k.

Definition ieee80211_chan_to_freq (country : option bytes) (op_class chan : Z) : outcome Z :=
  try_country us_op_class_cc country (ieee80211_chan_to_freq_us op_class chan) $
  try_country eu_op_class_cc country (ieee80211_chan_to_freq_eu op_class chan) $
  try_country jp_op_class_cc country (ieee80211_chan_to_freq_jp op_class chan) $
  try_country cn_op_class_cc country (ieee80211_chan_to_freq_cn op_class chan) $
  Ok (ieee80211_chan_to_freq_global op_class chan).

Definition ieee80211_is_dfs (freq : Z) : bool :=
  bool_decide (5260 ≤ freq ∧ freq ≤ 5320 ∨ 5500 ≤ freq ∧ freq ≤ 5700).

(** ** The table of global operating classes *)

Inductive bw_t : Set := BW20 | BW40PLUS | BW40MINUS | BW80 | BW2160 | BW160 | BW80P80.
Inductive p2p_t : Set := P2P_SUPP | NO_P2P_SUPP.

Record oper_class_map := mk_oper_class_map {
  oc_mode : hostapd_hw_mode;
  oc_op_class : Z;
  oc_min_chan : Z;
  oc_max_chan : Z;
  oc_inc : Z;
  oc_bw : bw_t;
  oc_p2p : p2p_t }.

(** Without the last entry, whose mode -1 ends the table. *)
Definition global_op_class : list oper_class_map :=
  [mk_oper_class_map HOSTAPD_MODE_IEEE80211G 81 1 13 1 BW20 P2P_SUPP;
   mk_oper_class_map HOSTAPD_MODE_IEEE80211G 82 14 14 1 BW20 NO_P2P_SUPP;
   mk_oper_class_map HOSTAPD_MODE_IEEE80211G 83 1 9 1 BW40PLUS NO_P2P_SUPP;
   mk_oper_class_map HOSTAPD_MODE_IEEE80211G 84 5 13 1 BW40MINUS NO_P2P_SUPP;
   mk_oper_class_map HOSTAPD_MODE_IEEE80211A 115 36 48 4 BW20 P2P_SUPP;
   mk_oper_class_map HOSTAPD_MODE_IEEE80211A 116 36 44 8 BW40PLUS P2P_SUPP;
   mk_oper_class_map HOSTAPD_MODE_IEEE80211A 117 40 48 8 BW40MINUS P2P_SUPP;
   mk_oper_class_map HOSTAPD_MODE_IEEE80211A 118 52 64 4 BW20 NO_P2P_SUPP;
   mk_oper_class_map HOSTAPD_MODE_IEEE80211A 119 52 60 8 BW40PLUS NO_P2P_SUPP;
   mk_oper_class_map HOSTAPD_MODE_IEEE80211A 120 56 64 8 BW40MINUS NO_P2P_SUPP;
   mk_oper_class_map HOSTAPD_MODE_IEEE80211A 121 100 140 4 BW20 NO_P2P_SUPP;
   mk_oper_class_map HOSTAPD_MODE_IEEE80211A 122 100 132 8 BW40PLUS NO_P2P_SUPP;
   mk_oper_class_map HOSTAPD_MODE_IEEE80211A 123 104 136 8 BW40MINUS NO_P2P_SUPP;
   mk_oper_class_map HOSTAPD_MODE_IEEE80211A 124 149 161 4 BW20 P2P_SUPP;
   mk_oper_class_map HOSTAPD_MODE_IEEE80211A 125 149 169 4 BW20 P2P_SUPP;
   mk_oper_class_map HOSTAPD_MODE_IEEE80211A 126 149 157 8 BW40PLUS P2P_SUPP;
   mk_oper_class_map HOSTAPD_MODE_IEEE80211A 127 153 161 8 BW40MINUS P2P_SUPP;
   mk_oper_class_map HOSTAPD_MODE_IEEE80211A 128 36 161 4 BW80 P2P_SUPP;
   mk_oper_class_map HOSTAPD_MODE_IEEE80211A 129 50 114 16 BW160 P2P_SUPP;
   mk_oper_class_map HOSTAPD_MODE_IEEE80211A 130 36 161 4 BW80P80 P2P_SUPP;
   mk_oper_class_map HOSTAPD_MODE_IEEE80211AD 180 1 4 1 BW2160 P2P_SUPP].

(** The channels of an entry: [for (ch = min_chan; ch <= max_chan; ch += inc)]. *)
Definition oc_channels (o : oper_class_map) : list Z :=
  map (λ i, oc_min_chan o + oc_inc o * Z.of_nat i)
      (seq 0 (S (Z.to_nat ((oc_max_chan o - oc_min_chan o) / oc_inc o)))).

(** ** PHY types *)

Inductive phy_type : Set :=
| PHY_TYPE_UNSPECIFIED | PHY_TYPE_FHSS | PHY_TYPE_DSSS | PHY_TYPE_IRBASEBAND | PHY_TYPE_OFDM
| PHY_TYPE_HRDSSS | PHY_TYPE_ERP | PHY_TYPE_HT | PHY_TYPE_DMG | PHY_TYPE_VHT.

Definition ieee80211_phy_type_by_freq (freq : Z) : phy_type :=
  match ieee80211_freq_to_chan freq with
  | Some (HOSTAPD_MODE_IEEE80211A, _) => PHY_TYPE_OFDM
  | Some (HOSTAPD_MODE_IEEE80211B, _) => PHY_TYPE_HRDSSS
  | Some (HOSTAPD_MODE_IEEE80211G, _) => PHY_TYPE_ERP
  | Some (HOSTAPD_MODE_IEEE80211AD, _) => PHY_TYPE_DMG
  | _ => PHY_TYPE_UNSPECIFIED
  end.

Definition ieee80211_get_phy_type (freq : Z) (ht vht : bool) : phy_type :=
  if vht then PHY_TYPE_VHT else if ht then PHY_TYPE_HT else ieee80211_phy_type_by_freq freq.

(** ** Frame headers *)

Definition WLAN_FC_TODS : Z := 0x0100.
Definition WLAN_FC_FROMDS : Z := 0x0200.
Definition WLAN_FC_GET_TYPE (fc : Z) : Z := Z.shiftr (Z.land fc 0x000c) 2.
Definition WLAN_FC_GET_STYPE (fc : Z) : Z := Z.shiftr (Z.land fc 0x00f0) 4.
Definition WLAN_FC_TYPE_MGMT : Z := 0.
Definition WLAN_FC_TYPE_CTRL : Z := 1.
Definition WLAN_FC_TYPE_DATA : Z := 2.
Definition WLAN_FC_STYPE_PSPOLL : Z := 10.

(** Offsets in [struct ieee80211_hdr]. *)
Definition off_addr1 : nat := 4.
Definition off_addr2 : nat := 10.
Definition off_addr3 : nat := 16.

Definition get_hdr_bssid (hdr : bytes) : outcome (option bytes) :=
  let len := zlen hdr in
  if decide (len < 16) then Ok None else
  fc ← WPA_GET_LE16 hdr;
  let type := WLAN_FC_GET_TYPE fc in
  let stype := WLAN_FC_GET_STYPE fc in
  if decide (type = WLAN_FC_TYPE_DATA) then
    if decide (len < 24) then Ok None else
    let ds := Z.land fc (Z.lor WLAN_FC_FROMDS WLAN_FC_TODS) in
    if decide (ds = Z.lor WLAN_FC_FROMDS WLAN_FC_TODS ∨ ds = WLAN_FC_TODS) then
      Ok (Some (drop off_addr1 hdr))
    else if decide (ds = WLAN_FC_FROMDS) then Ok (Some (drop off_addr2 hdr))
    else Ok None
  else if decide (type = WLAN_FC_TYPE_CTRL) then
    if decide (stype ≠ WLAN_FC_STYPE_PSPOLL) then Ok None else Ok (Some (drop off_addr1 hdr))
  else if decide (type = WLAN_FC_TYPE_MGMT) then Ok (Some (drop off_addr3 hdr))
  else Ok None.

Local Open Scope string_scope.

(** The [C2S] tables: subtype and name. *)
Definition fc_mgmt_names : list (Z * string) :=
  [(0, "WLAN_FC_STYPE_ASSOC_REQ"); (1, "WLAN_FC_STYPE_ASSOC_RESP");
   (2, "WLAN_FC_STYPE_REASSOC_REQ"); (3, "WLAN_FC_STYPE_REASSOC_RESP");
   (4, "WLAN_FC_STYPE_PROBE_REQ"); (5, "WLAN_FC_STYPE_PROBE_RESP");
   (8, "WLAN_FC_STYPE_BEACON"); (9, "WLAN_FC_STYPE_ATIM");
   (10, "WLAN_FC_STYPE_DISASSOC"); (11, "WLAN_FC_STYPE_AUTH");
   (12, "WLAN_FC_STYPE_DEAUTH"); (13, "WLAN_FC_STYPE_ACTION")]%Z.

Definition fc_ctrl_names : list (Z * string) :=
  [(10, "WLAN_FC_STYPE_PSPOLL"); (11, "WLAN_FC_STYPE_RTS"); (12, "WLAN_FC_STYPE_CTS");
   (13, "WLAN_FC_STYPE_ACK"); (14, "WLAN_FC_STYPE_CFEND"); (15, "WLAN_FC_STYPE_CFENDACK")]%Z.

Definition fc_data_names : list (Z * string) :=
  [(0, "WLAN_FC_STYPE_DATA"); (1, "WLAN_FC_STYPE_DATA_CFACK");
   (2, "WLAN_FC_STYPE_DATA_CFPOLL"); (3, "WLAN_FC_STYPE_DATA_CFACKPOLL");
   (4, "WLAN_FC_STYPE_NULLFUNC"); (5, "WLAN_FC_STYPE_CFACK");
   (6, "WLAN_FC_STYPE_CFPOLL"); (7, "WLAN_FC_STYPE_CFACKPOLL");
   (8, "WLAN_FC_STYPE_QOS_DATA"); (9, "WLAN_FC_STYPE_QOS_DATA_CFACK");
   (10, "WLAN_FC_STYPE_QOS_DATA_CFPOLL"); (11, "WLAN_FC_STYPE_QOS_DATA_CFACKPOLL");
   (12, "WLAN_FC_STYPE_QOS_NULL"); (14, "WLAN_FC_STYPE_QOS_CFPOLL");
   (15, "WLAN_FC_STYPE_QOS_CFACKPOLL")]%Z.

Definition fc2str (fc : Z) : string :=
  let stype := WLAN_FC_GET_STYPE fc in
  let names := if decide (WLAN_FC_GET_TYPE fc = WLAN_FC_TYPE_MGMT) then fc_mgmt_names
               else if decide (WLAN_FC_GET_TYPE fc = WLAN_FC_TYPE_CTRL) then fc_ctrl_names
               else if decide (WLAN_FC_GET_TYPE fc = WLAN_FC_TYPE_DATA) then fc_data_names
               else [] in
  match List.find (λ p, Z.eqb p.1 stype) names with
  | Some (_, s) => s
  | None => "WLAN_FC_TYPE_UNKNOWN"
  end.

Local Close Scope string_scope.

(** ** Supported rates *)

Definition is_11b (rate : Z) : bool :=
  bool_decide (rate = 0x02 ∨ rate = 0x04 ∨ rate = 0x0b ∨ rate = 0x16).

(** One of the two counting loops: [n] octets of [rates] from index [i] on. *)
Fixpoint count_rates (n : nat) (rates : bytes) (i : nat) (num_11b num_others : Z)
    : outcome (Z * Z) :=
  match n with
  | O => Ok (num_11b, num_others)
  | S n =>
    r ← rd rates i;
    if is_11b r then count_rates n rates (S i) (num_11b + 1) num_others
    else count_rates n rates (S i) num_11b (num_others + 1)
  end.

Definition count_rates_of (rates : cptr) (len : Z) (acc : Z * Z) : outcome (Z * Z) :=
  match rates with
  | None => Ok acc
  | Some r => count_rates (Z.to_nat len) r 0 acc.1 acc.2
  end.

Definition supp_rates_11b_only (e : elems.t) : outcome bool :=
  if decide (elems.supp_rates e = None ∧ elems.ext_supp_rates e = None) then Ok false else
  acc ← count_rates_of (elems.supp_rates e) (elems.supp_rates_len e) (0, 0);
  '(num_11b, num_others) ← count_rates_of (elems.ext_supp_rates e) (elems.ext_supp_rates_len e) acc;
  Ok (bool_decide (0 < num_11b ∧ num_others = 0)).

(** ** WMM parameters of the configuration file *)

Record hostapd_wmm_ac_params := mk_wmm_ac {
  cwmin : Z;
  cwmax : Z;
  aifs : Z;
  txop_limit : Z;
  admission_control_mandatory : Z }.

#[export] Instance hostapd_wmm_ac_params_eta : Eta hostapd_wmm_ac_params :=
  λ p, mk_wmm_ac (cwmin p) (cwmax p) (aifs p) (txop_limit p) (admission_control_mandatory p).

Definition has_prefix (p s : bytes) : bool := bool_decide (take (length p) s = p).

(** The access category and the rest of the name. *)
Definition wmm_ac_index (pos : bytes) : option (nat * bytes) :=
  if has_prefix (lit "be_") pos then Some (0%nat, drop 3 pos)
  else if has_prefix (lit "bk_") pos then Some (1%nat, drop 3 pos)
  else if has_prefix (lit "vi_") pos then Some (2%nat, drop 3 pos)
  else if has_prefix (lit "vo_") pos then Some (3%nat, drop 3 pos)
  else None.

Definition wmm_ac_set (pos val : bytes) (ac : hostapd_wmm_ac_params)
    : outcome (option hostapd_wmm_ac_params) :=
  if decide (pos = lit "aifs") then
    v ← atoi val;
    Ok (if decide (v < 1 ∨ 255 < v) then None else Some (ac <| aifs := v |>))
  else if decide (pos = lit "cwmin") then
    v ← atoi val;
    Ok (if decide (v < 0 ∨ 15 < v) then None else Some (ac <| cwmin := v |>))
  else if decide (pos = lit "cwmax") then
    v ← atoi val;
    Ok (if decide (v < 0 ∨ 15 < v) then None else Some (ac <| cwmax := v |>))
  else if decide (pos = lit "txop_limit") then
    v ← atoi val;
    Ok (if decide (v < 0 ∨ 0xffff < v) then None else Some (ac <| txop_limit := v |>))
  else if decide (pos = lit "acm") then
    v ← atoi val;
    Ok (if decide (v < 0 ∨ 1 < v) then None else Some (ac <| admission_control_mandatory := v |>))
  else Ok None.

(** [name] is the object holding the parameter name, [val] the contents of the
    value string; the array of four access categories is returned. *)
Definition hostapd_config_wmm_ac (wmm_ac_params : list hostapd_wmm_ac_params) (name val : bytes)
    : outcome (Z * list hostapd_wmm_ac_params) :=
  pos ← cstr (drop 7 name);
  match wmm_ac_index pos with
  | None => Ok (-1, wmm_ac_params)
  | Some (num, pos) =>
    match wmm_ac_params !! num with
    | None => Undef OutOfBounds
    | Some ac =>
      r ← wmm_ac_set pos val ac;
      Ok (match r with
          | Some ac => (0, <[num := ac]> wmm_ac_params)
          | None => (-1, wmm_ac_params)
          end)
    end
  end.

(** ** Lemmas on channels and frequencies *)

Ltac div_mod_solve := Z.div_mod_to_equations; lia.

(** The frequencies the tables give for a channel. *)
Definition chan_freq (chan freq : Z) : Prop :=
  1 ≤ chan ≤ 13 ∧ freq = 2407 + 5 * chan ∨
  chan = 14 ∧ freq = 2484 ∨
  34 ≤ chan ≤ 169 ∧ freq = 5000 + 5 * chan ∨
  1 ≤ chan ≤ 4 ∧ freq = 56160 + 2160 * chan.

Lemma in_range_cases lo hi chan freq :
  (lo ≤ chan ≤ hi → chan_freq chan freq) →
  in_range lo hi chan freq = -1 ∨ chan_freq chan (in_range lo hi chan freq).
Proof. intros H. unfold in_range. case_decide; [by left|right]. apply H. lia. Qed.

Lemma chan_to_freq_tables op chan :
  Forall (λ f : Z → Z → Z, f op chan = -1 ∨ chan_freq chan (f op chan))
    [ieee80211_chan_to_freq_us; ieee80211_chan_to_freq_eu; ieee80211_chan_to_freq_jp;
     ieee80211_chan_to_freq_cn; ieee80211_chan_to_freq_global].
Proof.
  rewrite !Forall_cons_iff. unfold ieee80211_chan_to_freq_us, ieee80211_chan_to_freq_eu,
    ieee80211_chan_to_freq_jp, ieee80211_chan_to_freq_cn, ieee80211_chan_to_freq_global.
  split_and!; [..|by constructor];
    repeat match goal with |- context [is_case ?o ?l] => destruct (is_case o l) end;
    first [by left | apply in_range_cases; unfold chan_freq; lia
          | case_decide; unfold chan_freq; lia].
Qed.

Lemma country_match_total cc country :
  (∀ c, country = Some c → (2 ≤ length c)%nat) → ∃ m, country_match cc country = Ok m.
Proof.
  intros Hc. destruct country as [c|]; [|destruct cc; by eexists].
  specialize (Hc c eq_refl). destruct c as [|c0 [|c1 c]]; try (cbn in Hc; lia).
  induction cc as [|x cc IH]; [by eexists|].
  cbn [country_match rd lookup list_lookup mbind outcome_bind].
  change (rd (c0 :: c1 :: c) 0) with (Ok c0). change (rd (c0 :: c1 :: c) 1) with (Ok c1).
  cbn [mbind outcome_bind]. repeat case_decide; eauto.
Qed.

Lemma try_country_cases (P : outcome Z → Prop) cc country freq k :
  (∀ c, country = Some c → (2 ≤ length c)%nat) →
  (0 < freq → P (Ok freq)) → P k → P (try_country cc country freq k).
Proof.
  intros Hc Hf Hk. unfold try_country. destruct (country_match_total cc country Hc) as [m ->].
  cbn [mbind outcome_bind]. destruct m; [|done]. case_decide; auto.
Qed.

Lemma freq_to_channel_chan_freq chan freq :
  chan_freq chan freq →
  ∃ mode op, ieee80211_freq_to_channel_ext freq 0 VHT_CHANWIDTH_USE_HT = Some (mode, op, chan).
Proof.
  unfold ieee80211_freq_to_channel_ext, u8, VHT_CHANWIDTH_USE_HT. cbn zeta.
  intros [[H ->]|[[-> ->]|[[H ->]|[H ->]]]]; [| by do 2 eexists | |].
  - replace (2407 + 5 * chan - 2407) with (chan * 5) by lia. rewrite Z.mod_mul, Z.div_mul by done.
    rewrite Z.mod_small by lia.
    destruct (decide (2412 ≤ _ ∧ _)); [by do 2 eexists|lia].
  - replace (5000 + 5 * chan - 5000) with (chan * 5) by lia. rewrite Z.mod_mul, Z.div_mul by done.
    rewrite (Z.mod_small chan) by lia.
    destruct (decide (2412 ≤ _ ∧ _)); [lia|]. destruct (decide (_ = 2484)); [lia|].
    destruct (decide (4900 ≤ _ ∧ _)); [lia|].
    destruct (decide (5180 ≤ _ ∧ _)); [by do 2 eexists|].
    destruct (decide (5745 ≤ _ ∧ _)); [by do 2 eexists|].
    destruct (decide (5000 ≤ _ ∧ _ ≤ 5700)); [by do 2 eexists|].
    destruct (decide (5000 ≤ _ ∧ _)); [by do 2 eexists|lia].
  - replace (56160 + 2160 * chan - 56160) with (chan * 2160) by lia. rewrite Z.div_mul by done.
    rewrite (Z.mod_small chan) by lia.
    destruct (decide (2412 ≤ _ ∧ _)); [lia|]. destruct (decide (_ = 2484)); [lia|].
    destruct (decide (4900 ≤ _ ∧ _)); [lia|]. destruct (decide (5180 ≤ _ ∧ _)); [lia|].
    destruct (decide (5745 ≤ _ ∧ _)); [lia|]. destruct (decide (5000 ≤ _ ∧ _ ≤ 5700)); [lia|].
    destruct (decide (5000 ≤ _ ∧ _)); [lia|].
    destruct (decide (_ ≤ 56160 + 2160 * chan ∧ _)); [by do 2 eexists|lia].
Qed.

(** The bands of [ieee80211_freq_to_channel_ext]. *)
Definition freq_band (freq op chan : Z) : Prop :=
  1 ≤ chan ≤ 13 ∧ freq = 2407 + 5 * chan ∧ In op [81; 83; 84] ∨
  chan = 14 ∧ freq = 2414 + 5 * chan ∧ op = 82 ∨
  180 ≤ chan < 200 ∧ freq = 4000 + 5 * chan ∧ op = 0 ∨
  0 ≤ chan < 180 ∧ freq = 5000 + 5 * chan ∧
    In op [0; 115; 116; 117; 121; 122; 123; 124; 125; 126; 127; 128; 129; 130] ∨
  1 ≤ chan ≤ 4 ∧ 0 ≤ freq - (56160 + 2160 * chan) < 2160 ∧ op = 180.

Ltac in_cases := repeat case_decide; cbn [In]; tauto.

Lemma freq_to_channel_band freq sec vht mode op chan :
  ieee80211_freq_to_channel_ext freq sec vht = Some (mode, op, chan) →
  mode ≠ NUM_HOSTAPD_MODES ∧ freq_band freq op chan.
Proof.
  assert (∀ base n, 0 ≤ freq - base ≤ 5 * n → n < 256 → ¬ (freq - base) mod 5 ≠ 0 →
    u8 ((freq - base) / 5) = (freq - base) / 5 ∧ freq = base + 5 * ((freq - base) / 5)) as Hq
    by (unfold u8; intros; div_mod_solve).
  unfold ieee80211_freq_to_channel_ext, freq_band.
  destruct (decide (1 < sec ∨ _)); [done|]. cbn zeta.
  destruct (decide (2412 ≤ freq ∧ _)).
  { destruct (decide ((freq - 2407) mod 5 ≠ 0)); [done|].
    destruct (decide (vht ≠ 0)); [done|]. destruct (Hq 2407 13) as [-> ?]; [lia|lia|done|].
    intros [= <- <- <-]. split; [done|]. left. split_and!; [lia|lia|done|in_cases]. }
  destruct (decide (freq = 2484)).
  { case_decide; [done|]. intros [= <- <- <-]. split; [done|]. right; left. lia. }
  destruct (decide (4900 ≤ freq ∧ _)).
  { destruct (decide ((freq - 4000) mod 5 ≠ 0)); [done|].
    destruct (Hq 4000 200) as [-> ?]; [lia|lia|done|].
    intros [= <- <- <-]. split; [done|]. right; right; left. lia. }
  assert (∀ m o, ¬ (freq - 5000) mod 5 ≠ 0 → 0 ≤ freq - 5000 < 900 → m ≠ NUM_HOSTAPD_MODES →
    In o [0; 115; 116; 117; 121; 122; 123; 124; 125; 126; 127; 128; 129; 130] →
    Some (m, o, u8 ((freq - 5000) / 5)) = Some (mode, op, chan) →
    mode ≠ NUM_HOSTAPD_MODES ∧ (0 ≤ chan < 180 ∧ freq = 5000 + 5 * chan ∧
      In op [0; 115; 116; 117; 121; 122; 123; 124; 125; 126; 127; 128; 129; 130])) as H5.
  { intros m o Hm Hr Hmode Ho. destruct (Hq 5000 180) as [-> ?]; [lia|lia|done|].
    intros [= <- <- <-]. split; [done|]. split_and!; [lia|lia|done|done]. }
  destruct (decide (5180 ≤ freq ∧ _)).
  { destruct (decide ((freq - 5000) mod 5 ≠ 0)); [done|].
    intros H%H5; [tauto|done|lia|done|in_cases]. }
  destruct (decide (5745 ≤ freq ∧ _)).
  { destruct (decide ((freq - 5000) mod 5 ≠ 0)); [done|].
    intros H%H5; [tauto|done|lia|done|in_cases]. }
  destruct (decide (5000 ≤ freq ∧ freq ≤ _)).
  { destruct (decide ((freq - 5000) mod 5 ≠ 0)); [done|].
    intros H%H5; [tauto|done|lia|done|in_cases]. }
  destruct (decide (5000 ≤ freq ∧ _)).
  { destruct (decide ((freq - 5000) mod 5 ≠ 0)); [done|].
    intros H%H5; [tauto|done|lia|done|in_cases]. }
  destruct (decide (56160 + _ ≤ freq ∧ _)); [|done].
  destruct (decide (sec ≠ 0 ∨ vht ≠ 0)); [done|]. intros [= <- <- <-]. split; [done|].
  do 4 right. unfold u8. split_and!; [div_mod_solve|div_mod_solve|div_mod_solve|div_mod_solve|done].
Qed.

Lemma band_to_freq freq op chan :
  freq_band freq op chan → freq < 56160 →
  ieee80211_chan_to_freq_global op chan = freq ∨ ieee80211_chan_to_freq_global op chan = -1.
Proof.
  unfold freq_band. cbn [In]. intros H Hlt.
  destruct H as [(Hc & Hf & H)|[(Hc & Hf & H)|[(Hc & Hf & H)|[(Hc & Hf & H)|(Hc & Hf & H)]]]];
    [| | | |lia]; repeat destruct H as [H|H]; try done; subst op;
    unfold ieee80211_chan_to_freq_global, in_range; cbn [is_case existsb Z.eqb Pos.eqb orb];
    (case_decide; [by right|left; lia]) || by right.
Qed.

(** ** Lemmas on supported rates *)

Lemma count_rates_spec rates n : ∀ i a b,
  (i + n ≤ length rates)%nat →
  let r := take n (drop i rates) in
  count_rates n rates i a b =
  Ok (a + zlen (List.filter is_11b r), b + zlen (List.filter (λ x, negb (is_11b x)) r)).
Proof.
  induction n as [|n IH]; intros i a b Hlen; cbn zeta; cbn [count_rates].
  { cbn [take List.filter]. by rewrite !Z.add_0_r. }
  destruct (rd_lt rates i) as (x & -> & Hx); [lia|]. cbn [mbind outcome_bind].
  rewrite (drop_S rates x i Hx). cbn [take List.filter].
  destruct (is_11b x); cbn [negb]; rewrite IH by lia; rewrite ?zlen_cons; do 2 f_equal; lia.
Qed.

(** The octets of a rates element. *)
Definition rates_of (rates : cptr) (len : Z) : bytes :=
  match rates with None => [] | Some r => take (Z.to_nat len) r end.

Lemma count_rates_of_spec rates len a b :
  (∀ r, rates = Some r → 0 ≤ len ≤ zlen r) →
  count_rates_of rates len (a, b) =
  Ok (a + zlen (List.filter is_11b (rates_of rates len)),
      b + zlen (List.filter (λ x, negb (is_11b x)) (rates_of rates len))).
Proof.
  intros Hr. destruct rates as [r|]; cbn [count_rates_of rates_of fst snd].
  - specialize (Hr r eq_refl). unfold zlen in Hr. rewrite count_rates_spec by lia. done.
  - cbn. change (zlen []) with 0. by rewrite !Z.add_0_r.
Qed.

Lemma filter_neg_nil (l : bytes) :
  List.filter (λ x, negb (is_11b x)) l = [] ↔ Forall (λ x, is_11b x = true) l.
Proof.
  induction l as [|x l IH]; cbn; [done|]. rewrite Forall_cons_iff, <- IH.
  destruct (is_11b x); cbn; intuition congruence.
Qed.

Lemma filter_all (l : bytes) : Forall (λ x, is_11b x = true) l → List.filter is_11b l = l.
Proof. induction 1 as [|x l Hx Hl IH]; cbn; [done|]. by rewrite Hx, IH. Qed.

(** ** Lemmas on the WMM parameters *)

(** The ranges the configuration accepts. *)
Definition wmm_ac_ok (p : hostapd_wmm_ac_params) : Prop :=
  1 ≤ aifs p ≤ 255 ∧ 0 ≤ cwmin p ≤ 15 ∧ 0 ≤ cwmax p ≤ 15 ∧
  0 ≤ txop_limit p ≤ 0xffff ∧ 0 ≤ admission_control_mandatory p ≤ 1.

Lemma wmm_ac_set_ok pos val ac ac' :
  wmm_ac_ok ac → wmm_ac_set pos val ac = Ok (Some ac') → wmm_ac_ok ac'.
Proof.
  intros (H1 & H2 & H3 & H4 & H5). unfold wmm_ac_set.
  repeat case_decide; try done; intros (v & _ & H')%bind_Ok_inv;
    case_decide; try done; injection H' as <-; unfold wmm_ac_ok; cbn; lia.
Qed.

Lemma wmm_ac_index_lt pos num r : wmm_ac_index pos = Some (num, r) → (num < 4)%nat.
Proof.
  unfold wmm_ac_index. repeat match goal with |- context [if ?b then _ else _] => destruct b end;
    intros [= <- _] || intros [=]; lia.
Qed.

(** ** Properties *)

(** C21. For every country code and operating class, a frequency that
    [ieee80211_chan_to_freq] gives for a channel is a frequency from which
    [ieee80211_freq_to_chan] recovers that channel; otherwise the result is -1. *)
Theorem chan_to_freq_roundtrip country op chan :
  (∀ c, country = Some c → (2 ≤ length c)%nat) →
  ∃ freq, ieee80211_chan_to_freq country op chan = Ok freq ∧
    (freq = -1 ∨ ∃ mode, ieee80211_freq_to_chan freq = Some (mode, chan)).
Proof.
  intros Hc.
  assert (∀ freq, freq = -1 ∨ chan_freq chan freq →
    freq = -1 ∨ ∃ mode, ieee80211_freq_to_chan freq = Some (mode, chan)) as Hback.
  { intros freq [->|Hf]; [by left|right].
    destruct (freq_to_channel_chan_freq chan freq Hf) as (mode & op' & He). exists mode.
    unfold ieee80211_freq_to_chan, u32. rewrite Z.mod_small by (unfold chan_freq in Hf; lia).
    by rewrite He. }
  pose proof (chan_to_freq_tables op chan) as Ht. rewrite !Forall_cons_iff in Ht.
  destruct Ht as (Hus & Heu & Hjp & Hcn & Hgl & _).
  unfold ieee80211_chan_to_freq.
  repeat (apply (try_country_cases (λ o, ∃ freq, o = Ok freq ∧ (freq = -1 ∨
            ∃ mode, ieee80211_freq_to_chan freq = Some (mode, chan)))); [done|by eauto|]).
  by eauto.
Qed.

(** The operating class and channel computed from a frequency below 56 GHz
    never lie: the channel fits the octet it is stored in, it is the channel at
    that frequency of its band, and converted back with the global operating
    classes it gives the same frequency or nothing. In the 60 GHz band the
    channel is the one that starts at or below the frequency: a frequency between two
    channels is not refused there. *)
Lemma freq_to_channel_sound freq sec vht mode op chan :
  ieee80211_freq_to_channel_ext freq sec vht = Some (mode, op, chan) →
  mode ≠ NUM_HOSTAPD_MODES ∧ 0 ≤ chan < 200 ∧
  (freq < 56160 →
    In freq [2407 + 5 * chan; 2414 + 5 * chan; 4000 + 5 * chan; 5000 + 5 * chan] ∧
    (ieee80211_chan_to_freq_global op chan = freq ∨
     ieee80211_chan_to_freq_global op chan = -1)) ∧
  (56160 ≤ freq →
    op = 180 ∧ ieee80211_chan_to_freq_global op chan ≤ freq <
               ieee80211_chan_to_freq_global op chan + 2160).
Proof.
  intros [Hm Hb]%freq_to_channel_band. split_and!; [done| | | |].
  - unfold freq_band in Hb. lia.
  - unfold freq_band in Hb. lia.
  - intros Hlt. split; [|by apply band_to_freq]. unfold freq_band in Hb. cbn [In].
    destruct Hb as [Hb|[Hb|[Hb|[Hb|Hb]]]]; lia.
  - intros Hge. unfold freq_band in Hb.
    destruct Hb as [Hb|[Hb|[Hb|[Hb|Hb]]]]; try lia. destruct Hb as (Hc & Hf & ->).
    split; [done|]. unfold ieee80211_chan_to_freq_global, in_range.
    cbn [is_case existsb Z.eqb Pos.eqb orb]. rewrite decide_False by lia. lia.
Qed.

(** The checks of an entry of the table: each of its channels has a frequency in
    the right band, which gives the channel back, and the DFS classes are those
    whose frequencies are all DFS frequencies. *)
Definition check_channel (o : oper_class_map) (ch : Z) : bool :=
  let f := ieee80211_chan_to_freq_global (oc_op_class o) ch in
  match ieee80211_freq_to_chan f with
  | Some (mode, ch') =>
    Z.eqb ch ch' && Z.ltb 0 f &&
    bool_decide (mode = oc_mode o ∨ oc_op_class o = 82 ∧ mode = HOSTAPD_MODE_IEEE80211B)
  | None => false
  end.

Definition all_dfs (o : oper_class_map) : bool :=
  forallb (λ ch, ieee80211_is_dfs (ieee80211_chan_to_freq_global (oc_op_class o) ch)) (oc_channels o).

Lemma global_op_class_checked :
  forallb (λ o, forallb (check_channel o) (oc_channels o) &&
                Bool.eqb (all_dfs o) (is_case (oc_op_class o) [118; 119; 120; 121; 122; 123]))
          global_op_class = true.
Proof. vm_compute. reflexivity. Qed.

(** The table of global operating classes agrees with the conversions: every
    channel of every entry has a frequency, which gives back the channel and the
    hardware mode of the entry (channel 14, listed as 802.11g, is 802.11b), and
    the classes with DFS channels only are exactly 118 to 123. *)
Lemma global_op_class_consistent o :
  In o global_op_class →
  (∀ ch, In ch (oc_channels o) →
    ∃ freq mode, ieee80211_chan_to_freq None (oc_op_class o) ch = Ok freq ∧ 0 < freq ∧
      ieee80211_freq_to_chan freq = Some (mode, ch) ∧
      (mode = oc_mode o ∨ oc_op_class o = 82 ∧ mode = HOSTAPD_MODE_IEEE80211B)) ∧
  (Forall (λ ch, ieee80211_is_dfs (ieee80211_chan_to_freq_global (oc_op_class o) ch) = true)
     (oc_channels o) ↔ 118 ≤ oc_op_class o ≤ 123).
Proof.
  intros Ho. pose proof (proj1 (forallb_forall _ _) global_op_class_checked o Ho) as Hc.
  apply andb_true_iff in Hc as [Hc Hd]. split.
  - intros ch Hch. pose proof (proj1 (forallb_forall _ _) Hc ch Hch) as H.
    unfold check_channel in H. exists (ieee80211_chan_to_freq_global (oc_op_class o) ch).
    destruct (ieee80211_freq_to_chan _) as [[mode ch']|]; [|done]. exists mode.
    apply andb_true_iff in H as [[Hch'%Z.eqb_eq Hf%Z.ltb_lt]%andb_true_iff Hm%bool_decide_eq_true].
    subst ch'. by split_and!.
  - apply Bool.eqb_prop in Hd. rewrite List.Forall_forall, <- forallb_forall.
    fold (all_dfs o). rewrite Hd. unfold is_case. rewrite existsb_exists. split.
    + intros (x & Hx & ->%Z.eqb_eq). cbn in Hx. lia.
    + intros H. exists (oc_op_class o). split; [cbn; lia|apply Z.eqb_refl].
Qed.

(** A station with parsed elements [e] is an 802.11b only station exactly
    when it lists a rate and all the rates of its two elements are 802.11b
    rates; the count never reads outside the frame. *)
Lemma supp_rates_11b_only_spec b res e :
  bytes_ok b → ieee802_11_parse_elems b = Ok (res, e) →
  let rates := rates_of (elems.supp_rates e) (elems.supp_rates_len e) ++
               rates_of (elems.ext_supp_rates e) (elems.ext_supp_rates_len e) in
  supp_rates_11b_only e =
  Ok (bool_decide (rates ≠ [] ∧ Forall (λ r, is_11b r = true) rates)).
Proof.
  intros Hb Hp rates.
  destruct (ie_decompose b Hb) as (l & r & -> & Hl & Hr & _).
  rewrite parse_elems_ies in Hp by done.
  pose proof (parse_ies_inside _ l r [] _ _ _ _ eq_refl (inside_zero _) Hp) as Hin.
  apply ei_fields in Hin. unfold fields in Hin. rewrite !Forall_cons_iff in Hin.
  destruct Hin as (_ & Hs & _ & _ & _ & He & _). unfold inside in Hs, He. cbn [fst snd] in Hs, He.
  unfold supp_rates_11b_only. destruct (decide _) as [[Hn1 Hn2]|Hn].
  { rewrite bool_decide_eq_false_2; [done|]. subst rates. rewrite Hn1, Hn2. tauto. }
  rewrite count_rates_of_spec.
  2:{ intros p Hp'. rewrite Hp' in Hs. lia. }
  cbn [mbind outcome_bind]. rewrite count_rates_of_spec.
  2:{ intros p Hp'. rewrite Hp' in He. lia. }
  cbn [mbind outcome_bind]. f_equal. rewrite !Z.add_0_l, <- !zlen_app, <- !List.filter_app.
  fold rates. apply bool_decide_ext. clearbody rates. clear. split.
  - intros [H1 H2].
    assert (List.filter (λ x, negb (is_11b x)) rates = []) as Hn.
    { destruct (List.filter (λ x, negb (is_11b x)) rates) as [|y t]; [done|].
      rewrite zlen_cons in H2. pose proof (zlen_nonneg t). lia. }
    split; [by intros ->|]. by apply filter_neg_nil.
  - intros [Hne Hall]. rewrite filter_all by done. apply filter_neg_nil in Hall. rewrite Hall.
    split; [|done]. destruct rates; [done|]. rewrite zlen_cons.
    pose proof (zlen_nonneg rates). lia.
Qed.

(** C22. Reading a WMM parameter keeps the four access categories well formed,
    whatever the name and the value are; when it fails nothing changes, and when
    it succeeds at most one of the access categories is different. *)
Theorem hostapd_config_wmm_ac_ok ps name val res ps' :
  length ps = 4%nat → Forall wmm_ac_ok ps →
  hostapd_config_wmm_ac ps name val = Ok (res, ps') →
  Forall wmm_ac_ok ps' ∧
  (res = -1 ∧ ps' = ps ∨ res = 0 ∧ ∃ num ac, (num < 4)%nat ∧ ps' = <[num := ac]> ps).
Proof.
  intros Hlen Hps (pos & _ & H)%bind_Ok_inv.
  destruct (wmm_ac_index pos) as [[num r]|] eqn:Hi; [|injection H as <- <-; tauto].
  destruct (ps !! num) as [ac|] eqn:Hac; [|done].
  apply bind_Ok_inv in H as ([ac'|] & Hset & [= <- <-]); [|tauto].
  pose proof (Forall_lookup_1 _ _ _ _ Hps Hac). split.
  - apply Forall_insert; [done|]. by apply (wmm_ac_set_ok r val ac).
  - right. split; [done|]. exists num, ac'. split; [|done]. by apply wmm_ac_index_lt in Hi.
Qed.

(** ** Examples *)

Lemma chan_to_freq_roundtrip_witness :
  (∀ c, Some [74; 80; 0] = Some c → (2 ≤ length c)%nat) ∧
  ieee80211_chan_to_freq (Some [74; 80; 0]) 31 14 = Ok 2484 ∧
  ∃ freq, Ok 2484 = Ok freq ∧
    (freq = -1 ∨ ∃ mode, ieee80211_freq_to_chan freq = Some (mode, 14)).
Proof.
  assert (∀ c, Some [74; 80; 0] = Some c → (2 ≤ length c)%nat) as H
    by (intros c [= <-]; cbn; lia).
  split; [exact H|]. split; [reflexivity|]. exact (chan_to_freq_roundtrip _ 31 14 H).
Defined.

Lemma freq_to_channel_sound_witness :
  ieee80211_freq_to_channel_ext 5200 1 0 = Some (HOSTAPD_MODE_IEEE80211A, 116, 40) ∧
  (ieee80211_chan_to_freq_global 116 40 = 5200 ∨ ieee80211_chan_to_freq_global 116 40 = -1).
Proof.
  assert (ieee80211_freq_to_channel_ext 5200 1 0 = Some (HOSTAPD_MODE_IEEE80211A, 116, 40)) as H
    by reflexivity.
  split; [exact H|].
  destruct (freq_to_channel_sound _ _ _ _ _ _ H) as (_ & _ & Hlt & _). apply Hlt. lia.
Defined.

Lemma global_op_class_consistent_witness :
  In (mk_oper_class_map HOSTAPD_MODE_IEEE80211A 118 52 64 4 BW20 NO_P2P_SUPP) global_op_class ∧
  Forall (λ ch, ieee80211_is_dfs (ieee80211_chan_to_freq_global 118 ch) = true) [52; 56; 60; 64].
Proof.
  assert (In (mk_oper_class_map HOSTAPD_MODE_IEEE80211A 118 52 64 4 BW20 NO_P2P_SUPP)
            global_op_class) as H by (cbn; tauto).
  split; [exact H|]. apply (proj2 (global_op_class_consistent _ H)). cbn. lia.
Defined.

(** Rates 1 and 11 Mbit/s. *)
Definition rates_example : bytes := [1; 2; 2; 22].

Lemma supp_rates_11b_only_spec_witness :
  bytes_ok rates_example ∧
  ∃ res e, ieee802_11_parse_elems rates_example = Ok (res, e) ∧
    supp_rates_11b_only e = Ok (bool_decide ([2; 22] ≠ [] ∧ Forall (λ r, is_11b r = true) [2; 22])).
Proof.
  assert (bytes_ok rates_example) as H by (repeat constructor; done).
  split; [exact H|].
  exists ParseOK, (match ieee802_11_parse_elems rates_example with Ok (_, e) => e | _ => elems.zero end).
  split; [reflexivity|].
  exact (supp_rates_11b_only_spec rates_example _ _ H eq_refl).
Defined.

Definition wmm_ac_example : hostapd_wmm_ac_params := mk_wmm_ac 4 10 3 0 0.

Lemma hostapd_config_wmm_ac_ok_witness :
  Forall wmm_ac_ok (replicate 4 wmm_ac_example) ∧
  ∃ ps', hostapd_config_wmm_ac (replicate 4 wmm_ac_example)
           (lit "wmm_ac_vi_cwmax" ++ [0]) (lit "15") = Ok (0, ps') ∧ Forall wmm_ac_ok ps'.
Proof.
  assert (Forall wmm_ac_ok (replicate 4 wmm_ac_example)) as H
    by (repeat constructor; cbn; lia).
  split; [exact H|]. eexists. split; [reflexivity|].
  eapply (hostapd_config_wmm_ac_ok (replicate 4 wmm_ac_example)
            (lit "wmm_ac_vi_cwmax" ++ [0]) (lit "15")); [reflexivity|exact H|reflexivity].
Defined.
