(* ===== verification/Client.v ===== *)
(** * The probe stuffing client: frames and acknowledgements

    [probe_stuffing/utils.c], and the part of [probe_stuffing/main.c] that
    builds one frame. A [char *] to a heap object is the list of its octets;
    [cstr] is the string it holds. *)

From Stdlib Require Import ZArith Lia.
From stdpp Require Import base option list numbers decidable.
From S2P Require Import Prelude CLib Common Wpabuf Ie Elems.
Local Open Scope Z_scope.

(** ** Building elements *)

Section ops.
Context `{Malloc}.

(** [malloc] and [calloc] results are used without a check. *)
Definition alloc (n : Z) : outcome unit := guard_ub NullDeref (malloc_ok (u64 n)).

Definition sizeof_ie_info : Z := 16.
Definition sizeof_ptr : Z := 8.

(** [struct ie_info]: [ie_len] is the length of [ie_data]. *)
Definition create_vendor_ie (data : bytes) : outcome bytes :=
  s ← cstr data;
  let vendor_tag_number_len := 1 in
  let vendor_oui_len := 3 in
  let data_size := zlen s in
  let ie_size := vendor_oui_len + data_size in
  _ ← alloc sizeof_ie_info;
  let ie_len := vendor_tag_number_len + ie_size + 1 in
  _ ← alloc ie_len;
  Ok ([221; u8 ie_size; 1; 2; 3] ++ s).

(** [memcpy(calloc(n, sizeof(char * )), src, n)] *)
Definition calloc_copy (n : Z) (src : bytes) : outcome bytes :=
  _ ← alloc (n * sizeof_ptr);
  write (replicate (Z.to_nat (n * sizeof_ptr)) 0) 0 src.

(** The first loop of [split_data], for [n] chunks from chunk [i] on. *)
Fixpoint split_full (n : nat) (data : bytes) (i : nat) : outcome (list bytes) :=
  match n with
  | O => Ok []
  | S n =>
    s ← slice data (i * 252) 252;
    c ← calloc_copy 252 s;
    r ← split_full n data (S i);
    Ok (c :: r)
  end.

(** [n_ies] is at least 1: with 0 the array of chunks has no entry to write. *)
Definition split_data (data : bytes) (n_ies : Z) : outcome (list bytes) :=
  s ← cstr data;
  let len := zlen s in
  _ ← alloc (n_ies * sizeof_ptr);
  full ← split_full (Z.to_nat (n_ies - 1)) data 0;
  let len_left := len - (n_ies - 1) * 252 in
  _ ← guard_ub OutOfBounds (bool_decide (1 ≤ n_ies));
  l ← slice data (length full * 252) (Z.to_nat len_left);
  c ← calloc_copy len_left l;
  Ok (full ++ [c]).

Definition get_n_ies_reqd (len_data_to_stuff : Z) : Z :=
  if decide (len_data_to_stuff mod 252 = 0) then len_data_to_stuff / 252
  else len_data_to_stuff / 252 + 1.

Definition ies_max_data_size : Z := 1394.

(** Lines 138 to 160 of [main]: the data of the next frame, the amount stuffed
    after it and the more fragment bit. *)
Definition next_data (data_to_stuff : bytes) (len_data_to_stuff seq_num len_already : Z)
    : outcome (bytes * Z * Z) :=
  _ ← guard_ub Overflow (bool_decide (seq_num * ies_max_data_size < 2 ^ 31));
  let data_start_idx := seq_num * ies_max_data_size in
  if decide (len_data_to_stuff - len_already > ies_max_data_size) then
    s ← slice data_to_stuff (Z.to_nat data_start_idx) (Z.to_nat ies_max_data_size);
    _ ← alloc ((ies_max_data_size + 1) * sizeof_ptr);
    data ← write (replicate (Z.to_nat ((ies_max_data_size + 1) * sizeof_ptr)) 0) 0 (s ++ [0]);
    Ok (data, len_already + ies_max_data_size, 1)
  else
    let len_data_left := len_data_to_stuff - len_already in
    s ← slice data_to_stuff (Z.to_nat data_start_idx) (Z.to_nat len_data_left);
    _ ← alloc ((len_data_left + 1) * sizeof_ptr);
    data ← write (replicate (Z.to_nat ((len_data_left + 1) * sizeof_ptr)) 0) 0 (s ++ [0]);
    Ok (data, len_data_to_stuff, 0).

(** Lines 166 to 220: all the elements of a frame, as the string of octets that
    is passed to nl80211. *)
Definition build_frame (seq_num : Z) (data_origin_ts_str : bytes) (mfb : Z) (data : bytes)
    : outcome bytes :=
  s ← cstr data;
  let n_ies := get_n_ies_reqd (zlen s) in
  _ ← alloc ((n_ies + 1) * sizeof_ptr);
  seq_num_str ← put_str 9 (sdec0 8 seq_num);
  mfb_str ← put_str 2 (sdec mfb);
  additional_data ← put_str 28 (seq_num_str ++ data_origin_ts_str ++ mfb_str);
  ie0 ← create_vendor_ie (additional_data ++ [0]);
  raw_ies_data ← split_data data n_ies;
  ies ← mapM create_vendor_ie raw_ies_data;
  let ies_data := concat (ie0 :: ies) in
  _ ← alloc (zlen ies_data);
  Ok ies_data.

(** ** Acknowledgements *)

(** [data] is the memory from the body of the element on. The result is the
    string allocated for the sequence number. *)
Definition extract_ack_from_vendor_ie (len : Z) (data : bytes) : outcome (option bytes) :=
  if decide (4 ≤ len) then
    oui ← slice data 0 3;
    if decide (oui = [1; 2; 3]) then
      _ ← alloc (len - 2);
      ack_seq_num ← slice data 3 (Z.to_nat (len - 3));
      Ok (Some (ack_seq_num ++ [0]))
    else Ok None
  else Ok None.

(** The body of the loop for one element. *)
Definition ack_one (ies : bytes) (len ack_seq_num : Z) : outcome Z :=
  id ← rd ies 0;
  if decide (id = 221) then
    a ← extract_ack_from_vendor_ie len (drop 2 ies);
    match a with
    | Some str => s ← cstr str; atoi s
    | None => Ok ack_seq_num
    end
  else Ok ack_seq_num.

(** [while (ies_len >= 2 && ies_len >= ies[1])]: [ies] is the memory from the
    pointer on, [ies_len] what is left of the attribute. *)
Fixpoint get_ack_loop (fuel : nat) (ies : bytes) (ies_len ack_seq_num : Z) : outcome Z :=
  match fuel with
  | O => Stuck
  | S f =>
    if decide (2 ≤ ies_len) then
      l ← rd ies 1;
      if decide (l ≤ ies_len) then
        ack_seq_num ← ack_one ies l ack_seq_num;
        get_ack_loop f (drop (Z.to_nat (l + 2)) ies) (ies_len - (l + 2)) ack_seq_num
      else Ok ack_seq_num
    else Ok ack_seq_num
  end.

(** What libnl makes of a message of the scan dump: whether it has a BSS
    attribute whose nested attributes parse and include a BSSID, and the
    elements of that BSS (the memory they start in, and their length). *)
Record scan_msg := mk_scan_msg {
  attr_bss : bool;
  nested_ok : bool;
  bss_bssid : bool;
  bss_ies : option (bytes * Z) }.

(** The callback; the sequence number is the variable [arg] points to. *)
Definition get_ack (msg : scan_msg) (ack_seq_num : Z) : outcome Z :=
  if negb (attr_bss msg) then Ok ack_seq_num
  else if negb (nested_ok msg) then Ok ack_seq_num
  else if negb (bss_bssid msg) then Ok ack_seq_num
  else match bss_ies msg with
       | None => Ok ack_seq_num
       | Some (ies, ies_len) => get_ack_loop (S (Z.to_nat ies_len)) ies ies_len ack_seq_num
       end.

End ops.

(** ** The elements of a frame, abstractly *)

Definition oui_octets : bytes := [1; 2; 3].

(** The element that carries the octets [d]. *)
Definition stuff_ie (d : bytes) : ie := mk_ie 221 (oui_octets ++ d).

(** Chunk [i] of the data. *)
Definition chunk (s : bytes) (i : nat) : bytes := take 252 (drop (i * 252) s).
Definition chunks (n : nat) (s : bytes) : list bytes := map (chunk s) (seq 0 n).

Definition header (seq_num : Z) (ts : bytes) (mfb : Z) : bytes :=
  udec0 8 seq_num ++ ts ++ [48 + mfb].

Definition n_chunks (s : bytes) : nat := Z.to_nat (get_n_ies_reqd (zlen s)).

(** The elements of the frame for the data [s]. *)
Definition frame_ies (seq_num : Z) (ts : bytes) (mfb : Z) (s : bytes) : list ie :=
  stuff_ie (header seq_num ts mfb) :: map stuff_ie (chunks (n_chunks s) s).

Lemma concat_chunks_from n s i :
  concat (map (chunk s) (seq i n)) = take (n * 252) (drop (i * 252) s).
Proof.
  revert i. induction n as [|n IH]; intros i; [done|]. cbn [seq map concat]. rewrite IH. unfold chunk.
  replace (S i * 252)%nat with (i * 252 + 252)%nat by lia. rewrite <- drop_drop.
  replace (S n * 252)%nat with (252 + n * 252)%nat by lia. apply take_take_drop.
Qed.

Lemma n_reqd_spec n :
  0 ≤ n → 252 * get_n_ies_reqd n - 252 < n ≤ 252 * get_n_ies_reqd n.
Proof. intros Hn. unfold get_n_ies_reqd. case_decide; Z.div_mod_to_equations; lia. Qed.

Lemma n_reqd_pos n : 0 < n → 1 ≤ get_n_ies_reqd n.
Proof. intros Hn. pose proof (n_reqd_spec n). lia. Qed.

(** The chunks are the data. *)
Lemma concat_chunks s : concat (chunks (n_chunks s) s) = s.
Proof.
  unfold chunks. rewrite concat_chunks_from, drop_0. apply take_ge.
  pose proof (n_reqd_spec (zlen s) (zlen_nonneg s)). unfold n_chunks, zlen in *. lia.
Qed.

Lemma chunk_length s i : length (chunk s i) = (252 `min` (length s - i * 252))%nat.
Proof. unfold chunk. by rewrite length_take, length_drop. Qed.

Lemma chunks_length n s : length (chunks n s) = n.
Proof. unfold chunks. by rewrite length_map, length_seq. Qed.

(** No chunk is empty. *)
Lemma chunks_sizes s : Forall (λ c, 1 ≤ zlen c ≤ 252) (chunks (n_chunks s) s).
Proof.
  unfold chunks. apply List.Forall_map, List.Forall_forall. intros i Hi%in_seq.
  pose proof (n_reqd_spec (zlen s) (zlen_nonneg s)). unfold zlen in *. rewrite chunk_length.
  unfold n_chunks, zlen in Hi. lia.
Qed.

Lemma chunks_forall (P : Z → Prop) n s : Forall P s → Forall (Forall P) (chunks n s).
Proof.
  intros Hs. unfold chunks. apply List.Forall_map, List.Forall_forall. intros i _.
  by apply Forall_take, Forall_drop.
Qed.

Lemma chunks_snoc n s : chunks (S n) s = chunks n s ++ [chunk s n].
Proof. unfold chunks. by rewrite seq_S, map_app. Qed.

(** The object a chunk is copied to. *)
Definition chunk_obj (n : Z) (c : bytes) : bytes :=
  c ++ replicate (Z.to_nat (n * sizeof_ptr) - length c) 0.

Section facts.
Context `{Malloc}.
Hypothesis malloc_succeeds : ∀ n, malloc_ok n = true.

Lemma alloc_ok n : alloc n = Ok tt.
Proof. unfold alloc. by rewrite malloc_succeeds. Qed.

Lemma create_vendor_ie_ok c r :
  no_nul c → zlen c ≤ 252 → create_vendor_ie (c ++ 0 :: r) = Ok (ie_enc (stuff_ie c)).
Proof.
  intros Hc Hl. unfold create_vendor_ie. rewrite cstr_app by done. cbn [mbind outcome_bind].
  rewrite !alloc_ok. cbn [mbind outcome_bind]. pose proof (zlen_nonneg c).
  unfold ie_enc, stuff_ie, oui_octets. cbn [ie_id ie_body]. rewrite u8_small by (unfold is_u8; lia).
  cbn [app]. rewrite !zlen_cons. do 3 f_equal. lia.
Qed.

Lemma calloc_copy_ok n c : zlen c ≤ n → calloc_copy n c = Ok (chunk_obj n c).
Proof.
  intros Hl. unfold calloc_copy, chunk_obj, write, zlen, sizeof_ptr in *. rewrite alloc_ok.
  cbn [mbind outcome_bind]. rewrite length_replicate, decide_True by lia.
  cbn [take app]. rewrite drop_replicate. do 3 f_equal.
Qed.

Lemma chunk_obj_string n c : 1 ≤ n → zlen c ≤ n → ∃ r, chunk_obj n c = c ++ 0 :: r.
Proof.
  intros Hn Hc. unfold chunk_obj, zlen, sizeof_ptr in *.
  destruct (Z.to_nat (n * 8) - length c)%nat as [|k] eqn:Hk; [lia|]. by exists (replicate k 0).
Qed.

(** A slice of the string of an object. *)
Lemma slice_string s r off n :
  (off + n ≤ length s)%nat → slice (s ++ r) off n = Ok (take n (drop off s)).
Proof.
  intros Hl. rewrite slice_ok by (rewrite length_app; lia).
  rewrite drop_app_le by lia. rewrite take_app_le by (rewrite length_drop; lia). done.
Qed.

Lemma split_full_ok n s r i :
  ((i + n) * 252 ≤ length s)%nat →
  split_full n (s ++ 0 :: r) i = Ok (map (λ j, chunk_obj 252 (chunk s j)) (seq i n)).
Proof.
  revert i. induction n as [|n IH]; intros i Hl; [done|]. cbn [split_full seq map].
  rewrite slice_string by lia. fold (chunk s i). cbn [mbind outcome_bind].
  rewrite calloc_copy_ok by (unfold zlen; rewrite chunk_length; lia). cbn [mbind outcome_bind].
  by rewrite IH by lia.
Qed.

Lemma split_data_ok s r :
  no_nul s → 0 < zlen s →
  ∃ objs, split_data (s ++ 0 :: r) (get_n_ies_reqd (zlen s)) = Ok objs ∧
          Forall2 (λ o c, ∃ t, o = c ++ 0 :: t) objs (chunks (n_chunks s) s).
Proof.
  intros Hs Hpos. pose proof (n_reqd_spec (zlen s) (zlen_nonneg s)) as Hn.
  pose proof (n_reqd_pos (zlen s) Hpos) as H1.
  unfold split_data. rewrite cstr_app by done. cbn [mbind outcome_bind]. rewrite alloc_ok.
  cbn [mbind outcome_bind]. unfold n_chunks.
  destruct (Z.to_nat (get_n_ies_reqd (zlen s))) as [|m] eqn:Hm; [lia|].
  replace (get_n_ies_reqd (zlen s)) with (Z.of_nat (S m)) by lia.
  replace (Z.to_nat (Z.of_nat (S m) - 1)) with m by lia.
  replace (zlen s - (Z.of_nat (S m) - 1) * 252) with (Z.of_nat (length s - m * 252))
    by (unfold zlen in *; lia).
  rewrite split_full_ok by (unfold zlen in *; lia). cbn [mbind outcome_bind].
  rewrite bool_decide_eq_true_2 by lia. cbn [guard_ub mbind outcome_bind].
  rewrite length_map, length_seq, Nat2Z.id, slice_string by (unfold zlen in *; lia).
  cbn [mbind outcome_bind].
  assert (take (length s - m * 252) (drop (m * 252) s) = chunk s m) as ->.
  { unfold chunk. rewrite !take_ge by (rewrite length_drop; unfold zlen in *; lia). done. }
  assert (zlen (chunk s m) = Z.of_nat (length s - m * 252)) as Hcl.
  { unfold zlen in *. rewrite chunk_length. lia. }
  rewrite calloc_copy_ok by lia. cbn [mbind outcome_bind]. eexists. split; [done|].
  rewrite chunks_snoc. apply Forall2_app.
  - unfold chunks. apply Forall2_map_same, List.Forall_forall. intros i _.
    apply chunk_obj_string; [lia|]. unfold zlen. rewrite chunk_length. lia.
  - constructor; [|constructor]. apply chunk_obj_string; unfold zlen in *; lia.
Qed.

Lemma create_all_ok objs cs :
  Forall2 (λ o c, ∃ t, o = c ++ 0 :: t) objs cs → Forall no_nul cs →
  Forall (λ c, 1 ≤ zlen c ≤ 252) cs →
  mapM create_vendor_ie objs = Ok (map (λ c, ie_enc (stuff_ie c)) cs).
Proof.
  induction 1 as [|o c objs cs [t ->] Ho IH]; intros Hn Hl; [done|].
  rewrite Forall_cons_iff in Hn, Hl. destruct Hn as [Hn Hns], Hl as [Hl Hls]. cbn [mapM map].
  rewrite create_vendor_ie_ok by (done || lia). cbn [mbind outcome_bind]. by rewrite IH.
Qed.

Lemma header_props seq_num ts mfb :
  0 ≤ seq_num < 10 ^ 8 → 0 ≤ mfb ≤ 1 → no_nul ts → length ts = 18%nat →
  no_nul (header seq_num ts mfb) ∧ length (header seq_num ts mfb) = 27%nat.
Proof.
  intros Hq Hm Hts Hl. unfold header. split.
  - rewrite !no_nul_app. split_and!; [apply digits_no_nul, udec0_digits; lia|done|].
    constructor; [lia|constructor].
  - rewrite !length_app, Hl, udec0_length by (cbn; lia). done.
Qed.

Lemma build_frame_ok seq_num ts mfb s r :
  0 ≤ seq_num < 10 ^ 8 → 0 ≤ mfb ≤ 1 → no_nul ts → length ts = 18%nat →
  no_nul s → 0 < zlen s →
  build_frame seq_num ts mfb (s ++ 0 :: r) = Ok (ies_enc (frame_ies seq_num ts mfb s)).
Proof.
  intros Hq Hm Hts Htl Hs Hpos. destruct (header_props seq_num ts mfb Hq Hm Hts Htl) as [Hhn Hhl].
  unfold build_frame. rewrite cstr_app by done. cbn [mbind outcome_bind].
  rewrite !alloc_ok. cbn [mbind outcome_bind].
  unfold sdec0, sdec. rewrite !decide_False by lia.
  rewrite (put_str_ok 9) by (rewrite udec0_length; cbn; lia). cbn [mbind outcome_bind].
  assert (udec mfb = [48 + mfb]) as -> by (rewrite udec_eq, decide_True by lia; done).
  rewrite put_str_ok by (cbn; lia). cbn [mbind outcome_bind].
  fold (header seq_num ts mfb). rewrite put_str_ok by lia. cbn [mbind outcome_bind].
  rewrite create_vendor_ie_ok by (done || (unfold zlen; lia)). cbn [mbind outcome_bind].
  destruct (split_data_ok s r Hs Hpos) as (objs & -> & Ho). cbn [mbind outcome_bind].
  rewrite (create_all_ok objs _ Ho (chunks_forall _ _ _ Hs) (chunks_sizes s)).
  cbn [mbind outcome_bind]. rewrite alloc_ok. cbn [mbind outcome_bind].
  unfold ies_enc, frame_ies. cbn [map concat]. by rewrite map_map.
Qed.
End facts.

(** ** The acknowledgements in a list of elements *)

(** The elements [get_ack] takes for an acknowledgement. *)
Definition ack_elem (e : ie) : bool :=
  bool_decide (ie_id e = 221 ∧ 4 ≤ zlen (ie_body e) ∧ take 3 (ie_body e) = oui_octets).

(** The number such an element carries. *)
Definition elem_ack (e : ie) : outcome Z := s ← cstr (drop 3 (ie_body e) ++ [0]); atoi s.

Definition acks (l : list ie) (ack : Z) : outcome Z :=
  foldl (λ a e, a ← a; if ack_elem e then elem_ack e else Ok a) (Ok ack) l.

(** A remainder of less than an element that the loop leaves alone. *)
Definition harmless (r : bytes) : Prop :=
  match r with _ :: n :: _ => zlen r < n | _ => True end.

Lemma stuff_ie_ok d : bytes_ok d → zlen d ≤ 252 → ie_ok (stuff_ie d).
Proof.
  intros Hd Hl. unfold stuff_ie. split_and!; cbn [ie_id ie_body]; [done| |].
  - apply Forall_app. split; [repeat constructor; done|done].
  - rewrite zlen_app. change (zlen oui_octets) with 3. lia.
Qed.

Lemma stuff_enc_length d : zlen (ie_enc (stuff_ie d)) = 5 + zlen d.
Proof. unfold zlen. rewrite ie_enc_length. cbn [stuff_ie ie_body oui_octets app length]. lia. Qed.

Lemma ies_enc_stuff_length cs :
  zlen (ies_enc (map stuff_ie cs)) = zlen (concat cs) + 5 * zlen cs.
Proof.
  induction cs as [|c cs IH]; [done|]. cbn [map concat].
  rewrite ies_enc_cons, !zlen_app, stuff_enc_length, IH, zlen_cons. lia.
Qed.

Lemma digits_bytes s : Forall (λ c, is_digit c = true) s → bytes_ok s.
Proof.
  intros Hs. eapply Forall_impl; [|exact Hs]. intros c Hc. cbn in Hc. unfold is_digit in Hc.
  apply bool_decide_eq_true in Hc. unfold is_u8. lia.
Qed.

Lemma header_bytes seq_num ts mfb :
  0 ≤ seq_num < 10 ^ 8 → 0 ≤ mfb ≤ 1 → bytes_ok ts → bytes_ok (header seq_num ts mfb).
Proof.
  intros Hq Hm Ht. apply Forall_app. split; [apply digits_bytes, udec0_digits; lia|].
  apply Forall_app. split; [done|]. constructor; [unfold is_u8; lia|constructor].
Qed.

Lemma take_oui_length t : take 3 t = oui_octets → (3 ≤ length t)%nat.
Proof. intros H. apply (f_equal length) in H. rewrite length_take in H. change (length oui_octets) with 3%nat in H. lia. Qed.

Section ack_facts.
Context `{Malloc}.
Hypothesis malloc_succeeds : ∀ n, malloc_ok n = true.

Lemma ack_one_spec e t ack :
  ie_ok e → ack_one (ie_enc e ++ t) (zlen (ie_body e)) ack =
            if ack_elem e then elem_ack e else Ok ack.
Proof.
  intros (_ & _ & Hl). unfold ack_one, ack_elem, elem_ack, extract_ack_from_vendor_ie.
  rewrite rd_ie_id, drop_ie_hdr. cbn [mbind outcome_bind].
  destruct (decide (ie_id e = 221)) as [Hid|Hid].
  2:{ rewrite bool_decide_eq_false_2 by tauto. done. }
  destruct (decide (4 ≤ zlen (ie_body e))) as [H4|H4].
  2:{ rewrite bool_decide_eq_false_2 by tauto. done. }
  unfold zlen in H4. rewrite (slice_string _ _ 0 3) by lia. rewrite drop_0.
  cbn [mbind outcome_bind]. fold oui_octets.
  destruct (decide (take 3 (ie_body e) = oui_octets)) as [Ho|Ho].
  2:{ rewrite bool_decide_eq_false_2 by tauto. done. }
  rewrite bool_decide_eq_true_2 by (unfold zlen; split_and!; done || lia).
  unfold alloc. rewrite malloc_succeeds. cbn [guard_ub mbind outcome_bind].
  rewrite slice_string by (unfold zlen; lia). cbn [mbind outcome_bind].
  rewrite (take_ge (drop 3 _)) by (rewrite length_drop; unfold zlen; lia). done.
Qed.

Lemma get_ack_loop_nil fuel r mem ack :
  harmless r → get_ack_loop (S fuel) (r ++ mem) (zlen r) ack = Ok ack.
Proof.
  intros Hr. cbn [get_ack_loop]. case_decide as H2; [|done].
  apply zlen_2_inv in H2 as (i & n & t & ->). cbn [app rd lookup list_lookup mbind outcome_bind].
  cbn [harmless] in Hr. unfold rd. cbn [lookup list_lookup mbind outcome_bind].
  by rewrite decide_False by lia.
Qed.

Lemma foldl_acks_undef l (o : outcome Z) :
  (∀ a, o ≠ Ok a) → foldl (λ a e, a ← a; if ack_elem e then elem_ack e else Ok a) o l = o.
Proof.
  intros Ho. induction l as [|e l IH]; [done|]. cbn [foldl].
  destruct o as [a| |]; [by destruct (Ho a)|exact IH|exact IH].
Qed.

Lemma get_ack_loop_spec l r mem ack fuel :
  Forall ie_ok l → harmless r → (length (ies_enc l ++ r) < fuel)%nat →
  get_ack_loop fuel (ies_enc l ++ r ++ mem) (zlen (ies_enc l ++ r)) ack = acks l ack.
Proof.
  intros Hl Hr. revert ack fuel. induction Hl as [|e l He Hl IH]; intros ack fuel Hf;
    (destruct fuel as [|fuel]; [lia|]).
  { cbn [ies_enc map concat app]. by apply get_ack_loop_nil. }
  rewrite ies_enc_cons, <- app_assoc in Hf |- *. rewrite <- (app_assoc _ _ r), (zlen_app (ie_enc e)).
  rewrite length_app, ie_enc_length in Hf.
  assert (zlen (ie_enc e) = 2 + zlen (ie_body e)) as Hz by (unfold zlen; rewrite ie_enc_length; lia).
  pose proof (zlen_nonneg (ie_body e)). pose proof (zlen_nonneg (ies_enc l ++ r)).
  cbn [get_ack_loop]. rewrite decide_True by lia.
  change (rd (ie_enc e ++ _) 1) with (Ok (zlen (ie_body e))). cbn [mbind outcome_bind].
  rewrite decide_True by lia. rewrite ack_one_spec by done.
  unfold acks. cbn [foldl mbind outcome_bind].
  destruct (if ack_elem e then elem_ack e else Ok ack) as [a| |] eqn:Ha;
    [|by rewrite foldl_acks_undef|by rewrite foldl_acks_undef].
  rewrite drop_app_length' by (rewrite ie_enc_length; unfold zlen; lia).
  replace (zlen (ie_enc e) + zlen (ies_enc l ++ r) - (zlen (ie_body e) + 2))
    with (zlen (ies_enc l ++ r)) by lia.
  apply IH. lia.
Qed.

Lemma acks_app l1 l2 ack : acks (l1 ++ l2) ack = (a ← acks l1 ack; acks l2 a).
Proof.
  unfold acks. rewrite foldl_app.
  destruct (foldl _ (Ok ack) l1) as [a| |]; cbn [mbind outcome_bind]; [done| |];
    by apply foldl_acks_undef.
Qed.

Lemma acks_cons e l ack :
  acks (e :: l) ack = (a ← (if ack_elem e then elem_ack e else Ok ack); acks l a).
Proof. exact (acks_app [e] l ack). Qed.

Lemma acks_none l ack : Forall (λ e, ack_elem e = false) l → acks l ack = Ok ack.
Proof. induction 1 as [|e l He Hl IH]; [done|]. by rewrite acks_cons, He. Qed.

Lemma acks_some l ack :
  Forall (λ e, ack_elem e = true → ∃ v, elem_ack e = Ok v) l → ∃ v, acks l ack = Ok v.
Proof.
  intros Hl. revert ack. induction Hl as [|e l He Hl IH]; intros ack; [by eexists|].
  rewrite acks_cons. destruct (ack_elem e); [|by apply IH].
  destruct He as [v ->]; [done|]. apply IH.
Qed.

(** The acknowledgement of a frame number. *)
Lemma elem_ack_stuff v : 0 ≤ v < 2 ^ 31 → elem_ack (stuff_ie (udec v)) = Ok v.
Proof.
  intros Hv. unfold elem_ack, stuff_ie. cbn [ie_body].
  change (drop 3 (oui_octets ++ udec v)) with (udec v).
  rewrite cstr_app by (apply digits_no_nul, udec_digits; lia). cbn [mbind outcome_bind].
  by apply atoi_udec.
Qed.

Lemma ack_elem_stuff d : 1 ≤ zlen d → ack_elem (stuff_ie d) = true.
Proof.
  intros Hd. apply bool_decide_eq_true. unfold stuff_ie. cbn [ie_id ie_body].
  rewrite zlen_app. change (zlen oui_octets) with 3. split_and!; [done|lia|done].
Qed.
End ack_facts.

(** ** Faults in the scan results *)

(** The elements of a scan result lie in the message: [attr] is the attribute,
    what follows it in memory is the rest of the message. *)
Definition msg_ok (m : scan_msg) : Prop :=
  match bss_ies m with
  | Some (mem, n) => bytes_ok mem ∧ 0 ≤ n ≤ zlen mem
  | None => True
  end.

(** What makes [get_ack] undefined on an attribute: an acknowledgement whose
    number is no [int], or a last vendor element whose length octet claims one or
    two octets more than the attribute has. *)
Definition ack_fault (attr : bytes) : Prop :=
  ∃ l r, attr = ies_enc l ++ r ∧ Forall ie_ok l ∧
    ((∃ e, In e l ∧ ack_elem e = true ∧ elem_ack e = Undef Overflow) ∨
     (∃ n t, r = 221 :: n :: t ∧ 4 ≤ n ∧ zlen t < n ≤ zlen t + 2)).

Section fault_facts.
Context `{Malloc}.
Hypothesis malloc_succeeds : ∀ n, malloc_ok n = true.

Lemma elem_ack_cases e : (∃ v, elem_ack e = Ok v) ∨ elem_ack e = Undef Overflow.
Proof.
  unfold elem_ack. rewrite cstr_upto. cbn [mbind outcome_bind].
  unfold atoi. case_decide; [left; by eexists|by right].
Qed.

(** The last, incomplete element. *)
Lemma get_ack_loop_tail fuel r mem ack :
  bytes_ok r → ie_trunc r → (length r < fuel)%nat →
  (∃ v, get_ack_loop fuel (r ++ mem) (zlen r) ack = Ok v) ∨
  ∃ u, get_ack_loop fuel (r ++ mem) (zlen r) ack = Undef u ∧
       ∃ n t, r = 221 :: n :: t ∧ 4 ≤ n ∧ zlen t < n ≤ zlen t + 2.
Proof.
  intros Hb Hr Hf. destruct fuel as [|fuel]; [lia|]. cbn [get_ack_loop].
  case_decide as H2; [|left; by eexists].
  apply zlen_2_inv in H2 as (i & n & t & ->). cbn [ie_trunc] in Hr. cbn [length] in Hf.
  unfold rd. cbn [app lookup list_lookup mbind outcome_bind]. rewrite !zlen_cons.
  destruct (decide (n ≤ 1 + (1 + zlen t))) as [Hn|Hn]; [|left; by eexists].
  assert (∀ m, get_ack_loop fuel (drop (Z.to_nat (n + 2)) (i :: n :: t ++ mem))
                 (1 + (1 + zlen t) - (n + 2)) m = Ok m) as Hend.
  { intros m. destruct fuel as [|fuel]; [lia|]. cbn [get_ack_loop]. by rewrite decide_False by lia. }
  unfold ack_one, rd. cbn [lookup list_lookup mbind outcome_bind].
  destruct (decide (i = 221)) as [->|Hi]; [|left; exists ack; apply Hend].
  unfold extract_ack_from_vendor_ie.
  destruct (decide (4 ≤ n)) as [H4|H4]; [|left; exists ack; apply Hend].
  assert (∀ o : outcome Z, o ≠ Stuck →
    (∃ v, (o ≫= λ m, get_ack_loop fuel (drop (Z.to_nat (n + 2)) (221 :: n :: t ++ mem))
                       (1 + (1 + zlen t) - (n + 2)) m) = Ok v) ∨
    ∃ u, (o ≫= λ m, get_ack_loop fuel (drop (Z.to_nat (n + 2)) (221 :: n :: t ++ mem))
                      (1 + (1 + zlen t) - (n + 2)) m) = Undef u) as Hgo.
  { intros [a|u|] Ho; cbn [mbind outcome_bind]; [left|right|done]; eauto. }
  match goal with |- (∃ v, (?o ≫= _) = _) ∨ _ => destruct (Hgo o) as [Hv|[u Hu]] end.
  - intros Ho. revert Ho. cbn [drop]. unfold slice, alloc, atoi.
    rewrite malloc_succeeds.
    repeat first [rewrite cstr_upto | progress cbn [mbind outcome_bind guard_ub]
                 | case_decide; try done].
  - by left.
  - right. exists u. split; [done|]. exists n, t. split; [done|lia].
Qed.

Lemma get_ack_loop_total l r mem ack fuel :
  Forall ie_ok l → bytes_ok r → ie_trunc r → (length (ies_enc l ++ r) < fuel)%nat →
  (∃ v, get_ack_loop fuel (ies_enc l ++ r ++ mem) (zlen (ies_enc l ++ r)) ack = Ok v) ∨
  ∃ u, get_ack_loop fuel (ies_enc l ++ r ++ mem) (zlen (ies_enc l ++ r)) ack = Undef u ∧
    ((∃ e, In e l ∧ ack_elem e = true ∧ elem_ack e = Undef Overflow) ∨
     (∃ n t, r = 221 :: n :: t ∧ 4 ≤ n ∧ zlen t < n ≤ zlen t + 2)).
Proof.
  intros Hl Hb Hr. revert ack fuel. induction Hl as [|e l He Hl IH]; intros ack fuel Hf.
  { cbn [ies_enc map concat app] in *. destruct (get_ack_loop_tail fuel r mem ack Hb Hr Hf)
      as [Hv|(u & Hu & Ht)]; [by left|right]. exists u. split; [done|by right]. }
  destruct fuel as [|fuel]; [lia|].
  rewrite ies_enc_cons, <- app_assoc in Hf |- *. rewrite <- (app_assoc _ _ r), (zlen_app (ie_enc e)).
  rewrite length_app, ie_enc_length in Hf.
  assert (zlen (ie_enc e) = 2 + zlen (ie_body e)) as Hz by (unfold zlen; rewrite ie_enc_length; lia).
  pose proof (zlen_nonneg (ie_body e)). pose proof (zlen_nonneg (ies_enc l ++ r)).
  cbn [get_ack_loop]. rewrite decide_True by lia.
  change (rd (ie_enc e ++ _) 1) with (Ok (zlen (ie_body e))). cbn [mbind outcome_bind].
  rewrite decide_True by lia. rewrite ack_one_spec by done.
  rewrite drop_app_length' by (rewrite ie_enc_length; unfold zlen; lia).
  replace (zlen (ie_enc e) + zlen (ies_enc l ++ r) - (zlen (ie_body e) + 2))
    with (zlen (ies_enc l ++ r)) by lia.
  assert (∀ a, (∃ v, get_ack_loop fuel (ies_enc l ++ r ++ mem) (zlen (ies_enc l ++ r)) a = Ok v) ∨
    ∃ u, get_ack_loop fuel (ies_enc l ++ r ++ mem) (zlen (ies_enc l ++ r)) a = Undef u ∧
    ((∃ e', In e' (e :: l) ∧ ack_elem e' = true ∧ elem_ack e' = Undef Overflow) ∨
     (∃ n t, r = 221 :: n :: t ∧ 4 ≤ n ∧ zlen t < n ≤ zlen t + 2))) as Hrest.
  { intros a. destruct (IH a fuel) as [Hv|(u & Hu & [(e' & Hin & He')|Ht])]; [lia|by left| |];
      right; exists u; (split; [done|]); [left|by right]. exists e'. split; [by right|done]. }
  destruct (ack_elem e) eqn:Ha; [|apply Hrest].
  destruct (elem_ack_cases e) as [[v Hv]|Hv]; rewrite Hv; cbn [mbind outcome_bind]; [apply Hrest|].
  right. exists Overflow. split; [done|]. left. exists e. split; [by left|done].
Qed.

(** [get_ack] either ends or meets a fault in its message. *)
Lemma get_ack_total m ack :
  msg_ok m →
  (∃ v, get_ack m ack = Ok v) ∨
  ∃ u attr mem, get_ack m ack = Undef u ∧ bss_ies m = Some (attr ++ mem, zlen attr) ∧ ack_fault attr.
Proof.
  intros Hm. unfold get_ack, msg_ok in *.
  destruct (attr_bss m), (nested_ok m), (bss_bssid m); cbn [negb]; try (left; by eexists).
  destruct (bss_ies m) as [[mm n]|]; [|left; by eexists]. destruct Hm as [Hb Hn].
  rewrite <- (take_drop (Z.to_nat n) mm) in Hb |- *.
  assert (n = zlen (take (Z.to_nat n) mm)) as Hl by (unfold zlen in *; rewrite length_take; lia).
  set (attr := take (Z.to_nat n) mm) in *. set (mem := drop (Z.to_nat n) mm) in *.
  clearbody attr mem. subst n. apply Forall_app in Hb as [Hb _].
  destruct (ie_decompose attr Hb) as (l & r & -> & Hl & Htr & Hr).
  destruct (get_ack_loop_total l r mem ack (S (Z.to_nat (zlen (ies_enc l ++ r)))) Hl Hr Htr)
    as [Hv|(u & Hu & Hf)]; [unfold zlen; lia| |]; rewrite app_assoc in *; [by left|right].
  exists u, (ies_enc l ++ r), mem. split; [done|]. split; [done|]. by exists l, r.
Qed.
End fault_facts.

(** ** Properties *)

Section properties.
Context `{Malloc}.
Hypothesis malloc_succeeds : ∀ n, malloc_ok n = true.

(** C10. The frame the client builds for a piece of data is a sequence of well
    formed vendor elements: a header with the eight digit sequence number, the
    time stamp and the more fragment bit, and elements of 1 to 252 octets which
    concatenated give back the data. No buffer of the client overflows while the
    sequence number has at most eight digits, and the length of the frame is 32
    plus the data plus five octets for each element. *)
Theorem build_frame_spec seq_num ts mfb s r :
  0 ≤ seq_num < 10 ^ 8 → 0 ≤ mfb ≤ 1 → no_nul ts → length ts = 18%nat →
  no_nul s → bytes_ok s → bytes_ok ts → 0 < zlen s →
  ∃ cs, build_frame seq_num ts mfb (s ++ 0 :: r) =
          Ok (ies_enc (stuff_ie (header seq_num ts mfb) :: map stuff_ie cs)) ∧
    concat cs = s ∧ Forall (λ c, 1 ≤ zlen c ≤ 252) cs ∧
    Forall ie_ok (stuff_ie (header seq_num ts mfb) :: map stuff_ie cs) ∧
    zlen (ies_enc (stuff_ie (header seq_num ts mfb) :: map stuff_ie cs)) =
      32 + zlen s + 5 * get_n_ies_reqd (zlen s).
Proof.
  intros Hq Hm Htn Htl Hsn Hs Ht Hpos. exists (chunks (n_chunks s) s).
  destruct (header_props seq_num ts mfb Hq Hm Htn Htl) as [_ Hhl].
  split; [by apply build_frame_ok|]. split; [apply concat_chunks|].
  split; [apply chunks_sizes|]. split.
  - constructor.
    + apply stuff_ie_ok; [|unfold zlen; lia]. by apply header_bytes.
    + apply List.Forall_map, List.Forall_forall. intros c Hc. apply stuff_ie_ok.
      * by apply (proj1 (List.Forall_forall _ _) (chunks_forall is_u8 (n_chunks s) s Hs)).
      * pose proof (proj1 (List.Forall_forall _ _) (chunks_sizes s) c Hc). cbn in *. lia.
  - rewrite ies_enc_cons, zlen_app, stuff_enc_length, ies_enc_stuff_length, concat_chunks.
    assert (zlen (chunks (n_chunks s) s) = get_n_ies_reqd (zlen s)) as ->.
    { pose proof (n_reqd_pos (zlen s) Hpos). unfold zlen at 1. rewrite chunks_length.
      unfold n_chunks. lia. }
    assert (zlen (header seq_num ts mfb) = 27) as -> by (unfold zlen; lia). lia.
Qed.

(** [get_ack] on a scan result: the last acknowledgement element decides.
    When it carries the decimal number [v] (and the earlier ones carry numbers
    at all) the sequence number becomes [v]; without such an element it keeps
    its value. *)
Lemma get_ack_spec l r mem ack :
  Forall ie_ok l → harmless r →
  let msg := mk_scan_msg true true true (Some (ies_enc l ++ r ++ mem, zlen (ies_enc l ++ r))) in
  (Forall (λ e, ack_elem e = false) l → get_ack msg ack = Ok ack) ∧
  (∀ l1 l2 v, l = l1 ++ stuff_ie (udec v) :: l2 → 0 ≤ v < 2 ^ 31 →
    Forall (λ e, ack_elem e = true → ∃ w, elem_ack e = Ok w) l1 →
    Forall (λ e, ack_elem e = false) l2 → get_ack msg ack = Ok v).
Proof.
  intros Hl Hr msg.
  assert (get_ack msg ack = acks l ack) as ->.
  { unfold get_ack, msg. cbn [attr_bss nested_ok bss_bssid bss_ies negb].
    apply get_ack_loop_spec; [done|done|done|]. unfold zlen. lia. }
  split; [by apply acks_none|]. intros l1 l2 v -> Hv H1 H2. rewrite acks_app.
  destruct (acks_some l1 ack H1) as [w ->]. cbn [mbind outcome_bind].
  pose proof (udec_length_pos v (proj1 Hv)).
  rewrite acks_cons, ack_elem_stuff, elem_ack_stuff by (done || (unfold zlen; lia)).
  cbn [mbind outcome_bind]. by apply acks_none.
Qed.

(** The loop of [get_ack] compares the length octet with what is left of the
    elements without counting the two octets of the element header: an
    acknowledgement whose last one or two octets are missing is read past the
    end of the elements. *)
Lemma get_ack_overread l n t ack :
  Forall ie_ok l → Forall (λ e, ack_elem e = false) l →
  take 3 t = oui_octets → zlen t < n ≤ zlen t + 2 →
  let ies := ies_enc l ++ 221 :: n :: t in
  get_ack (mk_scan_msg true true true (Some (ies, zlen ies))) ack = Undef OutOfBounds.
Proof.
  intros Hl Hno Ht Hn ies. unfold get_ack. cbn [attr_bss nested_ok bss_bssid bss_ies negb]. subst ies.
  assert (∀ fuel, (length (ies_enc l) < fuel)%nat →
    get_ack_loop fuel (ies_enc l ++ 221 :: n :: t) (zlen (ies_enc l ++ 221 :: n :: t)) ack =
    Undef OutOfBounds) as Hgo; [|apply Hgo; unfold zlen; rewrite length_app; lia].
  pose proof (take_oui_length t Ht) as Ht3. assert (3 ≤ zlen t) by (unfold zlen; lia).
  induction Hl as [|e l He Hl IH]; intros fuel Hf; (destruct fuel as [|fuel]; [lia|]).
  - cbn [ies_enc map concat app get_ack_loop]. rewrite !zlen_cons, decide_True by lia.
    unfold rd. cbn [lookup list_lookup mbind outcome_bind]. rewrite decide_True by lia.
    unfold ack_one, rd. cbn [lookup list_lookup mbind outcome_bind].
    rewrite decide_True by done. unfold extract_ack_from_vendor_ie. cbn [drop].
    rewrite decide_True by lia. unfold zlen in *.
    rewrite drop_0, (slice_ok t 0 3) by lia. rewrite drop_0, Ht. cbn [mbind outcome_bind].
    rewrite decide_True by done. unfold alloc. rewrite malloc_succeeds.
    cbn [guard_ub mbind outcome_bind]. unfold slice. by rewrite decide_False by lia.
  - apply Forall_cons_1 in Hno as [Hne Hno].
    rewrite ies_enc_cons, <- !app_assoc. rewrite ies_enc_cons, length_app, ie_enc_length in Hf.
    rewrite (zlen_app (ie_enc e)).
    assert (zlen (ie_enc e) = 2 + zlen (ie_body e)) as Hz by (unfold zlen; rewrite ie_enc_length; lia).
    pose proof (zlen_nonneg (ie_body e)). pose proof (zlen_nonneg (ies_enc l ++ 221 :: n :: t)).
    cbn [get_ack_loop]. rewrite decide_True by lia.
    change (rd (ie_enc e ++ _) 1) with (Ok (zlen (ie_body e))). cbn [mbind outcome_bind].
    rewrite decide_True by lia. rewrite ack_one_spec, Hne by done. cbn [mbind outcome_bind].
    rewrite drop_app_length' by (rewrite ie_enc_length; unfold zlen; lia).
    replace (_ - _) with (zlen (ies_enc l ++ 221 :: n :: t)) by lia.
    apply IH; [done|lia].
Qed.
End properties.

(** ** Examples *)

(** The text hello and the time stamp 000001700000000000. *)
Definition hello : bytes := [104; 101; 108; 108; 111].
Definition ts_example : bytes := zeros 5 ++ [49; 55] ++ zeros 11.

Lemma build_frame_spec_witness :
  no_nul hello ∧ length ts_example = 18%nat ∧
  ∃ cs, @build_frame malloc_always 3 ts_example 0 (hello ++ [0; 0; 0]) =
          Ok (ies_enc (stuff_ie (header 3 ts_example 0) :: map stuff_ie cs)) ∧
        concat cs = hello.
Proof.
  assert (no_nul hello) as Hn by (repeat constructor; done).
  split; [exact Hn|]. split; [reflexivity|].
  destruct (@build_frame_spec malloc_always (λ _, eq_refl) 3 ts_example 0 hello [0; 0])
    as (cs & Hb & Hc & _);
    [lia|lia|repeat constructor; done|reflexivity|exact Hn|repeat constructor; done
    |repeat constructor; done|reflexivity|].
  exists cs. split; [exact Hb|exact Hc].
Defined.

Lemma get_ack_spec_witness :
  Forall ie_ok [mk_ie 0 [97]; stuff_ie (udec 12)] ∧ harmless [] ∧
  @get_ack malloc_always (mk_scan_msg true true true
    (Some ([0; 1; 97; 221; 5; 1; 2; 3; 49; 50; 77], 10))) (-1) = Ok 12.
Proof.
  assert (Forall ie_ok [mk_ie 0 [97]; stuff_ie (udec 12)]) as H by (repeat constructor; done).
  split; [exact H|]. split; [exact I|].
  destruct (@get_ack_spec malloc_always (λ _, eq_refl) [mk_ie 0 [97]; stuff_ie (udec 12)]
              [] [77] (-1) H I) as [_ Hs].
  apply (Hs [mk_ie 0 [97]] [] 12); [reflexivity|lia| |constructor].
  constructor; [discriminate|constructor].
Defined.

Lemma get_ack_overread_witness :
  take 3 [1; 2; 3; 49] = oui_octets ∧
  @get_ack malloc_always (mk_scan_msg true true true
    (Some ([221; 5; 1; 2; 3; 49], 6))) (-1) = Undef OutOfBounds.
Proof.
  split; [reflexivity|].
  apply (@get_ack_overread malloc_always (λ _, eq_refl) [] 5 [1; 2; 3; 49] (-1));
    [constructor|constructor|reflexivity|unfold zlen; cbn; lia].
Defined.
