(* ===== verification/ClientLoop.v ===== *)
(** * The probe stuffing client: scans, retries and the main loop

    [probe_stuffing/nl_callbacks.c], [probe_stuffing/probe_stuffing.c], the
    netlink part of [probe_stuffing/utils.c] and the loops of
    [probe_stuffing/main.c]. libnl and the kernel are the environment: a call of
    [nl_recvmsgs] is a [batch], the callbacks it makes and its result, and the
    environment is the list of the batches to come. A loop that waits for more
    batches than there are is [Stuck]. *)

From Stdlib Require Import ZArith Lia Strings.String.
From stdpp Require Import base option list numbers decidable.
From S2P Require Import Prelude CLib Common Wpabuf Ie Elems Channels Client.
Local Open Scope Z_scope.

(** ** Callbacks *)

(** [struct trigger_results] *)
Record trigger_results := mk_results { done_ : bool; aborted : bool }.

#[export] Instance trigger_results_eta : Eta trigger_results :=
  λ r, mk_results (done_ r) (aborted r).

Definition NL80211_CMD_NEW_SCAN_RESULTS : Z := 34.
Definition NL80211_CMD_SCAN_ABORTED : Z := 35.

(** The callbacks of [do_probe_stuffing]: the state they share is the variable
    [err] and the structure [results]. *)
Definition cb_state : Type := Z * trigger_results.

Definition error_handler (error : Z) (st : cb_state) : cb_state := (error, st.2).
Definition finish_handler (st : cb_state) : cb_state := (0, st.2).
Definition ack_handler (st : cb_state) : cb_state := (0, st.2).

Definition callback_trigger (cmd : Z) (st : cb_state) : cb_state :=
  if decide (cmd = NL80211_CMD_SCAN_ABORTED) then (st.1, mk_results true true)
  else if decide (cmd = NL80211_CMD_NEW_SCAN_RESULTS) then (st.1, mk_results true false)
  else st.

(** The callbacks libnl makes; [EvValid] carries the command of the message. *)
Inductive nl_event : Set :=
| EvError (error : Z)
| EvFinish
| EvAck
| EvValid (cmd : Z).

Definition run_event (st : cb_state) (e : nl_event) : cb_state :=
  match e with
  | EvError error => error_handler error st
  | EvFinish => finish_handler st
  | EvAck => ack_handler st
  | EvValid cmd => callback_trigger cmd st
  end.

Definition batch : Type := list nl_event * Z.

Definition run_batch (st : cb_state) (b : batch) : cb_state := foldl run_event st b.1.

(** ** One scan *)

(** [while (err > 0) ret = nl_recvmsgs(socket, cb);] *)
Fixpoint wait_ack (batches : list batch) (st : cb_state) (ret : Z)
    : outcome (cb_state * Z * list batch) :=
  if decide (0 < st.1) then
    match batches with
    | [] => Stuck
    | b :: bs => wait_ack bs (run_batch st b) b.2
    end
  else Ok (st, ret, batches).

(** [while (!results.done) nl_recvmsgs(socket, cb);] *)
Fixpoint wait_done (batches : list batch) (st : cb_state) : outcome (cb_state * list batch) :=
  if done_ st.2 then Ok (st, batches)
  else match batches with
       | [] => Stuck
       | b :: bs => wait_done bs (run_batch st b)
       end.

Definition ENOMEM : Z := 12.

(** What the three allocations and [nl_send_auto] give. *)
Record scan_env := mk_scan_env {
  msg_alloc : bool;
  ssids_alloc : bool;
  cb_alloc : bool;
  send_ret : Z;
  recv_batches : list batch }.

Definition do_probe_stuffing (env : scan_env) : outcome Z :=
  if negb (msg_alloc env) then Ok (- ENOMEM)
  else if negb (ssids_alloc env) then Ok (- ENOMEM)
  else if negb (cb_alloc env) then Ok (- ENOMEM)
  else
  let err := 1 in
  '(st, ret, batches) ← wait_ack (recv_batches env) (err, mk_results false false) (send_ret env);
  if decide (ret < 0) then Ok ret else
  '(st, _) ← wait_done batches st;
  if aborted st.2 then Ok 1 else Ok 0.

(** ** The multicast group *)

(** A multicast group of the family: the attributes name and identifier. *)
Definition mcast_group : Type := option bytes * option Z.

(** [strncmp(name, group, nla_len(name))] is 0; the name includes its NUL. *)
Definition group_matches (name group : bytes) : bool :=
  bool_decide (strncpy_from (name ++ [0]) (length name) =
               strncpy_from (group ++ [0]) (length name)).

(** [grp] is the group sought and [id] its identifier so far; [groups] is what
    [CTRL_ATTR_MCAST_GROUPS] holds, when the message has it. *)
Fixpoint family_handler_loop (groups : list mcast_group) (group : bytes) (id : Z) : Z :=
  match groups with
  | [] => id
  | (Some name, Some gid) :: rest =>
    if group_matches name group then gid else family_handler_loop rest group id
  | _ :: rest => family_handler_loop rest group id
  end.

Definition family_handler (groups : option (list mcast_group)) (group : bytes) (id : Z) : Z :=
  match groups with
  | None => id
  | Some groups => family_handler_loop groups group id
  end.

Definition ENOENT : Z := 2.
Definition ENOBUFS : Z := 105.

Inductive ctrl_event : Type :=
| CtrlError (error : Z)
| CtrlAck
| CtrlValid (groups : option (list mcast_group)).

Definition run_ctrl (group : bytes) (st : Z * Z) (e : ctrl_event) : Z * Z :=
  match e with
  | CtrlError error => (error, st.2)
  | CtrlAck => (0, st.2)
  | CtrlValid groups => (st.1, family_handler groups group st.2)
  end.

(** [while (ret > 0) nl_recvmsgs(sock, cb);] *)
Fixpoint ctrl_wait (batches : list (list ctrl_event)) (group : bytes) (st : Z * Z) : outcome (Z * Z) :=
  if decide (0 < st.1) then
    match batches with
    | [] => Stuck
    | b :: bs => ctrl_wait bs group (foldl (run_ctrl group) st b)
    end
  else Ok st.

Record ctrl_env := mk_ctrl_env {
  ctrl_msg_alloc : bool;
  ctrl_cb_alloc : bool;
  ctrl_put_ok : bool;
  ctrl_send : Z;
  ctrl_batches : list (list ctrl_event) }.

Definition nl_get_multicast_id (env : ctrl_env) (group : bytes) : outcome Z :=
  if negb (ctrl_msg_alloc env) then Ok (- ENOMEM)
  else if negb (ctrl_cb_alloc env) then Ok (- ENOMEM)
  else if negb (ctrl_put_ok env) then Ok (- ENOBUFS)
  else if decide (ctrl_send env < 0) then Ok (ctrl_send env)
  else
    '(ret, id) ← ctrl_wait (ctrl_batches env) group (1, - ENOENT);
    Ok (if decide (ret = 0) then id else ret).

(** ** The log *)

(** The line [log_info] appends to [logs/client_log.log]. *)
Definition log_info (data_origin_ts data_origin_ts_usec data_tx_ts data_tx_ts_usec
    data_size attempt status : Z) : bytes :=
  sdec attempt ++ lit ", " ++ sdec data_size ++ lit ", " ++
  udec data_origin_ts ++ udec0 6 data_origin_ts_usec ++ lit ", " ++
  udec data_tx_ts ++ udec0 6 data_tx_ts_usec ++ lit ", " ++ sdec status ++ [10].

(** ** Sending one frame *)

Inductive event : Type :=
| Transmit (ies_data : bytes)   (** a scan was triggered with these elements *)
| LogLine (line : bytes)
| Sleep (seconds : Z).

(** What happens around one transmission: the time, the scan, the messages of
    the scan dump and the result of [nl_recvmsgs_default]. *)
Record attempt_env := mk_attempt {
  tx_ts : Z;
  tx_ts_usec : Z;
  at_scan : scan_env;
  at_dump : list scan_msg;
  at_ret : Z }.

(** The variables of [main] the loop reads and writes. *)
Record send_st := mk_send_st {
  scan_retries_left : Z;
  ack_retries_left : Z;
  ack_seq_num : Z;
  seq_num : Z;
  trace : list event }.

#[export] Instance send_st_eta : Eta send_st :=
  λ s, mk_send_st (scan_retries_left s) (ack_retries_left s) (ack_seq_num s) (seq_num s) (trace s).

Definition emit (e : event) (s : send_st) : send_st := s <| trace := trace s ++ [e] |>.

Section ops.
Context `{Malloc}.

(** The parameters of the loop: the delivery effort, the elements of the frame,
    the size of its data and the time of the message. *)
Context (effort : Z) (ies_data : bytes) (data_size data_origin_ts data_origin_ts_usec : Z).

(** Every message of the scan dump goes to [get_ack]. *)
Fixpoint read_dump (msgs : list scan_msg) (ack : Z) : outcome Z :=
  match msgs with
  | [] => Ok ack
  | m :: ms => a ← get_ack m ack; read_dump ms a
  end.

Definition log_attempt (a : attempt_env) (status : Z) (s : send_st) : send_st :=
  emit (LogLine (log_info data_origin_ts data_origin_ts_usec (tx_ts a) (tx_ts_usec a)
                   data_size (5 - ack_retries_left s) status)) s.

(** The branch taken without a valid acknowledgement: [inr] is another round of
    the loop, [inl] a [break]. *)
Definition ack_failed (a : attempt_env) (s : send_st) : send_st + send_st :=
  let s := log_attempt a (-1) s in
  if decide (effort = 2) then
    let s := s <| ack_retries_left := ack_retries_left s - 1 |> in
    if decide (0 < ack_retries_left s) then inr (emit (Sleep 15) s) else inl s
  else inl (s <| seq_num := seq_num s + 1 |>).

(** One round of [while (1)]. *)
Definition send_once (a : attempt_env) (s : send_st) : outcome (send_st + send_st) :=
  let s := emit (Transmit ies_data) s in
  err ← do_probe_stuffing (at_scan a);
  if decide (err ≠ 0) then
    let s := s <| scan_retries_left := scan_retries_left s - 1 |> in
    Ok (if decide (0 < scan_retries_left s) then inr (emit (Sleep 15) s) else inl s)
  else
    let s := s <| scan_retries_left := 4 |> in
    ack ← read_dump (at_dump a) (ack_seq_num s);
    let s := s <| ack_seq_num := ack |> in
    if decide (at_ret a < 0) then Ok (ack_failed a s)
    else if decide (ack_seq_num s = -1 ∨ ack_seq_num s ≠ seq_num s) then Ok (ack_failed a s)
    else
      let s := log_attempt a 1 s in
      let s := s <| seq_num := seq_num s + 1 |> in
      Ok (inl (s <| ack_retries_left := 4 |>)).

Fixpoint send_loop (attempts : list attempt_env) (s : send_st)
    : outcome (send_st * list attempt_env) :=
  match attempts with
  | [] => Stuck
  | a :: rest =>
    r ← send_once a s;
    match r with
    | inl s => Ok (s, rest)
    | inr s => send_loop rest s
    end
  end.

End ops.

(** ** Sending one message *)

Section message.
Context `{Malloc}.

(** The variables of one message. *)
Record msg_env := mk_msg_env {
  origin_ts : Z;
  origin_ts_usec : Z }.

(** The loop [while (len_data_already_stuffed < len_data_to_stuff)]; the result
    says whether the retries ran out. *)
Fixpoint frame_loop (fuel : nat) (effort : Z) (m : msg_env) (ts_str data_to_stuff : bytes)
    (len_data_to_stuff len_already : Z) (attempts : list attempt_env) (s : send_st)
    : outcome (bool * send_st * list attempt_env) :=
  match fuel with
  | O => Stuck
  | S f =>
    if decide (len_already < len_data_to_stuff) then
      '(data, len_already, mfb) ← next_data data_to_stuff len_data_to_stuff (seq_num s) len_already;
      ies_data ← build_frame (seq_num s) ts_str mfb data;
      d ← cstr data;
      '(s, attempts) ← send_loop effort ies_data (zlen d) (origin_ts m) (origin_ts_usec m) attempts s;
      if decide (scan_retries_left s = 0) then Ok (false, s, attempts)
      else if decide (ack_retries_left s = 0) then Ok (false, s, attempts)
      else
        let s := if decide (len_already ≠ len_data_to_stuff) then emit (Sleep 15) s else s in
        frame_loop f effort m ts_str data_to_stuff len_data_to_stuff len_already attempts s
    else Ok (true, s, attempts)
  end.

(** Lines 84 to 352: [data_to_stuff] is the object the message was read into. *)
Definition send_message (effort : Z) (m : msg_env) (data_to_stuff : bytes)
    (attempts : list attempt_env) (tr : list event)
    : outcome (bool * send_st * list attempt_env) :=
  d ← cstr data_to_stuff;
  let len_data_to_stuff := zlen d in
  data_origin_ts_str ← put_str 20 (udec0 12 (origin_ts m) ++ udec0 6 (origin_ts_usec m));
  frame_loop (S (length d)) effort m data_origin_ts_str data_to_stuff len_data_to_stuff 0 attempts
    (mk_send_st 4 4 (-1) 0 tr).

End message.

(** ** Reading messages *)

(** [fgets(data_to_stuff, 200, stdin)] into a fresh object: the octets up to and
    including a newline, at most 199. At end of file nothing is stored. *)
Fixpoint fgets_line (n : nat) (input : bytes) : bytes :=
  match n, input with
  | O, _ | _, [] => []
  | S n, c :: r => if decide (c = 10) then [c] else c :: fgets_line n r
  end.

Definition read_message (input : bytes) : outcome (bytes * bytes) :=
  let line := fgets_line 199 input in
  if decide (line = []) then Undef Indeterminate (* the object is read uninitialised *)
  else Ok (line ++ [0], drop (length line) input).

Inductive opt : Type :=
| opt_i (arg : bytes) | opt_d (arg : bytes) | opt_f (arg : bytes) | opt_e (arg : bytes)
| opt_other.

Record options := mk_options {
  effort_ : Z;
  wifi_interface : option bytes;
  cli_data : option bytes;
  file_path : option bytes }.

#[export] Instance options_eta : Eta options :=
  λ o, mk_options (effort_ o) (wifi_interface o) (cli_data o) (file_path o).

(** The [switch] on the option; [atoi] reads the argument of [-e]. *)
Definition parse_option (o : options) (x : opt) : outcome options :=
  match x with
  | opt_i arg => Ok (o <| wifi_interface := Some arg |>)
  | opt_d arg => Ok (o <| cli_data := Some arg |>)
  | opt_f arg => Ok (o <| file_path := Some arg |>)
  | opt_e arg => e ← atoi arg; Ok (o <| effort_ := e |>)
  | opt_other => Ok o
  end.

Fixpoint parse_options (o : options) (xs : list opt) : outcome options :=
  match xs with
  | [] => Ok o
  | x :: xs => o ← parse_option o x; parse_options o xs
  end.

Section program.
Context `{Malloc}.

(** [read_file]: the contents of the file, without a terminating NUL. *)
Definition read_file (file : option bytes) : option bytes :=
  match file with
  | None => None
  | Some contents => if malloc_ok (zlen contents) then Some contents else None
  end.

(** The loop [while (1)] over the messages, as far as [fuel] rounds. *)
Fixpoint message_loop (fuel : nat) (effort : Z) (ms : list msg_env) (input : bytes)
    (attempts : list attempt_env) (tr : list event) : outcome (list event) :=
  match fuel, ms with
  | S f, m :: ms =>
    _ ← alloc 200;
    '(data_to_stuff, input) ← read_message input;
    '(_, s, attempts) ← send_message effort m data_to_stuff attempts tr;
    message_loop f effort ms input attempts (trace s)
  | _, _ => Stuck
  end.

Inductive exit_status : Type := ExitFailure.

(** [files] gives the contents of a file. [main] returns only through [exit]:
    the loop has no way out. *)
Definition main (fuel : nat) (args : list opt) (files : bytes → option bytes) (ms : list msg_env)
    (stdin : bytes) (attempts : list attempt_env) : outcome (exit_status + list event) :=
  o ← parse_options (mk_options 2 None None None) args;
  match wifi_interface o with
  | None => Ok (inl ExitFailure)
  | Some _ =>
    match file_path o with
    | Some p =>
      match read_file (files p) with
      | None => Ok (inl ExitFailure)
      | Some _ => inr <$> message_loop fuel (effort_ o) ms stdin attempts []
      end
    | None => inr <$> message_loop fuel (effort_ o) ms stdin attempts []
    end
  end.

End program.

(** ** What a scan comes to

    A reading of the messages the kernel delivers that does not follow the two
    loops of [do_probe_stuffing]. *)

(** The value a message gives to [err]; the last one counts. *)
Definition ack_of (e : nl_event) : option Z :=
  match e with
  | EvError error => Some error
  | EvFinish | EvAck => Some 0
  | EvValid _ => None
  end.

(** No answer to the command yet. *)
Definition unanswered (evs : list nl_event) : Prop :=
  match list.last (omap ack_of evs) with
  | Some err => 0 < err
  | None => True
  end.

(** The command that ends a scan, if the message is one. *)
Definition end_of (e : nl_event) : option Z :=
  match e with
  | EvValid cmd =>
    if decide (cmd = NL80211_CMD_NEW_SCAN_RESULTS ∨ cmd = NL80211_CMD_SCAN_ABORTED)
    then Some cmd else None
  | _ => None
  end.

Definition scan_end (evs : list nl_event) : option Z := list.last (omap end_of evs).

Definition events_of (bs : list batch) : list nl_event := concat (map fst bs).

(** [b] is the batch with which the command is first answered. *)
Definition answered_by (bs p : list batch) (b : batch) (rest : list batch) : Prop :=
  bs = p ++ b :: rest ∧ (∀ k, (k ≤ length p)%nat → unanswered (events_of (take k p))) ∧
  ¬ unanswered (events_of (p ++ [b])).

Inductive scan_outcome (bs : list batch) : outcome Z → Prop :=
| scan_unanswered :
    (∀ k, unanswered (events_of (take k bs))) → scan_outcome bs Stuck
| scan_refused p b rest :
    answered_by bs p b rest → b.2 < 0 → scan_outcome bs (Ok b.2)
| scan_ended p b q rest cmd :
    answered_by bs p b (q ++ rest) → 0 ≤ b.2 →
    (∀ k, (k < length q)%nat → scan_end (events_of (p ++ b :: take k q)) = None) →
    scan_end (events_of (p ++ b :: q)) = Some cmd →
    scan_outcome bs (Ok (if decide (cmd = NL80211_CMD_SCAN_ABORTED) then 1 else 0))
| scan_endless p b rest :
    answered_by bs p b rest → 0 ≤ b.2 → scan_end (events_of bs) = None →
    scan_outcome bs Stuck.

Definition init_cb : cb_state := (1, mk_results false false).

Lemma events_of_app b1 b2 : events_of (b1 ++ b2) = events_of b1 ++ events_of b2.
Proof. unfold events_of. by rewrite map_app, concat_app. Qed.

Lemma run_batches_events st bs : foldl run_batch st bs = foldl run_event st (events_of bs).
Proof.
  revert st. induction bs as [|b bs IH]; intros st; [done|]. unfold events_of in *.
  cbn [foldl map concat]. by rewrite IH, foldl_app.
Qed.

Lemma omap_snoc {A B} (f : A → option B) l x :
  omap f (l ++ [x]) = omap f l ++ match f x with Some y => [y] | None => [] end.
Proof. rewrite omap_app. f_equal. Qed.

(** What the callbacks leave behind. *)
Lemma run_events_spec st evs :
  foldl run_event st evs =
  (default st.1 (list.last (omap ack_of evs)),
   match scan_end evs with
   | Some cmd => mk_results true (bool_decide (cmd = NL80211_CMD_SCAN_ABORTED))
   | None => st.2
   end).
Proof.
  unfold scan_end. induction evs as [|e evs IH] using rev_ind; [by destruct st|].
  rewrite foldl_app, IH, !omap_snoc. cbn [foldl].
  destruct e as [n| | |cmd]; cbn [ack_of end_of run_event error_handler finish_handler ack_handler];
    rewrite ?app_nil_r, ?last_snoc; try done.
  unfold callback_trigger, NL80211_CMD_SCAN_ABORTED, NL80211_CMD_NEW_SCAN_RESULTS.
  destruct (decide (cmd = 35)) as [->|H1].
  { rewrite decide_True by tauto. by rewrite last_snoc. }
  destruct (decide (cmd = 34)) as [->|H2].
  { rewrite decide_True by tauto. by rewrite last_snoc. }
  rewrite decide_False by tauto. by rewrite app_nil_r.
Qed.

(** The state of the callbacks after some batches. *)
Definition after (bs : list batch) : cb_state := foldl run_batch init_cb bs.

Lemma after_snoc bs b : after (bs ++ [b]) = run_batch (after bs) b.
Proof. unfold after. by rewrite foldl_app. Qed.

Lemma after_unanswered bs : unanswered (events_of bs) ↔ 0 < (after bs).1.
Proof.
  unfold after, unanswered. rewrite run_batches_events, run_events_spec. cbn [fst init_cb].
  destruct (list.last _); cbn [default]; [done|]. split; [lia|done].
Qed.

Lemma after_results bs :
  (after bs).2 = match scan_end (events_of bs) with
                 | Some cmd => mk_results true (bool_decide (cmd = NL80211_CMD_SCAN_ABORTED))
                 | None => mk_results false false
                 end.
Proof. unfold after. by rewrite run_batches_events, run_events_spec. Qed.

Lemma wait_ack_spec bs : ∀ pre ret,
  unanswered (events_of pre) →
  (wait_ack bs (after pre) ret = Stuck ∧ ∀ k, unanswered (events_of (pre ++ take k bs))) ∨
  ∃ p b rest, bs = p ++ b :: rest ∧
    (∀ k, (k ≤ length p)%nat → unanswered (events_of (pre ++ take k p))) ∧
    ¬ unanswered (events_of (pre ++ p ++ [b])) ∧
    wait_ack bs (after pre) ret = Ok (after (pre ++ p ++ [b]), b.2, rest).
Proof.
  induction bs as [|b bs IH]; intros pre ret Hpre; cbn [wait_ack];
    rewrite decide_True by (by apply after_unanswered).
  { left. split; [done|]. intros k. by rewrite take_nil, app_nil_r. }
  rewrite <- after_snoc. destruct (decide (0 < (after (pre ++ [b])).1)) as [Hb|Hb].
  - apply after_unanswered in Hb. destruct (IH (pre ++ [b]) b.2 Hb) as [[-> Hall]|Hex].
    + left. split; [done|]. intros [|k]; cbn [take]; [by rewrite app_nil_r|].
      specialize (Hall k). by rewrite <- app_assoc in Hall.
    + right. destruct Hex as (p & c & rest & -> & Hp & Hc & ->). exists (b :: p), c, rest.
      rewrite <- !app_assoc in *. split; [done|]. split; [|done].
      intros [|k] Hk; cbn [take]; [by rewrite app_nil_r|]. cbn [length] in Hk.
      specialize (Hp k). rewrite <- app_assoc in Hp. apply Hp. lia.
  - right. exists [], b, bs. split; [done|]. split.
    { intros k Hk. rewrite take_nil, app_nil_r. done. }
    split; [by rewrite after_unanswered|]. cbn [app].
    destruct bs; cbn [wait_ack]; by rewrite decide_False.
Qed.

Lemma wait_done_spec bs : ∀ pre,
  (wait_done bs (after pre) = Stuck ∧ scan_end (events_of (pre ++ bs)) = None) ∨
  ∃ q rest cmd, bs = q ++ rest ∧
    (∀ k, (k < length q)%nat → scan_end (events_of (pre ++ take k q)) = None) ∧
    scan_end (events_of (pre ++ q)) = Some cmd ∧
    wait_done bs (after pre) = Ok (after (pre ++ q), rest).
Proof.
  induction bs as [|b bs IH]; intros pre;
    (destruct (scan_end (events_of pre)) as [cmd|] eqn:He;
     [right; exists [] | ]).
  - exists [], cmd. rewrite (app_nil_r pre). cbn [wait_done length]. rewrite after_results, He.
    split_and!; [done| |done|done]. intros k Hk. lia.
  - left. cbn [wait_done]. by rewrite after_results, app_nil_r, He.
  - exists (b :: bs), cmd. rewrite (app_nil_r pre). cbn [wait_done length]. rewrite after_results, He.
    split_and!; [done| |done|done]. intros k Hk. lia.
  - cbn [wait_done]. rewrite after_results, He. cbn [done_]. rewrite <- after_snoc.
    destruct (IH (pre ++ [b])) as [[-> Hn]|(q & rest & cmd & -> & Hq & Hc & ->)];
      rewrite <- app_assoc in *; [by left|right].
    exists (b :: q), rest, cmd. split_and!; [done| |done|done].
    intros [|k] Hk; cbn [take]; [by rewrite app_nil_r|]. cbn [length] in Hk.
    specialize (Hq k). rewrite <- app_assoc in Hq. apply Hq. lia.
Qed.

Lemma do_probe_stuffing_outcome env :
  msg_alloc env = true → ssids_alloc env = true → cb_alloc env = true →
  scan_outcome (recv_batches env) (do_probe_stuffing env).
Proof.
  intros H1 H2 H3. unfold do_probe_stuffing. rewrite H1, H2, H3. cbn [negb].
  change (1, mk_results false false) with (after []).
  destruct (wait_ack_spec (recv_batches env) [] (send_ret env) I)
    as [[-> Hall]|(p & b & rest & Hbs & Hp & Hb & ->)]; cbn [mbind outcome_bind app] in *.
  { by apply scan_unanswered. }
  destruct (decide (b.2 < 0)) as [Hneg|Hneg].
  { apply scan_refused with p rest; [by split_and!|done]. }
  destruct (wait_done_spec rest (p ++ [b])) as [[-> Hn]|(q & rest2 & cmd & -> & Hq & Hc & ->)];
    rewrite <- app_assoc in *; cbn [mbind outcome_bind app] in *.
  { apply scan_endless with p b rest; [by split_and!|lia|by rewrite Hbs]. }
  rewrite after_results, Hc. cbn [aborted].
  assert (scan_outcome (recv_batches env)
            (Ok (if decide (cmd = NL80211_CMD_SCAN_ABORTED) then 1 else 0))) as Hgo.
  { apply scan_ended with p b q rest2; [by split_and!|lia| |done].
    intros k Hk. specialize (Hq k Hk). by rewrite <- app_assoc in Hq. }
  revert Hgo. unfold NL80211_CMD_SCAN_ABORTED.
  destruct (decide (cmd = 35)); [by rewrite bool_decide_eq_true_2|by rewrite bool_decide_eq_false_2].
Qed.

Lemma scan_end_app e1 e2 :
  scan_end (e1 ++ e2) = match scan_end e2 with Some cmd => Some cmd | None => scan_end e1 end.
Proof.
  unfold scan_end. rewrite omap_app. destruct (omap end_of e2) as [|c l] using rev_ind.
  - by rewrite app_nil_r.
  - by rewrite app_assoc, !last_snoc.
Qed.

Lemma take_snoc_app {A} (p : list A) b rest : take (S (length p)) (p ++ b :: rest) = p ++ [b].
Proof. induction p as [|x p IH]; [done|]. cbn [length app]. by rewrite <- IH. Qed.

Lemma answered_by_unique bs p b rest p' b' rest' :
  answered_by bs p b rest → answered_by bs p' b' rest' → p = p' ∧ b = b' ∧ rest = rest'.
Proof.
  assert (∀ p b rest p' b' rest', answered_by bs p b rest → answered_by bs p' b' rest' →
            (length p' ≤ length p)%nat) as Hle.
  { clear. intros p b rest p' b' rest' (Hbs & _ & Hb) (Hbs' & Hp' & _).
    destruct (decide (length p' ≤ length p)%nat) as [H|H]; [done|]. exfalso. apply Hb.
    assert (p ++ [b] = take (S (length p)) p') as ->; [|apply Hp'; lia].
    rewrite Hbs in Hbs'. apply (f_equal (take (S (length p)))) in Hbs'.
    rewrite (take_app_le p' _ (S (length p))) in Hbs' by lia. rewrite <- Hbs'.
    by rewrite take_snoc_app. }
  intros H1 H2. assert (length p = length p') as Hl by (apply Nat.le_antisymm; eauto).
  destruct H1 as (-> & _ & _), H2 as (Hbs & _ & _). apply app_inj_1 in Hbs as [-> Hr]; [|done].
  by injection Hr as -> ->.
Qed.

Lemma unanswered_answered bs p b rest :
  (∀ k, unanswered (events_of (take k bs))) → answered_by bs p b rest → False.
Proof.
  intros Hall (-> & _ & Hb). apply Hb. specialize (Hall (S (length p))).
  by rewrite take_snoc_app in Hall.
Qed.

Lemma scan_ended_first p b q rest q' rest' cmd cmd' :
  q ++ rest = q' ++ rest' →
  (∀ k, (k < length q)%nat → scan_end (events_of (p ++ b :: take k q)) = None) →
  (∀ k, (k < length q')%nat → scan_end (events_of (p ++ b :: take k q')) = None) →
  scan_end (events_of (p ++ b :: q)) = Some cmd →
  scan_end (events_of (p ++ b :: q')) = Some cmd' → cmd = cmd'.
Proof.
  intros Heq H1 H2 H3 H4. destruct (Nat.lt_trichotomy (length q) (length q')) as [H|[H|H]].
  - specialize (H2 _ H). apply (f_equal (take (length q))) in Heq.
    rewrite take_app_length, take_app_le in Heq by lia. rewrite <- Heq in H2. congruence.
  - apply app_inj_1 in Heq as [-> _]; [|done]. congruence.
  - specialize (H1 _ H). apply (f_equal (take (length q'))) in Heq.
    rewrite take_app_length, take_app_le in Heq by lia. rewrite Heq in H1. congruence.
Qed.

(** The reading gives one outcome. *)
Lemma scan_outcome_unique bs o o' : scan_outcome bs o → scan_outcome bs o' → o = o'.
Proof.
  assert (∀ p b q rest cmd, bs = p ++ b :: q ++ rest →
            scan_end (events_of (p ++ b :: q)) = Some cmd → scan_end (events_of bs) ≠ None) as Hne.
  { intros p b q rest cmd -> Hc. rewrite app_comm_cons, app_assoc, events_of_app, scan_end_app, Hc.
    destruct (scan_end (events_of rest)); congruence. }
  intros H1 H2. destruct H1 as [H1|p b r A1 N1|p b q r c A1 N1 F1 E1|p b r A1 N1 E1],
    H2 as [H2|p' b' r' A2 N2|p' b' q' r' c' A2 N2 F2 E2|p' b' r' A2 N2 E2]; try done;
    try (exfalso; by eapply unanswered_answered);
    destruct (answered_by_unique _ _ _ _ _ _ _ A1 A2) as (-> & -> & Hr); try lia; try done.
  - by rewrite (scan_ended_first _ _ _ _ _ _ _ _ Hr F1 F2 E1 E2).
  - subst r'. destruct A1 as [A1 _]. by destruct (Hne _ _ _ _ _ A1 E1).
  - subst r. destruct A2 as [A2 _]. by destruct (Hne _ _ _ _ _ A2 E2).
Qed.

(** ** Lemmas on retries *)

Definition is_transmit (e : event) : bool := match e with Transmit _ => true | _ => false end.

(** The frames transmitted, in order. *)
Definition transmitted (tr : list event) : list bytes :=
  concat (map (λ e, match e with Transmit f => [f] | _ => [] end) tr).

Arguments transmitted : simpl never.

Lemma transmitted_app t1 t2 : transmitted (t1 ++ t2) = transmitted t1 ++ transmitted t2.
Proof. unfold transmitted. by rewrite map_app, concat_app. Qed.

Lemma transmitted_emit e s :
  transmitted (trace (emit e s)) =
  transmitted (trace s) ++ match e with Transmit f => [f] | _ => [] end.
Proof.
  change (transmitted (trace s ++ [e]) =
          transmitted (trace s) ++ match e with Transmit f => [f] | _ => [] end).
  rewrite transmitted_app. f_equal. unfold transmitted. cbn. by rewrite app_nil_r.
Qed.

(** How a round of the loop can go wrong for good: the scan never ends, or a
    message of the dump after a successful scan cannot be read. *)
Definition scan_ready (env : scan_env) : bool := msg_alloc env && ssids_alloc env && cb_alloc env.

Definition scan_hangs (a : attempt_env) : Prop :=
  scan_ready (at_scan a) = true ∧ scan_outcome (recv_batches (at_scan a)) Stuck.

Definition scan_succeeds (a : attempt_env) : Prop :=
  scan_ready (at_scan a) = true ∧ scan_outcome (recv_batches (at_scan a)) (Ok 0).

Definition scan_ends (a : attempt_env) : Prop :=
  scan_ready (at_scan a) = true → ∃ err, scan_outcome (recv_batches (at_scan a)) (Ok err).

Definition dump_fault (a : attempt_env) : Prop :=
  ∃ m attr mem, In m (at_dump a) ∧ bss_ies m = Some (attr ++ mem, zlen attr) ∧ ack_fault attr.

Inductive stops {X} (a : attempt_env) : outcome X → Prop :=
| stops_waiting : scan_hangs a → stops a Stuck
| stops_reading u : scan_succeeds a → dump_fault a → stops a (Undef u).

Lemma stops_bind {X Y} a (o : outcome X) (f : X → outcome Y) : stops a o → stops a (o ≫= f).
Proof. by destruct 1; constructor. Qed.

(** The elements in the dump lie in their messages. *)
Definition dump_ok (a : attempt_env) : Prop := Forall msg_ok (at_dump a).

Lemma do_probe_stuffing_cases a :
  (do_probe_stuffing (at_scan a) = Stuck ∧ scan_hangs a) ∨
  ∃ err, do_probe_stuffing (at_scan a) = Ok err ∧ scan_ends a ∧ (err = 0 → scan_succeeds a).
Proof.
  unfold scan_hangs, scan_succeeds, scan_ends, scan_ready.
  destruct (msg_alloc (at_scan a)) eqn:H1, (ssids_alloc (at_scan a)) eqn:H2,
    (cb_alloc (at_scan a)) eqn:H3; cbn [andb];
    try (right; exists (- ENOMEM); split; [unfold do_probe_stuffing; rewrite ?H1, ?H2, ?H3; done|done]).
  pose proof (do_probe_stuffing_outcome (at_scan a) H1 H2 H3) as Ho.
  inversion Ho as [? Heq|? ? ? ? ? Heq|? ? ? ? ? ? ? ? ? Heq|? ? ? ? ? ? Heq]; rewrite <- Heq in Ho;
    (left; split; [done|by split]) ||
    (right; eexists; split; [done|]; split; [by eexists|by intros Herr; rewrite <- Herr]).
Qed.

Section retry_facts.
Context `{Malloc}.
Hypothesis malloc_succeeds : ∀ n, malloc_ok n = true.
Context (effort : Z) (ies_data : bytes) (data_size ots otus : Z).

Lemma read_dump_total msgs ack :
  Forall msg_ok msgs →
  (∃ v, read_dump msgs ack = Ok v) ∨
  ∃ u m attr mem, read_dump msgs ack = Undef u ∧ In m msgs ∧
    bss_ies m = Some (attr ++ mem, zlen attr) ∧ ack_fault attr.
Proof.
  intros Hm. revert ack. induction Hm as [|m ms Hm Hms IH]; intros ack; cbn [read_dump];
    [left; by eexists|].
  destruct (get_ack_total malloc_succeeds m ack Hm) as [[v ->]|(u & attr & mem & -> & Ha & Hf)];
    cbn [mbind outcome_bind].
  - destruct (IH v) as [Hv|(u & m' & attr & mem & Hu & Hin & Hr)]; [by left|right].
    exists u, m', attr, mem. split; [done|]. split; [by right|done].
  - right. exists u, m, attr, mem. split; [done|]. split; [by left|done].
Qed.

(** How a frame can end. *)
Inductive frame_end (s s' : send_st) : Prop :=
| acknowledged :
    ack_seq_num s' = seq_num s → seq_num s ≠ -1 → seq_num s' = seq_num s + 1 →
    scan_retries_left s' = 4 → ack_retries_left s' = 4 → frame_end s s'
| scans_failed :
    seq_num s' = seq_num s → scan_retries_left s' = 0 → frame_end s s'
| acks_failed :
    effort = 2 → seq_num s' = seq_num s → ack_retries_left s' = 0 → frame_end s s'
| best_effort :
    effort ≠ 2 → seq_num s' = seq_num s + 1 →
    scan_retries_left s' = 4 → ack_retries_left s' = ack_retries_left s → frame_end s s'.

(** The number of rounds that are left. *)
Definition rounds_left (s : send_st) : Z :=
  if decide (effort = 2) then 4 * (ack_retries_left s - 1) + scan_retries_left s
  else scan_retries_left s.

Definition retries_ok (s : send_st) : Prop :=
  1 ≤ scan_retries_left s ≤ 4 ∧ 1 ≤ ack_retries_left s.

Lemma log_attempt_spec a status s :
  let s' := log_attempt data_size ots otus a status s in
  scan_retries_left s' = scan_retries_left s ∧ ack_retries_left s' = ack_retries_left s ∧
  seq_num s' = seq_num s ∧ ack_seq_num s' = ack_seq_num s ∧
  transmitted (trace s') = transmitted (trace s).
Proof. split_and!; try done. unfold log_attempt. by rewrite transmitted_emit, app_nil_r. Qed.

(** One round, told from its state after the transmission. *)
Definition round_spec (s : send_st) (r : send_st + send_st) : Prop :=
  match r with
  | inl s' => frame_end s s' ∧ transmitted (trace s') = transmitted (trace s)
  | inr s' => retries_ok s' ∧ rounds_left s' ≤ rounds_left s - 1 ∧ seq_num s' = seq_num s ∧
              (effort ≠ 2 → ack_retries_left s' = ack_retries_left s) ∧
              transmitted (trace s') = transmitted (trace s)
  end.

(** The round after a completed scan: [s] differs from [s1] in the two variables
    that are set before the acknowledgement is looked at. *)
Lemma ack_failed_spec a s s1 :
  retries_ok s1 → scan_retries_left s = 4 → ack_retries_left s = ack_retries_left s1 →
  seq_num s = seq_num s1 → transmitted (trace s) = transmitted (trace s1) →
  round_spec s1 (ack_failed effort data_size ots otus a s).
Proof.
  intros [Hr1 Hr2] H1 H2 H3 H4. unfold ack_failed.
  destruct (log_attempt_spec a (-1) s) as (L1 & L2 & L3 & _ & L5). cbn zeta in *.
  set (s2 := log_attempt data_size ots otus a (-1) s) in *. clearbody s2.
  unfold round_spec, retries_ok, rounds_left.
  destruct (decide (effort = 2)) as [He|He].
  - destruct (decide (0 < _)) as [Hd|Hd]; cbn in Hd.
    + rewrite transmitted_emit, app_nil_r. cbn. split_and!; try done; try lia. congruence.
    + cbn. split; [|congruence]. apply acks_failed; cbn; [done|congruence|lia].
  - cbn. split; [|congruence]. apply best_effort; cbn; [done|lia|lia|lia].
Qed.

Lemma send_once_spec a s r :
  retries_ok s → send_once effort ies_data data_size ots otus a s = Ok r →
  round_spec (emit (Transmit ies_data) s) r.
Proof.
  intros Hok (err & _ & H1)%bind_Ok_inv.
  assert (retries_ok (emit (Transmit ies_data) s)) as Hok1 by done.
  set (s1 := emit (Transmit ies_data) s) in *. clearbody s1. clear Hok s.
  case_decide as He.
  { injection H1 as <-. destruct Hok1 as [Hs Ha]. case_decide as Hr; cbn in Hr.
    - unfold round_spec, retries_ok, rounds_left. rewrite transmitted_emit, app_nil_r. cbn.
      split_and!; try done; try lia. destruct (decide (effort = 2)); lia.
    - split; [|done]. apply scans_failed; cbn; [done|lia]. }
  apply bind_Ok_inv in H1 as (ack & _ & H1). cbv beta zeta in H1.
  case_decide; [|case_decide as Hack; cbn in Hack].
  - injection H1 as <-. by apply ack_failed_spec.
  - injection H1 as <-. by apply ack_failed_spec.
  - injection H1 as <-. split; [apply acknowledged; cbn; try done; try lia; tauto|].
    cbn. exact (proj2 (proj2 (proj2 (proj2 (log_attempt_spec a 1
      (s1 <| scan_retries_left := 4 |> <| ack_seq_num := ack |>)))))).
Qed.

Lemma frame_end_emit s s' e : frame_end (emit e s) s' → frame_end s s'.
Proof. intros [????|??|???|????]; [by apply acknowledged|by apply scans_failed|by apply acks_failed|by apply best_effort]. Qed.

Lemma send_once_total a s :
  dump_ok a →
  ((∃ r, send_once effort ies_data data_size ots otus a s = Ok r) ∧ scan_ends a) ∨
  stops a (send_once effort ies_data data_size ots otus a s).
Proof.
  intros Hd. unfold send_once.
  destruct (do_probe_stuffing_cases a) as [[-> Hh]|(err & -> & He & H0)]; cbn [mbind outcome_bind];
    [right; by constructor|].
  case_decide as Herr; [left; split; [by eexists|done]|].
  match goal with |- context [read_dump _ ?x] =>
    destruct (read_dump_total (at_dump a) x Hd) as [[v ->]|(u & m & attr & mem & -> & Hf)] end;
    cbn [mbind outcome_bind].
  - left. split; [repeat case_decide; by eexists|done].
  - right. constructor; [apply H0; lia|]. by exists m, attr, mem.
Qed.

Lemma frame_end_first s s1 s' :
  seq_num s1 = seq_num s → (effort ≠ 2 → ack_retries_left s1 = ack_retries_left s) →
  frame_end s1 s' → frame_end s s'.
Proof.
  intros Hseq Hack [????|??|???|????].
  - apply acknowledged; congruence.
  - apply scans_failed; congruence.
  - apply acks_failed; congruence.
  - apply best_effort; [done|congruence|done|rewrite <- Hack by done; done].
Qed.

(** The loop ends with the frame, or some round stops it. *)
Lemma send_loop_spec attempts : ∀ s,
  retries_ok s → Forall dump_ok attempts → rounds_left s ≤ zlen attempts →
  (∃ s' used rest, send_loop effort ies_data data_size ots otus attempts s = Ok (s', rest) ∧
    attempts = used ++ rest ∧ Forall scan_ends used ∧ frame_end s s' ∧
    1 ≤ zlen used ≤ rounds_left s ∧
    transmitted (trace s') = transmitted (trace s) ++ replicate (length used) ies_data) ∨
  ∃ used a rest, attempts = used ++ a :: rest ∧ Forall scan_ends used ∧ zlen used < rounds_left s ∧
    stops a (send_loop effort ies_data data_size ots otus attempts s).
Proof.
  induction attempts as [|a attempts IH]; intros s Hok Hp Hlen.
  { change (zlen []) with 0 in Hlen. destruct Hok. unfold rounds_left in Hlen. case_decide; lia. }
  apply Forall_cons_1 in Hp as [Ha Hp]. cbn [send_loop].
  assert (1 ≤ rounds_left s) by (destruct Hok; unfold rounds_left; case_decide; lia).
  destruct (send_once_total a s Ha) as [[[r Hr] He]|Hst].
  2:{ right. exists [], a, attempts. change (zlen []) with 0.
      split_and!; [done|constructor|lia|by apply stops_bind]. }
  rewrite Hr. cbn [mbind outcome_bind]. apply send_once_spec in Hr; [|done].
  destruct r as [s1|s1]; cbn [round_spec] in Hr.
  - destruct Hr as [Hf Ht]. left. exists s1, [a], attempts. change (zlen [a]) with 1.
    split_and!; [done|done|by constructor|by apply frame_end_emit in Hf|lia|lia|].
    by rewrite Ht, transmitted_emit.
  - destruct Hr as (Hok1 & Hlt & Hseq & Hack & Ht).
    change (rounds_left (emit _ s)) with (rounds_left s) in Hlt.
    rewrite zlen_cons in Hlen. cbn in Hseq, Hack.
    destruct (IH s1 Hok1 Hp) as [(s' & used & rest & -> & -> & Hu & Hf & Hn & Htr)|
                                 (used & b & rest & -> & Hu & Hn & Hst)]; [lia| |].
    + left. exists s', (a :: used), rest. rewrite zlen_cons.
      split_and!; [done|done|by constructor|by eapply frame_end_first|lia|lia|].
      rewrite Htr, Ht, transmitted_emit, <- app_assoc. done.
    + right. exists (a :: used), b, rest. rewrite zlen_cons.
      split_and!; [done|by constructor|lia|done].
Qed.
End retry_facts.

(** ** The frames of a message *)

Definition piece (s : bytes) (i : nat) : bytes := take 1394 (drop (i * 1394) s).

(** How many frames a message needs. *)
Definition n_frames (s : bytes) : nat := (length s + 1393) / 1394.

Definition frame_mfb (s : bytes) (i : nat) : Z := if decide (S i < n_frames s)%nat then 1 else 0.

(** Frame [i] of the message [s]. *)
Definition frame (ts s : bytes) (i : nat) : bytes :=
  ies_enc (frame_ies (Z.of_nat i) ts (frame_mfb s i) (piece s i)).

Definition frames (ts s : bytes) (i n : nat) : list bytes := map (frame ts s) (seq i n).

Lemma n_frames_spec s : (n_frames s * 1394 < length s + 1394 ∧ length s ≤ n_frames s * 1394)%nat.
Proof. unfold n_frames. pose proof (Nat.div_mod_eq (length s + 1393) 1394).
       pose proof (Nat.mod_upper_bound (length s + 1393) 1394). lia. Qed.

Lemma piece_length s i : length (piece s i) = (1394 `min` (length s - i * 1394))%nat.
Proof. unfold piece. by rewrite length_take, length_drop. Qed.

Section message_facts.
Context `{Malloc}.
Hypothesis malloc_succeeds : ∀ n, malloc_ok n = true.

Lemma next_data_ok s r i :
  zlen s < 2 ^ 31 → (i < n_frames s)%nat →
  ∃ r', next_data (s ++ 0 :: r) (zlen s) (Z.of_nat i) (Z.of_nat (i * 1394)) =
    Ok (piece s i ++ 0 :: r', Z.min (Z.of_nat (S i * 1394)) (zlen s), frame_mfb s i).
Proof.
  intros Hmax Hi. pose proof (n_frames_spec s) as Hn. unfold next_data, ies_max_data_size, frame_mfb.
  unfold zlen in *. rewrite bool_decide_eq_true_2 by lia. cbn [guard_ub mbind outcome_bind].
  replace (Z.to_nat (Z.of_nat i * 1394)) with (i * 1394)%nat by lia.
  assert (∀ n d, write (replicate (Z.to_nat (n * sizeof_ptr)) 0) 0 (d ++ [0]) =
    if decide (length d + 1 <= Z.to_nat (n * 8))%nat
    then Ok (d ++ 0 :: replicate (Z.to_nat (n * 8) - (length d + 1)) 0) else Undef OutOfBounds) as Hw.
  { intros n d. unfold write, sizeof_ptr. rewrite length_app, length_replicate. cbn [length].
    destruct (decide _); [|done]. cbn [take app]. rewrite drop_replicate, <- app_assoc. done. }
  destruct (decide (_ > _)) as [Hd|Hd].
  - rewrite slice_string by lia. rewrite !alloc_ok by done. cbn [mbind outcome_bind].
    change (Z.to_nat 1394) with 1394%nat. fold (piece s i). rewrite Hw.
    rewrite decide_True by (rewrite piece_length; lia). cbn [mbind outcome_bind].
    eexists. rewrite decide_True by lia. do 3 f_equal. lia.
  - rewrite slice_string by lia. rewrite !alloc_ok by done. cbn [mbind outcome_bind].
    assert (take (Z.to_nat (Z.of_nat (length s) - Z.of_nat (i * 1394))) (drop (i * 1394) s) =
            piece s i) as ->.
    { unfold piece. rewrite !take_ge by (rewrite length_drop; lia). done. }
    rewrite Hw, decide_True by (rewrite piece_length; lia). cbn [mbind outcome_bind].
    eexists. rewrite decide_False by lia. do 3 f_equal. lia.
Qed.

(** The frames that go out from frame [i] on: each is transmitted between 1 and
    16 times, in order, and all of them unless the retries run out. *)
Definition sent (ts s : bytes) (i : nat) (ok : bool) (t : list bytes) : Prop :=
  ∃ counts : list nat,
    t = concat (zip_with (@replicate bytes) counts (frames ts s i (length counts))) ∧
    Forall (λ n, 1 ≤ n ≤ 16)%nat counts ∧ (i + length counts ≤ n_frames s)%nat ∧
    (ok = true → (i + length counts = n_frames s)%nat).

Lemma sent_cons ts s i ok n t :
  (1 ≤ n ≤ 16)%nat → sent ts s (S i) ok t → sent ts s i ok (replicate n (frame ts s i) ++ t).
Proof.
  intros Hn (counts & -> & Hc & Hle & Hok). exists (n :: counts). cbn [length].
  split; [done|]. split; [by constructor|]. split; [lia|]. intros H1. specialize (Hok H1). lia.
Qed.

Lemma frame_loop_spec effort m ts s r fuel : ∀ i attempts st,
  no_nul s → zlen s < 2 ^ 31 → no_nul ts → length ts = 18%nat →
  Forall dump_ok attempts → 16 * Z.of_nat (n_frames s - i) ≤ zlen attempts →
  (i ≤ n_frames s)%nat → (n_frames s - i < fuel)%nat →
  seq_num st = Z.of_nat i → scan_retries_left st = 4 → ack_retries_left st = 4 →
  let run := frame_loop fuel effort m ts (s ++ 0 :: r) (zlen s)
               (Z.min (Z.of_nat (i * 1394)) (zlen s)) attempts st in
  (∃ ok st' used rest t,
    run = Ok (ok, st', rest) ∧ attempts = used ++ rest ∧ Forall scan_ends used ∧
    transmitted (trace st') = transmitted (trace st) ++ t ∧ length t = length used ∧
    sent ts s i ok t ∧
    (ok = false → scan_retries_left st' = 0 ∨ effort = 2 ∧ ack_retries_left st' = 0)) ∨
  ∃ used a rest, attempts = used ++ a :: rest ∧ Forall scan_ends used ∧
    zlen used < 16 * Z.of_nat (n_frames s - i) ∧ stops a run.
Proof.
  intros i attempts st Hs Hmax Hts Htl. revert i attempts st.
  induction fuel as [|fuel IH]; intros i attempts st Hp Hat Hi Hf Hq H1 H2 run; [lia|].
  pose proof (n_frames_spec s) as Hn. unfold run. clear run. cbn [frame_loop].
  destruct (decide (i = n_frames s)) as [->|Hne].
  { rewrite decide_False by (unfold zlen; lia). left. exists true, st, [], attempts, [].
    rewrite app_nil_r. split_and!; try done. exists []. split_and!; try done. cbn [length]. lia. }
  assert (Z.min (Z.of_nat (i * 1394)) (zlen s) = Z.of_nat (i * 1394)) as -> by (unfold zlen; lia).
  rewrite decide_True by (unfold zlen; lia). rewrite Hq.
  destruct (next_data_ok s r i Hmax) as [r' ->]; [lia|]. cbn [mbind outcome_bind].
  assert (no_nul (piece s i)) as Hpn by (by apply no_nul_take, no_nul_drop).
  rewrite build_frame_ok; cycle 1.
  { done. } { unfold zlen in *. lia. } { unfold frame_mfb. case_decide; lia. } { done. } { done. }
  { done. } { unfold zlen. rewrite piece_length. lia. }
  cbn [mbind outcome_bind]. rewrite cstr_app by done. cbn [mbind outcome_bind].
  fold (frame ts s i).
  assert (retries_ok st) as Hok by (unfold retries_ok; lia).
  assert (1 ≤ rounds_left effort st ≤ 16) as Hrl
    by (unfold rounds_left; rewrite H1, H2; case_decide; lia).
  destruct (send_loop_spec malloc_succeeds effort (frame ts s i) (zlen (piece s i)) (origin_ts m)
              (origin_ts_usec m) attempts st Hok Hp)
    as [(st' & used & rest & -> & -> & Hu & He & Hnu & Htr)|(used & a & rest & Hatt & Hu & Hnu & Hst)];
    [lia| |].
  2:{ right. exists used, a, rest. split_and!; [done|done|lia|by apply stops_bind]. }
  cbn [mbind outcome_bind]. apply Forall_app in Hp as [_ Hp']. rewrite zlen_app in Hat.
  assert (scan_retries_left st' = 0 ∨ ack_retries_left st' = 0 →
          sent ts s i false (replicate (length used) (frame ts s i)) ∧
          (scan_retries_left st' = 0 ∨ effort = 2 ∧ ack_retries_left st' = 0)) as Hstop.
  { intros Hz. split; [|destruct He; lia || tauto].
    rewrite <- (app_nil_r (replicate _ _)). apply sent_cons; [unfold zlen in Hnu; lia|].
    exists []. split_and!; try done. cbn [length]. lia. }
  destruct (decide (scan_retries_left st' = 0)) as [Z1|Z1];
    [|destruct (decide (ack_retries_left st' = 0)) as [Z2|Z2]].
  1,2: left; exists false, st', used, rest, (replicate (length used) (frame ts s i));
    rewrite length_replicate; split_and!; try done; intros; apply Hstop; tauto.
  clear Hstop. cbn zeta.
  set (st2 := if decide (Z.min _ _ ≠ _) then emit (Sleep 15) st' else st').
  assert (seq_num st2 = seq_num st' ∧ scan_retries_left st2 = scan_retries_left st' ∧
          ack_retries_left st2 = ack_retries_left st' ∧
          transmitted (trace st2) = transmitted (trace st')) as (S1 & S2 & S3 & S4).
  { unfold st2. case_decide; [|done]. by rewrite transmitted_emit, app_nil_r. }
  clearbody st2.
  assert (seq_num st' = Z.of_nat i + 1 ∧ scan_retries_left st' = 4 ∧ ack_retries_left st' = 4)
    as (T1 & T2 & T3) by (destruct He; lia || tauto).
  destruct (IH (S i) rest st2)
    as [(ok & st3 & used' & rest' & t & -> & -> & Hu' & Ht & Hlt & Hsent & Hfail)|
        (used' & a & rest' & -> & Hu' & Hn' & Hst)]; try lia; [done| |].
  - left. exists ok, st3, (used ++ used'), rest', (replicate (length used) (frame ts s i) ++ t).
    split; [done|]. rewrite !length_app, length_replicate.
    split_and!; [by rewrite <- app_assoc|by apply Forall_app| |lia| |done].
    + by rewrite Ht, S4, Htr, <- app_assoc.
    + apply sent_cons; [unfold zlen in Hnu; lia|done].
  - right. exists (used ++ used'), a, rest'. rewrite zlen_app.
    split_and!; [by rewrite <- app_assoc|by apply Forall_app|lia|done].
Qed.
End message_facts.

(** ** Properties *)

(** C11. What a scan comes to, whatever the kernel delivers. When the three
    allocations succeed the outcome is exactly the one the messages determine: the
    client waits until the command is answered, that is until the last error,
    finish or acknowledgement so far leaves a value of at most 0; the result of
    the [nl_recvmsgs] that brought the answer is returned when it is negative;
    otherwise the client waits until a message has ended the scan, and the last
    such message gives 0 for new results and 1 for an aborted scan. Without an
    answer, or without an end of the scan, it waits for ever. When an allocation
    fails the result is [-ENOMEM]. *)
Theorem do_probe_stuffing_result env o :
  do_probe_stuffing env = o ↔
  if scan_ready env then scan_outcome (recv_batches env) o else o = Ok (- ENOMEM).
Proof.
  unfold scan_ready. destruct (msg_alloc env) eqn:H1, (ssids_alloc env) eqn:H2,
    (cb_alloc env) eqn:H3; cbn [andb];
    try (unfold do_probe_stuffing; rewrite ?H1, ?H2, ?H3; cbn [negb]; split; congruence).
  pose proof (do_probe_stuffing_outcome env H1 H2 H3) as Ho.
  split; [by intros <-|]. intros Ho'. by apply (scan_outcome_unique (recv_batches env)).
Qed.

(** A kernel that refuses the scan is not noticed: when the first message is
    a netlink error, [do_probe_stuffing] only warns and waits for a scan to end,
    for ever if none does. *)
Lemma do_probe_stuffing_refused env evs error ret batches :
  msg_alloc env = true → ssids_alloc env = true → cb_alloc env = true →
  recv_batches env = (evs ++ [EvError error], ret) :: batches →
  error < 0 → 0 ≤ ret →
  scan_end (events_of (recv_batches env)) = None →
  do_probe_stuffing env = Stuck.
Proof.
  intros H1 H2 H3 Hb He Hret Hno.
  apply (scan_outcome_unique (recv_batches env)); [by apply do_probe_stuffing_outcome|].
  apply scan_endless with [] (evs ++ [EvError error], ret) batches; [|done|done].
  split; [done|]. split.
  - intros k Hk. by rewrite take_nil.
  - unfold unanswered, events_of. cbn [app map concat fst]. rewrite app_nil_r, omap_snoc.
    cbn [ack_of]. rewrite last_snoc. lia.
Qed.

(** C7. Sending a message, whatever the kernel and the access points do. For a
    message of [n] frames, at most [16 n] transmissions decide. Either the client
    gets through with it: every scan it made ended, the frames it transmitted, one
    for each scan, are the frames of the message in order, each between 1 and 16
    times, and it stopped early only because the scan retries or, with guaranteed
    delivery, the acknowledgement retries were used up. Or some scan stops it: the
    first scan that never ends (the kernel refused it, or never answers) makes the
    client wait for ever, and the first dump with a faulty acknowledgement makes it
    read outside the attribute or convert a number that is no [int]. The
    assumptions are on the input alone: allocation succeeds, the message is a
    string of less than 2^31 octets, the clock has at most twelve digits of seconds and the
    elements of a scan result lie in the netlink message. *)
Theorem send_message_spec `{Malloc} effort m s r attempts tr :
  (∀ n, malloc_ok n = true) → no_nul s → zlen s < 2 ^ 31 →
  0 ≤ origin_ts m < 10 ^ 12 → 0 ≤ origin_ts_usec m < 10 ^ 6 →
  Forall dump_ok attempts → 16 * Z.of_nat (n_frames s) ≤ zlen attempts →
  let ts := udec0 12 (origin_ts m) ++ udec0 6 (origin_ts_usec m) in
  let run := send_message effort m (s ++ 0 :: r) attempts tr in
  (∃ ok st used rest t,
    run = Ok (ok, st, rest) ∧ attempts = used ++ rest ∧ Forall scan_ends used ∧
    transmitted (trace st) = transmitted tr ++ t ∧ length t = length used ∧ sent ts s 0 ok t ∧
    (ok = false → scan_retries_left st = 0 ∨ effort = 2 ∧ ack_retries_left st = 0)) ∨
  ∃ used a rest,
    attempts = used ++ a :: rest ∧ Forall scan_ends used ∧
    zlen used < 16 * Z.of_nat (n_frames s) ∧
    (scan_hangs a ∧ run = Stuck ∨ scan_succeeds a ∧ dump_fault a ∧ ∃ u, run = Undef u).
Proof.
  intros Hma Hs Hmax Ht1 Ht2 Hp Hlen ts run.
  assert (length ts = 18%nat) as Hts
    by (unfold ts; rewrite length_app, !udec0_length by (cbn; lia); done).
  assert (no_nul ts) as Htn.
  { apply no_nul_app. split; apply digits_no_nul, udec0_digits; lia. }
  assert (run = frame_loop (S (length s)) effort m ts (s ++ 0 :: r) (zlen s)
                  (Z.min (Z.of_nat (0 * 1394)) (zlen s)) attempts (mk_send_st 4 4 (-1) 0 tr)) as ->.
  { unfold run, send_message. rewrite cstr_app by done. cbn [mbind outcome_bind]. fold ts.
    rewrite put_str_ok by lia. cbn [mbind outcome_bind]. f_equal.
    pose proof (zlen_nonneg s). cbn. lia. }
  pose proof (n_frames_spec s) as Hn.
  destruct (frame_loop_spec Hma effort m ts s r (S (length s)) 0 attempts (mk_send_st 4 4 (-1) 0 tr))
    as [Hok|(used & a & rest & Ha & Hu & Hl & Hst)]; try done; try lia; [by left|right].
  exists used, a, rest. rewrite Nat.sub_0_r in Hl. split_and!; [done|done|done|].
  destruct Hst as [Hh|u Hsc Hf]; [by left|right]. split_and!; [done|done|by eexists].
Qed.

(** The elements of a frame take at most 1456 octets, and exactly that many
    when the frame is full, not the 1452 octets the client reserves for them;
    there are never more than seven, so an access point can record them all. *)
Lemma frame_size seq_num ts mfb s :
  0 ≤ seq_num < 10 ^ 8 → 0 ≤ mfb ≤ 1 → no_nul ts → length ts = 18%nat →
  1 ≤ zlen s ≤ ies_max_data_size →
  zlen (ies_enc (frame_ies seq_num ts mfb s)) ≤ 1456 ∧
  (zlen s = ies_max_data_size → zlen (ies_enc (frame_ies seq_num ts mfb s)) = 1456) ∧
  (length (frame_ies seq_num ts mfb s) ≤ 7)%nat.
Proof.
  unfold ies_max_data_size. intros Hq Hm Hn Ht Hs.
  destruct (header_props seq_num ts mfb Hq Hm Hn Ht) as [_ Hh].
  pose proof (n_reqd_spec (zlen s) (zlen_nonneg s)) as Hr.
  assert (zlen (header seq_num ts mfb) = 27) as Hz by (unfold zlen; lia).
  unfold frame_ies. rewrite ies_enc_cons, zlen_app, stuff_enc_length, ies_enc_stuff_length, concat_chunks.
  assert (zlen (chunks (n_chunks s) s) = get_n_ies_reqd (zlen s)) as ->.
  { unfold zlen at 1. rewrite chunks_length. unfold n_chunks. lia. }
  rewrite Hz. cbn [length]. rewrite length_map, chunks_length.
  unfold n_chunks. split_and!; lia.
Qed.

(** The program has no orderly end: [main] leaves through [exit] before the
    first message or not at all, and a finite input is followed by the use of a
    message buffer that was never written. *)
Theorem main_no_return `{Malloc} fuel args files ms stdin attempts :
  (∀ r, main fuel args files ms stdin attempts = Ok r → r = inl ExitFailure) ∧
  (∀ effort m ms tr, malloc_ok (u64 200) = true →
     message_loop (S fuel) effort (m :: ms) [] attempts tr = Undef Indeterminate).
Proof.
  assert (∀ effort input at_ tr r, message_loop fuel effort ms input at_ tr ≠ Ok r) as Hno.
  { clear. intros effort. revert ms. induction fuel as [|fuel IH]; intros ms input at_ tr r;
      cbn [message_loop]; [done|]. destruct ms as [|m ms]; [done|].
    intros (? & _ & H1)%bind_Ok_inv. apply bind_Ok_inv in H1 as ([d input'] & _ & H1).
    apply bind_Ok_inv in H1 as ([[ok s] at'] & _ & H1). by apply IH in H1. }
  split.
  - intros r. unfold main. intros (o & _ & H1)%bind_Ok_inv.
    assert (∀ o', inr <$> message_loop fuel (effort_ o') ms stdin attempts [] =
                  Ok r → r = inl ExitFailure) as Hl.
    { intros o' Hf. destruct (message_loop fuel (effort_ o') ms stdin attempts []) eqn:Hm;
        [by apply Hno in Hm|done|done]. }
    destruct (wifi_interface o); [|congruence].
    destruct (file_path o); [|by apply Hl in H1].
    destruct (read_file _); [by apply Hl in H1|congruence].
  - intros effort m ms' tr Hma. cbn [message_loop]. unfold alloc. by rewrite Hma.
Qed.

(** ** Examples *)

(** A scan that the kernel acknowledges and completes. *)
Definition scan_example : scan_env :=
  mk_scan_env true true true 60 [([EvAck], 0); ([EvValid NL80211_CMD_NEW_SCAN_RESULTS], 0)].

(** A round with an access point that acknowledges frame 0. *)
Definition attempt_example : attempt_env :=
  mk_attempt 1700000000 5 scan_example
    [mk_scan_msg true true true (Some (ies_enc [stuff_ie (udec 0)], 6))] 0.

Lemma attempt_example_dump_ok : dump_ok attempt_example.
Proof.
  constructor; [|constructor]. split; [|unfold zlen; vm_compute; split; discriminate].
  vm_compute (ies_enc _). repeat (apply List.Forall_cons; [unfold is_u8; lia|]). apply List.Forall_nil.
Defined.

Lemma do_probe_stuffing_result_witness :
  do_probe_stuffing scan_example = Ok 0 ∧ scan_outcome (recv_batches scan_example) (Ok 0).
Proof.
  assert (do_probe_stuffing scan_example = Ok 0) as H by reflexivity.
  split; [exact H|].
  exact (proj1 (do_probe_stuffing_result scan_example (Ok 0)) H).
Defined.

(** The kernel answers that the device is busy. *)
Lemma do_probe_stuffing_refused_witness :
  do_probe_stuffing (mk_scan_env true true true 60 [([EvError (-16)], 0); ([], -4)]) = Stuck.
Proof.
  apply (do_probe_stuffing_refused _ [] (-16) 0 [([], -4)]);
    [reflexivity|reflexivity|reflexivity|reflexivity|lia|lia|reflexivity].
Defined.

(** One message that is delivered, and one whose scan the kernel refuses. *)
Definition attempt_refused : attempt_env :=
  mk_attempt 1700000000 5 (mk_scan_env true true true 60 [([EvError (-16)], 0)]) [] 0.

Lemma send_message_spec_witness :
  no_nul hello ∧
  (∃ st used rest t,
    @send_message malloc_always 2 (mk_msg_env 1700000000 5) (hello ++ [0]) (replicate 16 attempt_example) []
      = Ok (true, st, rest) ∧
    replicate 16 attempt_example = used ++ rest ∧
    transmitted (trace st) = t ∧ length t = length used ∧
    sent (udec0 12 1700000000 ++ udec0 6 5) hello 0 true t) ∧
  ∃ a, @send_message malloc_always 2 (mk_msg_env 1700000000 5) (hello ++ [0])
         (replicate 16 attempt_refused) [] = Stuck ∧ scan_hangs a.
Proof.
  assert (no_nul hello) as Hn by (repeat constructor; done).
  assert (16 * Z.of_nat (n_frames hello) ≤ 16) as Hz by (vm_compute; discriminate).
  split; [exact Hn|]. split.
  - assert (∃ st rest, @send_message malloc_always 2 (mk_msg_env 1700000000 5) (hello ++ [0])
              (replicate 16 attempt_example) [] = Ok (true, st, rest)) as (st0 & rest0 & Hr)
      by (do 2 eexists; vm_compute; reflexivity).
    destruct (@send_message_spec malloc_always 2 (mk_msg_env 1700000000 5) hello []
                (replicate 16 attempt_example) [])
      as [(ok & st & used & rest & t & H1 & H5 & _ & H2 & H3 & H4 & _)|
          (used & a & rest & _ & _ & _ & [[_ H1]|(_ & _ & u & H1)])];
      [reflexivity|exact Hn|reflexivity|cbn; lia|cbn; lia
      |apply Forall_replicate; exact attempt_example_dump_ok|exact Hz| | |];
      rewrite Hr in H1; try discriminate H1.
    injection H1 as <- <- <-. exists st0, used, rest0, t.
    split; [exact Hr|]. split; [exact H5|]. split; [exact H2|]. split; [exact H3|exact H4].
  - assert (@send_message malloc_always 2 (mk_msg_env 1700000000 5) (hello ++ [0])
              (replicate 16 attempt_refused) [] = Stuck) as Hr by (vm_compute; reflexivity).
    destruct (@send_message_spec malloc_always 2 (mk_msg_env 1700000000 5) hello []
                (replicate 16 attempt_refused) [])
      as [(ok & st & used & rest & t & H1 & _)|
          (used & a & rest & _ & _ & _ & [[Hh H1]|(_ & _ & u & H1)])];
      [reflexivity|exact Hn|reflexivity|cbn; lia|cbn; lia
      |apply Forall_replicate; constructor|exact Hz| | |];
      rewrite Hr in H1; try discriminate H1.
    exists a. split; [exact Hr|exact Hh].
Defined.

Lemma frame_size_witness :
  zlen (replicate 1394 97) = ies_max_data_size ∧
  zlen (ies_enc (frame_ies 0 ts_example 0 (replicate 1394 97))) = 1456.
Proof.
  assert (zlen (replicate 1394 97) = ies_max_data_size) as H by reflexivity.
  split; [exact H|].
  destruct (frame_size 0 ts_example 0 (replicate 1394 97)) as (_ & Hf & _);
    [lia|lia|repeat constructor; done|reflexivity|rewrite H; unfold ies_max_data_size; lia|].
  exact (Hf H).
Defined.

Lemma main_no_return_witness :
  @main malloc_always 1 [opt_d hello] (λ _, None) [] [] [] = Ok (inl ExitFailure) ∧
  @message_loop malloc_always 1 2 [mk_msg_env 0 0] [] [] [] = Undef Indeterminate.
Proof.
  split; [reflexivity|].
  exact (proj2 (@main_no_return malloc_always 0 [] (λ _, None) [] [] []) 2 (mk_msg_env 0 0) [] []
           eq_refl).
Defined.
