(* ===== verification/Hapd.v ===== *)
(** * The state of the access point

    The parts of [struct hostapd_data], [struct hostapd_iface],
    [struct hostapd_config] and [struct hostapd_bss_config] that the probe
    request path reads or writes ([src/ap/hostapd.h], [src/ap/ap_config.h],
    [src/drivers/driver.h]). Flags that the code only tests are booleans. A
    pointer with a separate length ([current_rates], [channels],
    [extended_capa]) is a list. *)

From Stdlib Require Import ZArith Lia.
From stdpp Require Import base option list numbers decidable.
From S2P Require Import Prelude CLib Common Wpabuf Ie Elems Channels.
Local Open Scope Z_scope.

Definition HOSTAPD_CHAN_DISABLED : Z := 0x00000001.
Definition HOSTAPD_CHAN_RADAR : Z := 0x00000008.
Definition HOSTAPD_CHAN_DFS_UNAVAILABLE : Z := 0x00000200.
Definition HOSTAPD_CHAN_DFS_AVAILABLE : Z := 0x00000300.
Definition HOSTAPD_CHAN_DFS_MASK : Z := 0x00000300.
Definition HOSTAPD_RATE_BASIC : Z := 0x00000001.
Definition WPA_DRIVER_FLAGS_DFS_OFFLOAD : Z := 0x00000004.
Definition WPA_DRIVER_FLAGS_AP_UAPSD : Z := 0x00400000.
Definition WPA_DRIVER_FLAGS_AP_CSA : Z := 0x80000000.
Definition RRM_CAPABILITIES_IE_LEN : nat := 5.
Definition TDLS_PROHIBIT : Z := 1.
Definition TDLS_PROHIBIT_CHAN_SWITCH : Z := 2.

(** [struct hostapd_channel_data] *)
Record hostapd_channel_data := mk_chan {
  chan_no : Z;
  chan_freq_mhz : Z;
  chan_flag : Z;
  max_tx_power : Z }.

(** [struct hostapd_hw_modes] *)
Record hostapd_hw_modes := mk_hw_modes {
  hw_mode : hostapd_hw_mode;
  channels : list hostapd_channel_data }.

(** [struct hostapd_rate_data] *)
Record hostapd_rate_data := mk_rate { rate : Z; rate_flags : Z }.

Inductive preamble_t : Set := LONG_PREAMBLE | SHORT_PREAMBLE.

#[export] Instance preamble_t_eq_dec : EqDecision preamble_t.
Proof. solve_decision. Defined.

(** [struct hostapd_config] *)
Record hostapd_config := mk_config {
  channel : Z;
  beacon_int : Z;
  preamble : preamble_t;
  ieee80211d : bool;
  country : bytes;                     (** 3 octets *)
  ieee80211h : bool;
  local_pwr_constraint : Z;
  spectrum_mgmt_required : bool;
  ieee80211n : bool;
  secondary_channel : Z;
  require_ht : bool;
  ieee80211ac : bool;
  require_vht : bool;
  vht_oper_chwidth : Z;
  vht_oper_centr_freq_seg0_idx : Z;
  vht_oper_centr_freq_seg1_idx : Z;
  obss_interval : bool;
  wmm_ac_params : list hostapd_wmm_ac_params;   (** 4 entries *)
  track_sta_max_num : Z;
  track_sta_max_age : Z;
  send_probe_response : bool }.

(** [struct hostapd_bss_config] *)
Record hostapd_bss_config := mk_bss {
  bss_iface : bytes;
  ssid_ : bytes;                       (** [ssid.ssid], [ssid.ssid_len] *)
  utf8_ssid : bool;
  wep_keys_set : bool;
  ieee802_1x : bool;
  default_wep_key_len : Z;
  individual_wep_key_len : Z;
  wpa : bool;
  wmm_enabled : bool;
  wmm_uapsd : bool;
  ignore_broadcast_ssid : bool;
  no_probe_resp_if_seen_on : option bytes;
  no_probe_resp_if_max_sta : bool;
  max_num_sta : Z;
  radio_measurements : bytes;          (** 5 octets *)
  bss_load_update_period : bool;
  time_advertisement : Z;
  time_zone : bytes;
  conf_interworking : bool;
  wnm_sleep_mode : bool;
  bss_transition : bool;
  proxy_arp : bool;
  conf_qos_map_set_len : Z;
  tdls : Z;
  ftm_responder : bool;
  ftm_initiator : bool;
  vendor_elements : option wpabuf;
  probe_resp_ack_ie : option wpabuf;
  conf_vendor_vht : bool }.

#[export] Instance hostapd_bss_config_eta : Eta hostapd_bss_config := λ c, mk_bss
  (bss_iface c) (ssid_ c) (utf8_ssid c) (wep_keys_set c) (ieee802_1x c) (default_wep_key_len c)
  (individual_wep_key_len c) (wpa c) (wmm_enabled c) (wmm_uapsd c) (ignore_broadcast_ssid c)
  (no_probe_resp_if_seen_on c) (no_probe_resp_if_max_sta c) (max_num_sta c)
  (radio_measurements c) (bss_load_update_period c) (time_advertisement c) (time_zone c)
  (conf_interworking c) (wnm_sleep_mode c) (bss_transition c) (proxy_arp c)
  (conf_qos_map_set_len c) (tdls c) (ftm_responder c) (ftm_initiator c) (vendor_elements c)
  (probe_resp_ack_ie c) (conf_vendor_vht c).

(** [struct hostapd_sta_info]: a station seen, with the time in seconds and
    microseconds. *)
Record hostapd_sta_info := mk_sta_info {
  info_addr : bytes;
  last_seen : Z * Z }.

(** [struct hostapd_iface] *)
Record hostapd_iface := mk_iface {
  current_mode : option hostapd_hw_modes;
  current_rates : option (list hostapd_rate_data);
  drv_flags : Z;
  freq : Z;
  olbc : bool;
  num_sta_non_erp : Z;
  num_sta_no_short_preamble : Z;
  num_sta_no_short_slot_time : Z;
  channel_utilization : Z;
  cs_oper_class : Z;
  extended_capa : bytes;
  extended_capa_mask : bytes;
  sta_seen : list hostapd_sta_info;
  num_sta_seen : Z }.

#[export] Instance hostapd_iface_eta : Eta hostapd_iface := λ i, mk_iface
  (current_mode i) (current_rates i) (drv_flags i) (freq i) (olbc i) (num_sta_non_erp i)
  (num_sta_no_short_preamble i) (num_sta_no_short_slot_time i) (channel_utilization i)
  (cs_oper_class i) (extended_capa i) (extended_capa_mask i) (sta_seen i) (num_sta_seen i).

(** [struct hostapd_data] *)
Record hostapd_data := mk_hapd {
  iconf : hostapd_config;
  conf : hostapd_bss_config;
  iface : hostapd_iface;
  own_addr : bytes;                    (** 6 octets *)
  num_sta : Z;
  sta_list : list bytes;               (** the addresses of the associated stations *)
  wpa_ie_ : option bytes;              (** [wpa_auth_get_wpa_ie] *)
  cs_channel : Z;                      (** [cs_freq_params.channel] *)
  cs_block_tx : Z;
  cs_count : Z;
  cs_c_off_proberesp : Z;
  cs_c_off_ecsa_proberesp : Z;
  csa_in_progress : bool;
  time_adv : option wpabuf;
  time_update_counter : Z;
  parameter_set_count : Z }.

#[export] Instance hostapd_data_eta : Eta hostapd_data := λ h, mk_hapd
  (iconf h) (conf h) (iface h) (own_addr h) (num_sta h) (sta_list h) (wpa_ie_ h) (cs_channel h)
  (cs_block_tx h) (cs_count h) (cs_c_off_proberesp h) (cs_c_off_ecsa_proberesp h)
  (csa_in_progress h) (time_adv h) (time_update_counter h) (parameter_set_count h).

(** [hapd->iface->current_mode && hapd->iface->current_mode->mode == m] *)
Definition mode_is (i : hostapd_iface) (m : hostapd_hw_mode) : bool :=
  match current_mode i with
  | Some md => bool_decide (hw_mode md = m)
  | None => false
  end.
