(* ===== verification/Dfs.v ===== *)
(** * Dynamic frequency selection

    The checks of [src/ap/dfs.c] on the channels of the current hardware mode:
    which channels a configuration uses, whether they need DFS, and the choice
    of a new channel. *)

From Stdlib Require Import ZArith Lia Sorting.Sorted.
From stdpp Require Import base option list numbers decidable.
From S2P Require Import Prelude CLib Common Wpabuf Ie Elems Channels Hapd.
Local Open Scope Z_scope.

(** ** The channels a configuration uses *)

(** The result and [*seg1]. *)
Definition dfs_get_used_n_chans (c : hostapd_config) : Z * Z :=
  let n_chans := if ieee80211n c && negb (Z.eqb (secondary_channel c) 0) then 2 else 1 in
  if ieee80211ac c then
    if decide (vht_oper_chwidth c = VHT_CHANWIDTH_USE_HT) then (n_chans, 0)
    else if decide (vht_oper_chwidth c = VHT_CHANWIDTH_80MHZ) then (4, 0)
    else if decide (vht_oper_chwidth c = VHT_CHANWIDTH_160MHZ) then (8, 0)
    else if decide (vht_oper_chwidth c = VHT_CHANWIDTH_80P80MHZ) then (4, 4)
    else (n_chans, 0)
  else (n_chans, 0).

Definition dfs_channel_available (c : hostapd_channel_data) (skip_radar : bool) : bool :=
  let dfs := Z.land (chan_flag c) HOSTAPD_CHAN_DFS_MASK in
  if skip_radar && has_flag (chan_flag c) HOSTAPD_CHAN_RADAR &&
     negb (Z.eqb dfs HOSTAPD_CHAN_DFS_AVAILABLE) then false
  else if has_flag (chan_flag c) HOSTAPD_CHAN_DISABLED then false
  else if has_flag (chan_flag c) HOSTAPD_CHAN_RADAR && Z.eqb dfs HOSTAPD_CHAN_DFS_UNAVAILABLE
  then false
  else true.

Definition allowed_40 : list Z := [36; 44; 52; 60; 100; 108; 116; 124; 132; 149; 157; 184; 192].
Definition allowed_80 : list Z := [36; 52; 100; 116; 132; 149].
Definition allowed_160 : list Z := [36; 100].

Definition dfs_is_chan_allowed (c : hostapd_channel_data) (n_chans : Z) : bool :=
  let allowed := if decide (n_chans = 2) then allowed_40
                 else if decide (n_chans = 4) then allowed_80
                 else if decide (n_chans = 8) then allowed_160 else [] in
  existsb (Z.eqb (chan_no c)) allowed.

(** The first channel from index [first_chan_idx] on with the frequency. *)
Definition dfs_get_chan_data (mode : hostapd_hw_modes) (freq : Z) (first_chan_idx : nat)
    : option hostapd_channel_data :=
  List.find (λ c, Z.eqb (chan_freq_mhz c) freq) (drop first_chan_idx (channels mode)).

(** The loop of [dfs_chan_range_available], for [n] channels from number [i]. *)
Fixpoint range_available (mode : hostapd_hw_modes) (first : hostapd_channel_data)
    (first_chan_idx n : nat) (i : Z) (skip_radar : bool) : bool :=
  match n with
  | O => true
  | S n =>
    match dfs_get_chan_data mode (chan_freq_mhz first + i * 20) first_chan_idx with
    | None => false
    | Some c => if negb (dfs_channel_available c skip_radar) then false
                else range_available mode first first_chan_idx n (i + 1) skip_radar
    end
  end.

Definition dfs_chan_range_available (mode : hostapd_hw_modes) (first_chan_idx num_chans : nat)
    (skip_radar : bool) : bool :=
  if decide (length (channels mode) < first_chan_idx + num_chans)%nat then false
  else match channels mode !! first_chan_idx with
       | None => false
       | Some first => range_available mode first first_chan_idx num_chans 0 skip_radar
       end.

(** [is_in_chanlist] is a test on the channel number alone; [in_acs_list] is the
    list of ranges of the configuration, when it has any. *)
Definition is_in_chanlist (acs_ch_list : list (Z * Z)) (c : hostapd_channel_data) : bool :=
  match acs_ch_list with
  | [] => true
  | _ => existsb (λ r, bool_decide (r.1 ≤ chan_no c ≤ r.2)) acs_ch_list
  end.

(** The channels the loop of [dfs_find_channel] numbers, in order: [chans] are
    those from index [i] on. *)
Fixpoint dfs_candidates (c : hostapd_config) (acs : list (Z * Z)) (mode : hostapd_hw_modes)
    (skip_radar : bool) (chans : list hostapd_channel_data) (i : nat) : list hostapd_channel_data :=
  match chans with
  | [] => []
  | ch :: chans =>
    let n_chans := (dfs_get_used_n_chans c).1 in
    let rest := dfs_candidates c acs mode skip_radar chans (S i) in
    if ieee80211n c && negb (Z.eqb (secondary_channel c) 0) && negb (dfs_is_chan_allowed ch n_chans)
    then rest
    else if negb (dfs_chan_range_available mode i (Z.to_nat n_chans) skip_radar) then rest
    else if negb (is_in_chanlist acs ch) then rest
    else ch :: rest
  end.

(** [dfs_find_channel]: with a place for the channel the result is the channel
    with number [idx] when there is one; otherwise it is the number of channels. *)
Definition dfs_find_channel (c : hostapd_config) (acs : list (Z * Z)) (mode : hostapd_hw_modes)
    (want : bool) (idx : Z) (skip_radar : bool) : Z * option hostapd_channel_data :=
  let cands := dfs_candidates c acs mode skip_radar (channels mode) 0 in
  match (if want && Z.leb 0 idx then cands !! Z.to_nat idx else None) with
  | Some ch => (idx, Some ch)
  | None => (zlen cands, None)
  end.

(** ** Is DFS required? *)

(** The index of the first channel with number [n]. *)
Definition chan_index (mode : hostapd_hw_modes) (n : Z) : Z :=
  match list_find (λ c, chan_no c = n) (channels mode) with
  | Some (i, _) => Z.of_nat i
  | None => -1
  end.

(** The result and [*seg1_start]. *)
Definition dfs_get_start_chan_idx (c : hostapd_config) (mode : hostapd_hw_modes) : Z * Z :=
  let channel_no := channel c in
  let channel_no := if ieee80211n c && Z.eqb (secondary_channel c) (-1)
                    then channel_no - 4 else channel_no in
  let '(channel_no, chan_seg1) :=
    if ieee80211ac c then
      if decide (vht_oper_chwidth c = VHT_CHANWIDTH_USE_HT) then (channel_no, -1)
      else if decide (vht_oper_chwidth c = VHT_CHANWIDTH_80MHZ) then
        (vht_oper_centr_freq_seg0_idx c - 6, -1)
      else if decide (vht_oper_chwidth c = VHT_CHANWIDTH_160MHZ) then
        (vht_oper_centr_freq_seg0_idx c - 14, -1)
      else if decide (vht_oper_chwidth c = VHT_CHANWIDTH_80P80MHZ) then
        (vht_oper_centr_freq_seg0_idx c - 6, vht_oper_centr_freq_seg1_idx c - 6)
      else (-1, -1)
    else (channel_no, -1) in
  let res := chan_index mode channel_no in
  if decide (res ≠ -1 ∧ -1 < chan_seg1) then
    let seg1_start := chan_index mode chan_seg1 in
    if decide (seg1_start = -1) then (-1, -1) else (res, seg1_start)
  else (res, -1).

(** The number of radar channels among [n] channels from [start] on; the array
    is not checked against its length. *)
Fixpoint dfs_check_chans_radar (mode : hostapd_hw_modes) (start n : nat) : outcome Z :=
  match n with
  | O => Ok 0
  | S n =>
    match channels mode !! start with
    | None => Undef OutOfBounds
    | Some c =>
      r ← dfs_check_chans_radar mode (S start) n;
      Ok (if has_flag (chan_flag c) HOSTAPD_CHAN_RADAR then 1 + r else r)
    end
  end.

Definition hostapd_is_dfs_required (c : hostapd_config) (i : hostapd_iface) : outcome Z :=
  match current_mode i with
  | None => Ok 0
  | Some mode =>
    if negb (ieee80211h c) || negb (mode_is i HOSTAPD_MODE_IEEE80211A) then Ok 0 else
    let '(start_chan_idx, start_chan_idx1) := dfs_get_start_chan_idx c mode in
    if decide (start_chan_idx = -1) then Ok (-1) else
    let '(n_chans, n_chans1) := dfs_get_used_n_chans c in
    res ← dfs_check_chans_radar mode (Z.to_nat start_chan_idx) (Z.to_nat n_chans);
    if decide (res ≠ 0) then Ok res
    else if decide (0 ≤ start_chan_idx1 ∧ 0 < n_chans1) then
      dfs_check_chans_radar mode (Z.to_nat start_chan_idx1) (Z.to_nat n_chans1)
    else Ok res
  end.

(** All the channels available, for the channels from [start] on. *)
Fixpoint dfs_check_chans_available (mode : hostapd_hw_modes) (start n : nat) : outcome bool :=
  match n with
  | O => Ok true
  | S n =>
    match channels mode !! start with
    | None => Undef OutOfBounds
    | Some c =>
      if has_flag (chan_flag c) HOSTAPD_CHAN_DISABLED then Ok false
      else if negb (has_flag (chan_flag c) HOSTAPD_CHAN_RADAR) then
        dfs_check_chans_available mode (S start) n
      else if negb (Z.eqb (Z.land (chan_flag c) HOSTAPD_CHAN_DFS_MASK) HOSTAPD_CHAN_DFS_AVAILABLE)
      then Ok false
      else dfs_check_chans_available mode (S start) n
    end
  end.

Fixpoint dfs_check_chans_unavailable (mode : hostapd_hw_modes) (start n : nat) : outcome Z :=
  match n with
  | O => Ok 0
  | S n =>
    match channels mode !! start with
    | None => Undef OutOfBounds
    | Some c =>
      r ← dfs_check_chans_unavailable mode (S start) n;
      let r := if has_flag (chan_flag c) HOSTAPD_CHAN_DISABLED then 1 + r else r in
      Ok (if Z.eqb (Z.land (chan_flag c) HOSTAPD_CHAN_DFS_MASK) HOSTAPD_CHAN_DFS_UNAVAILABLE
          then 1 + r else r)
    end
  end.

(** ** Lemmas *)

(** [n] channels from index [start] on. *)
Definition chans_at (mode : hostapd_hw_modes) (start n : nat) : list hostapd_channel_data :=
  take n (drop start (channels mode)).

Definition is_radar (c : hostapd_channel_data) : bool := has_flag (chan_flag c) HOSTAPD_CHAN_RADAR.

Lemma check_radar_spec mode n : ∀ start,
  dfs_check_chans_radar mode start n =
  if decide (n = O ∨ start + n ≤ length (channels mode))%nat
  then Ok (zlen (List.filter is_radar (chans_at mode start n)))
  else Undef OutOfBounds.
Proof.
  induction n as [|n IH]; intros start; cbn [dfs_check_chans_radar].
  { rewrite decide_True by tauto. by unfold chans_at. }
  destruct (channels mode !! start) as [c|] eqn:Hc.
  - pose proof (lookup_lt_Some _ _ _ Hc). rewrite IH. unfold chans_at.
    rewrite (drop_S _ _ _ Hc). cbn [take List.filter]. fold (is_radar c).
    destruct (decide (n = O ∨ S start + n ≤ _)%nat) as [Hd|Hd].
    + rewrite decide_True by lia. cbn [mbind outcome_bind]. destruct (is_radar c); [|done].
      by rewrite zlen_cons.
    + by rewrite decide_False by lia.
  - apply lookup_ge_None_1 in Hc. by rewrite decide_False by lia.
Qed.

Lemma filter_pos {A} (f : A → bool) l :
  0 < zlen (List.filter f l) ↔ ∃ x, In x l ∧ f x = true.
Proof.
  split.
  - destruct (List.filter f l) as [|x t] eqn:Hf; [done|]. intros _.
    assert (In x (List.filter f l)) as [? ?]%filter_In by (rewrite Hf; by left). by exists x.
  - intros (x & Hx & Hfx). assert (In x (List.filter f l)) as H by (by apply filter_In).
    destruct (List.filter f l) as [|y t]; [done|]. rewrite zlen_cons. pose proof (zlen_nonneg t). lia.
Qed.

(** ** Which channels DFS may choose

    The choice told without the functions of [dfs.c]. *)

(** The number of 20 MHz channels the configured width takes. *)
Inductive width_chans (c : hostapd_config) : Z → Prop :=
| width_20 : (ieee80211ac c = true → vht_oper_chwidth c ≠ 1 ∧ vht_oper_chwidth c ≠ 2 ∧
                                     vht_oper_chwidth c ≠ 3) →
    (ieee80211n c = true → secondary_channel c = 0) → width_chans c 1
| width_40 : (ieee80211ac c = true → vht_oper_chwidth c ≠ 1 ∧ vht_oper_chwidth c ≠ 2 ∧
                                     vht_oper_chwidth c ≠ 3) →
    ieee80211n c = true → secondary_channel c ≠ 0 → width_chans c 2
| width_80 : ieee80211ac c = true → vht_oper_chwidth c = 1 → width_chans c 4
| width_160 : ieee80211ac c = true → vht_oper_chwidth c = 2 → width_chans c 8
| width_80p80 : ieee80211ac c = true → vht_oper_chwidth c = 3 → width_chans c 4.

(** The control channels of 40, 80 and 160 MHz. *)
Definition width_start (n chan : Z) : Prop :=
  (n = 2 ∧ In chan [36; 44; 52; 60; 100; 108; 116; 124; 132; 149; 157; 184; 192]) ∨
  (n = 4 ∧ In chan [36; 52; 100; 116; 132; 149]) ∨
  (n = 8 ∧ In chan [36; 100]).

(** The flags of a channel: bit 0 disabled, bit 3 radar detection; bits 8 and 9
    are the state of the availability check, 1 and 0 unavailable, 1 and 1
    available. A radar channel must not be unavailable, and when there is no
    time for the check it must be available already. *)
Definition chan_usable (skip_radar : bool) (x : hostapd_channel_data) : Prop :=
  Z.testbit (chan_flag x) 0 = false ∧
  (Z.testbit (chan_flag x) 3 = true →
     (Z.testbit (chan_flag x) 9 = true → Z.testbit (chan_flag x) 8 = true) ∧
     (skip_radar = true → Z.testbit (chan_flag x) 8 = true ∧ Z.testbit (chan_flag x) 9 = true)).

(** [x] is the first channel from index [k] on with the frequency. *)
Definition first_from (mode : hostapd_hw_modes) (k : nat) (freq : Z) (x : hostapd_channel_data) : Prop :=
  ∃ i, (k ≤ i)%nat ∧ channels mode !! i = Some x ∧ chan_freq_mhz x = freq ∧
    ∀ j y, (k ≤ j < i)%nat → channels mode !! j = Some y → chan_freq_mhz y ≠ freq.

(** The access point may move to the channel with index [k]. *)
Definition usable_start (c : hostapd_config) (acs : list (Z * Z)) (mode : hostapd_hw_modes)
    (skip_radar : bool) (n : Z) (k : nat) : Prop :=
  ∃ ch, channels mode !! k = Some ch ∧
    (ieee80211n c = true → secondary_channel c ≠ 0 → width_start n (chan_no ch)) ∧
    (acs = [] ∨ ∃ lo hi, In (lo, hi) acs ∧ lo ≤ chan_no ch ≤ hi) ∧
    Z.of_nat k + n ≤ zlen (channels mode) ∧
    ∀ j, 0 ≤ j < n → ∃ x, first_from mode k (chan_freq_mhz ch + 20 * j) x ∧
                          chan_usable skip_radar x.

Lemma width_chans_used c n : width_chans c n ↔ (dfs_get_used_n_chans c).1 = n.
Proof.
  unfold dfs_get_used_n_chans, VHT_CHANWIDTH_USE_HT, VHT_CHANWIDTH_80MHZ, VHT_CHANWIDTH_160MHZ,
    VHT_CHANWIDTH_80P80MHZ.
  split.
  - intros [H1 H2|H1 H2 H3|H1 H2|H1 H2|H1 H2].
    + destruct (ieee80211n c); cbn [andb];
        [rewrite H2 by done; cbn [Z.eqb negb]|];
        (destruct (ieee80211ac c); [|done]); specialize (H1 eq_refl); repeat case_decide; try done; lia.
    + rewrite H2. destruct (Z.eqb_spec (secondary_channel c) 0); [done|]. cbn [andb negb].
      destruct (ieee80211ac c); [|done]. specialize (H1 eq_refl). repeat case_decide; try done; lia.
    + rewrite H1, H2. done.
    + rewrite H1, H2. done.
    + rewrite H1, H2. done.
  - intros <-.
    assert (∀ b, (ieee80211ac c = true → vht_oper_chwidth c ≠ 1 ∧ vht_oper_chwidth c ≠ 2 ∧
                vht_oper_chwidth c ≠ 3) →
      b = ieee80211n c && negb (Z.eqb (secondary_channel c) 0) → width_chans c (if b then 2 else 1)) as Hw.
    { intros b Hac ->. destruct (ieee80211n c) eqn:Hn, (Z.eqb_spec (secondary_channel c) 0);
        cbn [andb negb]; [apply width_20|apply width_40|apply width_20|apply width_20]; first [exact Hac|congruence]. }
    destruct (ieee80211ac c) eqn:Hac; [|by apply Hw].
    repeat case_decide; cbn [fst]; try (apply Hw; [intros; lia|done]);
      [by apply width_80|by apply width_160|by apply width_80p80].
Qed.

Lemma land_pow2 f k : 0 ≤ k → Z.land f (2 ^ k) = if Z.testbit f k then 2 ^ k else 0.
Proof.
  intros Hk. apply Z.bits_inj'. intros i Hi. rewrite Z.land_spec, Z.pow2_bits_eqb by done.
  destruct (Z.eqb_spec k i) as [->|Hne].
  - destruct (Z.testbit f i); [by rewrite Z.pow2_bits_true|by rewrite Z.bits_0].
  - rewrite andb_false_r. destruct (Z.testbit f k); [by rewrite Z.pow2_bits_false|by rewrite Z.bits_0].
Qed.

Lemma has_flag_pow2 f k : 0 ≤ k → has_flag f (2 ^ k) = Z.testbit f k.
Proof.
  intros Hk. unfold has_flag. rewrite land_pow2 by done.
  destruct (Z.testbit f k); [|done]. destruct (Z.eqb_spec (2 ^ k) 0) as [H|H]; [|done].
  pose proof (Z.pow_pos_nonneg 2 k). lia.
Qed.

Lemma land_dfs_mask f :
  Z.land f HOSTAPD_CHAN_DFS_MASK =
  (if Z.testbit f 8 then 256 else 0) + (if Z.testbit f 9 then 512 else 0).
Proof.
  change HOSTAPD_CHAN_DFS_MASK with (Z.lor (2 ^ 8) (2 ^ 9)).
  rewrite Z.land_lor_distr_r, !land_pow2 by done.
  destruct (Z.testbit f 8), (Z.testbit f 9); reflexivity.
Qed.

Lemma channel_available_usable x skip :
  dfs_channel_available x skip = true ↔ chan_usable skip x.
Proof.
  unfold dfs_channel_available, chan_usable. cbn zeta. rewrite land_dfs_mask.
  change HOSTAPD_CHAN_RADAR with (2 ^ 3). change HOSTAPD_CHAN_DISABLED with (2 ^ 0).
  rewrite !has_flag_pow2 by done. unfold HOSTAPD_CHAN_DFS_AVAILABLE, HOSTAPD_CHAN_DFS_UNAVAILABLE.
  destruct skip, (Z.testbit _ 0), (Z.testbit _ 3), (Z.testbit _ 8), (Z.testbit _ 9); cbn;
    (split; [intros H; try discriminate H; repeat split; intros; congruence|]);
    intros [HD H]; try discriminate HD; try reflexivity;
    destruct (H eq_refl) as [HA HB]; first [discriminate (HA eq_refl) | by destruct (HB eq_refl)].
Qed.

Lemma chan_allowed_start x n : dfs_is_chan_allowed x n = true ↔ width_start n (chan_no x).
Proof.
  unfold dfs_is_chan_allowed, width_start.
  assert (∀ l, existsb (Z.eqb (chan_no x)) l = true ↔ In (chan_no x) l) as He.
  { intros l. rewrite existsb_exists. split.
    - by intros (y & Hy & ->%Z.eqb_eq).
    - intros Hin. exists (chan_no x). by rewrite Z.eqb_refl. }
  rewrite He. unfold allowed_40, allowed_80, allowed_160.
  repeat case_decide; subst; intuition (try lia; try done).
Qed.

Lemma in_chanlist_spec acs x :
  is_in_chanlist acs x = true ↔ acs = [] ∨ ∃ lo hi, In (lo, hi) acs ∧ lo ≤ chan_no x ≤ hi.
Proof.
  unfold is_in_chanlist. destruct acs as [|p acs]; [split; [by left|done]|].
  rewrite existsb_exists. split.
  - intros ([lo hi] & Hin & H%bool_decide_eq_true). right. by exists lo, hi.
  - intros [?|(lo & hi & Hin & H)]; [done|]. exists (lo, hi). by rewrite bool_decide_eq_true.
Qed.

Lemma get_chan_data_first mode freq k x :
  dfs_get_chan_data mode freq k = Some x ↔ first_from mode k freq x.
Proof.
  unfold dfs_get_chan_data, first_from.
  assert (∀ l, List.find (λ c, Z.eqb (chan_freq_mhz c) freq) l = Some x ↔
            ∃ i, l !! i = Some x ∧ chan_freq_mhz x = freq ∧
                 ∀ j y, (j < i)%nat → l !! j = Some y → chan_freq_mhz y ≠ freq) as Hl.
  { induction l as [|y l IH]; cbn [List.find]; [split; [done|by intros (i & ? & _)]|].
    destruct (Z.eqb_spec (chan_freq_mhz y) freq) as [Hy|Hy].
    - split.
      + intros [= ->]. exists O. split_and!; [done|done|lia].
      + intros ([|i] & Hi & _ & Hf); [exact Hi|]. destruct (Hf O y); [lia|done|done].
    - rewrite IH. split.
      + intros (i & Hi & Hx & Hf). exists (S i). split_and!; [done|done|].
        intros [|j] z Hj Hz; [by injection Hz as <-|]. apply (Hf j); [lia|done].
      + intros ([|i] & Hi & Hx & Hf); [injection Hi as ->; done|]. exists i.
        split_and!; [done|done|]. intros j z Hj. apply (Hf (S j)). lia. }
  rewrite Hl. split.
  - intros (i & Hi & Hx & Hf). rewrite lookup_drop in Hi. exists (k + i)%nat.
    split_and!; [lia|done|done|]. intros j y Hj Hy. apply (Hf (j - k)%nat); [lia|].
    rewrite lookup_drop. by replace (k + (j - k))%nat with j by lia.
  - intros (i & Hk & Hi & Hx & Hf). exists (i - k)%nat. rewrite lookup_drop.
    replace (k + (i - k))%nat with i by lia. split_and!; [done|done|].
    intros j y Hj. rewrite lookup_drop. apply Hf. lia.
Qed.

Lemma range_available_spec mode first i0 n : ∀ i skip,
  range_available mode first i0 n i skip = true ↔
  ∀ j, (j < n)%nat → ∃ c,
    dfs_get_chan_data mode (chan_freq_mhz first + (i + Z.of_nat j) * 20) i0 = Some c ∧
    dfs_channel_available c skip = true.
Proof.
  induction n as [|n IH]; intros i skip; cbn [range_available]; [split; [lia|done]|].
  split.
  - intros H j Hj. destruct (dfs_get_chan_data _ _ _) as [c|] eqn:Hc; [|done].
    destruct (dfs_channel_available c skip) eqn:Ha; [|done]. cbn [negb] in H.
    destruct j as [|j].
    + exists c. by rewrite Z.add_0_r.
    + destruct (proj1 (IH _ _) H j) as (c' & Hf & Ha'); [lia|]. exists c'.
      replace (i + Z.of_nat (S j)) with (i + 1 + Z.of_nat j) by lia. done.
  - intros H. destruct (H O) as (c & Hc & Ha); [lia|]. rewrite Z.add_0_r in Hc.
    rewrite Hc, Ha. cbn [negb]. apply IH. intros j Hj. destruct (H (S j)) as (c' & Hc'); [lia|].
    exists c'. by replace (i + 1 + Z.of_nat j) with (i + Z.of_nat (S j)) by lia.
Qed.

Lemma chan_range_spec mode k ch n skip :
  channels mode !! k = Some ch → 0 ≤ n →
  dfs_chan_range_available mode k (Z.to_nat n) skip = true ↔
  Z.of_nat k + n ≤ zlen (channels mode) ∧
  ∀ j, 0 ≤ j < n → ∃ x, first_from mode k (chan_freq_mhz ch + 20 * j) x ∧ chan_usable skip x.
Proof.
  intros Hk Hn. unfold dfs_chan_range_available, zlen. rewrite Hk.
  case_decide as Hd; [split; [done|lia]|]. rewrite range_available_spec. split.
  - intros H. split; [lia|]. intros j Hj. destruct (H (Z.to_nat j)) as (x & Hx & Ha); [lia|].
    exists x. rewrite <- get_chan_data_first, <- channel_available_usable.
    by replace (chan_freq_mhz ch + 20 * j)
      with (chan_freq_mhz ch + (0 + Z.of_nat (Z.to_nat j)) * 20) by lia.
  - intros [_ H] j Hj. destruct (H (Z.of_nat j)) as (x & Hx & Ha); [lia|]. exists x.
    rewrite get_chan_data_first, channel_available_usable.
    by replace (chan_freq_mhz ch + (0 + Z.of_nat j) * 20)
      with (chan_freq_mhz ch + 20 * Z.of_nat j) by lia.
Qed.

Lemma width_chans_nonneg c n : width_chans c n → 0 ≤ n.
Proof. destruct 1; lia. Qed.

Lemma candidate_usable c acs mode skip n k ch :
  width_chans c n → channels mode !! k = Some ch →
  (if ieee80211n c && negb (Z.eqb (secondary_channel c) 0) && negb (dfs_is_chan_allowed ch n)
   then false
   else if negb (dfs_chan_range_available mode k (Z.to_nat n) skip) then false
   else is_in_chanlist acs ch) = true ↔ usable_start c acs mode skip n k.
Proof.
  intros Hn Hk. unfold usable_start.
  transitivity ((ieee80211n c = true → secondary_channel c ≠ 0 → dfs_is_chan_allowed ch n = true) ∧
    is_in_chanlist acs ch = true ∧ dfs_chan_range_available mode k (Z.to_nat n) skip = true).
  - destruct (ieee80211n c), (Z.eqb_spec (secondary_channel c) 0), (dfs_is_chan_allowed ch n),
      (dfs_chan_range_available _ _ _ _), (is_in_chanlist acs ch); cbn; intuition congruence.
  - rewrite (chan_range_spec mode k ch n skip Hk) by (by eapply width_chans_nonneg).
    rewrite chan_allowed_start, in_chanlist_spec. split.
    + intros (H1 & H2 & H3 & H4). by exists ch.
    + intros (ch' & Hk' & H1 & H2 & H3 & H4). rewrite Hk in Hk'. by injection Hk' as <-.
Qed.

(** The candidates are the channels the access point may move to, in order. *)
Lemma candidates_spec c acs mode skip n chans i :
  width_chans c n → chans = drop i (channels mode) →
  ∃ ks, StronglySorted lt ks ∧
    (∀ k, In k ks ↔ (i ≤ k)%nat ∧ usable_start c acs mode skip n k) ∧
    Forall2 (λ k ch, channels mode !! k = Some ch) ks (dfs_candidates c acs mode skip chans i).
Proof.
  intros Hn. revert i. induction chans as [|x chans IH]; intros i Heq; cbn [dfs_candidates].
  - exists []. split; [constructor|]. split; [|constructor]. intros k. split; [done|].
    intros [Hk (ch & Hc & _)]. apply (f_equal length) in Heq. rewrite length_drop in Heq.
    apply lookup_lt_Some in Hc. cbn in Heq. lia.
  - assert (channels mode !! i = Some x ∧ chans = drop (S i) (channels mode)) as [Hx Hd].
    { destruct (channels mode !! i) as [y|] eqn:Hy.
      - rewrite (drop_S _ _ _ Hy) in Heq. by injection Heq as -> ->.
      - apply lookup_ge_None_1 in Hy. by rewrite drop_ge in Heq. }
    destruct (IH (S i) Hd) as (ks & Hs & Hks & Hf).
    rewrite (proj1 (width_chans_used c n) Hn).
    pose proof (candidate_usable c acs mode skip n i x Hn Hx) as Hu.
    assert (¬ usable_start c acs mode skip n i →
      ∃ ks, StronglySorted lt ks ∧
        (∀ k, In k ks ↔ (i ≤ k)%nat ∧ usable_start c acs mode skip n k) ∧
        Forall2 (λ k ch, channels mode !! k = Some ch) ks (dfs_candidates c acs mode skip chans (S i)))
      as Hskip.
    { intros Hno. exists ks. split; [done|]. split; [|done]. intros k. rewrite Hks. split.
      - intros [??]. split; [lia|done].
      - intros [Hk Huk]. split; [|done]. destruct (decide (k = i)) as [->|]; [done|lia]. }
    assert (usable_start c acs mode skip n i →
      ∃ ks, StronglySorted lt ks ∧
        (∀ k, In k ks ↔ (i ≤ k)%nat ∧ usable_start c acs mode skip n k) ∧
        Forall2 (λ k ch, channels mode !! k = Some ch) ks
          (x :: dfs_candidates c acs mode skip chans (S i))) as Htake.
    { intros Hyes. exists (i :: ks). split.
      - constructor; [done|]. apply List.Forall_forall. intros k Hk. apply Hks in Hk. lia.
      - split; [|by constructor]. intros k. cbn [In]. rewrite Hks. split.
        + intros [<-|[??]]; (split; [lia|done]).
        + intros [Hk Huk]. destruct (decide (i = k)) as [->|]; [by left|right]. split; [lia|done]. }
    destruct (ieee80211n c && _ && _); [apply Hskip; by rewrite <- Hu|].
    destruct (negb (dfs_chan_range_available _ _ _ _)); [apply Hskip; by rewrite <- Hu|].
    destruct (is_in_chanlist acs x); cbn [negb]; [by apply Htake, Hu|apply Hskip; by rewrite <- Hu].
Qed.

(** ** Properties *)

(** C14. [dfs_find_channel] numbers exactly the channels the access point may
    move to, in the order of the table: those the configured ranges include, that
    can start a channel of the configured width, and from which every 20 MHz
    channel of that width exists and is usable (not disabled, not a radar channel
    found unavailable, and when radar channels are to be skipped none whose
    check is not done). The result is the channel with the number asked for when there is one,
    and otherwise how many there are. *)
Theorem dfs_find_channel_usable c acs mode want idx skip n :
  width_chans c n →
  ∃ ks, StronglySorted lt ks ∧ (∀ k, In k ks ↔ usable_start c acs mode skip n k) ∧
    match (if want && Z.leb 0 idx then ks !! Z.to_nat idx else None) with
    | Some k => ∃ ch, channels mode !! k = Some ch ∧
                      dfs_find_channel c acs mode want idx skip = (idx, Some ch)
    | None => dfs_find_channel c acs mode want idx skip = (zlen ks, None)
    end.
Proof.
  intros Hn. destruct (candidates_spec c acs mode skip n (channels mode) O Hn eq_refl)
    as (ks & Hs & Hks & Hf).
  exists ks. split; [done|]. split; [intros k; rewrite Hks; split; [tauto|split; [lia|done]]|].
  unfold dfs_find_channel. unfold zlen. rewrite <- (Forall2_length Hf).
  destruct (want && Z.leb 0 idx); [|done]. destruct (ks !! Z.to_nat idx) as [k|] eqn:Hk.
  - destruct (Forall2_lookup_l _ _ _ _ _ Hf Hk) as (ch & -> & Hch). by exists ch.
  - apply lookup_ge_None_1 in Hk. rewrite (Forall2_length Hf) in Hk.
    by rewrite (lookup_ge_None_2 _ _ Hk).
Qed.

(** [hostapd_is_dfs_required] on a 5 GHz configuration whose channels lie in
    the table of the mode: the result is positive exactly when one of the
    channels used (both segments for 80+80 MHz) is a radar channel, and never
    negative once the first channel is found. *)
Lemma hostapd_is_dfs_required_spec c i mode s s1 :
  current_mode i = Some mode → hw_mode mode = HOSTAPD_MODE_IEEE80211A → ieee80211h c = true →
  dfs_get_start_chan_idx c mode = (s, s1) → s ≠ -1 →
  let '(n, n1) := dfs_get_used_n_chans c in
  let two := bool_decide (0 ≤ s1 ∧ 0 < n1) in
  (Z.to_nat s + Z.to_nat n ≤ length (channels mode))%nat →
  (two = true → Z.to_nat s1 + Z.to_nat n1 ≤ length (channels mode))%nat →
  ∃ r, hostapd_is_dfs_required c i = Ok r ∧ 0 ≤ r ∧
    (0 < r ↔ ∃ x, In x (chans_at mode (Z.to_nat s) (Z.to_nat n) ++
                        if two then chans_at mode (Z.to_nat s1) (Z.to_nat n1) else []) ∧
                  is_radar x = true).
Proof.
  intros Hm HA Hh Hs Hne. destruct (dfs_get_used_n_chans c) as [n n1] eqn:Hn. intros two Hb Hb1.
  unfold hostapd_is_dfs_required, mode_is. rewrite Hm, Hh, Hs, Hn.
  rewrite bool_decide_eq_true_2 by done. cbn [negb orb]. rewrite decide_False by done.
  rewrite !check_radar_spec.
  rewrite (decide_True (P := (Z.to_nat n = O ∨ Z.to_nat s + Z.to_nat n ≤ length (channels mode))%nat)) by lia.
  cbn [mbind outcome_bind]. set (r := zlen _).
  assert (0 ≤ r) by apply zlen_nonneg.
  assert (0 < r ↔ ∃ x, In x (chans_at mode (Z.to_nat s) (Z.to_nat n)) ∧ is_radar x = true) as Hr
    by apply filter_pos.
  clearbody r. setoid_rewrite in_app_iff.
  destruct (decide (r ≠ 0)) as [Hr0|Hr0].
  { exists r. split_and!; [done|done|]. split; [|lia]. intros (x & Hx & Hf)%Hr. eauto. }
  assert (¬ ∃ x, In x (chans_at mode (Z.to_nat s) (Z.to_nat n)) ∧ is_radar x = true) as Hno
    by (intros H'%Hr; lia).
  subst two. destruct (decide (0 ≤ s1 ∧ 0 < n1)) as [H2|H2].
  - rewrite bool_decide_eq_true_2 in Hb1 |- * by done. specialize (Hb1 eq_refl).
    rewrite decide_True by lia. eexists. split; [done|]. split; [apply zlen_nonneg|].
    rewrite filter_pos. split; intros (x & Hx & Hf); [eauto|].
    destruct Hx as [Hx|Hx]; [|eauto]. destruct Hno; eauto.
  - rewrite bool_decide_eq_false_2 by done. exists r. split_and!; [done|done|].
    split; [lia|]. intros (x & [Hx|[]] & Hf). destruct Hno; eauto.
Qed.

(** ** Examples *)

(** Channels 36 to 48, 52 with radar detection and 56 without, 80 MHz apart. *)
Definition chan_example (n flag : Z) : hostapd_channel_data := mk_chan n (5000 + 5 * n) flag 20.

Definition mode_example : hostapd_hw_modes :=
  mk_hw_modes HOSTAPD_MODE_IEEE80211A
    [chan_example 36 0; chan_example 40 0; chan_example 44 0; chan_example 48 0;
     chan_example 52 0x108; chan_example 56 0x108].

(** An 802.11h configuration on channel [n] without HT. *)
Definition config_example (n : Z) : hostapd_config :=
  mk_config n 100 SHORT_PREAMBLE true [85; 83; 32] true (-1) false false 0 false false false 0 0 0
    false (replicate 4 (mk_wmm_ac 4 10 3 0 0)) 0 0 true.

Definition iface_example : hostapd_iface :=
  mk_iface (Some mode_example) (Some (replicate 8 (mk_rate 60 1))) 0 5180 false 0 0 0 0 0 [] [] [] 0.

Lemma dfs_find_channel_usable_witness :
  width_chans (config_example 36) 1 ∧
  dfs_find_channel (config_example 36) [(40, 48)] mode_example true 1 true =
    (1, Some (chan_example 44 0)) ∧
  ∃ k, channels mode_example !! k = Some (chan_example 44 0) ∧
       usable_start (config_example 36) [(40, 48)] mode_example true 1 k.
Proof.
  assert (width_chans (config_example 36) 1) as Hw by (apply width_20; discriminate).
  assert (dfs_find_channel (config_example 36) [(40, 48)] mode_example true 1 true =
            (1, Some (chan_example 44 0))) as H by reflexivity.
  split; [exact Hw|]. split; [exact H|].
  destruct (dfs_find_channel_usable (config_example 36) [(40, 48)] mode_example true 1 true 1 Hw)
    as (ks & _ & Hks & Hm).
  cbn [andb Z.leb Z.compare] in Hm.
  destruct (ks !! Z.to_nat 1) as [k|] eqn:Hk; rewrite H in Hm; [|discriminate Hm].
  destruct Hm as (ch & Hch & [= <-]). exists k. split; [exact Hch|].
  apply Hks, list_elem_of_In. exact (list_elem_of_lookup_2 _ _ _ Hk).
Defined.

Lemma hostapd_is_dfs_required_spec_witness :
  dfs_get_start_chan_idx (config_example 52) mode_example = (4, -1) ∧
  ∃ r, hostapd_is_dfs_required (config_example 52) iface_example = Ok r ∧ 0 ≤ r ∧
    (0 < r ↔ ∃ x, In x [chan_example 52 0x108] ∧ is_radar x = true).
Proof.
  assert (dfs_get_start_chan_idx (config_example 52) mode_example = (4, -1)) as H by reflexivity.
  split; [exact H|].
  apply (hostapd_is_dfs_required_spec (config_example 52) iface_example mode_example 4 (-1));
    [reflexivity|reflexivity|reflexivity|exact H|lia|cbn; lia|discriminate].
Defined.
