(* ===== verification/ProbeResp.v ===== *)
(** * Probe responses

    [hostapd_gen_probe_resp] of [src/ap/beacon.c] and the functions that add its
    elements (also in [src/ap/ieee802_11.c], [src/ap/ieee802_11_shared.c] and
    [src/ap/wmm.c]), in a build without 802.11n and 802.11ac, P2P, WPS, HS 2.0,
    MBO, FST, WNM and interworking. A function that writes at [eid] and returns
    the new position is modelled by the octets it adds; the buffer and its size
    are in [hostapd_gen_probe_resp], where every write is checked against the
    allocated size. *)

From Stdlib Require Import ZArith Lia.
From stdpp Require Import base option list numbers decidable.
From S2P Require Import Prelude CLib Common Wpabuf Ie Elems Channels Client Hapd Dfs.
Local Open Scope Z_scope.

(** ** Elements of [beacon.c] *)

Definition hostapd_eid_rm_enabled_capab (h : hostapd_data) (len : Z) : bytes :=
  let rm := radio_measurements (conf h) in
  if negb (existsb (λ b, negb (Z.eqb b 0)) (take RRM_CAPABILITIES_IE_LEN rm)) then []
  else if decide (len < 2 + Z.of_nat RRM_CAPABILITIES_IE_LEN) then []
  else WLAN_EID_RRM_ENABLED_CAPABILITIES :: Z.of_nat RRM_CAPABILITIES_IE_LEN ::
       take RRM_CAPABILITIES_IE_LEN rm.

Definition hostapd_eid_bss_load (h : hostapd_data) (len : Z) : bytes :=
  if decide (len < 2 + 5) then []
  else if bss_load_update_period (conf h) then
    [WLAN_EID_BSS_LOAD; 5] ++ WPA_PUT_LE16 (num_sta h) ++ [u8 (channel_utilization (iface h))] ++
    WPA_PUT_LE16 0
  else [].

Definition ERP_INFO_NON_ERP_PRESENT : Z := 1.
Definition ERP_INFO_USE_PROTECTION : Z := 2.
Definition ERP_INFO_BARKER_PREAMBLE_MODE : Z := 4.

Definition ieee802_11_erp_info (h : hostapd_data) : Z :=
  let i := iface h in
  if negb (mode_is i HOSTAPD_MODE_IEEE80211G) then 0 else
  let erp := 0 in
  let erp := if olbc i then Z.lor erp ERP_INFO_USE_PROTECTION else erp in
  let erp := if decide (0 < num_sta_non_erp i)
             then Z.lor erp (Z.lor ERP_INFO_NON_ERP_PRESENT ERP_INFO_USE_PROTECTION) else erp in
  if decide (0 < num_sta_no_short_preamble i ∨ preamble (iconf h) = LONG_PREAMBLE)
  then Z.lor erp ERP_INFO_BARKER_PREAMBLE_MODE else erp.

Definition hostapd_eid_ds_params (h : hostapd_data) : bytes :=
  [WLAN_EID_DS_PARAMS; 1; channel (iconf h)].

Definition hostapd_eid_erp_info (h : hostapd_data) : bytes :=
  if negb (mode_is (iface h) HOSTAPD_MODE_IEEE80211G) then []
  else [WLAN_EID_ERP_INFO; 1; ieee802_11_erp_info h].

Definition hostapd_eid_pwr_constraint (h : hostapd_data) : outcome bytes :=
  let c := iconf h in
  if negb (mode_is (iface h) HOSTAPD_MODE_IEEE80211A) then Ok []
  else if has_flag (drv_flags (iface h)) WPA_DRIVER_FLAGS_DFS_OFFLOAD then Ok []
  else if negb (ieee80211h c) && Z.eqb (local_pwr_constraint c) (-1) then Ok []
  else
    dfs ← hostapd_is_dfs_required c (iface h);
    let dfs := if decide (dfs < 0) then 0 else dfs in
    if decide (dfs = 0 ∧ local_pwr_constraint c = -1) then Ok [] else
    let local_pwr := if decide (local_pwr_constraint c = -1) then 3 else 0 in
    Ok [WLAN_EID_PWR_CONSTRAINT; 1;
        if decide (local_pwr ≠ 0) then local_pwr else u8 (local_pwr_constraint c)].

(** The octets [hostapd_eid_country_add] adds when there is room for them. *)
Definition hostapd_eid_country_add (room chan_spacing : Z) (start prev : hostapd_channel_data) : bytes :=
  if decide (room < 3) then []
  else [u8 (chan_no start); u8 (Z.quot (chan_no prev - chan_no start) chan_spacing + 1);
        u8 (max_tx_power start)].

(** The loop over the channels and the group after it: [acc] holds what is
    written after the length octet, [group] the variables [start] and [prev]. *)
Fixpoint country_groups (max_len chan_spacing : Z) (chans : list hostapd_channel_data)
    (group : option (hostapd_channel_data * hostapd_channel_data)) (acc : bytes) : bytes :=
  match chans with
  | [] =>
    match group with
    | Some (start, prev) =>
      acc ++ hostapd_eid_country_add (max_len - 2 - zlen acc) chan_spacing start prev
    | None => acc
    end
  | c :: chans =>
    if has_flag (chan_flag c) HOSTAPD_CHAN_DISABLED then
      country_groups max_len chan_spacing chans group acc
    else match group with
         | Some (start, prev) =>
           if decide (chan_no prev + chan_spacing = chan_no c ∧ max_tx_power start = max_tx_power c)
           then country_groups max_len chan_spacing chans (Some (start, c)) acc
           else country_groups max_len chan_spacing chans (Some (c, c))
                  (acc ++ hostapd_eid_country_add (max_len - 2 - zlen acc) chan_spacing start prev)
         | None => country_groups max_len chan_spacing chans (Some (c, c)) acc
         end
  end.

Definition hostapd_eid_country (h : hostapd_data) (max_len : Z) : bytes :=
  match current_mode (iface h) with
  | None => []
  | Some mode =>
    if negb (ieee80211d (iconf h)) || bool_decide (max_len < 6) then [] else
    let chan_spacing := if decide (hw_mode mode = HOSTAPD_MODE_IEEE80211A) then 4 else 1 in
    let body := country_groups max_len chan_spacing (channels mode) None (take 3 (country (iconf h))) in
    let len := 2 + zlen body in
    if Z.odd len then
      if decide (max_len - len < 1) then []
      else WLAN_EID_COUNTRY :: u8 (len + 1 - 2) :: body ++ [0]
    else WLAN_EID_COUNTRY :: u8 (len - 2) :: body
  end.

Definition hostapd_eid_wpa (h : hostapd_data) (len : Z) : bytes :=
  match wpa_ie_ h with
  | None => []
  | Some ie => if decide (len < zlen ie) then [] else ie
  end.

Definition hostapd_eid_csa (h : hostapd_data) : bytes :=
  if decide (cs_channel h = 0) then []
  else [WLAN_EID_CHANNEL_SWITCH; 3; u8 (cs_block_tx h); u8 (cs_channel h); u8 (cs_count h)].

Definition hostapd_eid_ecsa (h : hostapd_data) : bytes :=
  if decide (cs_channel h = 0 ∨ cs_oper_class (iface h) = 0) then []
  else [WLAN_EID_EXT_CHANSWITCH_ANN; 4; u8 (cs_block_tx h); u8 (cs_oper_class (iface h));
        u8 (cs_channel h); u8 (cs_count h)].

Definition hostapd_eid_supported_op_classes (h : hostapd_data) : bytes :=
  if negb (has_flag (drv_flags (iface h)) WPA_DRIVER_FLAGS_AP_CSA) || Z.eqb (freq (iface h)) 0
  then []
  else match ieee80211_freq_to_channel_ext (u32 (freq (iface h))) (secondary_channel (iconf h))
               (vht_oper_chwidth (iconf h)) with
       | None => []
       | Some (_, op_class, _) => [WLAN_EID_SUPPORTED_OPERATING_CLASSES; 2; op_class; 0]
       end.

(** ** Rates and capabilities ([ieee802_11.c]) *)

Definition BSS_MEMBERSHIP_SELECTOR_VHT_PHY : Z := 126.
Definition BSS_MEMBERSHIP_SELECTOR_HT_PHY : Z := 127.

(** The octet of a rate. *)
Definition rate_octet (r : hostapd_rate_data) : Z :=
  let o := u8 (rate r / 5) in
  if has_flag (rate_flags r) HOSTAPD_RATE_BASIC then Z.lor o 0x80 else o.

Definition needs_ht (c : hostapd_config) : bool := ieee80211n c && require_ht c.
Definition needs_vht (c : hostapd_config) : bool := ieee80211ac c && require_vht c.

(** [num] before it is limited: the rates and the membership selectors. *)
Definition total_rates (c : hostapd_config) (rates : list hostapd_rate_data) : Z :=
  zlen rates + (if needs_ht c then 1 else 0) + (if needs_vht c then 1 else 0).

Definition hostapd_eid_supp_rates (h : hostapd_data) : bytes :=
  match current_rates (iface h) with
  | None => []
  | Some rates =>
    let c := iconf h in
    let num := total_rates c rates in
    let num := if decide (8 < num) then 8 else num in
    let octets := map rate_octet (take (Z.to_nat num) rates) in
    let count := zlen octets in
    let '(ht, count) := if needs_ht c && bool_decide (count < 8)
                        then ([Z.lor 0x80 BSS_MEMBERSHIP_SELECTOR_HT_PHY], count + 1)
                        else ([], count) in
    let vht := if needs_vht c && bool_decide (count < 8)
               then [Z.lor 0x80 BSS_MEMBERSHIP_SELECTOR_VHT_PHY] else [] in
    WLAN_EID_SUPP_RATES :: u8 num :: octets ++ ht ++ vht
  end.

Definition hostapd_eid_ext_supp_rates (h : hostapd_data) : bytes :=
  match current_rates (iface h) with
  | None => []
  | Some rates =>
    let c := iconf h in
    let num := total_rates c rates in
    if decide (num ≤ 8) then [] else
    let num := num - 8 in
    let used := take (Z.to_nat (num + 8)) rates in
    let count := zlen used in
    let octets := map rate_octet (drop 8 used) in
    let '(ht, count) := if needs_ht c
                        then (if decide (8 < count + 1)
                              then [Z.lor 0x80 BSS_MEMBERSHIP_SELECTOR_HT_PHY] else [], count + 1)
                        else ([], count) in
    let vht := if needs_vht c
               then if decide (8 < count + 1)
                    then [Z.lor 0x80 BSS_MEMBERSHIP_SELECTOR_VHT_PHY] else []
               else [] in
    WLAN_EID_EXT_SUPP_RATES :: u8 num :: octets ++ ht ++ vht
  end.

Definition WLAN_CAPABILITY_ESS : Z := 0x1.
Definition WLAN_CAPABILITY_PRIVACY : Z := 0x10.
Definition WLAN_CAPABILITY_SHORT_PREAMBLE : Z := 0x20.
Definition WLAN_CAPABILITY_SPECTRUM_MGMT : Z := 0x100.
Definition WLAN_CAPABILITY_SHORT_SLOT_TIME : Z := 0x400.
Definition IEEE80211_CAP_RRM : Z := 0x1000.

Definition hostapd_own_capab_info (h : hostapd_data) : outcome Z :=
  dfs ← hostapd_is_dfs_required (iconf h) (iface h);
  let dfs := if decide (dfs < 0) then 0 else dfs in
  let c := conf h in
  let capab := WLAN_CAPABILITY_ESS in
  let capab := if decide (num_sta_no_short_preamble (iface h) = 0 ∧
                          preamble (iconf h) = SHORT_PREAMBLE)
               then Z.lor capab WLAN_CAPABILITY_SHORT_PREAMBLE else capab in
  let privacy := wep_keys_set c in
  let privacy := if ieee802_1x c && (negb (Z.eqb (default_wep_key_len c) 0) ||
                                     negb (Z.eqb (individual_wep_key_len c) 0))
                 then true else privacy in
  let privacy := if wpa c then true else privacy in
  let capab := if privacy then Z.lor capab WLAN_CAPABILITY_PRIVACY else capab in
  let capab := if mode_is (iface h) HOSTAPD_MODE_IEEE80211G &&
                  Z.eqb (num_sta_no_short_slot_time (iface h)) 0
               then Z.lor capab WLAN_CAPABILITY_SHORT_SLOT_TIME else capab in
  let capab := if mode_is (iface h) HOSTAPD_MODE_IEEE80211A &&
                  (spectrum_mgmt_required (iconf h) || negb (Z.eqb dfs 0))
               then Z.lor capab WLAN_CAPABILITY_SPECTRUM_MGMT else capab in
  Ok (if existsb (λ b, negb (Z.eqb b 0)) (take RRM_CAPABILITIES_IE_LEN (radio_measurements c))
      then Z.lor capab IEEE80211_CAP_RRM else capab).

(** ** Extended capabilities and time ([ieee802_11_shared.c]) *)

Definition bit_if (b : bool) (m v : Z) : Z := if b then Z.lor v m else v.

Definition hostapd_ext_capab_byte (h : hostapd_data) (idx : Z) : Z :=
  let c := conf h in
  if decide (idx = 0) then
    bit_if (has_flag (drv_flags (iface h)) WPA_DRIVER_FLAGS_AP_CSA) 0x04
      (bit_if (obss_interval (iconf h)) 0x01 0)
  else if decide (idx = 1) then bit_if (proxy_arp c) 0x10 0
  else if decide (idx = 2) then bit_if (bss_transition c) 0x08 (bit_if (wnm_sleep_mode c) 0x02 0)
  else if decide (idx = 3) then
    bit_if (conf_interworking c) 0x80 (bit_if (Z.eqb (time_advertisement c) 2) 0x08 0)
  else if decide (idx = 4) then
    bit_if (has_flag (tdls c) TDLS_PROHIBIT_CHAN_SWITCH) 0x80
      (bit_if (has_flag (tdls c) TDLS_PROHIBIT) 0x40
         (bit_if (negb (Z.eqb (conf_qos_map_set_len c) 0)) 0x01 0))
  else if decide (idx = 6) then bit_if (utf8_ssid c) 0x01 0
  else if decide (idx = 8) then bit_if (ftm_initiator c) 0x80 (bit_if (ftm_responder c) 0x40 0)
  else 0.

(** The length the element starts with. *)
Definition ext_capab_len (h : hostapd_data) : Z :=
  let c := conf h in
  let len := 0 in
  let len := if has_flag (tdls c) (Z.lor TDLS_PROHIBIT TDLS_PROHIBIT_CHAN_SWITCH) then 5 else len in
  let len := if bool_decide (len < 4) && conf_interworking c then 4 else len in
  let len := if bool_decide (len < 3) && wnm_sleep_mode c then 3 else len in
  let len := if bool_decide (len < 1) && obss_interval (iconf h) then 1 else len in
  let len := if bool_decide (len < 7) && utf8_ssid c then 7 else len in
  let len := if bool_decide (len < 9) && (ftm_initiator c || ftm_responder c) then 9 else len in
  let capa_len := zlen (extended_capa (iface h)) in
  if decide (len < capa_len) then u8 capa_len else len.

(** Octet [i] of the element: the driver's capabilities replace the bits of the mask. *)
Definition ext_capab_octet (h : hostapd_data) (i : nat) : Z :=
  let b := hostapd_ext_capab_byte h (Z.of_nat i) in
  match extended_capa (iface h) !! i with
  | Some capa =>
    let mask := default 0 (extended_capa_mask (iface h) !! i) in
    u8 (Z.lor (Z.land b (Z.lnot mask)) capa)
  | None => b
  end.

(** [while (len > 0 && eid[1 + len] == 0) len--;] *)
Fixpoint trim_zeros (octets : bytes) : bytes :=
  match octets with
  | [] => []
  | x :: r =>
    match trim_zeros r with
    | [] => if decide (x = 0) then [] else [x]
    | r' => x :: r'
    end
  end.

(** The octets up to the position that is returned; [2 + ext_capab_len h] octets
    are written first. *)
Definition hostapd_eid_ext_capab (h : hostapd_data) : bytes :=
  let len := ext_capab_len h in
  if decide (len = 0) then [] else
  match trim_zeros (map (ext_capab_octet h) (seq 0 (Z.to_nat len))) with
  | [] => []
  | octets => WLAN_EID_EXT_CAPAB :: zlen octets :: octets
  end.

(** [struct os_tm] *)
Record os_tm := mk_tm { tm_sec : Z; tm_min : Z; tm_hour : Z; tm_day : Z; tm_month : Z; tm_year : Z }.

Section ops.
Context `{Malloc}.

(** [now] is what [os_get_time] and [os_gmtime] give, [None] when they fail. *)
Context (now : option os_tm).

Definition time_adv_elen : Z := 2 + 1 + 10 + 5 + 1.

(** The octets the function stores. *)
Definition time_adv_octets (tm : os_tm) (counter : Z) : bytes :=
  [WLAN_EID_TIME_ADVERTISEMENT; 1 + 10 + 5 + 1; 2] ++ WPA_PUT_LE16 (tm_year tm) ++
  [u8 (tm_month tm); u8 (tm_day tm); u8 (tm_hour tm); u8 (tm_min tm); u8 (tm_sec tm)] ++
  WPA_PUT_LE16 0 ++ [0; 0; 0; 0; 0; 0; u8 counter].

Definition hostapd_update_time_adv (h : hostapd_data) : outcome (Z * hostapd_data) :=
  if decide (time_advertisement (conf h) ≠ 2) then Ok (0, h) else
  match now with
  | None => Ok (-1, h)
  | Some tm =>
    let buf := match time_adv h with
               | Some b => Ok (Some b)
               | None =>
                 match wpabuf_alloc time_adv_elen with
                 | None => Ok None
                 | Some b => '(_, b) ← wpabuf_put b time_adv_elen; Ok (Some b)
                 end
               end in
    b ← buf;
    match b with
    | None => Ok (-1, h <| time_adv := None |>)
    | Some b =>
      d ← write (Wpabuf.buf b) 0 (time_adv_octets tm (time_update_counter h));
      Ok (0, h <| time_adv := Some (b <| Wpabuf.buf := d |>) |>
               <| time_update_counter := u8 (time_update_counter h + 1) |>)
    end
  end.
End ops.

(** ** WMM ([wmm.c]) *)

Definition WMM_VERSION : Z := 1.

Definition wmm_aci_aifsn (aifsn acm aci : Z) : Z :=
  let ret := u8 (Z.land aifsn 0x0f) in
  let ret := if decide (acm ≠ 0) then Z.lor ret 0x10 else ret in
  u8 (Z.lor ret (Z.land (Z.shiftl aci 5) 0x60)).

Definition wmm_ecw (ecwmin ecwmax : Z) : Z :=
  u8 (Z.lor (Z.land ecwmin 0x0f) (Z.land (Z.shiftl ecwmax 4) 0xf0)).

(** [struct wmm_ac_parameter] of access category [e]. *)
Definition wmm_ac_octets (e : nat) (p : hostapd_wmm_ac_params) : bytes :=
  [wmm_aci_aifsn (aifs p) (admission_control_mandatory p) (Z.of_nat e);
   wmm_ecw (cwmin p) (cwmax p)] ++ WPA_PUT_LE16 (u16 (txop_limit p)).

Definition wmm_qos_info (h : hostapd_data) : Z :=
  let q := Z.land (parameter_set_count h) 0xf in
  if wmm_uapsd (conf h) && has_flag (drv_flags (iface h)) WPA_DRIVER_FLAGS_AP_UAPSD
  then Z.lor q 0x80 else q.

Definition hostapd_eid_wmm (h : hostapd_data) : bytes :=
  if negb (wmm_enabled (conf h)) then []
  else WLAN_EID_VENDOR_SPECIFIC :: 24 ::
       [0x00; 0x50; 0xf2; WMM_OUI_TYPE; WMM_OUI_SUBTYPE_PARAMETER_ELEMENT; WMM_VERSION;
        wmm_qos_info h; 0] ++
       concat (imap wmm_ac_octets (wmm_ac_params (iconf h))).

(** ** The response ([beacon.c]) *)

Definition MAX_PROBERESP_LEN : Z := 768.

(** The frame up to the elements: frame control, duration, addresses, sequence
    control, time stamp, beacon interval and capabilities. *)
Definition IEEE80211_FC (type stype : Z) : bytes :=
  WPA_PUT_LE16 (Z.lor (Z.shiftl type 2) (Z.shiftl stype 4)).

Section gen.
Context `{Malloc}.
Context (now : option os_tm).

Definition buf_len (b : option wpabuf) : Z := match b with Some b => wpabuf_len b | None => 0 end.
Definition buf_contents (b : option wpabuf) : bytes := match b with Some b => contents b | None => [] end.

Definition probe_resp_buflen (h : hostapd_data) : Z :=
  MAX_PROBERESP_LEN + buf_len (vendor_elements (conf h)) + buf_len (probe_resp_ack_ie (conf h)) +
  (if conf_vendor_vht (conf h)
   then 5 + 2 + sizeof_ieee80211_vht_capabilities + 2 + sizeof_ieee80211_vht_operation else 0).

(** The octets written so far and those that follow; [buflen] is the size of
    the object they are written to. *)
Definition put (buflen : Z) (b d : bytes) : outcome bytes :=
  if decide (zlen b + zlen d ≤ buflen) then Ok (b ++ d) else Undef OutOfBounds.

(** [epos - pos] as a [size_t]. *)
Definition room (b : bytes) : Z := u64 (MAX_PROBERESP_LEN - zlen b).

Definition hostapd_eid_time_adv (h : hostapd_data) : outcome (bytes * hostapd_data) :=
  if decide (time_advertisement (conf h) ≠ 2) then Ok ([], h) else
  match time_adv h with
  | Some b => Ok (contents b, h)
  | None =>
    '(ret, h) ← hostapd_update_time_adv now h;
    if decide (ret < 0) then Ok ([], h) else
    match time_adv h with
    | None => Ok ([], h)
    | Some b => Ok (contents b, h)
    end
  end.

Definition hostapd_eid_time_zone (h : hostapd_data) : bytes :=
  if decide (time_advertisement (conf h) ≠ 2) then []
  else WLAN_EID_TIME_ZONE :: u8 (zlen (time_zone (conf h))) :: time_zone (conf h).

Definition probe_resp_header (h : hostapd_data) (da : option bytes) (capab : Z) : bytes :=
  IEEE80211_FC WLAN_FC_TYPE_MGMT 5 ++ [0; 0] ++ default (replicate 6 0) da ++ own_addr h ++
  own_addr h ++ [0; 0] ++ replicate 8 0 ++ WPA_PUT_LE16 (beacon_int (iconf h)) ++ WPA_PUT_LE16 capab.

(** [da] is the sender of the request, when there is one. The result is [None]
    when the allocation fails. *)
Definition hostapd_gen_probe_resp (h : hostapd_data) (da : option bytes)
    : outcome (option bytes * hostapd_data) :=
  let buflen := probe_resp_buflen h in
  if negb (malloc_ok buflen) then Ok (None, h) else
  capab ← hostapd_own_capab_info h;
  b ← put buflen [] (probe_resp_header h da capab);
  b ← put buflen b (WLAN_EID_SSID :: u8 (zlen (ssid_ (conf h))) :: ssid_ (conf h));
  b ← put buflen b (hostapd_eid_supp_rates h);
  b ← put buflen b (hostapd_eid_ds_params h);
  b ← put buflen b (hostapd_eid_country h (s32 (MAX_PROBERESP_LEN - zlen b)));
  pwr ← hostapd_eid_pwr_constraint h;
  b ← put buflen b pwr;
  let csa := hostapd_eid_csa h in
  b ← put buflen b csa;
  let h := if decide (csa ≠ []) then h <| cs_c_off_proberesp := zlen b - 1 |> else h in
  b ← put buflen b (hostapd_eid_erp_info h);
  b ← put buflen b (hostapd_eid_ext_supp_rates h);
  b ← put buflen b (hostapd_eid_wpa h (room b));
  b ← put buflen b (hostapd_eid_bss_load h (room b));
  b ← put buflen b (hostapd_eid_rm_enabled_capab h (room b));
  let ecsa := hostapd_eid_ecsa h in
  b ← put buflen b ecsa;
  let h := if decide (ecsa ≠ []) then h <| cs_c_off_ecsa_proberesp := zlen b - 1 |> else h in
  b ← put buflen b (hostapd_eid_supported_op_classes h);
  _ ← put buflen b (replicate (Z.to_nat (if decide (ext_capab_len h = 0) then 0 else 2 + ext_capab_len h)) 0);
  b ← put buflen b (hostapd_eid_ext_capab h);
  '(ta, h) ← hostapd_eid_time_adv h;
  b ← put buflen b ta;
  b ← put buflen b (hostapd_eid_time_zone h);
  b ← put buflen b (hostapd_eid_wmm h);
  b ← put buflen b (buf_contents (vendor_elements (conf h)));
  b ← put buflen b (buf_contents (probe_resp_ack_ie (conf h)));
  let h := h <| conf := (conf h) <| probe_resp_ack_ie := None |> |> in
  Ok (Some b, h).

End gen.

(** ** Runs of plain elements

    A run of elements none of which the stuffing client takes for an
    acknowledgement. *)

Definition plain (b : bytes) : Prop :=
  ∃ l, b = ies_enc l ∧ Forall ie_ok l ∧ Forall (λ e, ack_elem e = false) l.

Lemma plain_nil : plain [].
Proof. exists []. done. Qed.

Lemma plain_app a b : plain a → plain b → plain (a ++ b).
Proof.
  intros (l & -> & H1 & H2) (m & -> & H3 & H4). exists (l ++ m).
  split_and!; [|by apply Forall_app|by apply Forall_app].
  unfold ies_enc. by rewrite map_app, concat_app.
Qed.

Lemma plain_ie id body :
  is_u8 id → bytes_ok body → zlen body < 256 → (id ≠ 221 ∨ take 3 body ≠ oui_octets) →
  plain (id :: u8 (zlen body) :: body).
Proof.
  intros Hi Hb Hl Hn. exists [mk_ie id body]. split_and!.
  - rewrite u8_small by (pose proof (zlen_nonneg body); unfold is_u8; lia).
    unfold ies_enc, ie_enc. cbn. by rewrite app_nil_r.
  - constructor; [done|constructor].
  - constructor; [|constructor]. apply bool_decide_eq_false. cbn [ie_id ie_body]. tauto.
Qed.

(** An element whose length octet is a constant. *)
Lemma plain_const id n body :
  is_u8 id → zlen body = n → n < 256 → bytes_ok body → id ≠ 221 → plain (id :: n :: body).
Proof.
  intros Hi <- Hn Hb Hid.
  pose proof (plain_ie id body Hi Hb Hn (or_introl Hid)) as H.
  rewrite u8_small in H by (pose proof (zlen_nonneg body); unfold is_u8; lia). done.
Qed.

(** An element whose length octet is computed. *)
Lemma plain_len id n body :
  is_u8 id → zlen body = n → n < 256 → bytes_ok body → id ≠ 221 → plain (id :: u8 n :: body).
Proof. intros Hi <- Hn Hb Hid. apply plain_ie; [done..|by left]. Qed.

Create HintDb octets.
#[local] Hint Resolve is_u8_lor is_u8_mask put_le16_ok u8_range : octets.

Ltac octet :=
  lazymatch goal with
  | |- is_u8 (u8 _) => apply u8_range
  | |- is_u8 (if decide _ then _ else _) => case_decide; octet
  | |- is_u8 (if ?b then _ else _) => destruct b; octet
  | |- is_u8 (Z.lor _ _) => apply is_u8_lor; octet
  | |- is_u8 (Z.land _ _) => apply is_u8_mask; octet
  | |- is_u8 _ => first [assumption | done]
  end.

Lemma rate_octet_ok r : is_u8 (rate_octet r).
Proof. unfold rate_octet. cbn zeta. octet. Qed.

Lemma rate_octets_ok rs : bytes_ok (map rate_octet rs).
Proof. apply List.Forall_map, List.Forall_forall. intros. apply rate_octet_ok. Qed.

(** *** The configurations the theorems are about *)

Record hapd_ok (h : hostapd_data) : Prop := {
  ho_ssid : bytes_ok (ssid_ (conf h)) ∧ zlen (ssid_ (conf h)) ≤ 32;
  ho_rates : ∀ rs, current_rates (iface h) = Some rs → zlen rs ≤ 200;
  ho_channel : is_u8 (channel (iconf h));
  ho_wmm : length (wmm_ac_params (iconf h)) = 4%nat;
  ho_country : bytes_ok (country (iconf h)) ∧ length (country (iconf h)) = 3%nat;
  ho_chans : ∀ m, current_mode (iface h) = Some m → zlen (channels m) ≤ 80;
  ho_wpa : ∀ ie, wpa_ie_ h = Some ie → plain ie;
  ho_addr : length (own_addr h) = 6%nat;
  ho_rm : bytes_ok (radio_measurements (conf h)) ∧ length (radio_measurements (conf h)) = 5%nat;
  ho_tz : bytes_ok (time_zone (conf h)) ∧ zlen (time_zone (conf h)) < 256;
  ho_ta : ∀ b, time_adv h = Some b → plain (contents b) ∧ zlen (contents b) ≤ time_adv_elen;
  ho_capa : zlen (extended_capa (iface h)) < 256;
  ho_dfs : ∃ d, hostapd_is_dfs_required (iconf h) (iface h) = Ok d;
  ho_vendor : ∀ b, vendor_elements (conf h) = Some b → wf b;
  ho_ack : ∀ b, probe_resp_ack_ie (conf h) = Some b → wf b }.

(** The sizes the configuration decides. *)
Definition ext_rates (h : hostapd_data) : Z :=
  match current_rates (iface h) with
  | Some rs => Z.max 0 (total_rates (iconf h) rs - 8)
  | None => 0
  end.

Definition num_chans (h : hostapd_data) : Z :=
  match current_mode (iface h) with Some m => zlen (channels m) | None => 0 end.

Section eids.
Context (h : hostapd_data) (Hok : hapd_ok h).

Lemma rm_enabled_plain len :
  plain (hostapd_eid_rm_enabled_capab h len) ∧ zlen (hostapd_eid_rm_enabled_capab h len) ≤ 7.
Proof.
  destruct (ho_rm h Hok) as [Hb Hl]. unfold hostapd_eid_rm_enabled_capab, RRM_CAPABILITIES_IE_LEN.
  destruct (negb _); [split; [apply plain_nil|done]|].
  case_decide; [split; [apply plain_nil|done]|]. rewrite take_ge by lia.
  split; [|unfold zlen; cbn [length]; lia].
  apply plain_const; [done|unfold zlen; lia|lia|done|done].
Qed.

Lemma bss_load_plain len :
  plain (hostapd_eid_bss_load h len) ∧ zlen (hostapd_eid_bss_load h len) ≤ 7.
Proof.
  unfold hostapd_eid_bss_load. case_decide; [split; [apply plain_nil|done]|].
  destruct (bss_load_update_period _); [|split; [apply plain_nil|done]].
  split; [|done]. apply plain_const; [done|done|done| |done].
  apply Forall_app. split; [apply put_le16_ok|]. constructor; [apply u8_range|apply put_le16_ok].
Qed.

Lemma erp_plain : plain (hostapd_eid_erp_info h) ∧ zlen (hostapd_eid_erp_info h) ≤ 3.
Proof.
  unfold hostapd_eid_erp_info. destruct (negb _); [split; [apply plain_nil|done]|].
  split; [|done]. apply plain_const; [done|done|done| |done]. constructor; [|constructor].
  unfold ieee802_11_erp_info, ERP_INFO_BARKER_PREAMBLE_MODE, ERP_INFO_NON_ERP_PRESENT,
    ERP_INFO_USE_PROTECTION. cbn zeta. octet.
Qed.

Lemma ds_plain : plain (hostapd_eid_ds_params h).
Proof.
  apply plain_const; [done|done|done| |done]. constructor; [apply (ho_channel h Hok)|constructor].
Qed.

Lemma csa_plain : plain (hostapd_eid_csa h) ∧ zlen (hostapd_eid_csa h) ≤ 5.
Proof.
  unfold hostapd_eid_csa. case_decide; [split; [apply plain_nil|done]|]. split; [|done].
  apply plain_const; [done|done|done| |done]. repeat (constructor; [apply u8_range|]). constructor.
Qed.

Lemma ecsa_plain : plain (hostapd_eid_ecsa h) ∧ zlen (hostapd_eid_ecsa h) ≤ 6.
Proof.
  unfold hostapd_eid_ecsa. case_decide; [split; [apply plain_nil|done]|]. split; [|done].
  apply plain_const; [done|done|done| |done]. repeat (constructor; [apply u8_range|]). constructor.
Qed.

Lemma pwr_plain :
  ∃ p, hostapd_eid_pwr_constraint h = Ok p ∧ plain p ∧ zlen p ≤ 3.
Proof.
  assert (∃ p : bytes, Ok (@nil Z) = Ok p ∧ plain p ∧ zlen p ≤ 3) as Hnil
    by (exists []; split_and!; [done|apply plain_nil|done]).
  destruct (ho_dfs h Hok) as [d Hd]. unfold hostapd_eid_pwr_constraint. rewrite Hd.
  destruct (negb (mode_is _ _)); [done|]. destruct (has_flag _ _); [done|].
  destruct (negb _ && _); [done|]. cbn [mbind outcome_bind].
  destruct (decide (_ ∧ local_pwr_constraint (iconf h) = -1)); [done|].
  eexists. split; [done|]. split; [|done]. apply plain_const; [done|done|done| |done].
  constructor; [|constructor].
  destruct (decide (local_pwr_constraint (iconf h) = -1)); [done|apply u8_range].
Qed.

Lemma op_classes_plain :
  plain (hostapd_eid_supported_op_classes h) ∧ zlen (hostapd_eid_supported_op_classes h) ≤ 4.
Proof.
  unfold hostapd_eid_supported_op_classes. destruct (_ || _); [split; [apply plain_nil|done]|].
  destruct (ieee80211_freq_to_channel_ext _ _ _) as [[[m op] ch]|] eqn:Hf;
    [|split; [apply plain_nil|done]].
  apply freq_to_channel_band in Hf as [_ Hband].
  split; [|done]. apply plain_const; [done|done|done| |done].
  constructor; [|constructor; [done|constructor]].
  unfold freq_band in Hband. cbn [In] in Hband. unfold is_u8. lia.
Qed.

Lemma wpa_plain len : plain (hostapd_eid_wpa h len).
Proof.
  unfold hostapd_eid_wpa. destruct (wpa_ie_ h) as [ie|] eqn:Hie; [|apply plain_nil].
  case_decide; [apply plain_nil|by apply (ho_wpa h Hok)].
Qed.

Lemma supp_rates_plain :
  plain (hostapd_eid_supp_rates h) ∧ zlen (hostapd_eid_supp_rates h) ≤ 10.
Proof.
  unfold hostapd_eid_supp_rates.
  destruct (current_rates (iface h)) as [rs|]; [|split; [apply plain_nil|done]].
  unfold total_rates. cbn zeta.
  assert (∀ n ht vht, n = zlen (map rate_octet (take (Z.to_nat n) rs)) + zlen ht + zlen vht →
    n ≤ 8 → bytes_ok (ht ++ vht) →
    plain (WLAN_EID_SUPP_RATES :: u8 n :: map rate_octet (take (Z.to_nat n) rs) ++ ht ++ vht) ∧
    zlen (WLAN_EID_SUPP_RATES :: u8 n :: map rate_octet (take (Z.to_nat n) rs) ++ ht ++ vht) ≤ 10)
    as Hgen.
  { intros n ht vht Hn H8 Hb.
    assert (zlen (map rate_octet (take (Z.to_nat n) rs) ++ ht ++ vht) = n) as Hlen
      by (rewrite !zlen_app; lia).
    split; [|rewrite !(zlen_cons _ (_ :: _)), zlen_cons; lia].
    apply plain_len; [done|done|lia| |done]. apply Forall_app. split; [apply rate_octets_ok|done]. }
  pose proof (zlen_nonneg rs).
  destruct (needs_ht (iconf h)), (needs_vht (iconf h)); cbn [andb];
    destruct (decide (8 < _));
    repeat case_bool_decide; apply Hgen;
    try (rewrite ?zlen_cons; unfold zlen in *; rewrite ?length_map, ?length_take in *; cbn [length] in *; lia);
    repeat (constructor; [done|]); constructor.
Qed.
Lemma ext_supp_rates_plain :
  plain (hostapd_eid_ext_supp_rates h) ∧
  zlen (hostapd_eid_ext_supp_rates h) ≤ 2 + ext_rates h.
Proof.
  pose proof (ho_rates h Hok) as Hr. unfold hostapd_eid_ext_supp_rates, ext_rates.
  destruct (current_rates (iface h)) as [rs|]; [specialize (Hr rs eq_refl)|split; [apply plain_nil|done]].
  unfold total_rates. cbn zeta. pose proof (zlen_nonneg rs).
  assert (∀ n used ht vht, n = zlen (map rate_octet (drop 8 used)) + zlen ht + zlen vht →
    n < 256 → bytes_ok (ht ++ vht) →
    plain (WLAN_EID_EXT_SUPP_RATES :: u8 n :: map rate_octet (drop 8 used) ++ ht ++ vht) ∧
    zlen (WLAN_EID_EXT_SUPP_RATES :: u8 n :: map rate_octet (drop 8 used) ++ ht ++ vht)
      ≤ 2 + Z.max 0 n) as Hgen.
  { intros n used ht vht Hn H8 Hb.
    assert (zlen (map rate_octet (drop 8 used) ++ ht ++ vht) = n) as Hlen
      by (rewrite !zlen_app; lia).
    split; [|rewrite !(zlen_cons _ (_ :: _)), zlen_cons; lia].
    apply plain_len; [done|done|lia| |done]. apply Forall_app. split; [apply rate_octets_ok|done]. }
  case_decide as H8; [split; [apply plain_nil|rewrite Z.max_l by lia; done]|].
  destruct (needs_ht (iconf h)), (needs_vht (iconf h));
    repeat (destruct (decide (8 < zlen _ + 1))); repeat (destruct (decide (8 < zlen _ + 1 + 1)));
    apply Hgen;
    try (rewrite ?zlen_cons; unfold zlen in *; rewrite ?length_map, ?length_drop, ?length_take in *; cbn [length] in *; lia);
    repeat (constructor; [done|]); constructor.
Qed.

Lemma country_add_ok rm sp a b :
  bytes_ok (hostapd_eid_country_add rm sp a b) ∧ zlen (hostapd_eid_country_add rm sp a b) ≤ 3.
Proof.
  unfold hostapd_eid_country_add. destruct (decide (rm < 3)); [split; [constructor|done]|]. split; [|done].
  repeat (constructor; [apply u8_range|]). constructor.
Qed.

#[local] Definition group_room {A} (g : option A) : Z := match g with Some _ => 3 | None => 0 end.

Lemma country_groups_ok max_len sp chans : ∀ group acc,
  bytes_ok acc →
  bytes_ok (country_groups max_len sp chans group acc) ∧
  zlen acc ≤ zlen (country_groups max_len sp chans group acc) ∧
  zlen (country_groups max_len sp chans group acc) ≤
    zlen acc + 3 * zlen chans + group_room group.
Proof.
  induction chans as [|c chans IH]; intros group acc Hacc.
  - destruct group as [[a b]|]; cbn [country_groups]; [|split_and!; [done|lia|unfold zlen; cbn; lia]].
    destruct (country_add_ok (max_len - 2 - zlen acc) sp a b) as [H1 H2].
    rewrite zlen_app. pose proof (zlen_nonneg (hostapd_eid_country_add (max_len - 2 - zlen acc) sp a b)).
    split_and!; [by apply Forall_app|lia|].
    change (zlen (@nil hostapd_channel_data)) with 0. cbn [group_room]. lia.
  - assert (∀ g acc', bytes_ok acc' → zlen acc ≤ zlen acc' → 
      zlen acc' + group_room g ≤ zlen acc + 3 + group_room group →
      let r := country_groups max_len sp chans g acc' in
      bytes_ok r ∧ zlen acc ≤ zlen r ∧ zlen r ≤ zlen acc + 3 * zlen (c :: chans) + group_room group)
      as Hstep.
    { intros g acc' Ha Hl Hb r. subst r. destruct (IH g acc' Ha) as (H1 & H2 & H3).
      rewrite zlen_cons. split_and!; [done|lia|lia]. }
    cbn [country_groups]. destruct (has_flag _ _); [apply Hstep; [done|lia|destruct group; cbn [group_room]; lia]|].
    destruct group as [[a b]|]; [|apply Hstep; [done|lia|cbn [group_room]; lia]].
    case_decide; [apply Hstep; [done|lia|cbn [group_room]; lia]|].
    destruct (country_add_ok (max_len - 2 - zlen acc) sp a b) as [H1 H2].
    pose proof (zlen_nonneg (hostapd_eid_country_add (max_len - 2 - zlen acc) sp a b)).
    apply Hstep; [by apply Forall_app|rewrite zlen_app; lia|rewrite zlen_app; cbn [group_room]; lia].
Qed.

Lemma country_plain max_len :
  plain (hostapd_eid_country h max_len) ∧
  zlen (hostapd_eid_country h max_len) ≤ 6 + 3 * num_chans h.
Proof.
  destruct (ho_country h Hok) as [Hc Hcl]. pose proof (ho_chans h Hok) as Hm.
  unfold hostapd_eid_country, num_chans.
  destruct (current_mode (iface h)) as [m|]; [specialize (Hm m eq_refl)|split; [apply plain_nil|done]].
  pose proof (zlen_nonneg (channels m)).
  destruct (_ || _); [split; [apply plain_nil|unfold zlen at 1; cbn [length]; lia]|]. cbn zeta.
  set (sp := if decide (hw_mode m = HOSTAPD_MODE_IEEE80211A) then 4 else 1).
  rewrite take_ge by lia.
  destruct (country_groups_ok max_len sp (channels m) None _ Hc) as (Hb & Hl1 & Hl2).
  set (body := country_groups _ _ _ _ _) in *.
  assert (zlen (country (iconf h)) = 3) as H3 by (unfold zlen; lia). rewrite H3 in Hl1, Hl2. cbn [group_room] in Hl2.
  destruct (Z.odd _).
  - case_decide; [split; [apply plain_nil|unfold zlen at 1; cbn [length]; lia]|].
    rewrite !(zlen_cons _ (_ :: _)), zlen_cons, zlen_snoc. split; [|lia].
    apply plain_len; [done|rewrite zlen_snoc; lia|lia| |done].
    apply Forall_app. split; [done|constructor; [done|constructor]].
  - rewrite !(zlen_cons _ (_ :: _)), zlen_cons. split; [|lia].
    apply plain_len; [done|lia|lia|done|done].
Qed.
Lemma bit_if_ok b m v : is_u8 m → is_u8 v → is_u8 (bit_if b m v).
Proof. intros. unfold bit_if. destruct b; [by apply is_u8_lor|done]. Qed.

Lemma ext_capab_byte_ok i : is_u8 (hostapd_ext_capab_byte h i).
Proof.
  unfold hostapd_ext_capab_byte. cbn zeta.
  repeat (case_decide; [repeat lazymatch goal with
    | |- is_u8 (bit_if _ _ _) => apply bit_if_ok | |- is_u8 _ => done end|]). done.
Qed.

Lemma ext_capab_octets_ok l : bytes_ok (map (ext_capab_octet h) l).
Proof.
  apply List.Forall_map, List.Forall_forall. intros i _. unfold ext_capab_octet. cbn zeta.
  destruct (_ !! i); [apply u8_range|apply ext_capab_byte_ok].
Qed.

Lemma trim_zeros_ok b : bytes_ok b → bytes_ok (trim_zeros b) ∧ zlen (trim_zeros b) ≤ zlen b.
Proof.
  induction 1 as [|x b Hx Hb [IH1 IH2]]; [split; [constructor|done]|]. cbn [trim_zeros]. rewrite zlen_cons.
  destruct (trim_zeros b) as [|y r]; rewrite ?zlen_cons in *; [|split; [by constructor|lia]].
  pose proof (zlen_nonneg b).
  case_decide; [split; [constructor|change (zlen (@nil Z)) with 0; lia]|].
  split; [constructor; [done|constructor]|]. change (zlen [x]) with 1. lia.
Qed.

Lemma ext_capab_len_range : 0 ≤ ext_capab_len h < 256.
Proof.
  pose proof (ho_capa h Hok).
  assert (∀ (b : bool) k l, 0 ≤ k ≤ 9 → 0 ≤ l ≤ 9 → 0 ≤ (if b then k else l) ≤ 9) as Hif
    by (intros []; done).
  unfold ext_capab_len. cbv zeta.
  match goal with |- 0 ≤ (if decide (?l < _) then _ else _) < _ => assert (0 ≤ l ≤ 9) as Hl; [|generalize dependent l] end.
  { repeat (apply Hif; [done|]). done. }
  intros l Hl. destruct (decide (l < _)); [apply u8_range|lia].
Qed.

Lemma ext_capab_plain :
  plain (hostapd_eid_ext_capab h) ∧ zlen (hostapd_eid_ext_capab h) ≤ 2 + ext_capab_len h.
Proof.
  pose proof ext_capab_len_range. unfold hostapd_eid_ext_capab. cbn zeta.
  case_decide; [split; [apply plain_nil|change (zlen (@nil Z)) with 0; lia]|].
  destruct (trim_zeros_ok _ (ext_capab_octets_ok (seq 0 (Z.to_nat (ext_capab_len h))))) as [Hb Hl].
  assert (zlen (map (ext_capab_octet h) (seq 0 (Z.to_nat (ext_capab_len h)))) = ext_capab_len h)
    as Hn by (unfold zlen; rewrite length_map, length_seq; lia).
  rewrite Hn in Hl. destruct (trim_zeros _) as [|x r] eqn:Hx;
    [split; [apply plain_nil|change (zlen (@nil Z)) with 0; lia]|].
  split; [apply plain_const; [done|done|lia|done|done]|].
  rewrite (zlen_cons WLAN_EID_EXT_CAPAB), zlen_cons. lia.
Qed.

Lemma time_zone_plain :
  plain (hostapd_eid_time_zone h) ∧ zlen (hostapd_eid_time_zone h) ≤ 2 + zlen (time_zone (conf h)).
Proof.
  destruct (ho_tz h Hok) as [Hb Hl]. pose proof (zlen_nonneg (time_zone (conf h))).
  unfold hostapd_eid_time_zone.
  case_decide; [split; [apply plain_nil|change (zlen (@nil Z)) with 0; lia]|].
  rewrite (zlen_cons WLAN_EID_TIME_ZONE), zlen_cons. split; [|lia]. by apply plain_len.
Qed.

Lemma wmm_plain : plain (hostapd_eid_wmm h) ∧ zlen (hostapd_eid_wmm h) ≤ 26.
Proof.
  unfold hostapd_eid_wmm. destruct (negb _); [split; [apply plain_nil|done]|].
  pose proof (ho_wmm h Hok) as Hl.
  destruct (wmm_ac_params (iconf h)) as [|p0 [|p1 [|p2 [|p3 [|? ?]]]]]; try discriminate Hl.
  split; [|done].
  assert (∀ e p, bytes_ok (wmm_ac_octets e p)) as Hac.
  { intros e p. constructor; [apply u8_range|]. constructor; [apply u8_range|]. apply put_le16_ok. }
  eapply (plain_ie WLAN_EID_VENDOR_SPECIFIC
            ([0x00; 0x50; 0xf2; WMM_OUI_TYPE; WMM_OUI_SUBTYPE_PARAMETER_ELEMENT; WMM_VERSION;
              wmm_qos_info h; 0] ++ concat (imap wmm_ac_octets [p0; p1; p2; p3]))); [done| |done|].
  - apply Forall_app. split.
    + repeat (constructor; [done|]). constructor; [|by constructor].
      unfold wmm_qos_info. cbn zeta.
      assert (is_u8 (Z.land (parameter_set_count h) 0xf)) by (by apply is_u8_mask).
      destruct (_ && _); [by apply is_u8_lor|done].
    + cbn [concat imap]. repeat (apply Forall_app; split; [apply Hac|]). constructor.
  - right. cbn. discriminate.
Qed.

Lemma time_adv_octets_plain tm k : plain (time_adv_octets tm k).
Proof.
  unfold time_adv_octets. apply plain_const; [done|done|done| |done].
  constructor; [done|]. apply Forall_app. split; [apply put_le16_ok|].
  repeat (constructor; [apply u8_range|]). apply Forall_app. split; [apply put_le16_ok|].
  repeat (constructor; [done|]). constructor; [apply u8_range|constructor].
Qed.

(** What the time advertisement adds; only its own state changes. *)
Lemma time_adv_plain `{Malloc} now :
  ∃ ta b k, hostapd_eid_time_adv now h = Ok (ta, h <| time_adv := b |> <| time_update_counter := k |>) ∧
            plain ta ∧ zlen ta ≤ time_adv_elen.
Proof.
  assert (h = h <| time_adv := time_adv h |> <| time_update_counter := time_update_counter h |>)
    as Hh by (by destruct h).
  assert (∀ ta b, plain ta → zlen ta ≤ time_adv_elen →
    ∃ ta' b' k, Ok (ta, h <| time_adv := b |>) =
      Ok (ta', h <| time_adv := b' |> <| time_update_counter := k |>) ∧
      plain ta' ∧ zlen ta' ≤ time_adv_elen) as Hsame.
  { intros ta b H1 H2. exists ta, b, (time_update_counter h). split; [|done]. by destruct h. }
  assert (∀ ta, plain ta → zlen ta ≤ time_adv_elen →
    ∃ ta' b' k, Ok (ta, h) =
      Ok (ta', h <| time_adv := b' |> <| time_update_counter := k |>) ∧
      plain ta' ∧ zlen ta' ≤ time_adv_elen) as Hsame'.
  { intros ta H1 H2. exists ta, (time_adv h), (time_update_counter h). by rewrite <- Hh. }
  unfold hostapd_eid_time_adv, hostapd_update_time_adv.
  destruct (decide (time_advertisement (conf h) ≠ 2)) as [|Hta]; [apply Hsame'; [apply plain_nil|done]|].
  destruct (time_adv h) as [b|] eqn:Hb.
  { destruct (ho_ta h Hok b Hb). by apply Hsame'. }
  destruct now as [tm|]; [|apply Hsame'; [apply plain_nil|done]].
  unfold wpabuf_alloc. destruct (malloc_ok _); [|apply Hsame; [apply plain_nil|done]].
  do 3 eexists. split; [reflexivity|].
  split; [apply time_adv_octets_plain|done].
Qed.
End eids.

(** *** The whole response *)

Definition wpa_len (h : hostapd_data) : Z := match wpa_ie_ h with Some ie => zlen ie | None => 0 end.

(** A bound on the octets before the vendor elements: the header and, for every
    element, its largest size under the configuration. *)
Definition body_bound (h : hostapd_data) : Z :=
  36 + (2 + zlen (ssid_ (conf h))) + 10 + 3 + (6 + 3 * num_chans h) + 3 + 5 + 3 +
  (2 + ext_rates h) + wpa_len h + 7 + 7 + 6 + 4 + (2 + ext_capab_len h) + time_adv_elen +
  (2 + zlen (time_zone (conf h))) + 26.

(** The fields the sizes depend on are unchanged. *)
Record same_config (h h1 : hostapd_data) : Prop := {
  same_iconf : iconf h1 = iconf h;
  same_conf : conf h1 = conf h;
  same_iface : iface h1 = iface h;
  same_wpa : wpa_ie_ h1 = wpa_ie_ h }.

Lemma same_trans h h1 h2 : same_config h h1 → same_config h1 h2 → same_config h h2.
Proof. intros [] []. split; congruence. Qed.

Lemma same_ext_rates h h1 : same_config h h1 → ext_rates h1 = ext_rates h.
Proof. intros [H1 H2 H3 H4]. unfold ext_rates. by rewrite H1, H3. Qed.

Lemma same_ext_capab_len h h1 : same_config h h1 → ext_capab_len h1 = ext_capab_len h.
Proof. intros [H1 H2 H3 H4]. unfold ext_capab_len. by rewrite H1, H2, H3. Qed.

Lemma wpa_length h len : zlen (hostapd_eid_wpa h len) ≤ wpa_len h.
Proof.
  unfold hostapd_eid_wpa, wpa_len. destruct (wpa_ie_ h) as [ie|]; [|done].
  pose proof (zlen_nonneg ie). case_decide; [change (zlen (@nil Z)) with 0|]; lia.
Qed.

(** The responses record only where the countdown octet is. *)
Lemma csa_off_same h (e : bytes) x :
  hapd_ok h →
  let h1 := if decide (e ≠ []) then h <| cs_c_off_proberesp := x |> else h in
  hapd_ok h1 ∧ same_config h h1.
Proof. intros Hok h1. subst h1. case_decide; (split; [by destruct Hok; constructor|by constructor]). Qed.

Lemma ecsa_off_same h (e : bytes) x :
  hapd_ok h →
  let h1 := if decide (e ≠ []) then h <| cs_c_off_ecsa_proberesp := x |> else h in
  hapd_ok h1 ∧ same_config h h1.
Proof. intros Hok h1. subst h1. case_decide; (split; [by destruct Hok; constructor|by constructor]). Qed.

Lemma zlen_replicate {A} n (x : A) : zlen (replicate n x) = Z.of_nat n.
Proof. unfold zlen. by rewrite length_replicate. Qed.

Lemma put_bind {B} buflen b d (k : bytes → outcome B) :
  zlen b + zlen d ≤ buflen → (b' ← put buflen b d; k b') = k (b ++ d).
Proof. intros H. unfold put. by rewrite decide_True. Qed.

Lemma probe_resp_header_length h da capab :
  hapd_ok h → (∀ a, da = Some a → length a = 6%nat) → zlen (probe_resp_header h da capab) = 36.
Proof.
  intros Hok Hda. pose proof (ho_addr h Hok) as Ha. unfold probe_resp_header.
  assert (zlen (default (replicate 6 0) da) = 6) as Hd
    by (destruct da as [a|]; [unfold zlen; cbn; rewrite (Hda a eq_refl)|]; done).
  rewrite !zlen_app, Hd. unfold zlen at 3 4. rewrite Ha. reflexivity.
Qed.

Lemma own_capab_ok h : hapd_ok h → ∃ c, hostapd_own_capab_info h = Ok c.
Proof. intros Hok. destruct (ho_dfs h Hok) as [d Hd]. unfold hostapd_own_capab_info. rewrite Hd. eexists. reflexivity. Qed.

Lemma buf_contents_length (e : option wpabuf) :
  (∀ b, e = Some b → wf b) → zlen (buf_contents e) = buf_len e.
Proof. destruct e as [b|]; intros Hb; [by apply contents_length, Hb|done]. Qed.

Lemma ssid_plain h :
  hapd_ok h →
  let e := WLAN_EID_SSID :: u8 (zlen (ssid_ (conf h))) :: ssid_ (conf h) in
  plain e ∧ zlen e ≤ 2 + zlen (ssid_ (conf h)).
Proof.
  intros Hok. destruct (ho_ssid h Hok) as [Hb Hl]. cbv zeta.
  rewrite !(zlen_cons _ (_ :: _)), zlen_cons. split; [apply plain_len; [done|done|lia|done|done]|lia].
Qed.

Lemma sizes_nonneg h :
  hapd_ok h →
  0 ≤ num_chans h ∧ 0 ≤ ext_rates h ∧ 0 ≤ wpa_len h ∧ 0 ≤ ext_capab_len h ∧
  0 ≤ zlen (ssid_ (conf h)) ∧ 0 ≤ zlen (time_zone (conf h)) ∧
  0 ≤ zlen (buf_contents (vendor_elements (conf h))) ∧
  0 ≤ zlen (buf_contents (probe_resp_ack_ie (conf h))).
Proof.
  intros Hok. pose proof (ext_capab_len_range h Hok).
  split_and!; try apply zlen_nonneg; [| | |lia].
  - unfold num_chans. destruct (current_mode _); [apply zlen_nonneg|done].
  - unfold ext_rates. destruct (current_rates _); lia.
  - unfold wpa_len. destruct (wpa_ie_ _); [apply zlen_nonneg|done].
Qed.

(** Names the next element, whose run and length [H] gives. *)
Ltac next_element hdr H :=
  let P := fresh "P" in let L := fresh "L" in destruct H as [P L];
  match type of P with plain ?e => let x := fresh "e" in generalize dependent e; intros x P L end;
  rewrite put_bind by (rewrite ?zlen_app; lia); rewrite <- ?(app_assoc hdr).

Lemma hostapd_gen_probe_resp_shape `{Malloc} now h da :
  hapd_ok h → body_bound h ≤ MAX_PROBERESP_LEN → (∀ a, da = Some a → length a = 6%nat) →
  if malloc_ok (probe_resp_buflen h) then
    ∃ capab p h',
      hostapd_own_capab_info h = Ok capab ∧ plain p ∧
      let resp := probe_resp_header h da capab ++ p ++
                  buf_contents (vendor_elements (conf h)) ++
                  buf_contents (probe_resp_ack_ie (conf h)) in
      hostapd_gen_probe_resp now h da = Ok (Some resp, h') ∧
      zlen (probe_resp_header h da capab) = 36 ∧ zlen resp ≤ probe_resp_buflen h ∧
      iconf h' = iconf h ∧ iface h' = iface h ∧
      conf h' = (conf h) <| probe_resp_ack_ie := None |>
  else hostapd_gen_probe_resp now h da = Ok (None, h).
Proof.
  intros Hok Hbound Hda. unfold hostapd_gen_probe_resp.
  destruct (malloc_ok (probe_resp_buflen h)); [cbn [negb]|done].
  destruct (own_capab_ok h Hok) as [capab Hcap]. rewrite Hcap, bind_Ok.
  exists capab. pose proof (probe_resp_header_length h da capab Hok Hda) as Hhdr.
  assert (768 + buf_len (vendor_elements (conf h)) + buf_len (probe_resp_ack_ie (conf h))
          ≤ probe_resp_buflen h) as Hbuf
    by (unfold probe_resp_buflen, MAX_PROBERESP_LEN, sizeof_ieee80211_vht_capabilities,
          sizeof_ieee80211_vht_operation; destruct (conf_vendor_vht _); lia).
  generalize dependent (probe_resp_buflen h). intros buflen Hbuf.
  unfold body_bound, MAX_PROBERESP_LEN, time_adv_elen in Hbound.
  pose proof (buf_contents_length _ (ho_vendor h Hok)) as Hven.
  pose proof (buf_contents_length _ (ho_ack h Hok)) as Hack.
  set (hdr := probe_resp_header h da capab) in *. clearbody hdr.
  pose proof (sizes_nonneg h Hok). pose proof (ssid_plain h Hok) as Hssid.
  rewrite put_bind by (change (zlen (@nil Z)) with 0; lia). cbn [app].
  next_element hdr Hssid.
  next_element hdr (supp_rates_plain h).
  next_element hdr (conj (ds_plain h Hok) (Z.le_refl 3 : zlen (hostapd_eid_ds_params h) ≤ 3)).
  match goal with |- context [hostapd_eid_country h ?m] => next_element hdr (country_plain h Hok m) end.
  destruct (pwr_plain h Hok) as (pwr & Hpwr & Hp). rewrite Hpwr, bind_Ok. clear Hpwr. next_element hdr Hp.
  next_element hdr (csa_plain h). cbv zeta.
  match goal with |- context [if decide (?e ≠ []) then h <| cs_c_off_proberesp := ?x |> else h] =>
    destruct (csa_off_same h e x Hok) as [Hok1 Hs1];
    generalize dependent (if decide (e ≠ []) then h <| cs_c_off_proberesp := x |> else h)
  end. intros h1 Hok1 Hs1.
  next_element hdr (erp_plain h1).
  pose proof (ext_supp_rates_plain h1 Hok1) as Hx. rewrite (same_ext_rates h h1 Hs1) in Hx.
  next_element hdr Hx.
  match goal with |- context [hostapd_eid_wpa h1 ?m] =>
    pose proof (conj (wpa_plain h1 Hok1 m) (wpa_length h1 m)) as Hw end.
  unfold wpa_len at 1 in Hw. rewrite (same_wpa h h1 Hs1) in Hw. fold (wpa_len h) in Hw. next_element hdr Hw.
  match goal with |- context [hostapd_eid_bss_load h1 ?m] => next_element hdr (bss_load_plain h1 m) end.
  match goal with |- context [hostapd_eid_rm_enabled_capab h1 ?m] =>
    next_element hdr (rm_enabled_plain h1 Hok1 m) end.
  next_element hdr (ecsa_plain h1).
  match goal with |- context [if decide (?e ≠ []) then h1 <| cs_c_off_ecsa_proberesp := ?x |> else h1] =>
    destruct (ecsa_off_same h1 e x Hok1) as [Hok2 Hs2];
    generalize dependent (if decide (e ≠ []) then h1 <| cs_c_off_ecsa_proberesp := x |> else h1)
  end. intros h2 Hok2 Hs2.
  next_element hdr (op_classes_plain h2).
  pose proof (same_trans _ _ _ Hs1 Hs2) as Hs. clear Hs1 Hs2 Hok1 h1.
  pose proof (same_ext_capab_len h h2 Hs) as Hcl.
  rewrite put_bind by (rewrite ?zlen_app, zlen_replicate;
                       destruct (decide (ext_capab_len h2 = 0)); lia).
  pose proof (ext_capab_plain h2 Hok2) as Hx. rewrite Hcl in Hx. next_element hdr Hx. clear Hcl.
  destruct (time_adv_plain h2 Hok2 now) as (ta & b & k & Hta & Pta & Lta).
  unfold time_adv_elen in Lta.
  rewrite Hta, bind_Ok. clear Hta. next_element hdr (conj Pta Lta).
  pose proof (time_zone_plain h2 Hok2) as Hx. rewrite (same_conf h h2 Hs) in Hx.
  change (hostapd_eid_time_zone (h2 <| time_adv := b |> <| time_update_counter := k |>))
    with (hostapd_eid_time_zone h2). next_element hdr Hx.
  change (hostapd_eid_wmm (h2 <| time_adv := b |> <| time_update_counter := k |>))
    with (hostapd_eid_wmm h2). next_element hdr (wmm_plain h2 Hok2).
  change (conf (h2 <| time_adv := b |> <| time_update_counter := k |>)) with (conf h2).
  rewrite !(same_conf h h2 Hs).
  rewrite put_bind by (rewrite ?zlen_app; lia). rewrite put_bind by (rewrite ?zlen_app; lia).
  rewrite <- !(app_assoc hdr).
  match goal with |- context [hdr ++ (?p ++ ?v) ++ ?a] =>
    exists p; rewrite <- (app_assoc p) end.
  eexists. split; [done|]. split; [by repeat apply plain_app|].
  split; [reflexivity|]. split; [done|]. split; [rewrite ?zlen_app; lia|].
  split; [apply (same_iconf h h2 Hs)|]. split; [apply (same_iface h h2 Hs)|].
  done.
Qed.

(** ** Properties *)

(** C8. For every configuration whose elements fit in the 768 octets the code
    reserves, [hostapd_gen_probe_resp] returns exactly: the 36 octet header for
    the requesting station, a run of well formed elements none of which the
    stuffing client can take for an acknowledgement, the configured vendor
    elements and then the pending acknowledgement. No write leaves the buffer,
    the acknowledgement is cleared in the configuration and nothing else of the
    configuration changes; without memory there is no response and no change. *)
Theorem hostapd_gen_probe_resp_spec `{Malloc} now h da :
  hapd_ok h → body_bound h ≤ MAX_PROBERESP_LEN → (∀ a, da = Some a → length a = 6%nat) →
  if malloc_ok (probe_resp_buflen h) then
    ∃ capab p h',
      hostapd_own_capab_info h = Ok capab ∧ plain p ∧
      let resp := probe_resp_header h da capab ++ p ++
                  buf_contents (vendor_elements (conf h)) ++
                  buf_contents (probe_resp_ack_ie (conf h)) in
      hostapd_gen_probe_resp now h da = Ok (Some resp, h') ∧
      zlen (probe_resp_header h da capab) = 36 ∧ zlen resp ≤ probe_resp_buflen h ∧
      iconf h' = iconf h ∧ iface h' = iface h ∧
      conf h' = (conf h) <| probe_resp_ack_ie := None |>
  else hostapd_gen_probe_resp now h da = Ok (None, h).
Proof. apply hostapd_gen_probe_resp_shape. Qed.

(** ** Concrete instances *)

Definition bss_example (ack : option wpabuf) : hostapd_bss_config :=
  mk_bss [119; 108; 97; 110; 48] [116; 101; 115; 116] false false false 0 0 false true false false
    None false 10 (replicate 5 0) true 2 [85; 84; 67; 48] false false false false 0 0 false false
    None ack false.

(** An access point on channel 36 with the pending acknowledgement [ack]. *)
Definition hapd_example (ack : option wpabuf) : hostapd_data :=
  mk_hapd (config_example 36) (bss_example ack) iface_example [2; 0; 0; 0; 0; 1] 3 [] None 0 0 0 0 0
    false None 0 0.

(** The acknowledgement of frame 1. *)
Definition ack_example : wpabuf := mk_wpabuf 6 6 [221; 4; 1; 2; 3; 49] false.

Definition tm_example : os_tm := mk_tm 30 15 12 24 12 2017.

Lemma hapd_example_ok ack : (∀ b, ack = Some b → wf b) → hapd_ok (hapd_example ack).
Proof.
  intros Hack. constructor; cbn; try done; try (split; [repeat (constructor; [done|]); constructor|done]).
  - by intros rs [= <-].
  - by intros m [= <-].
  - eexists. reflexivity.
Qed.

Lemma ack_example_wf b : Some ack_example = Some b → wf b.
Proof. intros [= <-]. done. Qed.

Lemma hostapd_gen_probe_resp_spec_witness :
  let h := hapd_example (Some ack_example) in
  let da := [2; 0; 0; 0; 0; 9] in
  hapd_ok h ∧ body_bound h ≤ MAX_PROBERESP_LEN ∧
  ∃ capab p h', hostapd_own_capab_info h = Ok capab ∧ plain p ∧
    hostapd_gen_probe_resp (H := malloc_always) (Some tm_example) h (Some da) =
      Ok (Some (probe_resp_header h (Some da) capab ++ p ++ [] ++ [221; 4; 1; 2; 3; 49]), h') ∧
    probe_resp_ack_ie (conf h') = None.
Proof.
  pose proof (hapd_example_ok (Some ack_example) ack_example_wf) as Hok.
  assert (body_bound (hapd_example (Some ack_example)) ≤ MAX_PROBERESP_LEN) as Hb
    by (vm_compute; discriminate).
  split; [exact Hok|]. split; [exact Hb|].
  destruct (hostapd_gen_probe_resp_spec (H := malloc_always) (Some tm_example) _ (Some [2; 0; 0; 0; 0; 9])
              Hok Hb ltac:(by intros a [= <-])) as (capab & p & h' & Hc & Hp & Hr & _ & _ & _ & _ & Hconf).
  exists capab, p, h'. split; [exact Hc|]. split; [exact Hp|]. split; [exact Hr|].
  rewrite Hconf. reflexivity.
Defined.
