(* ===== verification/StaTrack.v ===== *)
(** * Tracking of the stations seen

    The list of stations whose probe requests were received, oldest first
    ([sta_track_*] of [src/ap/beacon.c]). [now] is what [os_get_reltime] gives, [later]
    what it gives when it is asked again;
    [sta_seen] is the list the code links through [struct dl_list]. *)

From Stdlib Require Import ZArith Lia Sorted.
From stdpp Require Import base option list numbers decidable.
From S2P Require Import Prelude CLib Common Reltime Wpabuf Ie Elems Channels Hapd.
Local Open Scope Z_scope.

(** ** Operations *)

(** The [while] loop: the list and the count. *)
Fixpoint expire_loop (now : Z * Z) (max_age : Z) (force : bool) (l : list hostapd_sta_info) (n : Z)
    : list hostapd_sta_info * Z :=
  match l with
  | [] => ([], n)
  | info :: r =>
    if negb force && negb (os_reltime_expired now (last_seen info) max_age) then (l, n)
    else expire_loop now max_age false r (u32 (n - 1))
  end.

Definition sta_track_expire (c : hostapd_config) (now : Z * Z) (i : hostapd_iface) (force : bool)
    : hostapd_iface :=
  if decide (num_sta_seen i = 0) then i else
  let '(l, n) := expire_loop now (track_sta_max_age c) force (sta_seen i) (num_sta_seen i) in
  i <| sta_seen := l |> <| num_sta_seen := n |>.

Definition sta_track_get (i : hostapd_iface) (addr : bytes) : option (nat * hostapd_sta_info) :=
  list_find (λ info, info_addr info = addr) (sta_seen i).

Definition sizeof_hostapd_sta_info : Z := 40.

Section ops.
Context `{Malloc}.

Definition sta_track_add (c : hostapd_config) (now later : Z * Z) (i : hostapd_iface) (addr : bytes)
    : hostapd_iface :=
  match sta_track_get i addr with
  | Some (k, info) =>
    i <| sta_seen := delete k (sta_seen i) ++ [mk_sta_info (info_addr info) now] |>
  | None =>
    if negb (malloc_ok sizeof_hostapd_sta_info) then i else
    let info := mk_sta_info addr now in
    let i := if decide (track_sta_max_num c ≤ num_sta_seen i) then sta_track_expire c later i true
             else i in
    i <| sta_seen := sta_seen i ++ [info] |> <| num_sta_seen := u32 (num_sta_seen i + 1) |>
  end.
End ops.

(** The interfaces of the process, each with the names of its BSSs. The one that
    received the frame is between the others. *)
Record hapd_interfaces := mk_interfaces {
  ifs_before : list (list bytes * hostapd_iface);
  own_names : list bytes;
  ifs_after : list (list bytes * hostapd_iface) }.

Definition interfaces (env : hapd_interfaces) (i : hostapd_iface) : list (list bytes * hostapd_iface) :=
  ifs_before env ++ (own_names env, i) :: ifs_after env.

(** The BSS named [ifname] of the first interface that has one and has seen
    [addr], as the positions of the interface and of the BSS. *)
Fixpoint seen_on_loop (ifs : list (list bytes * hostapd_iface)) (addr ifname : bytes) (i : nat)
    : option (nat * nat) :=
  match ifs with
  | [] => None
  | (names, ifc) :: ifs =>
    match list_find (λ n, ifname = n) names, sta_track_get ifc addr with
    | Some (j, _), Some _ => Some (i, j)
    | _, _ => seen_on_loop ifs addr ifname (S i)
    end
  end.

Definition sta_track_seen_on (env : hapd_interfaces) (i : hostapd_iface) (addr ifname : bytes)
    : option (nat * nat) :=
  seen_on_loop (interfaces env i) addr ifname 0.

(** ** The invariant *)

Definition seen_addrs (i : hostapd_iface) : list bytes := map info_addr (sta_seen i).

(** Each station once, and the count is the length of the list and within the
    configured maximum. *)
Record track_ok (c : hostapd_config) (i : hostapd_iface) : Prop := {
  to_nodup : NoDup (seen_addrs i);
  to_count : num_sta_seen i = zlen (sta_seen i);
  to_max : zlen (sta_seen i) ≤ track_sta_max_num c < 2 ^ 32 }.

Definition info_le (a b : hostapd_sta_info) : Prop := time_le (last_seen a) (last_seen b).

Lemma expire_loop_drop now s l : ∀ force n,
  zlen l ≤ n < 2 ^ 32 →
  ∃ k, expire_loop now s force l n = (drop k l, n - Z.of_nat k) ∧ (k ≤ length l)%nat ∧
       (force = true → l ≠ [] → (0 < k)%nat) ∧
       Forall (λ x, os_reltime_expired now (last_seen x) s = true) (drop (if force then 1 else 0) (take k l)) ∧
       (∀ x, head (drop k l) = Some x → (force = true → (0 < k)%nat) →
             os_reltime_expired now (last_seen x) s = false).
Proof.
  induction l as [|x l IH]; intros force n Hn; cbn [expire_loop].
  - exists O. split_and!; [f_equal; lia|done|done|destruct force; constructor|done].
  - rewrite zlen_cons in Hn. pose proof (zlen_nonneg l).
    destruct (negb force && negb _) eqn:Hb.
    + exists O. rewrite andb_true_iff, !negb_true_iff in Hb. destruct Hb as [-> Hx].
      split_and!; [cbn; f_equal; lia|cbn; lia|done|constructor|]. by intros y [= <-] _.
    + rewrite andb_false_iff, !negb_false_iff in Hb.
      assert (u32 (n - 1) = n - 1) as Hu by (unfold u32; rewrite Z.mod_small; lia).
      destruct (IH false (u32 (n - 1))) as (k & Hk & Hkl & _ & Hall & Hhd); [rewrite Hu; lia|].
      exists (S k). rewrite Hk. cbn [drop length take].
      split_and!; [f_equal; lia|lia|lia| |].
      * destruct force; cbn [drop]; [by rewrite drop_0 in Hall|].
        constructor; [by destruct Hb|]. by rewrite drop_0 in Hall.
      * intros y Hy _. by apply Hhd.
Qed.

(** On a list ordered by time the loop removes exactly the expired entries. *)
Lemma expire_loop_sorted now s l n :
  usec_ok now → Forall (λ x, usec_ok (last_seen x)) l → StronglySorted info_le l →
  zlen l ≤ n < 2 ^ 32 →
  expire_loop now s false l n =
    (List.filter (λ x, negb (os_reltime_expired now (last_seen x) s)) l,
     n - zlen (List.filter (λ x, os_reltime_expired now (last_seen x) s) l)).
Proof.
  intros Hnow Hu Hs. revert n. induction Hs as [|x l Hs IH Hx]; intros n Hn.
  - cbn. f_equal. change (zlen (@nil hostapd_sta_info)) with 0. lia.
  - apply Forall_cons_iff in Hu as [Hux Hu]. rewrite zlen_cons in Hn.
    pose proof (zlen_nonneg l). cbn [expire_loop List.filter].
    destruct (os_reltime_expired now (last_seen x) s) eqn:Hexp; cbn [negb andb].
    + assert (u32 (n - 1) = n - 1) as Hu32 by (unfold u32; rewrite Z.mod_small; lia).
      rewrite Hu32, IH by (try done; lia). rewrite zlen_cons. f_equal. lia.
    + assert (Forall (λ y, os_reltime_expired now (last_seen y) s = false) l) as Hno.
      { apply List.Forall_forall. intros y Hy.
        rewrite List.Forall_forall in Hx, Hu. specialize (Hx y Hy). specialize (Hu y Hy).
        destruct (os_reltime_expired now (last_seen y) s) eqn:He; [|done].
        by rewrite (expired_earlier now (last_seen x) (last_seen y) s Hnow Hux Hu Hx He) in Hexp. }
      assert (List.filter (λ x, negb (os_reltime_expired now (last_seen x) s)) l = l ∧
              List.filter (λ x, os_reltime_expired now (last_seen x) s) l = []) as [-> ->].
      { clear -Hno. induction Hno as [|y l Hy Hl [IH1 IH2]]; [done|]. cbn. rewrite Hy. cbn.
        by rewrite IH1, IH2. }
      f_equal. change (zlen (@nil hostapd_sta_info)) with 0. lia.
Qed.

Definition others (addr : bytes) (l : list hostapd_sta_info) : list hostapd_sta_info :=
  List.filter (λ x, negb (bool_decide (info_addr x = addr))) l.

Lemma others_absent addr l : Forall (λ x, info_addr x ≠ addr) l → others addr l = l.
Proof.
  induction 1 as [|x l Hx Hl IH]; [done|]. cbn. rewrite bool_decide_eq_false_2 by done. cbn.
  f_equal. exact IH.
Qed.

Lemma others_delete addr l : ∀ k info,
  NoDup (map info_addr l) → list_find (λ x, info_addr x = addr) l = Some (k, info) →
  delete k l = others addr l ∧ info_addr info = addr ∧ (k < length l)%nat.
Proof.
  induction l as [|x l IH]; intros k info Hnd Hf; [done|].
  cbn [map] in Hnd. apply list.NoDup_cons in Hnd as [Hx Hnd]. cbn [list_find] in Hf.
  unfold others. cbn [List.filter]. destruct (decide (info_addr x = addr)) as [Ha|Ha].
  - injection Hf as <- <-. rewrite bool_decide_eq_true_2 by done. cbn [negb].
    split_and!; [|done|cbn; lia]. symmetry. apply others_absent.
    apply List.Forall_forall. intros y Hy Hya. apply Hx. rewrite Ha, <- Hya.
    by apply list_elem_of_In, in_map.
  - destruct (list_find (λ x, info_addr x = addr) l) as [[k' info']|]; [|done].
    injection Hf as <- <-. rewrite bool_decide_eq_false_2 by done. cbn [negb delete list_delete].
    destruct (IH k' info' Hnd eq_refl) as (IH1 & IH2 & IH3).
    split_and!; [f_equal; exact IH1|done|cbn; lia].
Qed.

Lemma list_find_absent addr l :
  list_find (λ x, info_addr x = addr) l = None → Forall (λ x, info_addr x ≠ addr) l.
Proof. by intros H%list_find_None. Qed.

Lemma nodup_filter f l : NoDup (map info_addr l) → NoDup (map info_addr (List.filter f l)).
Proof.
  induction l as [|x l IH]; intros Hnd; [constructor|]. cbn [map] in Hnd.
  apply list.NoDup_cons in Hnd as [Hx Hnd]. cbn [List.filter]. destruct (f x); [|by apply IH].
  cbn [map]. apply list.NoDup_cons. split; [|by apply IH].
  intros Hc%list_elem_of_In. apply Hx. apply in_map_iff in Hc as (y & Hy & Hc).
  apply filter_In in Hc as [Hc _]. rewrite <- Hy. by apply list_elem_of_In, in_map.
Qed.

Lemma others_nodup addr now l :
  NoDup (map info_addr l) → NoDup (map info_addr (others addr l ++ [mk_sta_info addr now])).
Proof.
  intros Hnd. rewrite map_app. cbn [map]. 
  assert (∀ a, a ∈ map info_addr (others addr l) → a ∈ map info_addr l ∧ a ≠ addr) as Hin.
  { intros a Ha%list_elem_of_In. apply in_map_iff in Ha as (x & <- & Hx).
    apply filter_In in Hx as [Hx Hn]. split; [by apply list_elem_of_In, in_map|].
    by apply negb_true_iff, bool_decide_eq_false in Hn. }
  apply list.NoDup_app. split_and!.
  - by apply nodup_filter.
  - intros a Ha%Hin Hs. apply list_elem_of_singleton in Hs. tauto.
  - apply list.NoDup_singleton.
Qed.

Lemma filter_split {A} (f : A → bool) l :
  zlen (List.filter f l) + zlen (List.filter (λ x, negb (f x)) l) = zlen l.
Proof.
  induction l as [|x l IH]; [done|]. cbn [List.filter]. rewrite (zlen_cons x l).
  destruct (f x); cbn [negb]; rewrite zlen_cons; lia.
Qed.

Lemma others_known addr k info i :
  NoDup (seen_addrs i) → sta_track_get i addr = Some (k, info) →
  delete k (sta_seen i) = others addr (sta_seen i) ∧ info_addr info = addr ∧
  zlen (sta_seen i) = zlen (others addr (sta_seen i)) + 1.
Proof.
  intros Hnd Hg. destruct (others_delete addr _ _ _ Hnd Hg) as (Hd & Ha & Hk).
  split_and!; [done|done|]. rewrite <- Hd. unfold zlen. rewrite length_delete; [lia|].
  by apply lookup_lt_is_Some_2.
Qed.

Lemma expire_full c now i :
  track_ok c i → 0 < track_sta_max_num c → track_sta_max_num c ≤ num_sta_seen i →
  ∃ k, (0 < k)%nat ∧ (k ≤ length (sta_seen i))%nat ∧
    sta_track_expire c now i true =
      i <| sta_seen := drop k (sta_seen i) |> <| num_sta_seen := num_sta_seen i - Z.of_nat k |>.
Proof.
  intros [_ Hc Hm] Hpos Hfull. unfold sta_track_expire. rewrite decide_False by lia.
  destruct (expire_loop_drop now (track_sta_max_age c) (sta_seen i) true (num_sta_seen i))
    as (k & -> & Hk & Hk0 & _); [lia|].
  exists k. split_and!; [|done|done]. apply Hk0; [done|]. intros He. rewrite He in Hc.
  change (zlen (@nil hostapd_sta_info)) with 0 in Hc. lia.
Qed.

(** What [sta_track_add] does to the list. *)
Lemma sta_track_add_shape `{Malloc} c now later i addr :
  track_ok c i → 0 < track_sta_max_num c →
  if bool_decide (is_Some (sta_track_get i addr)) || malloc_ok sizeof_hostapd_sta_info then
    ∃ k, let l := drop k (others addr (sta_seen i)) ++ [mk_sta_info addr now] in
      sta_track_add c now later i addr = i <| sta_seen := l |> <| num_sta_seen := zlen l |> ∧
      zlen l ≤ track_sta_max_num c ∧
      ((0 < k)%nat → sta_track_get i addr = None ∧ zlen (sta_seen i) = track_sta_max_num c)
  else sta_track_add c now later i addr = i.
Proof.
  intros Hok Hpos. pose proof Hok as [Hnd Hc Hm]. unfold sta_track_add.
  destruct (sta_track_get i addr) as [[k info]|] eqn:Hg.
  - rewrite bool_decide_eq_true_2 by eauto. cbn [orb].
    destruct (others_known addr k info i Hnd Hg) as (Hd & -> & Hl).
    exists O. cbv zeta. rewrite drop_0, Hd, zlen_snoc. split_and!; [|lia|lia].
    rewrite <- Hl, <- Hc. by destruct i.
  - rewrite bool_decide_eq_false_2 by (intros [? ?]; done). cbn [orb].
    destruct (malloc_ok _); cbn [negb]; [|done].
    unfold sta_track_get in Hg. apply list_find_absent in Hg. rewrite (others_absent _ _ Hg).
    destruct (decide (track_sta_max_num c ≤ num_sta_seen i)) as [Hfull|Hfull].
    + destruct (expire_full c later i Hok Hpos Hfull) as (k & Hk & Hkl & ->).
      assert (zlen (drop k (sta_seen i)) = num_sta_seen i - Z.of_nat k) as Hz
        by (rewrite Hc; unfold zlen; rewrite length_drop; lia).
      exists k. cbv zeta. rewrite zlen_snoc, Hz. pose proof (zlen_nonneg (drop k (sta_seen i))).
      split_and!; [|lia|intros _; split; [done|lia]].
      cbn. unfold u32. by rewrite Z.mod_small by lia.
    + exists O. cbv zeta. rewrite drop_0, zlen_snoc. pose proof (zlen_nonneg (sta_seen i)).
      split_and!; [|lia|lia]. unfold u32. rewrite Z.mod_small, <- Hc by lia. done.
Qed.

(** ** Properties *)

(** C13. [sta_track_add] keeps the tracking list well formed (each station once,
    the counter equal to the length, never more than [track_sta_max_num]) and
    makes the station its most recent entry: the other entries keep their order
    and their times, and only when the station is new and the list is full are
    the oldest ones dropped. Without memory for a new entry nothing changes. A
    list in order of time stays so. The clock may have moved on before the old entries
    are dropped. *)
Theorem sta_track_add_spec `{Malloc} c now later i addr :
  track_ok c i → 0 < track_sta_max_num c →
  let i' := sta_track_add c now later i addr in
  track_ok c i' ∧
  (if bool_decide (is_Some (sta_track_get i addr)) || malloc_ok sizeof_hostapd_sta_info then
     ∃ k, sta_seen i' = drop k (others addr (sta_seen i)) ++ [mk_sta_info addr now] ∧
          ((0 < k)%nat → sta_track_get i addr = None ∧ zlen (sta_seen i) = track_sta_max_num c)
   else i' = i) ∧
  (Forall (λ x, time_le (last_seen x) now) (sta_seen i) → StronglySorted info_le (sta_seen i) →
   StronglySorted info_le (sta_seen i')).
Proof.
  intros Hok Hpos i'. pose proof (sta_track_add_shape c now later i addr Hok Hpos) as Hs. fold i' in Hs.
  destruct (_ || _); [|by rewrite Hs].
  destruct Hs as (k & Hi & Hl & Hk). rewrite Hi. cbn -[drop].
  split; [|split; [by exists k|]].
  - destruct Hok as [Hnd Hc Hm]. constructor; cbn -[drop]; [|done|lia].
    unfold seen_addrs. cbn -[drop]. rewrite map_app, <- skipn_map.
    pose proof (others_nodup addr now _ Hnd) as Ho. rewrite map_app in Ho.
    apply list.NoDup_app in Ho as (H1 & H2 & H3). apply list.NoDup_app.
    rewrite <- (take_drop k (map info_addr (others addr (sta_seen i)))) in H1, H2.
    apply list.NoDup_app in H1 as (_ & _ & H1). split_and!; [done| |done].
    intros a Ha. apply H2. apply elem_of_app. by right.
  - intros Hle Hsort. apply sorted_snoc; [by apply sorted_drop, sorted_filter|].
    apply Forall_drop, List.Forall_forall. intros x [Hx _]%filter_In.
    rewrite List.Forall_forall in Hle. by apply Hle.
Qed.

(** Expiry without force on a list in order of time removes exactly the
    entries older than [track_sta_max_age], although the loop stops at the first
    one that is not; the others keep their order and the counter stays equal to
    the length of the list. *)
Lemma sta_track_expire_spec c now i :
  track_ok c i → usec_ok now → Forall (λ x, usec_ok (last_seen x)) (sta_seen i) →
  StronglySorted info_le (sta_seen i) →
  let i' := sta_track_expire c now i false in
  sta_seen i' = List.filter (λ x, negb (os_reltime_expired now (last_seen x) (track_sta_max_age c)))
                  (sta_seen i) ∧
  track_ok c i'.
Proof.
  intros [Hnd Hc Hm] Hnow Hu Hs i'. subst i'. unfold sta_track_expire.
  case_decide as H0.
  - destruct (sta_seen i) eqn:He; [|rewrite Hc, zlen_cons in H0; pose proof (zlen_nonneg l); lia].
    split; [done|]. constructor; [done|by rewrite Hc, He|by rewrite He].
  - rewrite expire_loop_sorted by (try done; lia).
    set (f := λ x, os_reltime_expired now (last_seen x) (track_sta_max_age c)).
    split; [done|]. pose proof (filter_split f (sta_seen i)) as Hlen.
    pose proof (zlen_nonneg (List.filter f (sta_seen i))).
    change (List.filter (λ x, negb (os_reltime_expired now (last_seen x) (track_sta_max_age c))) (sta_seen i))
      with (List.filter (λ x, negb (f x)) (sta_seen i)).
    constructor; cbn; [by apply nodup_filter|lia|lia].
Qed.

(** ** Concrete instances *)

Definition track_config_example : hostapd_config :=
  mk_config 6 100 SHORT_PREAMBLE false [85; 83; 32] false (-1) false false 0 false false false 0 0 0
    false [] 2 60 true.

Definition track_example : hostapd_iface :=
  mk_iface None None 0 2437 false 0 0 0 0 0 [] []
    [mk_sta_info [2; 0; 0; 0; 0; 1] (100, 0); mk_sta_info [2; 0; 0; 0; 0; 2] (150, 7)] 2.

Lemma track_example_ok : track_ok track_config_example track_example.
Proof.
  constructor; [|done|split; [apply Z.leb_le|apply Z.ltb_lt]; reflexivity].
  apply list.NoDup_cons. split; [|apply list.NoDup_singleton].
  intros H%list_elem_of_singleton. discriminate H.
Qed.

Lemma track_example_sorted : StronglySorted info_le (sta_seen track_example).
Proof. repeat constructor. Qed.

(** A third station takes the place of the oldest of the two. *)
Lemma sta_track_add_spec_witness :
  let add := sta_track_add (H := malloc_always) track_config_example (155, 0) (155, 3) track_example in
  track_ok track_config_example track_example ∧
  seen_addrs (add [2; 0; 0; 0; 0; 3]) = [[2; 0; 0; 0; 0; 2]; [2; 0; 0; 0; 0; 3]] ∧
  track_ok track_config_example (add [2; 0; 0; 0; 0; 3]) ∧
  StronglySorted info_le (sta_seen (add [2; 0; 0; 0; 0; 3])).
Proof.
  split; [exact track_example_ok|]. split; [reflexivity|].
  destruct (sta_track_add_spec (H := malloc_always) track_config_example (155, 0) (155, 3) track_example
              [2; 0; 0; 0; 0; 3] track_example_ok eq_refl) as (Hok & _ & Hs).
  split; [exact Hok|]. apply Hs; [|exact track_example_sorted].
  repeat (constructor; [left; reflexivity|]). constructor.
Defined.

Lemma sta_track_expire_spec_witness :
  let i' := sta_track_expire track_config_example (165, 0) track_example false in
  track_ok track_config_example track_example ∧
  seen_addrs i' = [[2; 0; 0; 0; 0; 2]] ∧ track_ok track_config_example i'.
Proof.
  split; [exact track_example_ok|]. split; [reflexivity|].
  apply (sta_track_expire_spec track_config_example (165, 0) track_example track_example_ok);
    [split; [discriminate|reflexivity]| |exact track_example_sorted].
  repeat (constructor; [split; [discriminate|reflexivity]|]). constructor.
Defined.
