(* ===== verification/ProbeReq.v ===== *)
(** * Probe requests

    [handle_probe_req] and [ssid_match] of [src/ap/beacon.c]: the data that
    clients stuff into probe requests is received and acknowledged, and then the
    request is answered or not. The calls of [printf] are left out; [system] and
    the transmission of the response are events. *)

From Stdlib Require Import ZArith Lia Strings.String.
From stdpp Require Import base option list numbers decidable.
From S2P Require Import Prelude CLib Common Wpabuf Ie Elems Channels Client Hapd Dfs ProbeResp StaTrack.
Local Open Scope Z_scope.

(** ** The frame *)

Definition IEEE80211_HDRLEN : Z := 24.

(** [struct ieee80211_mgmt]; [m] is the received frame. *)
Definition mgmt_da (m : bytes) : bytes := take ETH_ALEN (drop 4 m).
Definition mgmt_sa (m : bytes) : bytes := take ETH_ALEN (drop 10 m).
Definition mgmt_bssid (m : bytes) : bytes := take ETH_ALEN (drop 16 m).

Definition is_broadcast_ether_addr (a : bytes) : bool :=
  bool_decide (foldr Z.land 0xff (take ETH_ALEN a) = 0xff).

Definition is_multicast_ether_addr (a : bytes) : bool :=
  match a with a0 :: _ => negb (Z.eqb (Z.land a0 0x01) 0) | [] => false end.

Definition ap_get_sta (h : hostapd_data) (sta : bytes) : option bytes :=
  List.find (λ a, bool_decide (a = sta)) (sta_list h).

(** ** Matching of the SSID *)

Inductive ssid_match_result : Set := NO_SSID_MATCH | EXACT_SSID_MATCH | WILDCARD_SSID_MATCH.

#[export] Instance ssid_match_result_eq_dec : EqDecision ssid_match_result.
Proof. solve_decision. Defined.

(** The [while] loop: [pos] is the memory from the pointer on and [left] is
    [end - pos]. An iteration consumes at least two octets. *)
Fixpoint ssid_list_loop (fuel : nat) (own pos : bytes) (left : Z) (wildcard : bool)
    : outcome ssid_match_result :=
  match fuel with
  | O => Stuck
  | S f =>
    let done := Ok (if wildcard then WILDCARD_SSID_MATCH else NO_SSID_MATCH) in
    if decide (1 ≤ left) then
      l ← rd pos 1;
      if decide (left < 2 + l) then done else
      let wildcard := if decide (l = 0) then true else wildcard in
      same ← (if decide (l = zlen own)
              then s ← slice pos 2 (Z.to_nat l); Ok (bool_decide (s = own)) else Ok false);
      if same : bool then Ok EXACT_SSID_MATCH
      else ssid_list_loop f own (drop (Z.to_nat (2 + l)) pos) (left - (2 + l)) wildcard
    else done
  end.

Definition ssid_match (h : hostapd_data) (ssid : bytes) (ssid_len : Z) (ssid_list : option bytes)
    (ssid_list_len : Z) : outcome ssid_match_result :=
  let own := ssid_ (conf h) in
  let wildcard := bool_decide (ssid_len = 0) in
  same ← (if decide (ssid_len = zlen own)
          then s ← slice ssid 0 (Z.to_nat ssid_len); Ok (bool_decide (s = own)) else Ok false);
  if same : bool then Ok EXACT_SSID_MATCH else
  match ssid_list with
  | None => Ok (if wildcard then WILDCARD_SSID_MATCH else NO_SSID_MATCH)
  | Some pos => ssid_list_loop (S (Z.to_nat ssid_list_len)) own pos ssid_list_len wildcard
  end.

(** ** Receiving stuffed data *)

Inductive ap_event : Type :=
| Ev_system (command : bytes)
| Ev_send_mlme (resp : bytes) (noack : bool) (csa_offs : list Z).

Section ops.
Context `{Malloc}.

(** [elems.stuffed_data[i]] and [elems.stuffed_data_len[i]] *)
Definition stuffed_at (e : elems.t) (i : nat) : outcome (bytes * Z) :=
  match elems.stuffed_data e !! i, elems.stuffed_data_len e !! i with
  | Some (Some p), Some l => Ok (p, l)
  | Some None, Some _ => Undef NullDeref
  | _, _ => Undef OutOfBounds
  end.

(** One iteration of the first loop: the object [ies_stuffed_data[i - 1]]. *)
Definition copy_stuffed (e : elems.t) (i : nat) : outcome (bytes * Z) :=
  '(p, l) ← stuffed_at e i;
  let sz := (l - 2) * sizeof_ptr in
  _ ← alloc sz;
  d ← slice p 3 (Z.to_nat (u64 (l - 3)));
  o ← write (replicate (Z.to_nat sz) 0) 0 d;
  o ← write o (Z.to_nat (l - 3)) [0];
  Ok (o, l - 3).

(** The first loop, for the elements [idxs]: the objects and [ies_len]. *)
Fixpoint copy_all_stuffed (e : elems.t) (idxs : list nat) (ies_len : Z) : outcome (list bytes * Z) :=
  match idxs with
  | [] => Ok ([], ies_len)
  | i :: idxs =>
    '(o, l) ← copy_stuffed e i;
    '(os, ies_len) ← copy_all_stuffed e idxs (ies_len + l);
    Ok (o :: os, ies_len)
  end.

(** [strcat] of every object to the string [acc] in an object of [sz] octets. *)
Fixpoint strcat_all (sz : nat) (acc : bytes) (os : list bytes) : outcome bytes :=
  match os with
  | [] => Ok acc
  | o :: os =>
    s ← cstr o;
    acc ← put_str sz (acc ++ s);
    strcat_all sz acc os
  end.

(** [recv_data] and [ies_len] *)
Definition gather_stuffed (e : elems.t) : outcome (bytes * Z) :=
  let n := Z.to_nat (elems.n_stuffed_ies e) in
  '(os, ies_len) ← copy_all_stuffed e (seq 1 (n - 1)) 0;
  let sz := Z.to_nat ((ies_len + 1) * sizeof_ptr) in
  _ ← alloc ((ies_len + 1) * sizeof_ptr);
  recv_data ← strcat_all sz [] os;
  _ ← guard_ub OutOfBounds (bool_decide (Z.to_nat ies_len < sz)%nat);
  Ok (take (Z.to_nat ies_len) recv_data, ies_len).

(** The sequence number, time stamp and more fragment bit of the first element. *)
Definition additional_fields (e : elems.t) : outcome (bytes * bytes * bytes) :=
  '(p, l) ← stuffed_at e 0;
  _ ← alloc (l - 2);
  d ← slice p 3 (Z.to_nat (u64 (l - 3)));
  additional_data ← write (replicate (Z.to_nat (l - 2)) 0) 0 (d ++ [0]);
  _ ← alloc 18; _ ← alloc 9; _ ← alloc 19; _ ← alloc 2;
  seq_num_str ← strncpy_from additional_data 8;
  timestamp_str ← strncpy_from (drop 8 additional_data) 18;
  mfb_str ← strncpy_from (drop 26 additional_data) 1;
  Ok (seq_num_str, timestamp_str, mfb_str).

(** The element with the acknowledgement, in a new [wpabuf]. *)
Definition make_ack (seq_num_str : bytes) : outcome wpabuf :=
  ack_seq_num ← atoi seq_num_str;
  ack_seq_num_str ← put_str 9 (sdec ack_seq_num);
  let ie_ack_len := zlen ack_seq_num_str + 5 in
  _ ← alloc ie_ack_len;
  let ie_ack := [221; u8 (ie_ack_len - 2); 1; 2; 3] ++ ack_seq_num_str in
  match wpabuf_alloc ie_ack_len with
  | None => Undef NullDeref
  | Some b => wpabuf_put_data b (Some ie_ack) ie_ack_len
  end.

(** The record for the controller. *)
Definition csv_text (client_mac timestamp_str ap_timestamp_str seq_num_str mfb_str recv_data : bytes)
    (ies_len : Z) : bytes :=
  client_mac ++ 44 :: timestamp_str ++ 44 :: ap_timestamp_str ++ 44 :: seq_num_str ++
  lit ",1," ++ mfb_str ++ 44 :: sdec ies_len ++ 44 :: recv_data.

Definition tcpclient : bytes :=
  lit "/home/wireless/gursimran/wifi-over-management-frames/bin/tcpclient.out --tcp -h192.168.1.1 -p10001 -s".

Definition make_command (csv : bytes) : outcome bytes :=
  _ ← alloc 500; _ ← alloc 700;
  let csv := snprintf_cont 500 csv in
  put_str 700 (snprintf_cont (length csv + 200) (tcpclient ++ 34 :: csv ++ [34])).

(** Lines 749 to 860, when at least one stuffed element was received; [tv] is
    what [gettimeofday] gives. *)
Definition receive_stuffed (tv : Z * Z) (sa : bytes) (e : elems.t) (h : hostapd_data)
    : outcome (hostapd_data * list ap_event) :=
  _ ← (if decide (1 < elems.n_stuffed_ies e) then alloc ((elems.n_stuffed_ies e - 1) * sizeof_ptr)
       else Ok tt);
  '(recv_data, ies_len) ← gather_stuffed e;
  '(seq_num_str, timestamp_str, mfb_str) ← additional_fields e;
  mac ← mac_txt sa;
  client_mac ← put_str 18 mac;
  ap_timestamp_str ← put_str 19 (udec0 18 (u64 (fst tv * 1000000 + snd tv)));
  _ ← atoi mfb_str;
  ack ← make_ack seq_num_str;
  let h := h <| conf := (conf h) <| probe_resp_ack_ie := Some ack |> |> in
  command ← make_command (csv_text client_mac timestamp_str ap_timestamp_str seq_num_str mfb_str
                            recv_data ies_len);
  Ok (h, [Ev_system command]).

(** ** Handling a request *)

(** What the handler reads of the outside: the clocks ([os_get_reltime] for a new
    entry of the tracking list and again for its expiry, [gettimeofday], [os_get_time]), the other interfaces and the registered
    callbacks, which get the three addresses, the elements and the signal
    strength. *)
Record ap_env := mk_ap_env {
  now_rel : Z * Z;
  later_rel : Z * Z;
  now_tv : Z * Z;
  now_tm : option os_tm;
  all_ifaces : hapd_interfaces;
  probereq_cb : list (bytes → bytes → bytes → bytes → Z → Z) }.

(** The conditions under which a request whose elements are [e] is answered, in
    the order of the early returns: [None] when it is not. *)
Definition reply_to (env : ap_env) (h : hostapd_data) (m : bytes) (e : elems.t)
    : outcome (option ssid_match_result) :=
  match elems.ssid e, elems.supp_rates e with
  | Some ssid, Some _ =>
    ds ← match elems.ds_params e with
         | Some p =>
           if mode_is (iface h) HOSTAPD_MODE_IEEE80211G || mode_is (iface h) HOSTAPD_MODE_IEEE80211B
           then c ← rd p 0; Ok (negb (Z.eqb (channel (iconf h)) c)) else Ok false
         | None => Ok false
         end;
    if ds : bool then Ok None else
    if ignore_broadcast_ssid (conf h) && Z.eqb (elems.ssid_len e) 0 && Z.eqb (elems.ssid_list_len e) 0
    then Ok None else
    res ← ssid_match h ssid (elems.ssid_len e) (elems.ssid_list e) (elems.ssid_list_len e);
    if decide (res = NO_SSID_MATCH) then Ok None else
    let multicast := is_multicast_ether_addr (mgmt_da m) && is_multicast_ether_addr (mgmt_bssid m) in
    if match no_probe_resp_if_seen_on (conf h) with
       | Some ifname =>
         multicast && bool_decide (is_Some (sta_track_seen_on (all_ifaces env) (iface h) (mgmt_sa m) ifname))
       | None => false
       end then Ok None else
    if no_probe_resp_if_max_sta (conf h) && multicast && bool_decide (max_num_sta (conf h) ≤ num_sta h) &&
       bool_decide (ap_get_sta h (mgmt_sa m) = None)
    then Ok None else Ok (Some res)
  | _, _ => Ok None
  end.

(** The countdown offsets passed to the driver. *)
Definition csa_offsets (h : hostapd_data) : list Z :=
  if csa_in_progress h then
    (if decide (cs_c_off_proberesp h ≠ 0) then [u16 (cs_c_off_proberesp h)] else []) ++
    (if decide (cs_c_off_ecsa_proberesp h ≠ 0) then [u16 (cs_c_off_ecsa_proberesp h)] else [])
  else [].

Definition send_reply (env : ap_env) (h : hostapd_data) (m : bytes) (res : ssid_match_result)
    : outcome (hostapd_data * list ap_event) :=
  '(resp, h) ← hostapd_gen_probe_resp (now_tm env) h (Some (mgmt_sa m));
  match resp with
  | None => Ok (h, [])
  | Some resp =>
    let noack := bool_decide (res = WILDCARD_SSID_MATCH) && is_broadcast_ether_addr (mgmt_da m) in
    Ok (h, [Ev_send_mlme resp noack (csa_offsets h)])
  end.

(** The callbacks are called up to the first that takes the frame. *)
Definition taken_by_cb (env : ap_env) (m : bytes) (ssi_signal : Z) : bool :=
  existsb (λ cb : bytes → bytes → bytes → bytes → Z → Z,
    bool_decide (0 < cb (mgmt_sa m) (mgmt_da m) (mgmt_bssid m) (drop (Z.to_nat IEEE80211_HDRLEN) m) ssi_signal))
    (probereq_cb env).

Definition handle_probe_req (env : ap_env) (h : hostapd_data) (m : bytes) (ssi_signal : Z)
    : outcome (hostapd_data * list ap_event) :=
  if decide (zlen m < IEEE80211_HDRLEN) then Ok (h, []) else
  let ie := drop (Z.to_nat IEEE80211_HDRLEN) m in
  let h := if decide (track_sta_max_num (iconf h) ≠ 0)
           then h <| iface := sta_track_add (iconf h) (now_rel env) (later_rel env) (iface h) (mgmt_sa m) |> else h in
  if taken_by_cb env m ssi_signal then Ok (h, []) else
  if negb (send_probe_response (iconf h)) then Ok (h, []) else
  '(res, e) ← ieee802_11_parse_elems ie;
  if decide (res = ParseFailed) then Ok (h, []) else
  '(h, evs) ← (if decide (0 < elems.n_stuffed_ies e)
               then receive_stuffed (now_tv env) (mgmt_sa m) e h else Ok (h, []));
  r ← reply_to env h m e;
  match r with
  | None => Ok (h, evs)
  | Some res =>
    '(h, sent) ← send_reply env h m res;
    Ok (h, evs ++ sent)
  end.
End ops.

(** ** Received elements

    The data of an element follows its OUI; its text ends at the first NUL. *)

Definition data (x : ie) : bytes := drop 3 (ie_body x).
Definition text (x : ie) : bytes := upto_nul (data x).
Definition data_len (xs : list ie) : Z := foldr (λ x n, zlen (data x) + n) 0 xs.

Section facts.
Context `{Malloc}.
Hypothesis malloc_succeeds : ∀ n, malloc_ok n = true.

(** Elements the parser recorded: four octets or more, at most 255. *)
Definition body_ok (x : ie) : Prop := 4 ≤ zlen (ie_body x) < 256.

Lemma data_length x : body_ok x → zlen (data x) = zlen (ie_body x) - 3.
Proof. unfold body_ok, data, zlen. rewrite length_drop. lia. Qed.

Lemma stuffed_at_ok xs e i x :
  stuffed_inv xs e → xs !! i = Some x →
  ∃ t, stuffed_at e i = Ok (ie_body x ++ t, zlen (ie_body x)).
Proof.
  intros Hinv Hx. destruct (si_at xs e Hinv i x Hx) as (t & H1 & H2). exists t.
  unfold stuffed_at. by rewrite H1, H2.
Qed.

Lemma slice_data x t :
  body_ok x → slice (ie_body x ++ t) 3 (Z.to_nat (u64 (zlen (ie_body x) - 3))) = Ok (data x).
Proof.
  intros Hx. pose proof (data_length x Hx) as Hd. unfold body_ok in Hx.
  unfold u64. rewrite Z.mod_small, <- Hd by lia. unfold data, zlen. rewrite Nat2Z.id.
  rewrite slice_ok by (unfold zlen in Hx; rewrite length_drop, length_app; lia).
  rewrite drop_app_le by (unfold zlen in Hx; lia). by rewrite take_app_length.
Qed.

(** The octets [d] and a NUL in an object of zeroes. *)
Lemma write_zeroes n d : (length d ≤ n)%nat →
  write (replicate n 0) 0 d = Ok (d ++ replicate (n - length d) 0).
Proof.
  intros Hn. unfold write. rewrite length_replicate, decide_True by (cbn; lia).
  cbn [take app Nat.add]. by rewrite drop_replicate.
Qed.

Lemma copy_stuffed_ok xs e i x :
  stuffed_inv xs e → xs !! i = Some x → body_ok x →
  ∃ o r, copy_stuffed e i = Ok (o, zlen (data x)) ∧ o = data x ++ 0 :: r.
Proof.
  intros Hinv Hx Hok. destruct (stuffed_at_ok xs e i x Hinv Hx) as [t Ht].
  unfold copy_stuffed. rewrite Ht, bind_Ok. cbv zeta.
  unfold alloc. rewrite malloc_succeeds. cbn [guard_ub]. rewrite bind_Ok, slice_data, bind_Ok by done.
  pose proof (data_length x Hok) as Hd. unfold body_ok in Hok. unfold sizeof_ptr.
  set (n := Z.to_nat ((zlen (ie_body x) - 2) * 8)).
  assert (length (data x) + 2 ≤ n)%nat as Hn by (unfold n, zlen in *; lia).
  rewrite write_zeroes, bind_Ok by lia. replace (zlen (ie_body x) - 3) with (zlen (data x)) by lia.
  replace (Z.to_nat (zlen (data x))) with (length (data x)) by (unfold zlen; lia).
  destruct (n - length (data x))%nat as [|k] eqn:Hk; [lia|]. cbn [replicate].
  unfold write. rewrite length_app. cbn [length]. rewrite decide_True by lia.
  rewrite bind_Ok. do 2 eexists. split; [reflexivity|].
  by rewrite take_app_length.
Qed.

Lemma copy_all_ok xs e ys : ∀ k acc,
  stuffed_inv xs e → drop k xs = ys → Forall body_ok ys →
  ∃ os, copy_all_stuffed e (seq k (length ys)) acc = Ok (os, acc + data_len ys) ∧
        Forall2 (λ o y, ∃ r, o = data y ++ 0 :: r) os ys.
Proof.
  induction ys as [|y ys IH]; intros k acc Hinv Hk Hok.
  - exists []. split; [|constructor]. cbn. f_equal. f_equal. lia.
  - apply Forall_cons_iff in Hok as [Hy Hok].
    assert (xs !! k = Some y) as Hx.
    { rewrite <- (Nat.add_0_r k), <- lookup_drop, Hk. done. }
    cbn [length seq copy_all_stuffed].
    destruct (copy_stuffed_ok xs e k y Hinv Hx Hy) as (o & r & -> & ->).
    rewrite bind_Ok.
    destruct (IH (S k) (acc + zlen (data y)) Hinv) as (os & -> & Hos);
      [by rewrite <- Nat.add_1_r, <- drop_drop, Hk|done|].
    rewrite bind_Ok. eexists. split.
    { do 2 f_equal. change (data_len (y :: ys)) with (zlen (data y) + data_len ys). lia. }
    constructor; [by exists r|done].
Qed.

Lemma data_len_nonneg ys : 0 ≤ data_len ys.
Proof.
  induction ys as [|y ys IH]; [done|]. change (data_len (y :: ys)) with (zlen (data y) + data_len ys).
  pose proof (zlen_nonneg (data y)). lia.
Qed.

Lemma strcat_all_ok sz os ys : ∀ acc,
  Forall2 (λ o y, ∃ r, o = data y ++ 0 :: r) os ys →
  zlen acc + data_len ys < Z.of_nat sz →
  strcat_all sz acc os = Ok (acc ++ concat (map text ys)).
Proof.
  intros acc Hos. revert acc. induction Hos as [|o y os ys [r ->] Hos IH]; intros acc Hsz.
  - cbn. by rewrite app_nil_r.
  - cbn [strcat_all map concat]. rewrite cstr_upto, bind_Ok.
    pose proof (upto_nul_length (data y)). 
    change (data_len (y :: ys)) with (zlen (data y) + data_len ys) in Hsz. fold (text y) in *.
    pose proof (data_len_nonneg ys).
    rewrite put_str_ok, bind_Ok by (rewrite length_app; unfold zlen in *; lia).
    rewrite IH, app_assoc; [done|]. rewrite zlen_app. unfold zlen in *. lia.
Qed.
Lemma texts_length ys : zlen (concat (map text ys)) ≤ data_len ys.
Proof.
  induction ys as [|y ys IH]; [done|]. cbn [map concat].
  change (data_len (y :: ys)) with (zlen (data y) + data_len ys). rewrite zlen_app.
  pose proof (upto_nul_length (data y)). unfold text at 1, zlen at 1 3. lia.
Qed.

Lemma gather_ok xs e :
  stuffed_inv xs e → Forall body_ok xs →
  gather_stuffed e = Ok (concat (map text (drop 1 xs)), data_len (drop 1 xs)).
Proof.
  intros Hinv Hok. unfold gather_stuffed. rewrite (si_n xs e Hinv).
  replace (Z.to_nat (zlen xs) - 1)%nat with (length (drop 1 xs))
    by (rewrite length_drop; unfold zlen; lia).
  destruct (copy_all_ok xs e (drop 1 xs) 1 0 Hinv eq_refl) as (os & -> & Hos);
    [by apply Forall_drop|].
  rewrite bind_Ok, Z.add_0_l. cbv zeta. unfold alloc. rewrite malloc_succeeds. cbn [guard_ub].
  pose proof (data_len_nonneg (drop 1 xs)). pose proof (texts_length (drop 1 xs)).
  unfold sizeof_ptr. rewrite bind_Ok, (strcat_all_ok _ os (drop 1 xs)), bind_Ok
    by (try done; change (zlen (@nil Z)) with 0; lia).
  rewrite bool_decide_eq_true_2 by lia. cbn [guard_ub app]. rewrite bind_Ok.
  by rewrite take_ge by (unfold zlen in *; lia).
Qed.

Lemma additional_ok xs e x :
  stuffed_inv xs e → xs !! 0%nat = Some x → body_ok x →
  additional_fields e =
    if decide (26 ≤ zlen (data x))
    then Ok (take 8 (text x), take 18 (upto_nul (drop 8 (data x))), take 1 (upto_nul (drop 26 (data x))))
    else Undef OutOfBounds.
Proof.
  intros Hinv Hx Hok. destruct (stuffed_at_ok xs e 0 x Hinv Hx) as [t Ht].
  unfold additional_fields, alloc. rewrite Ht, bind_Ok, !malloc_succeeds. cbn [guard_ub].
  rewrite bind_Ok, slice_data, bind_Ok by done. pose proof (data_length x Hok) as Hd.
  rewrite write_zeroes, bind_Ok by (rewrite length_app; cbn [length]; unfold zlen in *; lia).
  replace (Z.to_nat (zlen (ie_body x) - 2) - length (data x ++ [0%Z]))%nat with O
    by (rewrite length_app; cbn [length]; unfold zlen in *; lia).
  cbn [replicate]. rewrite app_nil_r, !bind_Ok.
  rewrite strncpy_from_upto, bind_Ok. fold (text x).
  case_decide as H26.
  - rewrite !drop_app_le by (unfold zlen in *; lia). by rewrite !strncpy_from_upto.
  - rewrite (drop_ge _ 26) by (rewrite length_app; cbn [length]; unfold zlen in *; lia).
    destruct (decide (8 ≤ length (data x))%nat) as [H8|H8].
    + by rewrite drop_app_le, strncpy_from_upto by done.
    + by rewrite drop_ge by (rewrite length_app; cbn [length]; lia).
Qed.

Lemma sdec_length v : - 10 ^ 7 < v < 10 ^ 8 → (length (sdec v) ≤ 8)%nat.
Proof.
  intros Hv. unfold sdec. case_decide; cbn [length].
  - pose proof (udec_length_le 7 (- v) ltac:(lia) ltac:(lia)). lia.
  - by apply (udec_length_le 8 v ltac:(lia) ltac:(lia)).
Qed.

Lemma sdec_ok v : bytes_ok (sdec v) ∧ no_nul (sdec v).
Proof.
  unfold sdec. case_decide.
  - pose proof (udec_digits (- v) ltac:(lia)) as Hd.
    split; (constructor; [done|]); [by apply digits_bytes|by apply digits_no_nul].
  - pose proof (udec_digits v ltac:(lia)) as Hd. split; [by apply digits_bytes|by apply digits_no_nul].
Qed.

Lemma make_ack_ok s :
  (length s ≤ 8)%nat →
  ∃ v b, atoi s = Ok v ∧ - 10 ^ 7 < v < 10 ^ 8 ∧
         make_ack s = Ok b ∧ wf b ∧ contents b = ie_enc (stuff_ie (sdec v)).
Proof.
  intros Hs. pose proof (strtol10_bound s 7 Hs) as Hb.
  change (10 ^ Z.of_nat 7) with (10 ^ 7) in Hb. change (10 ^ Z.of_nat 8) with (10 ^ 8) in Hb.
  assert (atoi s = Ok (strtol10 s)) as Ha by (unfold atoi; by rewrite decide_True by lia).
  exists (strtol10 s). pose proof (sdec_length _ Hb) as Hl. pose proof (zlen_nonneg (sdec (strtol10 s))).
  unfold make_ack, alloc. rewrite Ha, bind_Ok, put_str_ok, bind_Ok by lia. cbv zeta.
  rewrite malloc_succeeds. cbn [guard_ub]. rewrite bind_Ok.
  set (d := sdec (strtol10 s)) in *.
  assert ([221; u8 (zlen d + 5 - 2); 1; 2; 3] ++ d = ie_enc (stuff_ie d)) as Hie.
  { unfold ie_enc, stuff_ie, oui_octets. cbn [ie_id ie_body app].
    rewrite !zlen_cons, u8_small by (unfold is_u8, zlen in *; lia). repeat f_equal. lia. }
  pose proof (stuff_enc_length d) as Hel. rewrite Hie. replace (zlen d + 5) with (zlen (ie_enc (stuff_ie d))) by lia.
  destruct (wpabuf_alloc _) as [b|] eqn:Hal;
    [|unfold wpabuf_alloc in Hal; by rewrite malloc_succeeds in Hal].
  apply wf_alloc in Hal as (Hwf & Hc & Hsz); [|unfold sizeof_wpabuf, zlen in *; lia].
  pose proof (contents_length b Hwf) as Hu. rewrite Hc in Hu. change (zlen (@nil Z)) with 0 in Hu.
  destruct (put_data_fits b (ie_enc (stuff_ie d)) Hwf) as (b' & Hb' & Hwf' & Hc' & _); [lia|].
  exists b'. split_and!; [done|lia|lia|done|done|by rewrite Hc', Hc].
Qed.

Lemma make_command_ok csv :
  make_command csv = Ok (tcpclient ++ 34 :: snprintf_cont 500 csv ++ [34]).
Proof.
  unfold make_command, alloc. rewrite !malloc_succeeds. cbn [guard_ub]. rewrite !bind_Ok. cbv zeta.
  assert (length (snprintf_cont 500 csv) ≤ 499)%nat as Hl
    by (unfold snprintf_cont; rewrite length_take; lia).
  set (c := snprintf_cont 500 csv) in *.
  assert (length tcpclient = 101%nat) as Ht by reflexivity.
  assert (length (tcpclient ++ 34%Z :: c ++ [34%Z]) = 103 + length c)%nat as Hlen
    by (rewrite length_app; cbn [length]; rewrite length_app; cbn [length]; lia).
  unfold snprintf_cont. rewrite take_ge by lia. by rewrite put_str_ok by lia.
Qed.
End facts.

(** ** SSID lists *)

Lemma ssid_loop_trunc fuel own r t wc :
  ie_trunc r → bytes_ok r → bytes_ok t →
  ssid_list_loop (S fuel) own (r ++ t) (zlen r) wc =
    if decide (zlen r = 1 ∧ t = []) then Undef OutOfBounds
    else Ok (if wc then WILDCARD_SSID_MATCH else NO_SSID_MATCH).
Proof.
  intros Hr Hb Ht. cbn [ssid_list_loop]. destruct r as [|i [|l r]].
  - change (zlen (@nil Z)) with 0. rewrite (decide_False (P := 1 ≤ 0)) by lia.
    by rewrite (decide_False (P := 0 = 1 ∧ t = [])) by lia.
  - rewrite (decide_True (P := 1 ≤ _)) by done. destruct t as [|l t]; [done|].
    rewrite (decide_False (P := _ ∧ l :: t = [])) by (intros [_ ?]; done).
    cbn [app]. change (rd (i :: l :: t) 1) with (Ok l).
    rewrite bind_Ok. apply Forall_cons_iff in Ht as [Hl _]. unfold is_u8 in Hl.
    rewrite decide_True; [done|]. change (zlen [i]) with 1. lia.
  - pose proof (zlen_nonneg r). unfold ie_trunc in Hr. rewrite !zlen_cons.
    rewrite (decide_True (P := 1 ≤ _)) by lia. rewrite (decide_False (P := _ ∧ t = [])) by lia.
    cbn [app]. change (rd (i :: l :: r ++ t) 1) with (Ok l). rewrite bind_Ok.
    by rewrite decide_True by lia.
Qed.

Lemma ssid_loop_ie fuel own x b left wc :
  2 + zlen (ie_body x) ≤ left →
  ssid_list_loop (S fuel) own (ie_enc x ++ b) left wc =
    if decide (ie_body x = own) then Ok EXACT_SSID_MATCH
    else ssid_list_loop fuel own b (left - (2 + zlen (ie_body x)))
           (wc || bool_decide (ie_body x = [])).
Proof.
  intros Hle. pose proof (zlen_nonneg (ie_body x)). cbn [ssid_list_loop].
  rewrite (decide_True (P := 1 ≤ left)) by lia.
  change (rd (ie_enc x ++ b) 1) with (Ok (zlen (ie_body x))).
  rewrite bind_Ok, (decide_False (P := left < _)) by lia. cbv zeta.
  assert (drop (Z.to_nat (2 + zlen (ie_body x))) (ie_enc x ++ b) = b) as ->.
  { replace (Z.to_nat (2 + zlen (ie_body x))) with (length (ie_enc x))
      by (rewrite ie_enc_length; unfold zlen; lia). apply drop_app_length. }
  assert ((if decide (zlen (ie_body x) = 0) then true else wc) = (wc || bool_decide (ie_body x = []))) as ->.
  { destruct (ie_body x) as [|c d]; [by rewrite orb_true_r|].
    rewrite decide_False by (rewrite zlen_cons; pose proof (zlen_nonneg d); lia).
    by rewrite orb_false_r. }
  destruct (decide (zlen (ie_body x) = zlen own)) as [Hl|Hl].
  - assert (slice (ie_enc x ++ b) 2 (Z.to_nat (zlen (ie_body x))) = Ok (ie_body x)) as Hs.
    { unfold zlen. rewrite Nat2Z.id.
      exact (slice_mid [ie_id x; zlen (ie_body x)] (ie_body x) b). }
    rewrite Hs. cbn [mbind outcome_bind]. by repeat case_decide; case_bool_decide.
  - rewrite decide_False by congruence. reflexivity.
Qed.

Lemma ies_enc_count l : (length l ≤ length (ies_enc l))%nat.
Proof.
  induction l as [|x l IH]; [cbn; lia|]. rewrite ies_enc_cons, length_app, ie_enc_length. cbn. lia.
Qed.

Lemma ssid_loop_spec own l r t : ie_trunc r → bytes_ok r → bytes_ok t → ∀ fuel wc,
  (length l < fuel)%nat →
  ssid_list_loop fuel own (ies_enc l ++ r ++ t) (zlen (ies_enc l ++ r)) wc =
    if decide (own ∈ map ie_body l) then Ok EXACT_SSID_MATCH
    else if decide (zlen r = 1 ∧ t = []) then Undef OutOfBounds
    else Ok (if wc || bool_decide ([] ∈ map ie_body l) then WILDCARD_SSID_MATCH else NO_SSID_MATCH).
Proof.
  intros Hr Hb Ht. induction l as [|x l IH]; intros fuel wc Hf.
  - destruct fuel as [|f]; [cbn in Hf; lia|]. cbn [ies_enc map concat app].
    rewrite ssid_loop_trunc by done. rewrite (decide_False (P := own ∈ [])) by (by intros ?%not_elem_of_nil).
    rewrite bool_decide_eq_false_2 by (by intros ?%not_elem_of_nil). by rewrite orb_false_r.
  - destruct fuel as [|f]; [cbn in Hf; lia|]. rewrite ies_enc_cons.
    rewrite <- !app_assoc. pose proof (ie_enc_length x) as Hx. pose proof (zlen_nonneg (ies_enc l ++ r)).
    rewrite zlen_app, ssid_loop_ie by (unfold zlen in *; lia).
    cbn [map]. destruct (decide (ie_body x = own)) as [Ho|Ho].
    { rewrite decide_True; [done|]. apply elem_of_cons. left. congruence. }
    replace (zlen (ie_enc x) + zlen (ies_enc l ++ r) - (2 + zlen (ie_body x)))
      with (zlen (ies_enc l ++ r)) by (unfold zlen in *; lia).
    rewrite IH by (cbn [length] in Hf; lia).
    assert (own ∈ ie_body x :: map ie_body l ↔ own ∈ map ie_body l) as Hin
      by (rewrite elem_of_cons; split; [intros [?|?]; [congruence|done]|by right]).
    rewrite (decide_ext (own ∈ ie_body x :: map ie_body l) (own ∈ map ie_body l) _ _ Hin).
    rewrite <- orb_assoc.
    assert (bool_decide (ie_body x = []) || bool_decide ([] ∈ map ie_body l) =
            bool_decide ([] ∈ ie_body x :: map ie_body l)) as ->; [|done].
    rewrite <- bool_decide_or. apply bool_decide_ext. rewrite elem_of_cons. split; intros [?|?]; auto.
Qed.

(** ** State changes *)

Section state.
Context `{Malloc}.

(** Tracking changes only the list of stations and its length. *)
Lemma sta_track_add_only c now later i addr :
  ∃ l n, sta_track_add c now later i addr = i <| sta_seen := l |> <| num_sta_seen := n |>.
Proof.
  assert (∃ l n, i = i <| sta_seen := l |> <| num_sta_seen := n |>) as Hi
    by (exists (sta_seen i), (num_sta_seen i); by destruct i).
  assert (∀ f, ∃ l n, sta_track_expire c later i f = i <| sta_seen := l |> <| num_sta_seen := n |>) as He.
  { intros f. unfold sta_track_expire. case_decide; [done|].
    destruct (expire_loop _ _ _ _ _) as [l n]. by exists l, n. }
  unfold sta_track_add. destruct (sta_track_get i addr) as [[k info]|].
  - exists (delete k (sta_seen i) ++ [mk_sta_info (info_addr info) now]), (num_sta_seen i).
    by destruct i.
  - destruct (negb _); [done|]. case_decide.
    + destruct (He true) as (l & n & ->). by do 2 eexists.
    + by do 2 eexists.
Qed.

(** The state after [sta_track_add]. *)
Definition tracked (env : ap_env) (h : hostapd_data) (m : bytes) : hostapd_data :=
  if decide (track_sta_max_num (iconf h) ≠ 0)
  then h <| iface := sta_track_add (iconf h) (now_rel env) (later_rel env) (iface h) (mgmt_sa m) |> else h.

Lemma tracked_only env h m :
  ∃ l n, tracked env h m = h <| iface := (iface h) <| sta_seen := l |> <| num_sta_seen := n |> |>.
Proof.
  unfold tracked. case_decide.
  - destruct (sta_track_add_only (iconf h) (now_rel env) (later_rel env) (iface h) (mgmt_sa m)) as (l & n & ->).
    by exists l, n.
  - exists (sta_seen (iface h)), (num_sta_seen (iface h)). by destruct h as [? ? []].
Qed.

Lemma tracked_ok env h m :
  hapd_ok h → hapd_ok (tracked env h m) ∧ body_bound (tracked env h m) = body_bound h ∧
              conf (tracked env h m) = conf h.
Proof. intros [] . destruct (tracked_only env h m) as (l & n & ->). split; [by constructor|done]. Qed.

Definition with_ack (h : hostapd_data) (b : wpabuf) : hostapd_data :=
  h <| conf := (conf h) <| probe_resp_ack_ie := Some b |> |>.

Lemma with_ack_ok h b : hapd_ok h → wf b → hapd_ok (with_ack h b) ∧ body_bound (with_ack h b) = body_bound h.
Proof. intros [] Hb. split; [|done]. constructor; try done. by intros b' [= <-]. Qed.

(** The handler on a request that reaches the parser. *)
Lemma handle_parsed env h m ssi res e :
  24 ≤ zlen m → taken_by_cb env m ssi = false → send_probe_response (iconf h) = true →
  ieee802_11_parse_elems (drop 24 m) = Ok (res, e) → res ≠ ParseFailed →
  handle_probe_req env h m ssi =
    ('(h, evs) ← (if decide (0 < elems.n_stuffed_ies e)
                  then receive_stuffed (now_tv env) (mgmt_sa m) e (tracked env h m)
                  else Ok (tracked env h m, []));
     r ← reply_to env h m e;
     match r with
     | None => Ok (h, evs)
     | Some res => '(h, sent) ← send_reply env h m res; Ok (h, evs ++ sent)
     end).
Proof.
  intros Hm Hcb Hsend Hp Hres. unfold handle_probe_req, IEEE80211_HDRLEN.
  rewrite (decide_False (P := zlen m < 24)) by lia. fold (tracked env h m). rewrite Hcb.
  assert (iconf (tracked env h m) = iconf h) as ->
    by (destruct (tracked_only env h m) as (l & n & ->); done).
  rewrite Hsend. cbn [negb]. change (Z.to_nat 24) with 24%nat. rewrite Hp.
  cbn [mbind outcome_bind]. by rewrite (decide_False (P := res = ParseFailed)).
Qed.

(** One response, with the acknowledgement that is pending. *)
Lemma send_reply_ok env h m res :
  hapd_ok h → body_bound h ≤ MAX_PROBERESP_LEN → 24 ≤ zlen m →
  malloc_ok (probe_resp_buflen h) = true →
  ∃ capab p h' offs,
    let resp := probe_resp_header h (Some (mgmt_sa m)) capab ++ p ++
                buf_contents (vendor_elements (conf h)) ++ buf_contents (probe_resp_ack_ie (conf h)) in
    send_reply env h m res =
      Ok (h', [Ev_send_mlme resp (bool_decide (res = WILDCARD_SSID_MATCH) &&
                                  is_broadcast_ether_addr (mgmt_da m)) offs]) ∧
    plain p ∧ zlen (probe_resp_header h (Some (mgmt_sa m)) capab) = 36 ∧
    conf h' = (conf h) <| probe_resp_ack_ie := None |>.
Proof.
  intros Hok Hb Hm Hmal.
  pose proof (hostapd_gen_probe_resp_shape (now_tm env) h (Some (mgmt_sa m)) Hok Hb) as Hg.
  rewrite Hmal in Hg. destruct Hg as (capab & p & h' & _ & Hp & Hr & Hl & _ & _ & _ & Hc).
  { intros a [= <-]. unfold mgmt_sa, ETH_ALEN. rewrite length_take, length_drop. unfold zlen in Hm. lia. }
  unfold send_reply. rewrite Hr. cbn [mbind outcome_bind].
  exists capab, p, h', (csa_offsets h'). done.
Qed.
End state.

Lemma ssid_match_shape h s t0 l r t :
  bytes_ok s → Forall ie_ok l → ie_trunc r → bytes_ok r → bytes_ok t →
  let own := ssid_ (conf h) in
  ssid_match h (s ++ t0) (zlen s) (Some (ies_enc l ++ r ++ t)) (zlen (ies_enc l ++ r)) =
    if decide (s = own ∨ own ∈ map ie_body l) then Ok EXACT_SSID_MATCH
    else if decide (zlen r = 1 ∧ t = []) then Undef OutOfBounds
    else Ok (if decide (s = [] ∨ [] ∈ map ie_body l) then WILDCARD_SSID_MATCH else NO_SSID_MATCH).
Proof.
  intros Hs Hl Hr Hrb Ht own. unfold ssid_match. fold own.
  assert ((if decide (zlen s = zlen own)
           then sl ← slice (s ++ t0) 0 (Z.to_nat (zlen s)); Ok (bool_decide (sl = own))
           else Ok false) = Ok (bool_decide (s = own))) as ->.
  { destruct (decide (zlen s = zlen own)) as [He|He].
    - unfold zlen. rewrite Nat2Z.id, slice_ok by (rewrite length_app; lia).
      rewrite drop_0, take_app_length. done.
    - rewrite bool_decide_eq_false_2; [done|congruence]. }
  rewrite bind_Ok. destruct (decide (s = own)) as [Ho|Ho].
  { rewrite bool_decide_eq_true_2 by done. rewrite decide_True; [done|by left]. }
  rewrite bool_decide_eq_false_2 by done.
  rewrite ssid_loop_spec by (try done; unfold zlen; rewrite Nat2Z.id, length_app;
                             pose proof (ies_enc_count l); lia).
  rewrite (decide_ext (s = own ∨ own ∈ map ie_body l) (own ∈ map ie_body l) _ _) by tauto.
  case_decide; [done|]. case_decide; [done|]. f_equal.
  assert (bool_decide (zlen s = 0) = bool_decide (s = [])) as ->.
  { apply bool_decide_ext. destruct s; [done|]. rewrite zlen_cons. pose proof (zlen_nonneg s).
    split; [lia|done]. }
  by rewrite <- bool_decide_or, <- decide_bool_decide.
Qed.

(** Reading the channel of the DS parameter element. *)
Lemma reply_ds_ok h m ds :
  inside (drop 24 m) (ds, 1) →
  ∃ b, (match ds with
        | Some p =>
          if mode_is (iface h) HOSTAPD_MODE_IEEE80211G || mode_is (iface h) HOSTAPD_MODE_IEEE80211B
          then c ← rd p 0; Ok (negb (Z.eqb (channel (iconf h)) c)) else Ok false
        | None => Ok false
        end) = Ok b.
Proof.
  intros Hd. destruct ds as [p|]; [|by eexists]. destruct Hd as [_ Hd]. cbn in Hd.
  destruct (_ || _); [|by eexists]. destruct p as [|c p]; [change (zlen (@nil Z)) with 0 in Hd; lia|]. by eexists.
Qed.

Lemma reply_ssid_ok h m s n sl sn :
  bytes_ok (drop 24 m) → inside (drop 24 m) (Some s, n) → inside (drop 24 m) (sl, sn) →
  (∃ r, ssid_match h s n sl sn = Ok r) ∨
  (ssid_match h s n sl sn = Undef OutOfBounds ∧
   ∃ l c, sl = Some (ies_enc l ++ [c]) ∧ zlen (ies_enc l ++ [c]) = sn).
Proof.
  intros Hb [[pre Hpre] Hn] Hsl. cbn [fst snd] in *.
  assert (s = take (Z.to_nat n) s ++ drop (Z.to_nat n) s) as Hs by (by rewrite take_drop).
  assert (n = zlen (take (Z.to_nat n) s)) as Hn' by (unfold zlen in *; rewrite length_take; lia).
  rewrite Hpre in Hb. apply Forall_app in Hb as Hb'. destruct Hb' as [_ Hsb].
  destruct sl as [p|].
  - destruct Hsl as [[pre' Hpre'] Hsn]. cbn [fst snd] in *.
    rewrite <- Hpre, Hpre' in Hb. apply Forall_app in Hb as [_ Hpb].
    destruct (ie_decompose (take (Z.to_nat sn) p)) as (l & r & Hlr & Hl & Hr & Hrb); [by apply Forall_take|].
    assert (p = ies_enc l ++ r ++ drop (Z.to_nat sn) p) as Hp
      by (rewrite app_assoc, <- Hlr; by rewrite take_drop).
    assert (sn = zlen (ies_enc l ++ r)) as Hsn'
      by (rewrite <- Hlr; unfold zlen in *; rewrite length_take; lia).
    pose proof (ssid_match_shape h (take (Z.to_nat n) s) (drop (Z.to_nat n) s) l r (drop (Z.to_nat sn) p)
      ltac:(by apply Forall_take) Hl Hr Hrb ltac:(by apply Forall_drop)) as Hm. cbv zeta in Hm.
    rewrite <- Hn', <- Hsn', <- Hs, <- Hp in Hm. rewrite Hm.
    case_decide; [left; by eexists|]. destruct (decide (zlen r = 1 ∧ drop (Z.to_nat sn) p = [])) as [[H1 H2]|];
      [|left; by eexists].
    right. split; [done|]. destruct r as [|c [|c2 r]]; [done| |rewrite !zlen_cons in H1; pose proof (zlen_nonneg r); lia].
    exists l, c. rewrite H2, app_nil_r in Hp. split; [by rewrite Hp at 1|done].
  - left. unfold ssid_match.
    destruct (decide (n = zlen (ssid_ (conf h)))); [|by eexists].
    rewrite slice_ok by (unfold zlen in *; lia). rewrite !bind_Ok. destruct (bool_decide _); by eexists.
Qed.

(** The answer to a request without stuffed data. *)
Lemma answer_shape `{Malloc} env h m ssi res e r :
  hapd_ok h → body_bound h ≤ MAX_PROBERESP_LEN → (∀ n, malloc_ok n = true) →
  24 ≤ zlen m → taken_by_cb env m ssi = false → send_probe_response (iconf h) = true →
  ieee802_11_parse_elems (drop 24 m) = Ok (res, e) → res ≠ ParseFailed →
  elems.n_stuffed_ies e = 0 → reply_to env (tracked env h m) m e = Ok (Some r) →
  ∃ capab p h' offs,
    let resp := probe_resp_header h (Some (mgmt_sa m)) capab ++ p ++
                buf_contents (vendor_elements (conf h)) ++ buf_contents (probe_resp_ack_ie (conf h)) in
    handle_probe_req env h m ssi =
      Ok (h', [Ev_send_mlme resp (bool_decide (r = WILDCARD_SSID_MATCH) &&
                                  is_broadcast_ether_addr (mgmt_da m)) offs]) ∧
    plain p ∧ zlen (probe_resp_header h (Some (mgmt_sa m)) capab) = 36 ∧
    conf h' = (conf h) <| probe_resp_ack_ie := None |>.
Proof.
  intros Hok Hb Hmal Hm Hcb Hsend Hp Hres H0 Hr.
  destruct (tracked_ok env h m Hok) as (Hok1 & Hb1 & Hc1).
  destruct (send_reply_ok env (tracked env h m) m r Hok1 ltac:(by rewrite Hb1) Hm (Hmal _))
    as (capab & p & h' & offs & Hs & Hpl & Hl & Hc').
  rewrite (handle_parsed env h m ssi res e) by done.
  rewrite (decide_False (P := 0 < elems.n_stuffed_ies e)) by lia.
  rewrite bind_Ok, Hr, bind_Ok, Hs, bind_Ok. rewrite Hc1 in Hc' |- *.
  destruct (tracked_only env h m) as (l & n & Ht). rewrite Ht in *.
  by exists capab, p, h', offs.
Qed.

Lemma receive_stuffed_shape `{Malloc} tv sa e h x0 xs :
  (∀ n, malloc_ok n = true) →
  stuffed_inv (x0 :: xs) e → Forall body_ok (x0 :: xs) → length sa = 6%nat →
  0 ≤ fst tv * 1000000 + snd tv < 10 ^ 18 →
  if decide (26 ≤ zlen (data x0)) then
    ∃ v b mac,
      let seq_num := take 8 (text x0) in
      let record := csv_text mac (take 18 (upto_nul (drop 8 (data x0))))
        (udec0 18 (fst tv * 1000000 + snd tv)) seq_num (take 1 (upto_nul (drop 26 (data x0))))
        (concat (map text xs)) (data_len xs) in
      receive_stuffed tv sa e h =
        Ok (with_ack h b, [Ev_system (tcpclient ++ 34 :: take 499 record ++ [34])]) ∧
      mac_txt sa = Ok mac ∧ atoi seq_num = Ok v ∧ - 10 ^ 7 < v < 10 ^ 8 ∧
      wf b ∧ contents b = ie_enc (stuff_ie (sdec v))
  else receive_stuffed tv sa e h = Undef OutOfBounds.
Proof.
  intros Hm Hinv Hok Hsa Htv. unfold receive_stuffed, alloc. rewrite Hm. cbn [guard_ub].
  pose proof Hok as Hok'. apply Forall_cons_iff in Hok' as [Hx0 _].
  assert ((if decide (1 < elems.n_stuffed_ies e) then Ok () else Ok ()) = Ok ()) as ->
    by (by case_decide).
  rewrite bind_Ok, (gather_ok Hm (x0 :: xs)), bind_Ok by done. cbn [drop]. rewrite drop_0.
  rewrite (additional_ok Hm (x0 :: xs) e x0 Hinv eq_refl Hx0).
  case_decide as H26; [|done]. rewrite bind_Ok.
  assert (∃ mac, mac_txt sa = Ok mac ∧ length mac = 17%nat) as (mac & Hmac & Hml).
  { destruct sa as [|a0 [|a1 [|a2 [|a3 [|a4 [|a5 [|]]]]]]]; try discriminate Hsa.
    eexists. split; [reflexivity|done]. }
  rewrite Hmac, bind_Ok, (put_str_ok 18), bind_Ok by lia.
  unfold u64. rewrite Z.mod_small by lia.
  rewrite (put_str_ok 19), bind_Ok by (rewrite udec0_length; [lia|done|lia]).
  assert (∃ v, atoi (take 1 (upto_nul (drop 26 (data x0)))) = Ok v) as [vm Hvm].
  { pose proof (make_ack_ok Hm (take 1 (upto_nul (drop 26 (data x0))))) as Hv.
    destruct Hv as (v & _ & Hv & _); [rewrite length_take; lia|]. by exists v. }
  rewrite Hvm, bind_Ok.
  destruct (make_ack_ok Hm (take 8 (text x0))) as (v & b & Hv & Hvr & Hb & Hwf & Hc);
    [rewrite length_take; lia|].
  rewrite Hb, bind_Ok. cbv zeta. rewrite make_command_ok, bind_Ok by done.
  by exists v, b, mac.
Qed.

(** ** Properties *)

(** C6. What the receiver makes of the stuffed elements [x0 :: xs] that the
    parser recorded, whatever their content. When the first one carries at least
    26 octets: the pending acknowledgement becomes the element that repeats the
    number in its first 8 octets, and the command for the controller is run with
    the sender's address, the two time stamps, the number, the fragment bit, the
    total length and the texts of the other elements in order, cut at 499 octets
    and never longer than its buffer. When it carries fewer, the receiver reads
    past the end of the copy it made. *)
Theorem receive_stuffed_spec `{Malloc} tv sa e h x0 xs :
  (∀ n, malloc_ok n = true) →
  stuffed_inv (x0 :: xs) e → Forall body_ok (x0 :: xs) → length sa = 6%nat →
  0 ≤ fst tv * 1000000 + snd tv < 10 ^ 18 →
  if decide (26 ≤ zlen (data x0)) then
    ∃ v b mac,
      let seq_num := take 8 (text x0) in
      let record := csv_text mac (take 18 (upto_nul (drop 8 (data x0))))
        (udec0 18 (fst tv * 1000000 + snd tv)) seq_num (take 1 (upto_nul (drop 26 (data x0))))
        (concat (map text xs)) (data_len xs) in
      receive_stuffed tv sa e h =
        Ok (with_ack h b, [Ev_system (tcpclient ++ 34 :: take 499 record ++ [34])]) ∧
      mac_txt sa = Ok mac ∧ atoi seq_num = Ok v ∧ - 10 ^ 7 < v < 10 ^ 8 ∧
      wf b ∧ contents b = ie_enc (stuff_ie (sdec v))
  else receive_stuffed tv sa e h = Undef OutOfBounds.
Proof. apply receive_stuffed_shape. Qed.

(** The SSID matching against any SSID list element, a sequence [l] of
    elements and a remainder [r], followed in memory by [t]. The result is exact
    when the SSID or an element of the list is the own one, otherwise a wildcard
    when the SSID or an element is empty, otherwise no match; only the contents
    count, not the identifiers in the list. A list whose last octet stands alone
    at the end of the frame makes the code read one octet past the frame, unless
    an exact match comes first. *)
Lemma ssid_match_spec h s t0 l r t :
  bytes_ok s → Forall ie_ok l → ie_trunc r → bytes_ok r → bytes_ok t →
  let own := ssid_ (conf h) in
  ssid_match h (s ++ t0) (zlen s) (Some (ies_enc l ++ r ++ t)) (zlen (ies_enc l ++ r)) =
    if decide (s = own ∨ own ∈ map ie_body l) then Ok EXACT_SSID_MATCH
    else if decide (zlen r = 1 ∧ t = []) then Undef OutOfBounds
    else Ok (if decide (s = [] ∨ [] ∈ map ie_body l) then WILDCARD_SSID_MATCH else NO_SSID_MATCH).
Proof. apply ssid_match_shape. Qed.

(** C12. On any frame the parser accepted, deciding about the answer never reads
    outside the frame, with one exception: an SSID list that ends with the frame
    and whose last octet stands alone after complete elements. *)
Theorem reply_to_defined env h m res e :
  bytes_ok (drop 24 m) → ieee802_11_parse_elems (drop 24 m) = Ok (res, e) →
  (∃ r, reply_to env h m e = Ok r) ∨
  (reply_to env h m e = Undef OutOfBounds ∧
   ∃ l c, elems.ssid_list e = Some (ies_enc l ++ [c]) ∧ zlen (ies_enc l ++ [c]) = elems.ssid_list_len e).
Proof.
  intros Hb Hp. pose proof (ei_fields _ _ (parse_elems_pointers _ _ _ Hb Hp)) as Hf.
  rewrite List.Forall_forall in Hf.
  assert (inside (drop 24 m) (elems.ssid e, elems.ssid_len e)) as Hs by (apply Hf; cbn; tauto).
  assert (inside (drop 24 m) (elems.ds_params e, 1)) as Hd by (apply Hf; cbn; tauto).
  assert (inside (drop 24 m) (elems.ssid_list e, elems.ssid_list_len e)) as Hsl by (apply Hf; cbn; tauto).
  clear Hf Hp. unfold reply_to.
  destruct (elems.ssid e) as [s|]; [|left; by eexists].
  destruct (elems.supp_rates e); [|left; by eexists].
  destruct (reply_ds_ok h m (elems.ds_params e) Hd) as [ds ->]. rewrite bind_Ok.
  destruct ds; [left; by eexists|]. destruct (_ && _ && _); [left; by eexists|].
  destruct (reply_ssid_ok h m s (elems.ssid_len e) (elems.ssid_list e) (elems.ssid_list_len e) Hb Hs Hsl)
    as [[r ->]|[-> Hover]]; [|by right].
  rewrite bind_Ok. left. case_decide; [by eexists|]. destruct (match no_probe_resp_if_seen_on (conf h) with Some _ => _ | None => _ end);
    [by eexists|]. destruct (_ && _); by eexists.
Qed.

(** C9. The answer to a probe request without stuffed data is one frame, to its
    sender: the plain response and, at its end, whatever acknowledgement is
    pending in the configuration, which is then no longer pending. It is sent
    without link layer acknowledgement exactly when the SSID matched as a
    wildcard and the request was broadcast. *)
Theorem handle_probe_req_answer `{Malloc} env h m ssi res e r :
  hapd_ok h → body_bound h ≤ MAX_PROBERESP_LEN → (∀ n, malloc_ok n = true) →
  24 ≤ zlen m → taken_by_cb env m ssi = false → send_probe_response (iconf h) = true →
  ieee802_11_parse_elems (drop 24 m) = Ok (res, e) → res ≠ ParseFailed →
  elems.n_stuffed_ies e = 0 → reply_to env (tracked env h m) m e = Ok (Some r) →
  ∃ capab p h' offs,
    let resp := probe_resp_header h (Some (mgmt_sa m)) capab ++ p ++
                buf_contents (vendor_elements (conf h)) ++ buf_contents (probe_resp_ack_ie (conf h)) in
    handle_probe_req env h m ssi =
      Ok (h', [Ev_send_mlme resp (bool_decide (r = WILDCARD_SSID_MATCH) &&
                                  is_broadcast_ether_addr (mgmt_da m)) offs]) ∧
    plain p ∧ zlen (probe_resp_header h (Some (mgmt_sa m)) capab) = 36 ∧
    conf h' = (conf h) <| probe_resp_ack_ie := None |>.
Proof. apply answer_shape. Qed.

(** ** Concrete instances *)

Definition env_example : ap_env :=
  mk_ap_env (100, 0) (100, 2) (1513000000, 250) (Some tm_example) (mk_interfaces [] [[119; 108; 97; 110; 48]] []) [].

(** The header of a broadcast probe request from 02:00:00:00:00:09. *)
Definition hdr_example : bytes :=
  [64; 0; 0; 0; 255; 255; 255; 255; 255; 255; 2; 0; 0; 0; 0; 9; 255; 255; 255; 255; 255; 255; 0; 0].

(** A request for any SSID, with one rate. *)
Definition probe_example : bytes := hdr_example ++ [0; 0; 1; 1; 130].

(** Two stuffed elements: sequence number 7, time stamp, no more fragments and
    the text hello. *)
Definition stuffed_example : bytes :=
  ie_enc (stuff_ie (lit "000000070000015130000002500")) ++ ie_enc (stuff_ie (lit "hello")).

Lemma stuffed_example_parsed :
  ∃ e, ieee802_11_parse_elems stuffed_example = Ok (ParseUnknown, e) ∧
       stuffed_inv [stuff_ie (lit "000000070000015130000002500"); stuff_ie (lit "hello")] e.
Proof.
  pose proof (parse_elems_stuffed
    [stuff_ie (lit "000000070000015130000002500"); stuff_ie (lit "hello")] []) as H.
  destruct H as (res & e & Hp & Hi & _); [|done|constructor|].
  { repeat constructor; done. }
  exists e. split; [|exact Hi].
  assert (∃ e', ieee802_11_parse_elems stuffed_example = Ok (ParseUnknown, e')) as [e' He']
    by (eexists; vm_compute; reflexivity).
  rewrite He'. change stuffed_example with (ies_enc [stuff_ie (lit "000000070000015130000002500"); stuff_ie (lit "hello")] ++ []) in He'.
  rewrite He' in Hp. congruence.
Qed.

Lemma receive_stuffed_spec_witness :
  let x0 := stuff_ie (lit "000000070000015130000002500") in
  let xs := [stuff_ie (lit "hello")] in
  (∀ n, malloc_ok (Malloc := malloc_always) n = true) ∧ Forall body_ok (x0 :: xs) ∧
  ∃ e b cmd, stuffed_inv (x0 :: xs) e ∧
    receive_stuffed (H := malloc_always) (1513000000, 250) [2; 0; 0; 0; 0; 9] e (hapd_example None) =
      Ok (with_ack (hapd_example None) b, [Ev_system cmd]) ∧
    contents b = ie_enc (stuff_ie (lit "7")).
Proof.
  cbv zeta. split; [reflexivity|].
  assert (Forall body_ok [stuff_ie (lit "000000070000015130000002500"); stuff_ie (lit "hello")]) as Hok
    by (repeat constructor; vm_compute; congruence).
  split; [exact Hok|]. destruct stuffed_example_parsed as (e & _ & Hi). exists e.
  destruct (receive_stuffed_spec (H := malloc_always) (1513000000, 250) [2; 0; 0; 0; 0; 9] e
              (hapd_example None) (stuff_ie (lit "000000070000015130000002500")) [stuff_ie (lit "hello")]
              ltac:(reflexivity) Hi Hok eq_refl ltac:(split; vm_compute; congruence))
    as (v & b & mac & Hr & _ & Hv & _ & _ & Hc).
  exists b. eexists. split; [exact Hi|]. split; [exact Hr|]. rewrite Hc.
  assert (v = 7) as -> by (vm_compute in Hv; congruence). reflexivity.
Defined.

(** The list ends with a single octet before other elements. *)
Lemma ssid_match_spec_witness :
  let l := [mk_ie 0 []; mk_ie 0 [116; 101; 115; 116]] in
  Forall ie_ok l ∧
  ssid_match (hapd_example None) ([97] ++ []) (zlen [97]) (Some (ies_enc l ++ [0] ++ [])) (zlen (ies_enc l ++ [0])) =
    Ok EXACT_SSID_MATCH.
Proof.
  cbv zeta. assert (Forall ie_ok [mk_ie 0 []; mk_ie 0 [116; 101; 115; 116]]) as Hl
    by (repeat constructor; done).
  split; [exact Hl|].
  rewrite (ssid_match_spec (hapd_example None) [97] [] _ [0] []);
    [reflexivity|repeat constructor; done|exact Hl|exact I|repeat constructor; done|constructor].
Defined.

Lemma probe_example_ok : bytes_ok (drop 24 probe_example).
Proof. repeat constructor; done. Defined.

Lemma reply_to_defined_witness :
  bytes_ok (drop 24 probe_example) ∧
  ∃ res e r, ieee802_11_parse_elems (drop 24 probe_example) = Ok (res, e) ∧
    reply_to env_example (hapd_example None) probe_example e = Ok r.
Proof.
  split; [exact probe_example_ok|].
  assert (∃ e, ieee802_11_parse_elems (drop 24 probe_example) = Ok (ParseOK, e) ∧ elems.ssid_list e = None)
    as (e & He & Hn) by (eexists; split; vm_compute; reflexivity).
  exists ParseOK, e.
  destruct (reply_to_defined env_example (hapd_example None) probe_example ParseOK e probe_example_ok He)
    as [[r Hr]|(_ & l & c & Hl & _)]; [|congruence].
  exists r. split; [exact He|exact Hr].
Defined.

Lemma handle_probe_req_answer_witness :
  let h := hapd_example (Some ack_example) in
  hapd_ok h ∧ body_bound h ≤ MAX_PROBERESP_LEN ∧ taken_by_cb env_example probe_example 0 = false ∧
  ∃ capab p h' offs,
    handle_probe_req (H := malloc_always) env_example h probe_example 0 =
      Ok (h', [Ev_send_mlme (probe_resp_header h (Some [2; 0; 0; 0; 0; 9]) capab ++ p ++ [] ++
                             [221; 4; 1; 2; 3; 49]) true offs]) ∧ plain p ∧
    probe_resp_ack_ie (conf h') = None.
Proof.
  cbv zeta. pose proof (hapd_example_ok (Some ack_example) ack_example_wf) as Hok.
  assert (body_bound (hapd_example (Some ack_example)) ≤ MAX_PROBERESP_LEN) as Hb
    by (vm_compute; discriminate).
  split; [exact Hok|]. split; [exact Hb|]. split; [reflexivity|].
  assert (∃ e, ieee802_11_parse_elems (drop 24 probe_example) = Ok (ParseOK, e) ∧
            elems.n_stuffed_ies e = 0 ∧
            reply_to env_example (tracked (H := malloc_always) env_example (hapd_example (Some ack_example)) probe_example)
              probe_example e = Ok (Some WILDCARD_SSID_MATCH))
    as (e & He & H0 & Hr) by (eexists; split; [|split]; vm_compute; reflexivity).
  destruct (handle_probe_req_answer (H := malloc_always) env_example (hapd_example (Some ack_example))
              probe_example 0 ParseOK e WILDCARD_SSID_MATCH Hok Hb ltac:(reflexivity)
              ltac:(vm_compute; discriminate) eq_refl eq_refl He ltac:(discriminate) H0 Hr)
    as (capab & p & h' & offs & Hh & Hp & _ & Hc).
  exists capab, p, h', offs. split; [exact Hh|]. split; [exact Hp|]. rewrite Hc. reflexivity.
Defined.
