(* ===== verification/EndToEnd.v ===== *)
(** * The client and the access point together

    The frames the client builds ([probe_stuffing/main.c]) as probe requests the
    access point receives ([src/ap/beacon.c]), and the responses of the access
    point as scan results the client reads ([probe_stuffing/utils.c]). The
    kernels on both sides only add elements of their own around them. *)

From Stdlib Require Import ZArith Lia Strings.String.
From stdpp Require Import base option list numbers decidable.
From S2P Require Import Prelude CLib Common Wpabuf Ie Elems Channels Client ClientLoop Hapd Dfs ProbeResp StaTrack ProbeReq.
Local Open Scope Z_scope.

(** ** Elements of a request *)

(** Elements with neither stuffed data nor a MIC element among them. *)
Definition quiet (l : list ie) : Prop :=
  Forall ie_ok l ∧ stuffing l = [] ∧ ¬ has_mic l.

Lemma upto_no_mic l : ¬ has_mic l → upto_mic l = l.
Proof.
  induction l as [|x l IH]; intros Hn; [done|]. rewrite upto_mic_cons.
  rewrite has_mic_cons in Hn. rewrite decide_False by tauto. f_equal. apply IH. tauto.
Qed.

Lemma has_mic_app l1 l2 : has_mic (l1 ++ l2) ↔ has_mic l1 ∨ has_mic l2.
Proof.
  induction l1 as [|x l1 IH]; cbn [app].
  - split; [by right|intros [(x & [] & _)|?]; done].
  - rewrite !has_mic_cons, IH. tauto.
Qed.

Lemma stuffing_app l1 l2 : stuffing (l1 ++ l2) = stuffing l1 ++ stuffing l2.
Proof. apply List.filter_app. Qed.

Lemma is_stuffing_stuff d : 1 ≤ zlen d → is_stuffing (stuff_ie d) = true.
Proof.
  intros Hd. apply bool_decide_eq_true. unfold stuff_ie. cbn [ie_id ie_body].
  rewrite zlen_app. change (zlen oui_octets) with 3. split_and!; [done|lia|done].
Qed.

Lemma stuffing_stuffed ds : Forall (λ d, 1 ≤ zlen d) ds → stuffing (map stuff_ie ds) = map stuff_ie ds.
Proof.
  induction 1 as [|d ds Hd Hds IH]; [done|]. cbn [map]. unfold stuffing in *. cbn [List.filter].
  rewrite is_stuffing_stuff by done. by rewrite IH.
Qed.

Lemma no_mic_stuffed ds : ¬ has_mic (map stuff_ie ds).
Proof. intros (x & Hx & Hid). apply in_map_iff in Hx as (d & <- & _). discriminate Hid. Qed.

Lemma data_stuff d : data (stuff_ie d) = d.
Proof. unfold data, stuff_ie. cbn [ie_body]. apply (drop_app_length oui_octets). Qed.

Lemma body_ok_stuff d : 1 ≤ zlen d ≤ 252 → body_ok (stuff_ie d).
Proof.
  intros Hd. unfold body_ok, stuff_ie. cbn [ie_body]. rewrite zlen_app.
  change (zlen oui_octets) with 3. lia.
Qed.

Lemma data_len_stuffed ds : data_len (map stuff_ie ds) = zlen (concat ds).
Proof.
  induction ds as [|d ds IH]; [done|]. cbn [map concat].
  change (data_len (stuff_ie d :: map stuff_ie ds)) with
    (zlen (data (stuff_ie d)) + data_len (map stuff_ie ds)).
  by rewrite IH, data_stuff, zlen_app.
Qed.

Lemma texts_stuffed ds : Forall no_nul ds → concat (map text (map stuff_ie ds)) = concat ds.
Proof.
  induction 1 as [|d ds Hd Hds IH]; [done|]. cbn [map concat]. unfold text at 1.
  by rewrite IH, data_stuff, upto_nul_id.
Qed.

(** ** A frame of the client *)

Record client_frame := mk_client_frame {
  cf_seq : Z;        (** sequence number *)
  cf_ts : bytes;     (** time stamp, 18 octets *)
  cf_mfb : Z;        (** more fragments *)
  cf_data : bytes    (** the piece of the message *) }.

Record frame_ok (f : client_frame) : Prop := {
  fo_seq : 0 ≤ cf_seq f < 10 ^ 8;
  fo_mfb : 0 ≤ cf_mfb f ≤ 1;
  fo_ts : no_nul (cf_ts f) ∧ bytes_ok (cf_ts f) ∧ length (cf_ts f) = 18%nat;
  fo_data : no_nul (cf_data f) ∧ bytes_ok (cf_data f) ∧ 0 < zlen (cf_data f) ≤ ies_max_data_size }.

Definition frame_elements (f : client_frame) : list ie :=
  frame_ies (cf_seq f) (cf_ts f) (cf_mfb f) (cf_data f).

Definition frame_header (f : client_frame) : bytes := header (cf_seq f) (cf_ts f) (cf_mfb f).

Section frame.
Context (f : client_frame) (Hf : frame_ok f).

Lemma frame_header_length : length (frame_header f) = 27%nat ∧ no_nul (frame_header f).
Proof.
  destruct (fo_ts f Hf) as (H1 & H2 & H3).
  destruct (header_props (cf_seq f) (cf_ts f) (cf_mfb f) (fo_seq f Hf) (fo_mfb f Hf) H1 H3). done.
Qed.

Lemma frame_elements_stuffed :
  frame_elements f = map stuff_ie (frame_header f :: chunks (n_chunks (cf_data f)) (cf_data f)).
Proof. reflexivity. Qed.

Lemma frame_chunks_sizes :
  Forall (λ d, 1 ≤ zlen d ≤ 252) (frame_header f :: chunks (n_chunks (cf_data f)) (cf_data f)).
Proof.
  constructor; [|apply chunks_sizes]. destruct frame_header_length as [H _]. unfold zlen. lia.
Qed.

Lemma frame_elements_count : zlen (frame_elements f) ≤ 7.
Proof.
  rewrite frame_elements_stuffed. unfold zlen. rewrite length_map. cbn [length]. rewrite chunks_length.
  destruct (fo_data f Hf) as (_ & _ & Hl). pose proof (n_reqd_spec (zlen (cf_data f)) ltac:(lia)).
  unfold n_chunks, ies_max_data_size in *. lia.
Qed.

Lemma frame_elements_ok : Forall ie_ok (frame_elements f).
Proof.
  rewrite frame_elements_stuffed. apply List.Forall_map, List.Forall_forall. intros d Hd.
  pose proof frame_chunks_sizes as Hs. rewrite List.Forall_forall in Hs. specialize (Hs d Hd).
  apply stuff_ie_ok; [|lia]. destruct Hd as [<-|Hd].
  - destruct (fo_ts f Hf) as (_ & Ht & _). apply header_bytes; [apply (fo_seq f Hf)|apply (fo_mfb f Hf)|done].
  - destruct (fo_data f Hf) as (_ & Hb & _).
    exact (proj1 (List.Forall_forall _ _) (chunks_forall is_u8 _ _ Hb) d Hd).
Qed.

(** The parser finds exactly the elements of the client. *)
Lemma frame_parsed pre post :
  quiet pre → quiet post →
  ∃ res e, ieee802_11_parse_elems (ies_enc (pre ++ frame_elements f ++ post)) = Ok (res, e) ∧
           res ≠ ParseFailed ∧ stuffed_inv (frame_elements f) e.
Proof.
  intros (Hp1 & Hp2 & Hp3) (Hq1 & Hq2 & Hq3).
  pose proof (parse_elems_stuffed (pre ++ frame_elements f ++ post) []) as H.
  assert (stuffing (frame_elements f) = frame_elements f) as Hst.
  { rewrite frame_elements_stuffed. apply stuffing_stuffed. eapply Forall_impl; [|exact frame_chunks_sizes].
    cbn. lia. }
  rewrite app_nil_r, upto_no_mic in H.
  2: { rewrite !has_mic_app, frame_elements_stuffed. pose proof (no_mic_stuffed
         (frame_header f :: chunks (n_chunks (cf_data f)) (cf_data f))). tauto. }
  rewrite !stuffing_app, Hp2, Hq2, Hst, app_nil_r in H. cbn [app] in H.
  pose proof frame_elements_count. rewrite decide_True in H by lia.
  destruct H as (res & e & H1 & H2 & H3); [|done|constructor|].
  { apply Forall_app. split; [done|]. apply Forall_app. split; [apply frame_elements_ok|done]. }
  exists res, e. split_and!; [done|tauto|done].
Qed.
End frame.

(** ** What the access point does with it *)

(** The record of a frame for the controller, from the station with the printed
    address [mac] at time [tv]. *)
Definition frame_record (f : client_frame) (mac : bytes) (tv : Z * Z) : bytes :=
  csv_text mac (cf_ts f) (udec0 18 (fst tv * 1000000 + snd tv)) (udec0 8 (cf_seq f)) [48 + cf_mfb f]
    (cf_data f) (zlen (cf_data f)).

Definition command_of (record : bytes) : bytes := tcpclient ++ 34 :: take 499 record ++ [34].

(** Deciding about the answer and sending it. *)
Definition answer `{Malloc} (env : ap_env) (h : hostapd_data) (m : bytes) (e : elems.t)
    : outcome (hostapd_data * list ap_event) :=
  r ← reply_to env h m e;
  match r with
  | None => Ok (h, [])
  | Some res => send_reply env h m res
  end.

(** The request [m]: a header, and the elements of the client among others. *)
Definition carries (m : bytes) (f : client_frame) : Prop :=
  ∃ pre post, quiet pre ∧ quiet post ∧ 24 ≤ zlen m ∧
    drop 24 m = ies_enc (pre ++ frame_elements f ++ post).

(** The handler gets to the elements. *)
Definition accepted (env : ap_env) (h : hostapd_data) (m : bytes) (ssi : Z) : Prop :=
  taken_by_cb env m ssi = false ∧ send_probe_response (iconf h) = true.

Definition clock_ok (env : ap_env) : Prop :=
  0 ≤ fst (now_tv env) * 1000000 + snd (now_tv env) < 10 ^ 18.

Lemma sdec_udec v : 0 ≤ v → sdec v = udec v.
Proof. intros Hv. unfold sdec. by rewrite decide_False by lia. Qed.

Lemma header_fields f :
  frame_ok f →
  take 8 (upto_nul (frame_header f)) = udec0 8 (cf_seq f) ∧
  take 18 (upto_nul (drop 8 (frame_header f))) = cf_ts f ∧
  take 1 (upto_nul (drop 26 (frame_header f))) = [48 + cf_mfb f].
Proof.
  intros Hf. destruct (frame_header_length f Hf) as [Hl Hn]. destruct (fo_ts f Hf) as (Htn & _ & Htl).
  assert (length (udec0 8 (cf_seq f)) = 8%nat) as H8
    by (apply udec0_length; [exact (fo_seq f Hf)|lia]).
  rewrite !upto_nul_id by auto with cmodel. unfold frame_header, header.
  split_and!.
  - by rewrite (take_app_length' _ _ 8) by done.
  - rewrite (drop_app_length' _ _ 8) by done.
    by rewrite (take_app_length' _ _ 18) by done.
  - rewrite app_assoc, (drop_app_length' _ _ 26) by (rewrite length_app; lia). done.
Qed.

Section run.
Context `{Malloc}.
Hypothesis malloc_succeeds : ∀ n, malloc_ok n = true.

(** The receiver stores the acknowledgement of the frame and passes its record on. *)
Lemma frame_received f e env sa h :
  frame_ok f → stuffed_inv (frame_elements f) e → length sa = 6%nat → clock_ok env →
  ∃ b mac,
    receive_stuffed (now_tv env) sa e h =
      Ok (with_ack h b, [Ev_system (command_of (frame_record f mac (now_tv env)))]) ∧
    mac_txt sa = Ok mac ∧ wf b ∧ contents b = ie_enc (stuff_ie (udec (cf_seq f))).
Proof.
  intros Hf Hinv Hsa Hclk. pose proof (frame_chunks_sizes f Hf) as Hsz.
  rewrite frame_elements_stuffed in Hinv. cbn [map] in Hinv.
  assert (Forall body_ok (stuff_ie (frame_header f) :: map stuff_ie (chunks (n_chunks (cf_data f)) (cf_data f))))
    as Hok.
  { apply (List.Forall_map stuff_ie body_ok (frame_header f :: _)). eapply Forall_impl; [|exact Hsz].
    apply body_ok_stuff. }
  pose proof (receive_stuffed_shape (now_tv env) sa e h _ _ malloc_succeeds Hinv Hok Hsa Hclk) as Hr.
  destruct (frame_header_length f Hf) as [Hl _]. destruct (header_fields f Hf) as (F1 & F2 & F3).
  unfold text in Hr. rewrite !data_stuff in Hr. rewrite decide_True in Hr by (unfold zlen; lia).
  destruct Hr as (v & b & mac & Hr & Hmac & Hv & _ & Hwf & Hc).
  fold text in Hr. destruct (fo_data f Hf) as (Hdn & _ & _).
  rewrite F1 in Hr, Hv. rewrite F2, F3, texts_stuffed, data_len_stuffed, concat_chunks in Hr
    by (apply (chunks_forall (λ c, c ≠ 0)); exact Hdn).
  pose proof (fo_seq f Hf). rewrite atoi_udec0 in Hv by lia. injection Hv as <-.
  rewrite sdec_udec in Hc by lia. by exists b, mac.
Qed.

(** The whole handler on a frame of the client. *)
Lemma frame_handled f env h m ssi :
  frame_ok f → carries m f → accepted env h m ssi → clock_ok env →
  ∃ res e b mac,
    ieee802_11_parse_elems (drop 24 m) = Ok (res, e) ∧ mac_txt (mgmt_sa m) = Ok mac ∧
    wf b ∧ contents b = ie_enc (stuff_ie (udec (cf_seq f))) ∧
    handle_probe_req env h m ssi =
      ('(h', sent) ← answer env (with_ack (tracked env h m) b) m e;
       Ok (h', Ev_system (command_of (frame_record f mac (now_tv env))) :: sent)).
Proof.
  intros Hf (pre & post & Hpre & Hpost & Hm & Hie) [Hcb Hsend] Hclk.
  destruct (frame_parsed f Hf pre post Hpre Hpost) as (res & e & Hp & Hres & Hinv).
  assert (length (mgmt_sa m) = 6%nat) as Hsa
    by (unfold mgmt_sa, ETH_ALEN; rewrite length_take, length_drop; unfold zlen in Hm; lia).
  destruct (frame_received f e env (mgmt_sa m) (tracked env h m) Hf Hinv Hsa Hclk)
    as (b & mac & Hr & Hmac & Hwf & Hc).
  rewrite <- Hie in Hp. exists res, e, b, mac. split_and!; try done.
  rewrite (handle_parsed env h m ssi res e) by done.
  assert (0 < elems.n_stuffed_ies e) as Hn.
  { rewrite (si_n _ _ Hinv), frame_elements_stuffed. cbn [map]. rewrite zlen_cons.
    pose proof (zlen_nonneg (map stuff_ie (chunks (n_chunks (cf_data f)) (cf_data f)))). lia. }
  rewrite decide_True, Hr, bind_Ok by done. unfold answer.
  destruct (reply_to env (with_ack (tracked env h m) b) m e) as [[r|]| |]; [|done..].
  rewrite !bind_Ok. by destruct (send_reply env (with_ack (tracked env h m) b) m r) as [[h' sent]| |].
Qed.
End run.

(** ** Responses as the client reads them *)

(** The scan result the kernel of the client makes of the elements [ies] of a
    response; [mem] follows them in memory. *)
Definition scan_result (ies mem : bytes) : scan_msg :=
  mk_scan_msg true true true (Some (ies ++ mem, zlen ies)).

Section responses.
Context `{Malloc}.
Hypothesis malloc_succeeds : ∀ n, malloc_ok n = true.

Lemma ack_read p n mem ack :
  plain p → 0 ≤ n < 10 ^ 8 →
  get_ack (scan_result (p ++ ie_enc (stuff_ie (udec n))) mem) ack = Ok n.
Proof.
  intros (l & -> & Hl & Hno) Hn.
  pose proof (udec_length_pos n (proj1 Hn)). pose proof (udec_length_le 8 n Hn ltac:(lia)).
  assert (Forall ie_ok (l ++ [stuff_ie (udec n)])) as Hok.
  { apply Forall_app. split; [done|]. constructor; [|constructor]. apply stuff_ie_ok.
    - apply digits_bytes, udec_digits. lia.
    - unfold zlen. lia. }
  unfold get_ack, scan_result. cbn [attr_bss nested_ok bss_bssid bss_ies negb].
  assert (ies_enc l ++ ie_enc (stuff_ie (udec n)) = ies_enc (l ++ [stuff_ie (udec n)])) as ->.
  { rewrite ies_enc_app. f_equal. cbn. by rewrite app_nil_r. }
  pose proof (get_ack_loop_spec malloc_succeeds (l ++ [stuff_ie (udec n)]) [] mem ack
    (S (Z.to_nat (zlen (ies_enc (l ++ [stuff_ie (udec n)]))))) Hok I) as Hg.
  rewrite app_nil_r in Hg. cbn [app] in Hg. rewrite Hg by (unfold zlen; lia).
  rewrite acks_app, (acks_none l) by done. rewrite bind_Ok, acks_cons, ack_elem_stuff, elem_ack_stuff
    by (lia || (unfold zlen; lia)). done.
Qed.

(** What a response contains for the client that reads it: its destination, and
    the acknowledgement. *)
Definition acknowledges (resp da : bytes) (n : Z) : Prop :=
  take 6 (drop 4 resp) = da ∧
  ∀ mem ack, get_ack (scan_result (drop 36 resp) mem) ack = Ok n.

Lemma response_acknowledges h m capab p b n :
  24 ≤ zlen m → plain p → plain (buf_contents (vendor_elements (conf h))) →
  zlen (probe_resp_header h (Some (mgmt_sa m)) capab) = 36 →
  contents b = ie_enc (stuff_ie (udec n)) → 0 ≤ n < 10 ^ 8 →
  acknowledges (probe_resp_header h (Some (mgmt_sa m)) capab ++ p ++
                buf_contents (vendor_elements (conf h)) ++ buf_contents (Some b)) (mgmt_sa m) n.
Proof.
  intros Hm Hp Hv Hl Hc Hn. split.
  - assert (length (mgmt_sa m) = 6%nat) as Hsa
      by (unfold mgmt_sa, ETH_ALEN; rewrite length_take, length_drop; unfold zlen in Hm; lia).
    unfold probe_resp_header, IEEE80211_FC, WPA_PUT_LE16. cbn [app drop default].
    rewrite <- !app_assoc. apply (take_app_length' (mgmt_sa m)). done.
  - intros mem ack. rewrite (drop_app_length' _ _ 36) by (unfold zlen in Hl; lia).
    cbn [buf_contents]. rewrite Hc, app_assoc. apply ack_read; [by apply plain_app|done].
Qed.

(** The acknowledgement does not take part in deciding about an answer. *)
Lemma reply_to_with_ack env h b m e : reply_to env (with_ack h b) m e = reply_to env h m e.
Proof. reflexivity. Qed.

(** The answer to a frame of the client. *)
Lemma frame_answered f env h m ssi r :
  hapd_ok h → body_bound h ≤ MAX_PROBERESP_LEN → plain (buf_contents (vendor_elements (conf h))) →
  frame_ok f → carries m f → accepted env h m ssi → clock_ok env →
  (∀ res e, ieee802_11_parse_elems (drop 24 m) = Ok (res, e) →
            reply_to env (tracked env h m) m e = Ok (Some r)) →
  ∃ h' mac resp noack offs,
    handle_probe_req env h m ssi =
      Ok (h', [Ev_system (command_of (frame_record f mac (now_tv env)));
               Ev_send_mlme resp noack offs]) ∧
    mac_txt (mgmt_sa m) = Ok mac ∧ acknowledges resp (mgmt_sa m) (cf_seq f) ∧
    conf h' = (conf h) <| probe_resp_ack_ie := None |>.
Proof.
  intros Hok Hb Hv Hf Hcar Hacc Hclk Hr.
  destruct (frame_handled malloc_succeeds f env h m ssi Hf Hcar Hacc Hclk)
    as (res & e & b & mac & Hp & Hmac & Hwf & Hc & Hh).
  destruct (tracked_ok env h m Hok) as (Hok1 & Hb1 & Hc1).
  destruct (with_ack_ok (tracked env h m) b Hok1 Hwf) as [Hok2 Hb2].
  assert (24 ≤ zlen m) as Hm by (by destruct Hcar as (? & ? & _ & _ & ? & _)).
  destruct (send_reply_ok env (with_ack (tracked env h m) b) m r Hok2 ltac:(by rewrite Hb2, Hb1) Hm
              (malloc_succeeds _)) as (capab & p & h' & offs & Hs & Hpl & Hl & Hc').
  rewrite Hh. unfold answer. rewrite reply_to_with_ack, (Hr res e Hp), bind_Ok, Hs, bind_Ok.
  exists h', mac. do 3 eexists. split; [reflexivity|]. split; [done|].
  change (vendor_elements (conf (with_ack (tracked env h m) b)))
    with (vendor_elements (conf (tracked env h m))). rewrite Hc1 in *.
  split; [|by rewrite Hc'; cbn; rewrite Hc1].
  pose proof (response_acknowledges (with_ack (tracked env h m) b) m capab p b (cf_seq f) Hm Hpl) as Ha.
  change (vendor_elements (conf (with_ack (tracked env h m) b)))
    with (vendor_elements (conf (tracked env h m))) in Ha. rewrite Hc1 in Ha.
  exact (Ha Hv Hl Hc (fo_seq f Hf)).
Qed.
End responses.

(** ** Sizes of the records *)

Lemma udec_length_ge n : 100 ≤ n → (3 ≤ length (udec n))%nat.
Proof.
  intros Hn. rewrite udec_eq, decide_False, length_app by lia.
  rewrite (udec_eq (n / 10)), decide_False, length_app by (Z.div_mod_to_equations; lia).
  pose proof (udec_length_pos (n / 10 / 10) ltac:(Z.div_mod_to_equations; lia)). cbn [length]. lia.
Qed.

Lemma mac_txt_length a mac : length a = 6%nat → mac_txt a = Ok mac → length mac = 17%nat.
Proof.
  intros Ha Hm. destruct a as [|a0 [|a1 [|a2 [|a3 [|a4 [|a5 [|]]]]]]]; try discriminate Ha.
  injection Hm as <-. reflexivity.
Qed.

Lemma record_length f mac tv :
  frame_ok f → length mac = 17%nat → 0 ≤ fst tv * 1000000 + snd tv < 10 ^ 18 →
  length (frame_record f mac tv) =
    (70 + length (udec (zlen (cf_data f))) + length (cf_data f))%nat.
Proof.
  intros Hf Hm Ht. destruct (fo_ts f Hf) as (_ & _ & Htl).
  assert (length (lit ",1,") = 3%nat) as Hlit by reflexivity.
  unfold frame_record, csv_text. rewrite sdec_udec by apply zlen_nonneg.
  repeat rewrite ?length_app, ?length_cons. cbn [length].
  rewrite Hm, Htl, Hlit, (udec0_length 18), (udec0_length 8) by (exact Ht || exact (fo_seq f Hf) || lia). lia.
Qed.

(** The pieces of a message as frames of the client. *)
Definition message_frames (ts s : bytes) : list client_frame :=
  map (λ i, mk_client_frame (Z.of_nat i) ts (frame_mfb s i) (piece s i)) (seq 0 (n_frames s)).

Lemma concat_pieces_from s n i :
  concat (map (piece s) (seq i n)) = take (n * 1394) (drop (i * 1394) s).
Proof.
  revert i. induction n as [|n IH]; intros i; [done|]. cbn [seq map concat]. rewrite IH. unfold piece.
  replace (S i * 1394)%nat with (i * 1394 + 1394)%nat by lia. rewrite <- drop_drop.
  replace (S n * 1394)%nat with (1394 + n * 1394)%nat by lia. apply take_take_drop.
Qed.

Lemma message_frames_ok ts s :
  no_nul s → bytes_ok s → zlen s < 2 ^ 31 →
  no_nul ts → bytes_ok ts → length ts = 18%nat → Forall frame_ok (message_frames ts s).
Proof.
  intros Hs Hb Hmax Htn Htb Htl. apply List.Forall_map, List.Forall_forall. intros i Hi%in_seq.
  pose proof (n_frames_spec s). pose proof (piece_length s i) as Hp. unfold zlen in Hmax.
  constructor; cbn [cf_seq cf_ts cf_mfb cf_data].
  - split; [lia|]. apply Z.lt_le_trans with (2 ^ 31 / 1394 + 2); [|done].
    assert (Z.of_nat i * 1394 < 2 ^ 31) by lia.
    pose proof (Z.div_le_lower_bound (2 ^ 31) 1394 (Z.of_nat i)). lia.
  - unfold frame_mfb. case_decide; lia.
  - done.
  - split_and!; [by apply no_nul_take, no_nul_drop|by apply Forall_take, Forall_drop| |].
    + unfold zlen. lia.
    + unfold ies_max_data_size, zlen. lia.
Qed.

(** ** Properties *)

(** C3. Acknowledged delivery of one frame. Whatever elements other than stuffed
    data and MIC surround it, a probe request with the elements of a client frame
    that the access point answers makes it hand the record of that frame to the
    controller and send one response, addressed to the station the request came
    from, in which the client's scan finds the sequence number of the frame. No
    acknowledgement stays pending. *)
Theorem frame_acknowledged `{Malloc} f env h m ssi r :
  (∀ n, malloc_ok n = true) →
  hapd_ok h → body_bound h ≤ MAX_PROBERESP_LEN → plain (buf_contents (vendor_elements (conf h))) →
  frame_ok f → carries m f → accepted env h m ssi → clock_ok env →
  (∀ res e, ieee802_11_parse_elems (drop 24 m) = Ok (res, e) →
            reply_to env (tracked env h m) m e = Ok (Some r)) →
  ∃ h' mac resp noack offs,
    handle_probe_req env h m ssi =
      Ok (h', [Ev_system (command_of (frame_record f mac (now_tv env)));
               Ev_send_mlme resp noack offs]) ∧
    mac_txt (mgmt_sa m) = Ok mac ∧ acknowledges resp (mgmt_sa m) (cf_seq f) ∧
    conf h' = (conf h) <| probe_resp_ack_ie := None |>.
Proof. intros Hmal. exact (frame_answered Hmal f env h m ssi r). Qed.

(** C4. A message arrives piece by piece. The frames the client transmits for a
    message carry consecutive pieces that concatenated are the message; and each
    of them, received by an access point in any state (before or after any other
    frame, answered or not), leads to the record of its piece and to a pending
    acknowledgement of its number before the request is answered. *)
Theorem message_pieces_received `{Malloc} ts s :
  (∀ n, malloc_ok n = true) →
  no_nul s → bytes_ok s → zlen s < 2 ^ 31 → no_nul ts → bytes_ok ts → length ts = 18%nat →
  let fs := message_frames ts s in
  concat (map cf_data fs) = s ∧
  map (λ f, ies_enc (frame_elements f)) fs = frames ts s 0 (n_frames s) ∧
  ∀ f env h m ssi, In f fs → carries m f → accepted env h m ssi → clock_ok env →
    ∃ res e b mac,
      ieee802_11_parse_elems (drop 24 m) = Ok (res, e) ∧ mac_txt (mgmt_sa m) = Ok mac ∧
      contents b = ie_enc (stuff_ie (udec (cf_seq f))) ∧
      handle_probe_req env h m ssi =
        ('(h', evs) ← answer env (with_ack (tracked env h m) b) m e;
         Ok (h', Ev_system (command_of (frame_record f mac (now_tv env))) :: evs)).
Proof.
  intros Hmal Hs Hb Hmax Htn Htb Htl fs.
  pose proof (message_frames_ok ts s Hs Hb Hmax Htn Htb Htl) as Hok. split_and!.
  - unfold fs, message_frames. rewrite map_map. cbn [cf_data].
    change (map (λ x, piece s x) (seq 0 (n_frames s))) with (map (piece s) (seq 0 (n_frames s))).
    rewrite concat_pieces_from, drop_0. apply take_ge. pose proof (n_frames_spec s). lia.
  - unfold fs, message_frames. rewrite map_map. reflexivity.
  - intros f env h m ssi Hin Hc Ha Hclk. rewrite List.Forall_forall in Hok.
    destruct (frame_handled Hmal f env h m ssi (Hok f Hin) Hc Ha Hclk)
      as (res & e & b & mac & H1 & H2 & _ & H3 & H4).
    by exists res, e, b, mac.
Qed.

(** C5. The acknowledgement belongs to the access point, not to the station. When
    a frame of one client is received but not answered, the next request that is
    answered, of any station and without stuffed data, gets the number of that
    frame in its response. *)
Theorem ack_reaches_other_station `{Malloc} f env h m ssi :
  (∀ n, malloc_ok n = true) →
  hapd_ok h → body_bound h ≤ MAX_PROBERESP_LEN → plain (buf_contents (vendor_elements (conf h))) →
  frame_ok f → carries m f → accepted env h m ssi → clock_ok env →
  (∀ res e, ieee802_11_parse_elems (drop 24 m) = Ok (res, e) →
            reply_to env (tracked env h m) m e = Ok None) →
  ∃ h1 command,
    handle_probe_req env h m ssi = Ok (h1, [Ev_system command]) ∧
    ∀ env2 m2 ssi2 res e r,
      24 ≤ zlen m2 → accepted env2 h1 m2 ssi2 →
      ieee802_11_parse_elems (drop 24 m2) = Ok (res, e) → res ≠ ParseFailed →
      elems.n_stuffed_ies e = 0 → reply_to env2 (tracked env2 h1 m2) m2 e = Ok (Some r) →
      ∃ h2 resp noack offs,
        handle_probe_req env2 h1 m2 ssi2 = Ok (h2, [Ev_send_mlme resp noack offs]) ∧
        acknowledges resp (mgmt_sa m2) (cf_seq f).
Proof.
  intros Hmal Hok Hb Hv Hf Hcar Hacc Hclk Hr.
  destruct (frame_handled Hmal f env h m ssi Hf Hcar Hacc Hclk)
    as (res & e & b & mac & Hp & Hmac & Hwf & Hc & Hh).
  destruct (tracked_ok env h m Hok) as (Hok1 & Hb1 & Hc1).
  destruct (with_ack_ok (tracked env h m) b Hok1 Hwf) as [Hok2 Hb2].
  rewrite Hh. unfold answer. rewrite reply_to_with_ack, (Hr res e Hp), !bind_Ok.
  do 2 eexists. split; [reflexivity|].
  intros env2 m2 ssi2 res2 e2 r Hm2 [Hcb2 Hs2] Hp2 Hres2 Hn2 Hr2.
  destruct (answer_shape env2 (with_ack (tracked env h m) b) m2 ssi2 res2 e2 r) as (capab & p & h' & offs & Ha & Hpl & Hl & _);
    [exact Hok2|by rewrite Hb2, Hb1|exact Hmal|exact Hm2|exact Hcb2|exact Hs2|exact Hp2|exact Hres2
    |exact Hn2|exact Hr2|].
  do 4 eexists. split; [exact Ha|].
  apply response_acknowledges; [exact Hmal|exact Hm2|exact Hpl| |exact Hl|exact Hc|exact (fo_seq f Hf)].
  change (vendor_elements (conf (with_ack (tracked env h m) b)))
    with (vendor_elements (conf (tracked env h m))). by rewrite Hc1.
Qed.

(** The controller gets the record of a frame whole exactly when the frame
    carries at most 426 octets of data: the 499 octets kept of the record cut
    the rest, although a frame may carry up to 1394 and is acknowledged. *)
Lemma controller_record_whole f a mac tv :
  frame_ok f → length a = 6%nat → mac_txt a = Ok mac → 0 ≤ fst tv * 1000000 + snd tv < 10 ^ 18 →
  (take 499 (frame_record f mac tv) = frame_record f mac tv ↔ zlen (cf_data f) ≤ 426).
Proof.
  intros Hf Ha Hm Ht. pose proof (record_length f mac tv Hf (mac_txt_length a mac Ha Hm) Ht) as Hl.
  destruct (fo_data f Hf) as (_ & _ & Hd). unfold ies_max_data_size in Hd. split.
  - intros He%(f_equal length). rewrite length_take in He.
    destruct (decide (100 ≤ zlen (cf_data f))) as [H100|]; [|lia].
    pose proof (udec_length_ge _ H100). unfold zlen in *. lia.
  - intros Hle. apply take_ge.
    pose proof (udec_length_le 3 (zlen (cf_data f)) ltac:(cbn; lia) ltac:(lia)). unfold zlen in *. lia.
Qed.

(** ** Concrete instances *)

Definition stamp_example : bytes := udec0 18 1513000000250000.

Lemma stamp_example_ok : no_nul stamp_example ∧ bytes_ok stamp_example.
Proof. split; [apply digits_no_nul|apply digits_bytes]; by apply udec0_digits. Qed.

(** Frame 7 of a message, with the text hello. *)
Definition cf_example : client_frame := mk_client_frame 7 stamp_example 0 hello.

Lemma cf_example_ok : frame_ok cf_example.
Proof.
  constructor; cbn [cf_seq cf_mfb cf_ts cf_data cf_example].
  - split; [discriminate|reflexivity].
  - split; discriminate.
  - destruct stamp_example_ok as [Hn Hb]. split; [exact Hn|]. split; [exact Hb|reflexivity].
  - split_and!; [repeat constructor; discriminate| |reflexivity|discriminate].
    repeat (constructor; [split; [discriminate|reflexivity]|]). constructor.
Qed.

(** The broadcast request for any SSID with the elements of that frame at its end. *)
Definition request_example : bytes := probe_example ++ ies_enc (frame_elements cf_example).

Lemma request_example_carries : carries request_example cf_example.
Proof.
  exists [mk_ie 0 []; mk_ie 1 [130]], []. split_and!.
  - split_and!; [repeat constructor; done|reflexivity|].
    intros (x & [<-|[<-|[]]] & Hx); discriminate Hx.
  - split_and!; [constructor|reflexivity|by intros (x & [] & _)].
  - by apply Z.leb_le.
  - reflexivity.
Qed.

Lemma request_example_reply res e :
  ieee802_11_parse_elems (drop 24 request_example) = Ok (res, e) →
  reply_to env_example (tracked (H := malloc_always) env_example (hapd_example None) request_example)
    request_example e = Ok (Some WILDCARD_SSID_MATCH).
Proof. intros Hp. vm_compute in Hp. injection Hp as <- <-. vm_compute. reflexivity. Qed.

Lemma clock_example_ok : clock_ok env_example.
Proof. split; [discriminate|reflexivity]. Qed.

Lemma no_ack_wf b : None = Some b → wf b.
Proof. discriminate. Qed.

Lemma frame_acknowledged_witness :
  let h := hapd_example None in
  hapd_ok h ∧ carries request_example cf_example ∧
  ∃ h' mac resp noack offs,
    handle_probe_req (H := malloc_always) env_example h request_example 0 =
      Ok (h', [Ev_system (command_of (frame_record cf_example mac (1513000000, 250)));
               Ev_send_mlme resp noack offs]) ∧
    acknowledges (H := malloc_always) resp [2; 0; 0; 0; 0; 9] 7 ∧ probe_resp_ack_ie (conf h') = None.
Proof.
  cbv zeta. pose proof (hapd_example_ok None no_ack_wf) as Hok.
  split; [exact Hok|]. split; [exact request_example_carries|].
  destruct (frame_acknowledged (H := malloc_always) cf_example env_example (hapd_example None)
              request_example 0 WILDCARD_SSID_MATCH (λ _, eq_refl) Hok ltac:(vm_compute; discriminate)
              plain_nil cf_example_ok request_example_carries (conj eq_refl eq_refl) clock_example_ok
              request_example_reply) as (h' & mac & resp & noack & offs & H1 & _ & H2 & H3).
  exists h', mac, resp, noack, offs. split; [exact H1|]. split; [exact H2|]. rewrite H3. reflexivity.
Defined.

Lemma message_pieces_received_witness :
  no_nul hello ∧ length stamp_example = 18%nat ∧
  map (λ f, ies_enc (frame_elements f)) (message_frames stamp_example hello) =
    frames stamp_example hello 0 1.
Proof.
  assert (no_nul hello) as Hn by (repeat constructor; discriminate).
  split; [exact Hn|]. split; [reflexivity|].
  refine (proj1 (proj2 (message_pieces_received (H := malloc_always) stamp_example hello
            (λ _, eq_refl) Hn _ eq_refl (proj1 stamp_example_ok) (proj2 stamp_example_ok) eq_refl))).
  repeat (constructor; [split; [discriminate|reflexivity]|]). constructor.
Defined.

(** A network with another SSID does not answer a directed request. *)
Definition directed_example : bytes :=
  hdr_example ++ [0; 1; 120; 1; 1; 130] ++ ies_enc (frame_elements cf_example).

Lemma directed_example_carries : carries directed_example cf_example.
Proof.
  exists [mk_ie 0 [120]; mk_ie 1 [130]], []. split_and!.
  - split_and!; [repeat constructor; done|reflexivity|].
    intros (x & [<-|[<-|[]]] & Hx); discriminate Hx.
  - split_and!; [constructor|reflexivity|by intros (x & [] & _)].
  - by apply Z.leb_le.
  - reflexivity.
Qed.

Lemma directed_example_no_reply res e :
  ieee802_11_parse_elems (drop 24 directed_example) = Ok (res, e) →
  reply_to env_example (tracked (H := malloc_always) env_example (hapd_example None) directed_example)
    directed_example e = Ok None.
Proof. intros Hp. vm_compute in Hp. injection Hp as <- <-. vm_compute. reflexivity. Qed.

(** The acknowledgement of station 02:..:09 goes to station 02:..:0a. *)
Definition other_example : bytes :=
  [64; 0; 0; 0; 255; 255; 255; 255; 255; 255; 2; 0; 0; 0; 0; 10; 255; 255; 255; 255; 255; 255; 0; 0;
   0; 0; 1; 1; 130].

Lemma ack_reaches_other_station_witness :
  carries directed_example cf_example ∧
  ∃ h1 h2 command resp noack offs,
    handle_probe_req (H := malloc_always) env_example (hapd_example None) directed_example 0 =
      Ok (h1, [Ev_system command]) ∧
    handle_probe_req (H := malloc_always) env_example h1 other_example 0 =
      Ok (h2, [Ev_send_mlme resp noack offs]) ∧
    acknowledges (H := malloc_always) resp [2; 0; 0; 0; 0; 10] 7.
Proof.
  split; [exact directed_example_carries|].
  destruct (ack_reaches_other_station (H := malloc_always) cf_example env_example (hapd_example None)
              directed_example 0 (λ _, eq_refl) (hapd_example_ok None no_ack_wf)
              ltac:(vm_compute; discriminate) plain_nil cf_example_ok directed_example_carries
              (conj eq_refl eq_refl) clock_example_ok directed_example_no_reply)
    as (h1 & command & H1 & Hother).
  assert (send_probe_response (iconf h1) = true ∧
          ∃ e, ieee802_11_parse_elems (drop 24 other_example) = Ok (ParseOK, e) ∧
            elems.n_stuffed_ies e = 0 ∧
            reply_to env_example (tracked (H := malloc_always) env_example h1 other_example) other_example e =
              Ok (Some WILDCARD_SSID_MATCH)) as [Hs (e & He & H0 & Hr)].
  { vm_compute in H1. injection H1 as <- _. split; [reflexivity|].
    eexists. split; [|split]; vm_compute; reflexivity. }
  destruct (Hother env_example other_example 0 ParseOK e WILDCARD_SSID_MATCH ltac:(by apply Z.leb_le)
              (conj eq_refl Hs) He ltac:(discriminate) H0 Hr) as (h2 & resp & noack & offs & H2 & H3).
  exists h1, h2, command, resp, noack, offs. split; [exact H1|]. split; [exact H2|exact H3].
Defined.

Lemma controller_record_whole_witness :
  frame_ok cf_example ∧
  take 499 (frame_record cf_example (lit "02:00:00:00:00:09") (1513000000, 250)) =
    frame_record cf_example (lit "02:00:00:00:00:09") (1513000000, 250).
Proof.
  split; [exact cf_example_ok|].
  apply (controller_record_whole cf_example [2; 0; 0; 0; 0; 9]);
    [exact cf_example_ok|reflexivity|reflexivity|split; [discriminate|reflexivity]|discriminate].
Defined.
