(* ===== verification/EapolAuth.v ===== *)
(** * The EAPOL authenticator state machines

    [src/eapol_auth/eapol_auth_sm.c]: the six state machines that decide, for
    one station, whether its IEEE 802.1X port is authorized, with the loop that
    runs them until nothing changes.

    An action is a function on [st]: the world behind the callbacks, the
    [struct eapol_state_machine], and a log of what the machines did. The log
    holds, newest first, the debug message of every state entry, every callback
    and every eloop registration, each with the state machine as it was then.

    The callbacks of [struct eapol_auth_cb] and the EAP server are behind the
    interface [EapolEnv]; what they promise is [EapolEnvOk]. *)

From Stdlib Require Import ZArith Lia Strings.String.
From stdpp Require Import base option list numbers decidable.
From S2P Require Import Prelude CLib.
Local Open Scope Z_scope.

(** ** Data *)

Inductive PortTypes : Set := ForceUnauthorized | ForceAuthorized | Auto.
Inductive PortState : Set := Unauthorized | Authorized.
Inductive ControlledDirection : Set := Both | In.

Inductive auth_pae : Set :=
| AUTH_PAE_INITIALIZE | AUTH_PAE_DISCONNECTED | AUTH_PAE_CONNECTING
| AUTH_PAE_AUTHENTICATING | AUTH_PAE_AUTHENTICATED | AUTH_PAE_ABORTING
| AUTH_PAE_HELD | AUTH_PAE_FORCE_AUTH | AUTH_PAE_FORCE_UNAUTH | AUTH_PAE_RESTART.

Inductive be_auth : Set :=
| BE_AUTH_REQUEST | BE_AUTH_RESPONSE | BE_AUTH_SUCCESS | BE_AUTH_FAIL
| BE_AUTH_TIMEOUT | BE_AUTH_IDLE | BE_AUTH_INITIALIZE | BE_AUTH_IGNORE.

Inductive reauth_timer : Set := REAUTH_TIMER_INITIALIZE | REAUTH_TIMER_REAUTHENTICATE.
Inductive auth_key_tx : Set := AUTH_KEY_TX_NO_KEY_TRANSMIT | AUTH_KEY_TX_KEY_TRANSMIT.
Inductive key_rx : Set := KEY_RX_NO_KEY_RECEIVE | KEY_RX_KEY_RECEIVE.
Inductive ctrl_dir : Set := CTRL_DIR_FORCE_BOTH | CTRL_DIR_IN_OR_BOTH.

#[export] Instance PortTypes_eq_dec : EqDecision PortTypes.
Proof. solve_decision. Defined.
#[export] Instance PortState_eq_dec : EqDecision PortState.
Proof. solve_decision. Defined.
#[export] Instance ControlledDirection_eq_dec : EqDecision ControlledDirection.
Proof. solve_decision. Defined.
#[export] Instance auth_pae_eq_dec : EqDecision auth_pae.
Proof. solve_decision. Defined.
#[export] Instance be_auth_eq_dec : EqDecision be_auth.
Proof. solve_decision. Defined.
#[export] Instance reauth_timer_eq_dec : EqDecision reauth_timer.
Proof. solve_decision. Defined.
#[export] Instance auth_key_tx_eq_dec : EqDecision auth_key_tx.
Proof. solve_decision. Defined.
#[export] Instance key_rx_eq_dec : EqDecision key_rx.
Proof. solve_decision. Defined.
#[export] Instance ctrl_dir_eq_dec : EqDecision ctrl_dir.
Proof. solve_decision. Defined.

Definition EAPOL_SM_PREAUTH : Z := 1.
Definition EAPOL_SM_WAIT_START : Z := 2.
Definition EAPOL_SM_USES_WPA : Z := 4.
Definition EAPOL_SM_FROM_PMKSA_CACHE : Z := 8.

Definition AUTH_PAE_DEFAULT_quietPeriod : Z := 60.
Definition AUTH_PAE_DEFAULT_reAuthMax : Z := 2.
Definition BE_AUTH_DEFAULT_serverTimeout : Z := 30.

(** [struct eap_eapol_interface]: the variables shared with the EAP server. A
    buffer is its contents. *)
Record eap_eapol_interface := mk_eap_if {
  eapResp : bool;
  eapRespData : option bytes;
  portEnabled : bool;
  retransWhile : Z;
  eapRestart : bool;
  eapReq : bool;
  eapNoReq : bool;
  eapSuccess : bool;
  eapFail : bool;
  eapTimeout : bool;
  eapReqData : option bytes;
  eapKeyAvailable : bool;
  aaaEapResp : bool;
  aaaEapRespData : option bytes }.

#[export] Instance eap_eapol_interface_eta : Eta eap_eapol_interface := λ i, mk_eap_if
  (eapResp i) (eapRespData i) (portEnabled i) (retransWhile i) (eapRestart i) (eapReq i)
  (eapNoReq i) (eapSuccess i) (eapFail i) (eapTimeout i) (eapReqData i) (eapKeyAvailable i)
  (aaaEapResp i) (aaaEapRespData i).

(** The [Counter] fields of [struct eapol_state_machine]. *)
Record eapol_counters := mk_counters {
  authEntersConnecting : Z;
  authEapLogoffsWhileConnecting : Z;
  authAuthSuccessesWhileAuthenticating : Z;
  authAuthTimeoutsWhileAuthenticating : Z;
  authAuthFailWhileAuthenticating : Z;
  authAuthEapStartsWhileAuthenticating : Z;
  authAuthEapLogoffWhileAuthenticating : Z;
  authAuthReauthsWhileAuthenticated : Z;
  authAuthEapStartsWhileAuthenticated : Z;
  authAuthEapLogoffWhileAuthenticated : Z;
  backendResponses : Z;
  backendAccessChallenges : Z;
  backendOtherRequestsToSupplicant : Z;
  backendAuthSuccesses : Z;
  backendAuthFails : Z;
  dot1xAuthEapolFramesRx : Z;
  dot1xAuthEapolFramesTx : Z;
  dot1xAuthEapolStartFramesRx : Z;
  dot1xAuthEapolLogoffFramesRx : Z;
  dot1xAuthEapolRespFramesRx : Z;
  dot1xAuthEapolReqIdFramesTx : Z;
  dot1xAuthEapolReqFramesTx : Z;
  dot1xAuthInvalidEapolFramesRx : Z;
  dot1xAuthEapLengthErrorFramesRx : Z;
  dot1xAuthLastEapolFrameVersion : Z }.

#[export] Instance eapol_counters_eta : Eta eapol_counters := λ c, mk_counters
  (authEntersConnecting c) (authEapLogoffsWhileConnecting c)
  (authAuthSuccessesWhileAuthenticating c) (authAuthTimeoutsWhileAuthenticating c)
  (authAuthFailWhileAuthenticating c) (authAuthEapStartsWhileAuthenticating c)
  (authAuthEapLogoffWhileAuthenticating c) (authAuthReauthsWhileAuthenticated c)
  (authAuthEapStartsWhileAuthenticated c) (authAuthEapLogoffWhileAuthenticated c)
  (backendResponses c) (backendAccessChallenges c) (backendOtherRequestsToSupplicant c)
  (backendAuthSuccesses c) (backendAuthFails c) (dot1xAuthEapolFramesRx c)
  (dot1xAuthEapolFramesTx c) (dot1xAuthEapolStartFramesRx c) (dot1xAuthEapolLogoffFramesRx c)
  (dot1xAuthEapolRespFramesRx c) (dot1xAuthEapolReqIdFramesTx c) (dot1xAuthEapolReqFramesTx c)
  (dot1xAuthInvalidEapolFramesRx c) (dot1xAuthEapLengthErrorFramesRx c)
  (dot1xAuthLastEapolFrameVersion c).

Definition no_counters : eapol_counters :=
  mk_counters 0 0 0 0 0 0 0 0 0 0 0 0 0 0 0 0 0 0 0 0 0 0 0 0 0.

(** [counter++] on an [unsigned int] *)
Definition incr (c : Z) : Z := u32 (c + 1).

(** [struct eapol_state_machine], without the RADIUS and identity data *)
Record eapol_state_machine := mk_eapol_sm {
  aWhile : Z;
  quietWhile : Z;
  reAuthWhen : Z;
  authAbort : bool;
  authFail : bool;
  authPortStatus : option PortState;   (** [None]: still the zero of [os_zalloc] *)
  authStart : bool;
  authTimeout : bool;
  authSuccess : bool;
  eapolEap : bool;
  initialize : bool;
  keyDone : bool;
  keyRun : bool;
  keyTxEnabled : bool;
  portControl : PortTypes;
  portValid : bool;
  reAuthenticate : bool;
  auth_pae_state : auth_pae;
  eapolLogoff : bool;
  eapolStart : bool;
  portMode : option PortTypes;         (** [None]: still the zero of [os_zalloc] *)
  reAuthCount : Z;
  quietPeriod : Z;
  reAuthMax : Z;
  be_auth_state : be_auth;
  serverTimeout : Z;
  reauth_timer_state : reauth_timer;
  reAuthPeriod : Z;
  reAuthEnabled : bool;
  auth_key_tx_state : auth_key_tx;
  key_rx_state : key_rx;
  rxKey : bool;
  ctrl_dir_state : ctrl_dir;
  adminControlledDirections : ControlledDirection;
  operControlledDirections : ControlledDirection;
  operEdge : bool;
  counters : eapol_counters;
  sm_addr : bytes;
  sm_flags : Z;
  eap_if : eap_eapol_interface;
  last_eap_id : Z;
  eap_type_supp : Z;
  eap : bool;                          (** [sm->eap != NULL] *)
  initializing : bool;
  changed : bool;
  remediation : Z }.

#[export] Instance eapol_state_machine_eta : Eta eapol_state_machine := λ m, mk_eapol_sm
  (aWhile m) (quietWhile m) (reAuthWhen m) (authAbort m) (authFail m) (authPortStatus m)
  (authStart m) (authTimeout m) (authSuccess m) (eapolEap m) (initialize m) (keyDone m) (keyRun m)
  (keyTxEnabled m) (portControl m) (portValid m) (reAuthenticate m) (auth_pae_state m)
  (eapolLogoff m) (eapolStart m) (portMode m) (reAuthCount m) (quietPeriod m) (reAuthMax m)
  (be_auth_state m) (serverTimeout m) (reauth_timer_state m) (reAuthPeriod m) (reAuthEnabled m)
  (auth_key_tx_state m) (key_rx_state m) (rxKey m) (ctrl_dir_state m)
  (adminControlledDirections m) (operControlledDirections m) (operEdge m) (counters m) (sm_addr m)
  (sm_flags m) (eap_if m) (last_eap_id m) (eap_type_supp m) (eap m) (initializing m) (changed m)
  (remediation m).

Inductive eapol_event : Set := EAPOL_AUTH_SM_CHANGE | EAPOL_AUTH_REAUTHENTICATE.

Inductive machine : Set :=
| AUTH_PAE (s : auth_pae)
| BE_AUTH (s : be_auth)
| REAUTH_TIMER (s : reauth_timer)
| AUTH_KEY_TX (s : auth_key_tx)
| KEY_RX (s : key_rx)
| CTRL_DIR (s : ctrl_dir).

#[export] Instance machine_eq_dec : EqDecision machine.
Proof. solve_decision. Defined.

(** The effects of the machines and of [src/ap/ieee802_1x.c]: the debug message
    of a state entry, the callbacks of [struct eapol_auth_cb], the timeouts
    registered and cancelled with eloop, the log message of a PMKSA cache hit,
    and the calls into the EAP server, the WPA authenticator and accounting. *)
Inductive effect : Set :=
| Entering (s : machine)
| Set_port_authorized (authorized : bool)
| Abort_auth
| Tx_key
| Eapol_send (type : Z) (data : bytes)
| Aaa_send (data : bytes)
| Finished (success preauth : bool) (remediation : Z)
| Eapol_event (type : eapol_event)
| Register_step
| Register_tick
| Cancel_step
| Cancel_tick
| Pmksa_skip
| Notify_cached
| Bind_vlan
| Clear_pmksa
| Clear_identity
| Wpa_reauth_event
| Wpa_receive (data : bytes)
| Accounting_sta_stop.

(** ** The environment *)

(** The callbacks can change the world and the state machine; so can the EAP
    server. *)
Class EapolEnv (W : Type) := {
  callback : effect → W → eapol_state_machine → W * eapol_state_machine;
  sta_entry_alive : W → bytes → bool;
  eap_server_sm_step : W → eapol_state_machine → W * eapol_state_machine * bool }.

(** What the authenticator keeps to itself: the states of the machines, the
    port's status and mode, and the outcome of the authentication. *)
Record private_part := mk_private {
  p_pae : auth_pae;
  p_be : be_auth;
  p_status : option PortState;
  p_mode : option PortTypes;
  p_success : bool }.

Definition private_of (m : eapol_state_machine) : private_part :=
  mk_private (auth_pae_state m) (be_auth_state m) (authPortStatus m) (portMode m) (authSuccess m).

(** The promise of the callbacks ([src/ap/ieee802_1x.c] and
    [hostapd_wpa_auth_set_eapol]) and of the EAP server: they write the shared
    interface and [portControl], [portValid], [keyRun], [keyDone], but not the
    private part. *)
Class EapolEnvOk (W : Type) `{EapolEnv W} : Prop := {
  callback_private e w m : private_of (callback e w m).2 = private_of m;
  eap_step_private w m : private_of (eap_server_sm_step w m).1.2 = private_of m }.

Section authenticator.
Context {W : Type} `{EapolEnv W}.

(** ** Actions *)

Record st := mk_st { world : W; sm : eapol_state_machine; log : list (effect * eapol_state_machine) }.

Definition act : Type := st → st.

Definition seq (a b : act) : act := λ s, b (a s).
Definition skip : act := λ s, s.

(** An assignment to fields of [sm] *)
Definition upd (f : eapol_state_machine → eapol_state_machine) : act :=
  λ s, mk_st (world s) (f (sm s)) (log s).

(** A debug message *)
Definition note (e : effect) : act := λ s, mk_st (world s) (sm s) ((e, sm s) :: log s).

(** A call of a callback or of eloop, its arguments read from [sm] *)
Definition call (e : eapol_state_machine → effect) : act := λ s,
  let r := callback (e (sm s)) (world s) (sm s) in
  mk_st r.1 r.2 ((e (sm s), sm s) :: log s).

(** [if (c) a else b] *)
Definition ite (c : eapol_state_machine → bool) (a b : act) : act :=
  λ s, if c (sm s) then a s else b s.
Definition when (c : eapol_state_machine → bool) (a : act) : act := ite c a skip.

(** [switch (sm->p)] *)
Definition switch {A} (p : eapol_state_machine → A) (k : A → act) : act := λ s, k (p (sm s)) s.

Infix ";;;" := seq (at level 60, right associativity).

(** [sm->counter++] *)
Definition bump (f : eapol_counters → eapol_counters) : act :=
  upd (λ m, m <| counters := f (counters m) |>).

Definition set_if (f : eap_eapol_interface → eap_eapol_interface) : act :=
  upd (λ m, m <| eap_if := f (eap_if m) |>).

Definition in_pae (x : auth_pae) (m : eapol_state_machine) : bool :=
  bool_decide (auth_pae_state m = x).

(** ** Procedures *)

Definition IEEE802_1X_TYPE_EAP_PACKET : Z := 0.
Definition EAP_CODE_SUCCESS : Z := 3.
Definition EAP_CODE_FAILURE : Z := 4.
Definition EAP_TYPE_NONE : Z := 0.
Definition EAP_TYPE_IDENTITY : Z := 1.
Definition sizeof_eap_hdr : nat := 4.

Definition eapol_auth_tx_canned_eap (success : bool) : act :=
  upd (λ m, m <| last_eap_id := u8 (last_eap_id m + 1) |>) ;;;
  call (λ m, Eapol_send IEEE802_1X_TYPE_EAP_PACKET
    [if success then EAP_CODE_SUCCESS else EAP_CODE_FAILURE; last_eap_id m; 0; 4]) ;;;
  bump (λ c, c <| dot1xAuthEapolFramesTx := incr (dot1xAuthEapolFramesTx c) |>).

Definition eap_get_id (msg : bytes) : Z :=
  if decide (length msg < sizeof_eap_hdr)%nat then 0 else default 0 (msg !! 1%nat).

Definition eap_get_type (msg : bytes) : Z :=
  if decide (length msg < sizeof_eap_hdr + 1)%nat then EAP_TYPE_NONE
  else default 0 (msg !! sizeof_eap_hdr).

Definition req_data (m : eapol_state_machine) : bytes := default [] (eapReqData (eap_if m)).

Definition eapol_auth_tx_req : act :=
  when (λ m, match eapReqData (eap_if m) with
             | Some d => bool_decide (sizeof_eap_hdr ≤ length d)%nat
             | None => false
             end)
    (when (λ m, Z.eqb (Z.land (sm_flags m) EAPOL_SM_WAIT_START) 0)
      (upd (λ m, m <| last_eap_id := eap_get_id (req_data m) |>) ;;;
       call (λ m, Eapol_send IEEE802_1X_TYPE_EAP_PACKET (req_data m)) ;;;
       bump (λ c, c <| dot1xAuthEapolFramesTx := incr (dot1xAuthEapolFramesTx c) |>) ;;;
       ite (λ m, bool_decide (eap_get_type (req_data m) = EAP_TYPE_IDENTITY))
         (bump (λ c, c <| dot1xAuthEapolReqIdFramesTx := incr (dot1xAuthEapolReqIdFramesTx c) |>))
         (bump (λ c, c <| dot1xAuthEapolReqFramesTx := incr (dot1xAuthEapolReqFramesTx c) |>)))).

Definition txCannedFail : act := eapol_auth_tx_canned_eap false.
Definition txCannedSuccess : act := eapol_auth_tx_canned_eap true.
Definition setPortAuthorized : act := call (λ _, Set_port_authorized true).
Definition setPortUnauthorized : act := call (λ _, Set_port_authorized false).
Definition finished (success : bool) : act := call (λ m,
  Finished success (negb (Z.eqb (Z.land (sm_flags m) EAPOL_SM_PREAUTH) 0)) (remediation m)).

(** [SM_ENTRY_MA]: the state [s] of a machine is entered, by a global rule or by
    a transition; [same] tells that the machine is in it already. *)
Definition SM_ENTRY_MA (s : machine) (same : eapol_state_machine → bool)
    (enter : eapol_state_machine → eapol_state_machine) (global : bool) : act :=
  when (λ m, negb global || negb (same m))
    (upd (λ m, m <| changed := true |>) ;;; note (Entering s)) ;;;
  upd enter.

Definition enter_pae (x : auth_pae) : bool → act :=
  SM_ENTRY_MA (AUTH_PAE x) (in_pae x) (λ m, m <| auth_pae_state := x |>).
Definition enter_be (x : be_auth) : bool → act :=
  SM_ENTRY_MA (BE_AUTH x) (λ m, bool_decide (be_auth_state m = x)) (λ m, m <| be_auth_state := x |>).
Definition enter_reauth (x : reauth_timer) : bool → act :=
  SM_ENTRY_MA (REAUTH_TIMER x) (λ m, bool_decide (reauth_timer_state m = x))
    (λ m, m <| reauth_timer_state := x |>).
Definition enter_key_tx (x : auth_key_tx) : bool → act :=
  SM_ENTRY_MA (AUTH_KEY_TX x) (λ m, bool_decide (auth_key_tx_state m = x))
    (λ m, m <| auth_key_tx_state := x |>).
Definition enter_key_rx (x : key_rx) : bool → act :=
  SM_ENTRY_MA (KEY_RX x) (λ m, bool_decide (key_rx_state m = x)) (λ m, m <| key_rx_state := x |>).
Definition enter_ctrl_dir (x : ctrl_dir) : bool → act :=
  SM_ENTRY_MA (CTRL_DIR x) (λ m, bool_decide (ctrl_dir_state m = x))
    (λ m, m <| ctrl_dir_state := x |>).

(** ** Authenticator PAE state machine *)

Definition sm_AUTH_PAE_INITIALIZE_Enter (global : bool) : act :=
  enter_pae AUTH_PAE_INITIALIZE global ;;;
  upd (λ m, m <| portMode := Some Auto |> <| keyRun := false |>).

Definition sm_AUTH_PAE_DISCONNECTED_Enter (global : bool) : act :=
  switch (in_pae AUTH_PAE_INITIALIZE) (λ from_initialize,
   when eapolLogoff
    (ite (in_pae AUTH_PAE_CONNECTING)
      (bump (λ c, c <| authEapLogoffsWhileConnecting := incr (authEapLogoffsWhileConnecting c) |>))
      (when (in_pae AUTH_PAE_AUTHENTICATED)
        (bump (λ c, c <| authAuthEapLogoffWhileAuthenticated :=
                           incr (authAuthEapLogoffWhileAuthenticated c) |>)))) ;;;
   enter_pae AUTH_PAE_DISCONNECTED global ;;;
   upd (λ m, m <| authPortStatus := Some Unauthorized |>) ;;;
   setPortUnauthorized ;;;
   upd (λ m, m <| reAuthCount := 0 |> <| eapolLogoff := false |>) ;;;
   when (λ _, negb from_initialize) (finished false)).

Definition sm_AUTH_PAE_RESTART_Enter (global : bool) : act :=
  when (in_pae AUTH_PAE_AUTHENTICATED)
    (when reAuthenticate
      (bump (λ c, c <| authAuthReauthsWhileAuthenticated :=
                         incr (authAuthReauthsWhileAuthenticated c) |>)) ;;;
     when eapolStart
      (bump (λ c, c <| authAuthEapStartsWhileAuthenticated :=
                         incr (authAuthEapStartsWhileAuthenticated c) |>)) ;;;
     when eapolLogoff
      (bump (λ c, c <| authAuthEapLogoffWhileAuthenticated :=
                         incr (authAuthEapLogoffWhileAuthenticated c) |>))) ;;;
  enter_pae AUTH_PAE_RESTART global ;;;
  set_if (λ i, i <| eapRestart := true |>).

Definition sm_AUTH_PAE_CONNECTING_Enter (global : bool) : act :=
  when (λ m, negb (in_pae AUTH_PAE_CONNECTING m))
    (bump (λ c, c <| authEntersConnecting := incr (authEntersConnecting c) |>)) ;;;
  enter_pae AUTH_PAE_CONNECTING global ;;;
  upd (λ m, m <| reAuthenticate := false |> <| reAuthCount := u32 (reAuthCount m + 1) |>).

Definition sm_AUTH_PAE_HELD_Enter (global : bool) : act :=
  when (λ m, in_pae AUTH_PAE_AUTHENTICATING m && authFail m)
    (bump (λ c, c <| authAuthFailWhileAuthenticating :=
                       incr (authAuthFailWhileAuthenticating c) |>)) ;;;
  enter_pae AUTH_PAE_HELD global ;;;
  upd (λ m, m <| authPortStatus := Some Unauthorized |>) ;;;
  setPortUnauthorized ;;;
  upd (λ m, m <| quietWhile := s32 (quietPeriod m) |> <| eapolLogoff := false |>) ;;;
  finished false.

Definition sm_AUTH_PAE_AUTHENTICATED_Enter (global : bool) : act :=
  when (λ m, in_pae AUTH_PAE_AUTHENTICATING m && authSuccess m)
    (bump (λ c, c <| authAuthSuccessesWhileAuthenticating :=
                       incr (authAuthSuccessesWhileAuthenticating c) |>)) ;;;
  enter_pae AUTH_PAE_AUTHENTICATED global ;;;
  upd (λ m, m <| authPortStatus := Some Authorized |>) ;;;
  setPortAuthorized ;;;
  upd (λ m, m <| reAuthCount := 0 |>) ;;;
  finished true.

Definition sm_AUTH_PAE_AUTHENTICATING_Enter (global : bool) : act :=
  enter_pae AUTH_PAE_AUTHENTICATING global ;;;
  upd (λ m, m <| eapolStart := false |> <| authSuccess := false |> <| authFail := false |>
              <| authTimeout := false |> <| authStart := true |> <| keyRun := false |>
              <| keyDone := false |>).

Definition sm_AUTH_PAE_ABORTING_Enter (global : bool) : act :=
  when (in_pae AUTH_PAE_AUTHENTICATING)
    (when authTimeout
      (bump (λ c, c <| authAuthTimeoutsWhileAuthenticating :=
                         incr (authAuthTimeoutsWhileAuthenticating c) |>)) ;;;
     when eapolStart
      (bump (λ c, c <| authAuthEapStartsWhileAuthenticating :=
                         incr (authAuthEapStartsWhileAuthenticating c) |>)) ;;;
     when eapolLogoff
      (bump (λ c, c <| authAuthEapLogoffWhileAuthenticating :=
                         incr (authAuthEapLogoffWhileAuthenticating c) |>))) ;;;
  enter_pae AUTH_PAE_ABORTING global ;;;
  upd (λ m, m <| authAbort := true |> <| keyRun := false |> <| keyDone := false |>).

Definition sm_AUTH_PAE_FORCE_AUTH_Enter (global : bool) : act :=
  enter_pae AUTH_PAE_FORCE_AUTH global ;;;
  upd (λ m, m <| authPortStatus := Some Authorized |>) ;;;
  setPortAuthorized ;;;
  upd (λ m, m <| portMode := Some ForceAuthorized |> <| eapolStart := false |>) ;;;
  txCannedSuccess.

Definition sm_AUTH_PAE_FORCE_UNAUTH_Enter (global : bool) : act :=
  enter_pae AUTH_PAE_FORCE_UNAUTH global ;;;
  upd (λ m, m <| authPortStatus := Some Unauthorized |>) ;;;
  setPortUnauthorized ;;;
  upd (λ m, m <| portMode := Some ForceUnauthorized |> <| eapolStart := false |>) ;;;
  txCannedFail.

(** [sm->portControl == p && sm->portMode != sm->portControl] *)
Definition mode_wanted (p : PortTypes) (m : eapol_state_machine) : bool :=
  bool_decide (portControl m = p) && negb (bool_decide (portMode m = Some (portControl m))).

Definition port_off (m : eapol_state_machine) : bool := initialize m || negb (portEnabled (eap_if m)).

Definition sm_AUTH_PAE_transition (x : auth_pae) : act :=
  match x with
  | AUTH_PAE_INITIALIZE => sm_AUTH_PAE_DISCONNECTED_Enter false
  | AUTH_PAE_DISCONNECTED => sm_AUTH_PAE_RESTART_Enter false
  | AUTH_PAE_RESTART =>
    when (λ m, negb (eapRestart (eap_if m))) (sm_AUTH_PAE_CONNECTING_Enter false)
  | AUTH_PAE_HELD =>
    when (λ m, Z.eqb (quietWhile m) 0) (sm_AUTH_PAE_RESTART_Enter false)
  | AUTH_PAE_CONNECTING =>
    ite (λ m, eapolLogoff m || bool_decide (reAuthCount m > reAuthMax m))
      (sm_AUTH_PAE_DISCONNECTED_Enter false)
      (when (λ m, (eapReq (eap_if m) && bool_decide (reAuthCount m ≤ reAuthMax m)) ||
                  eapSuccess (eap_if m) || eapFail (eap_if m))
        (sm_AUTH_PAE_AUTHENTICATING_Enter false))
  | AUTH_PAE_AUTHENTICATED =>
    ite (λ m, eapolStart m || reAuthenticate m) (sm_AUTH_PAE_RESTART_Enter false)
      (when (λ m, eapolLogoff m || negb (portValid m)) (sm_AUTH_PAE_DISCONNECTED_Enter false))
  | AUTH_PAE_AUTHENTICATING =>
    ite (λ m, authSuccess m && portValid m) (sm_AUTH_PAE_AUTHENTICATED_Enter false)
      (ite (λ m, authFail m || (keyDone m && negb (portValid m))) (sm_AUTH_PAE_HELD_Enter false)
        (when (λ m, eapolStart m || eapolLogoff m || authTimeout m)
          (sm_AUTH_PAE_ABORTING_Enter false)))
  | AUTH_PAE_ABORTING =>
    ite (λ m, eapolLogoff m && negb (authAbort m)) (sm_AUTH_PAE_DISCONNECTED_Enter false)
      (when (λ m, negb (eapolLogoff m) && negb (authAbort m)) (sm_AUTH_PAE_RESTART_Enter false))
  | AUTH_PAE_FORCE_AUTH => when eapolStart (sm_AUTH_PAE_FORCE_AUTH_Enter false)
  | AUTH_PAE_FORCE_UNAUTH => when eapolStart (sm_AUTH_PAE_FORCE_UNAUTH_Enter false)
  end.

Definition sm_AUTH_PAE_Step : act :=
  ite (λ m, mode_wanted Auto m || initialize m || negb (portEnabled (eap_if m)))
    (sm_AUTH_PAE_INITIALIZE_Enter true)
  (ite (λ m, mode_wanted ForceAuthorized m && negb (port_off m))
    (sm_AUTH_PAE_FORCE_AUTH_Enter true)
  (ite (λ m, mode_wanted ForceUnauthorized m && negb (port_off m))
    (sm_AUTH_PAE_FORCE_UNAUTH_Enter true)
    (switch auth_pae_state sm_AUTH_PAE_transition))).

(** ** Backend Authentication state machine *)

Definition sm_BE_AUTH_INITIALIZE_Enter (global : bool) : act :=
  enter_be BE_AUTH_INITIALIZE global ;;;
  call (λ _, Abort_auth) ;;;
  set_if (λ i, i <| eapNoReq := false |>) ;;;
  upd (λ m, m <| authAbort := false |>).

Definition sm_BE_AUTH_REQUEST_Enter (global : bool) : act :=
  enter_be BE_AUTH_REQUEST global ;;;
  eapol_auth_tx_req ;;;
  set_if (λ i, i <| eapReq := false |>) ;;;
  bump (λ c, c <| backendOtherRequestsToSupplicant :=
                    incr (backendOtherRequestsToSupplicant c) |>) ;;;
  upd (λ m, m <| eapolEap := false |>).

Definition sm_BE_AUTH_RESPONSE_Enter (global : bool) : act :=
  enter_be BE_AUTH_RESPONSE global ;;;
  upd (λ m, m <| authTimeout := false |> <| eapolEap := false |>) ;;;
  set_if (λ i, i <| eapNoReq := false |>) ;;;
  upd (λ m, m <| aWhile := s32 (serverTimeout m) |>) ;;;
  set_if (λ i, i <| eapResp := true |>) ;;;
  bump (λ c, c <| backendResponses := incr (backendResponses c) |>).

Definition sm_BE_AUTH_SUCCESS_Enter (global : bool) : act :=
  enter_be BE_AUTH_SUCCESS global ;;;
  eapol_auth_tx_req ;;;
  upd (λ m, m <| authSuccess := true |> <| keyRun := true |>).

Definition sm_BE_AUTH_FAIL_Enter (global : bool) : act :=
  enter_be BE_AUTH_FAIL global ;;;
  eapol_auth_tx_req ;;;
  upd (λ m, m <| authFail := true |>).

Definition sm_BE_AUTH_TIMEOUT_Enter (global : bool) : act :=
  enter_be BE_AUTH_TIMEOUT global ;;;
  upd (λ m, m <| authTimeout := true |>).

Definition sm_BE_AUTH_IDLE_Enter (global : bool) : act :=
  enter_be BE_AUTH_IDLE global ;;;
  upd (λ m, m <| authStart := false |>).

Definition sm_BE_AUTH_IGNORE_Enter (global : bool) : act :=
  enter_be BE_AUTH_IGNORE global ;;;
  set_if (λ i, i <| eapNoReq := false |>).

(** The cases BE_AUTH_REQUEST and BE_AUTH_IGNORE *)
Definition be_request_transition : act :=
  ite eapolEap (sm_BE_AUTH_RESPONSE_Enter false)
  (ite (λ m, eapReq (eap_if m)) (sm_BE_AUTH_REQUEST_Enter false)
  (when (λ m, eapTimeout (eap_if m)) (sm_BE_AUTH_TIMEOUT_Enter false))).

Definition sm_BE_AUTH_transition (x : be_auth) : act :=
  match x with
  | BE_AUTH_INITIALIZE => sm_BE_AUTH_IDLE_Enter false
  | BE_AUTH_REQUEST => be_request_transition
  | BE_AUTH_RESPONSE =>
    when (λ m, eapNoReq (eap_if m)) (sm_BE_AUTH_IGNORE_Enter false) ;;;
    ite (λ m, eapReq (eap_if m))
      (bump (λ c, c <| backendAccessChallenges := incr (backendAccessChallenges c) |>) ;;;
       sm_BE_AUTH_REQUEST_Enter false)
    (ite (λ m, Z.eqb (aWhile m) 0) (sm_BE_AUTH_TIMEOUT_Enter false)
    (ite (λ m, eapFail (eap_if m))
      (bump (λ c, c <| backendAuthFails := incr (backendAuthFails c) |>) ;;;
       sm_BE_AUTH_FAIL_Enter false)
    (when (λ m, eapSuccess (eap_if m))
      (bump (λ c, c <| backendAuthSuccesses := incr (backendAuthSuccesses c) |>) ;;;
       sm_BE_AUTH_SUCCESS_Enter false))))
  | BE_AUTH_SUCCESS | BE_AUTH_FAIL | BE_AUTH_TIMEOUT => sm_BE_AUTH_IDLE_Enter false
  | BE_AUTH_IDLE =>
    ite (λ m, eapFail (eap_if m) && authStart m) (sm_BE_AUTH_FAIL_Enter false)
    (ite (λ m, eapReq (eap_if m) && authStart m) (sm_BE_AUTH_REQUEST_Enter false)
    (when (λ m, eapSuccess (eap_if m) && authStart m) (sm_BE_AUTH_SUCCESS_Enter false)))
  | BE_AUTH_IGNORE => be_request_transition
  end.

Definition not_auto (m : eapol_state_machine) : bool := negb (bool_decide (portControl m = Auto)).

Definition sm_BE_AUTH_Step : act :=
  ite (λ m, not_auto m || initialize m || authAbort m)
    (sm_BE_AUTH_INITIALIZE_Enter true)
    (switch be_auth_state sm_BE_AUTH_transition).

(** ** Reauthentication Timer state machine *)

Definition sm_REAUTH_TIMER_INITIALIZE_Enter (global : bool) : act :=
  enter_reauth REAUTH_TIMER_INITIALIZE global ;;;
  upd (λ m, m <| reAuthWhen := s32 (reAuthPeriod m) |>).

Definition sm_REAUTH_TIMER_REAUTHENTICATE_Enter (global : bool) : act :=
  enter_reauth REAUTH_TIMER_REAUTHENTICATE global ;;;
  upd (λ m, m <| reAuthenticate := true |>) ;;;
  call (λ _, Eapol_event EAPOL_AUTH_REAUTHENTICATE).

Definition sm_REAUTH_TIMER_transition (x : reauth_timer) : act :=
  match x with
  | REAUTH_TIMER_INITIALIZE =>
    when (λ m, Z.eqb (reAuthWhen m) 0) (sm_REAUTH_TIMER_REAUTHENTICATE_Enter false)
  | REAUTH_TIMER_REAUTHENTICATE => sm_REAUTH_TIMER_INITIALIZE_Enter false
  end.

Definition sm_REAUTH_TIMER_Step : act :=
  ite (λ m, not_auto m || initialize m || bool_decide (authPortStatus m = Some Unauthorized) ||
            negb (reAuthEnabled m))
    (sm_REAUTH_TIMER_INITIALIZE_Enter true)
    (switch reauth_timer_state sm_REAUTH_TIMER_transition).

(** ** Authenticator Key Transmit state machine *)

Definition sm_AUTH_KEY_TX_NO_KEY_TRANSMIT_Enter (global : bool) : act :=
  enter_key_tx AUTH_KEY_TX_NO_KEY_TRANSMIT global.

Definition sm_AUTH_KEY_TX_KEY_TRANSMIT_Enter (global : bool) : act :=
  enter_key_tx AUTH_KEY_TX_KEY_TRANSMIT global ;;;
  call (λ _, Tx_key) ;;;
  set_if (λ i, i <| eapKeyAvailable := false |>) ;;;
  upd (λ m, m <| keyDone := true |>).

Definition sm_AUTH_KEY_TX_transition (x : auth_key_tx) : act :=
  match x with
  | AUTH_KEY_TX_NO_KEY_TRANSMIT =>
    when (λ m, keyTxEnabled m && eapKeyAvailable (eap_if m) && keyRun m &&
               Z.eqb (Z.land (sm_flags m) EAPOL_SM_USES_WPA) 0)
      (sm_AUTH_KEY_TX_KEY_TRANSMIT_Enter false)
  | AUTH_KEY_TX_KEY_TRANSMIT =>
    ite (λ m, negb (keyTxEnabled m) || negb (keyRun m))
      (sm_AUTH_KEY_TX_NO_KEY_TRANSMIT_Enter false)
      (when (λ m, eapKeyAvailable (eap_if m)) (sm_AUTH_KEY_TX_KEY_TRANSMIT_Enter false))
  end.

Definition sm_AUTH_KEY_TX_Step : act :=
  ite (λ m, initialize m || not_auto m)
    (sm_AUTH_KEY_TX_NO_KEY_TRANSMIT_Enter true)
    (switch auth_key_tx_state sm_AUTH_KEY_TX_transition).

(** ** Key Receive state machine *)

Definition sm_KEY_RX_NO_KEY_RECEIVE_Enter (global : bool) : act :=
  enter_key_rx KEY_RX_NO_KEY_RECEIVE global.

Definition sm_KEY_RX_KEY_RECEIVE_Enter (global : bool) : act :=
  enter_key_rx KEY_RX_KEY_RECEIVE global ;;;
  upd (λ m, m <| rxKey := false |>).

Definition sm_KEY_RX_transition (x : key_rx) : act :=
  match x with
  | KEY_RX_NO_KEY_RECEIVE => when rxKey (sm_KEY_RX_KEY_RECEIVE_Enter false)
  | KEY_RX_KEY_RECEIVE => when rxKey (sm_KEY_RX_KEY_RECEIVE_Enter false)
  end.

Definition sm_KEY_RX_Step : act :=
  ite port_off (sm_KEY_RX_NO_KEY_RECEIVE_Enter true)
    (switch key_rx_state sm_KEY_RX_transition).

(** ** Controlled Directions state machine *)

Definition sm_CTRL_DIR_FORCE_BOTH_Enter (global : bool) : act :=
  enter_ctrl_dir CTRL_DIR_FORCE_BOTH global ;;;
  upd (λ m, m <| operControlledDirections := Both |>).

Definition sm_CTRL_DIR_IN_OR_BOTH_Enter (global : bool) : act :=
  enter_ctrl_dir CTRL_DIR_IN_OR_BOTH global ;;;
  upd (λ m, m <| operControlledDirections := adminControlledDirections m |>).

Definition sm_CTRL_DIR_transition (x : ctrl_dir) : act :=
  match x with
  | CTRL_DIR_FORCE_BOTH =>
    when (λ m, portEnabled (eap_if m) && operEdge m) (sm_CTRL_DIR_IN_OR_BOTH_Enter false)
  | CTRL_DIR_IN_OR_BOTH =>
    when (λ m, negb (bool_decide (operControlledDirections m = adminControlledDirections m)))
      (sm_CTRL_DIR_IN_OR_BOTH_Enter false) ;;;
    when (λ m, negb (portEnabled (eap_if m)) || negb (operEdge m))
      (sm_CTRL_DIR_FORCE_BOTH_Enter false)
  end.

Definition sm_CTRL_DIR_Step : act :=
  ite initialize (sm_CTRL_DIR_IN_OR_BOTH_Enter true)
    (switch ctrl_dir_state sm_CTRL_DIR_transition).

(** ** Running the machines *)

Definition eapol_sm_sta_entry_alive (addr : bytes) (s : st) : bool := sta_entry_alive (world s) addr.

(** [eapol_auth_step] *)
Definition eapol_auth_step : act := call (λ _, Register_step).

(** [if (sm->initializing || eapol_sm_sta_entry_alive(eapol, addr)) a] *)
Definition if_alive (addr : bytes) (a : act) : act :=
  λ s, if initializing (sm s) || eapol_sm_sta_entry_alive addr s then a s else s.

(** One pass over the six machines *)
Definition step_round (addr : bytes) : act :=
  sm_AUTH_PAE_Step ;;;
  if_alive addr sm_BE_AUTH_Step ;;;
  if_alive addr sm_REAUTH_TIMER_Step ;;;
  if_alive addr sm_AUTH_KEY_TX_Step ;;;
  if_alive addr sm_KEY_RX_Step ;;;
  if_alive addr sm_CTRL_DIR_Step.

Definition states (m : eapol_state_machine) :=
  (auth_pae_state m, be_auth_state m, reauth_timer_state m, auth_key_tx_state m,
   key_rx_state m, ctrl_dir_state m).

(** The rest of [eapol_sm_step_run], when neither the machines nor the EAP
    server have anything left to do *)
Definition send_aaa (s : st) : bool * st :=
  if aaaEapResp (eap_if (sm s)) then
    let s := set_if (λ i, i <| aaaEapResp := false |>) s in
    match aaaEapRespData (eap_if (sm s)) with
    | None => (true, s)
    | Some d => (false, call (λ _, Aaa_send d) s)
    end
  else (false, s).

Definition sm_changed_event (addr : bytes) : act := λ s,
  if eapol_sm_sta_entry_alive addr s then call (λ _, Eapol_event EAPOL_AUTH_SM_CHANGE) s else s.

Definition EAPOL_MAX_STEPS : nat := 100.

(** The body of [eapol_sm_step_run] from the label [restart]; the argument
    [again] stands for
    [if (--max_steps > 0) goto restart; eapol_auth_step(sm); return;] *)
Definition run_once (addr : bytes) (again : act) : act := λ s,
  let s1 := step_round addr s in
  if decide (states (sm s) = states (sm s1)) then
    if eapol_sm_sta_entry_alive addr s1 && eap (sm s1) then
      let r := eap_server_sm_step (world s1) (sm s1) in
      let s2 := mk_st r.1.1 r.1.2 (log s1) in
      if r.2 then again s2
      else
        let q := send_aaa s2 in
        if q.1 then q.2 else sm_changed_event addr q.2
    else sm_changed_event addr s1
  else again s1.

(** The loop with [max_steps] left *)
Fixpoint step_run_from (addr : bytes) (max_steps : nat) : act :=
  match max_steps with
  | O => skip
  | S n => run_once addr (if decide (0 < n)%nat then step_run_from addr n else eapol_auth_step)
  end.

Definition eapol_sm_step_run : act := λ s, step_run_from (sm_addr (sm s)) EAPOL_MAX_STEPS s.

Definition eapol_sm_step_cb : act := eapol_sm_step_run.

(** [if (t > 0) t--] *)
Definition tick (t : Z) : Z := if decide (t > 0) then t - 1 else t.

Definition eapol_port_timers_tick : act :=
  upd (λ m, m <| aWhile := tick (aWhile m) |> <| quietWhile := tick (quietWhile m) |>
              <| reAuthWhen := tick (reAuthWhen m) |>) ;;;
  set_if (λ i, i <| retransWhile := tick (retransWhile i) |>) ;;;
  eapol_sm_step_run ;;;
  call (λ _, Register_tick).

(** ** Creating and configuring a state machine *)

(** The part of [struct eapol_auth_config] and [struct eapol_authenticator]
    that [eapol_auth_alloc] reads *)
Record eapol_authenticator := mk_eapol_auth {
  eap_reauth_period : Z;
  conf_wpa : bool;
  conf_individual_wep_key_len : Z;
  default_wep_key : option bytes }.

Definition eapol_auth_initialize : act :=
  upd (λ m, m <| initializing := true |> <| initialize := true |>) ;;;
  eapol_sm_step_run ;;;
  upd (λ m, m <| initialize := false |>) ;;;
  eapol_sm_step_run ;;;
  upd (λ m, m <| initializing := false |>) ;;;
  call (λ _, Cancel_tick) ;;;
  call (λ _, Register_tick).

(** [eapol_auth_free], up to the memory it releases *)
Definition eapol_auth_free : act := call (λ _, Cancel_tick) ;;; call (λ _, Cancel_step).

(** The interface of a new EAP server state machine, which [eap_server_sm_init]
    allocates zeroed *)
Definition zero_eap_if : eap_eapol_interface :=
  mk_eap_if false None false 0 false false false false false false None false false None.

(** The state machine of [eapol_auth_alloc] before [eapol_auth_initialize] *)
Definition new_eapol_sm (eapol : eapol_authenticator) (addr : bytes) (flags : Z) : eapol_state_machine :=
  mk_eapol_sm 0 0 0 false false None false false false false false false false
    (negb (conf_wpa eapol) &&
     (bool_decide (is_Some (default_wep_key eapol)) ||
      bool_decide (conf_individual_wep_key_len eapol > 0)))
    Auto (negb (conf_wpa eapol)) false AUTH_PAE_INITIALIZE false false None 0
    AUTH_PAE_DEFAULT_quietPeriod AUTH_PAE_DEFAULT_reAuthMax BE_AUTH_INITIALIZE
    BE_AUTH_DEFAULT_serverTimeout REAUTH_TIMER_INITIALIZE (u32 (eap_reauth_period eapol))
    (bool_decide (eap_reauth_period eapol > 0)) AUTH_KEY_TX_NO_KEY_TRANSMIT
    KEY_RX_NO_KEY_RECEIVE false CTRL_DIR_IN_OR_BOTH Both Both false no_counters addr flags
    zero_eap_if 0 0 true false false 0.

(** [eapol_auth_alloc]: [None] is the null pointer, returned with the world it
    leaves. The arguments tell whether the two state machines can be allocated
    and whether a session identifier can be drawn. *)
Definition eapol_auth_alloc (sm_ok eap_ok random_ok : bool) (eapol : option eapol_authenticator)
    (addr : bytes) (flags : Z) (w : W) (l : list (effect * eapol_state_machine)) :
    W * option st :=
  match eapol with
  | None => (w, None)
  | Some eapol =>
    if negb sm_ok then (w, None)
    else
      let s := mk_st w (new_eapol_sm eapol addr flags) l in
      if negb eap_ok then (world (eapol_auth_free s), None)
      else
        let s := eapol_auth_initialize s in
        if negb random_ok then (world (eapol_auth_free s), None) else (world s, Some s)
  end.

Definition eapol_auth_reauthenticate : act :=
  upd (λ m, m <| reAuthenticate := true |>) ;;; eapol_auth_step.

(** A variable set to one of the values of a table, [-1] for any other value *)
Fixpoint set_choice (choices : list (bytes * (eapol_state_machine → eapol_state_machine)))
    (value : bytes) (s : st) : Z * st :=
  match choices with
  | [] => (-1, s)
  | (v, f) :: r => if str_eq value v then (0, (upd f ;;; eapol_auth_step) s) else set_choice r value s
  end.

(** A number: [atoi] converted to [unsigned int] *)
Definition set_number (f : Z → eapol_state_machine → eapol_state_machine) (value : bytes) (s : st) :
    outcome (Z * st) :=
  v ← atoi value; Ok (0, upd (f (u32 v)) s).

Definition eapol_auth_set_conf (param value : bytes) (s : st) : outcome (Z * st) :=
  if strcase_eq param (lit "AdminControlledDirections") then
    Ok (set_choice
      [(lit "Both", λ m, m <| adminControlledDirections := Both |>);
       (lit "In", λ m, m <| adminControlledDirections := In |>)] value s)
  else if strcase_eq param (lit "AdminControlledPortControl") then
    Ok (set_choice
      [(lit "ForceAuthorized", λ m, m <| portControl := ForceAuthorized |>);
       (lit "ForceUnauthorized", λ m, m <| portControl := ForceUnauthorized |>);
       (lit "Auto", λ m, m <| portControl := Auto |>)] value s)
  else if strcase_eq param (lit "quietPeriod") then
    set_number (λ v m, m <| quietPeriod := v |>) value s
  else if strcase_eq param (lit "serverTimeout") then
    set_number (λ v m, m <| serverTimeout := v |>) value s
  else if strcase_eq param (lit "reAuthPeriod") then
    set_number (λ v m, m <| reAuthPeriod := v |>) value s
  else if strcase_eq param (lit "reAuthEnabled") then
    Ok (set_choice
      [(lit "TRUE", λ m, m <| reAuthEnabled := true |>);
       (lit "FALSE", λ m, m <| reAuthEnabled := false |>)] value s)
  else if strcase_eq param (lit "KeyTransmissionEnabled") then
    Ok (set_choice
      [(lit "TRUE", λ m, m <| keyTxEnabled := true |>);
       (lit "FALSE", λ m, m <| keyTxEnabled := false |>)] value s)
  else Ok (-1, s).

End authenticator.

Arguments st W : clear implicits.
Arguments act W : clear implicits.
Infix ";;;" := seq (at level 60, right associativity).

(** ** Frames

    [frame R a]: the act [a] moves only along the preorder [R]. *)

Definition frame {W} (R : st W → st W → Prop) (a : act W) : Prop := ∀ s, R s (a s).

Create HintDb frame.

Section frames.
Context {W : Type} (R : st W → st W → Prop) `{!PreOrder R}.
Implicit Types a b : act W.

Lemma frame_seq a b : frame R a → frame R b → frame R (seq a b).
Proof. intros Ha Hb s. etransitivity; [apply Ha|apply Hb]. Qed.

Lemma frame_skip : frame R skip.
Proof. intros s. reflexivity. Qed.

Lemma frame_ite c a b : frame R a → frame R b → frame R (ite c a b).
Proof. intros Ha Hb s. unfold ite. destruct (c (sm s)); [apply Ha|apply Hb]. Qed.

Lemma frame_when c a : frame R a → frame R (when c a).
Proof. intros Ha. apply frame_ite; [done|apply frame_skip]. Qed.

Lemma frame_switch {A} (p : eapol_state_machine → A) (k : A → act W) :
  (∀ x, frame R (k x)) → frame R (switch p k).
Proof. intros Hk s. apply Hk. Qed.

End frames.

#[export] Hint Resolve frame_seq frame_skip frame_ite frame_when : frame.
#[export] Hint Extern 0 (PreOrder _) => typeclasses eauto : frame.
#[export] Hint Extern 1 (_ = _) => reflexivity : frame.
#[export] Hint Extern 1 (∀ _, _ = _) => reflexivity : frame.

Lemma frame_if_alive {W} `{EapolEnv W} (R : st W → st W → Prop) `{!PreOrder R} addr (a : act W) :
  frame R a → frame R (if_alive addr a).
Proof. intros Ha s. unfold if_alive. destruct (_ || _); [apply Ha|reflexivity]. Qed.
#[export] Hint Resolve frame_if_alive : frame.

Ltac frame := solve [eauto 20 with frame].

Ltac unfold_machines :=
  unfold sm_AUTH_PAE_INITIALIZE_Enter, sm_AUTH_PAE_DISCONNECTED_Enter, sm_AUTH_PAE_RESTART_Enter,
    sm_AUTH_PAE_CONNECTING_Enter, sm_AUTH_PAE_HELD_Enter, sm_AUTH_PAE_AUTHENTICATED_Enter,
    sm_AUTH_PAE_AUTHENTICATING_Enter, sm_AUTH_PAE_ABORTING_Enter, sm_AUTH_PAE_FORCE_AUTH_Enter,
    sm_AUTH_PAE_FORCE_UNAUTH_Enter, setPortAuthorized, setPortUnauthorized, finished,
    txCannedSuccess, txCannedFail, eapol_auth_tx_canned_eap, enter_pae, be_request_transition;
  unfold sm_BE_AUTH_INITIALIZE_Enter, sm_BE_AUTH_REQUEST_Enter, sm_BE_AUTH_RESPONSE_Enter,
    sm_BE_AUTH_SUCCESS_Enter, sm_BE_AUTH_FAIL_Enter, sm_BE_AUTH_TIMEOUT_Enter, sm_BE_AUTH_IDLE_Enter,
    sm_BE_AUTH_IGNORE_Enter, eapol_auth_tx_req,
    sm_REAUTH_TIMER_INITIALIZE_Enter, sm_REAUTH_TIMER_REAUTHENTICATE_Enter,
    sm_AUTH_KEY_TX_NO_KEY_TRANSMIT_Enter, sm_AUTH_KEY_TX_KEY_TRANSMIT_Enter,
    sm_KEY_RX_NO_KEY_RECEIVE_Enter, sm_KEY_RX_KEY_RECEIVE_Enter,
    sm_CTRL_DIR_FORCE_BOTH_Enter, sm_CTRL_DIR_IN_OR_BOTH_Enter,
    enter_be, enter_reauth, enter_key_tx, enter_key_rx, enter_ctrl_dir, SM_ENTRY_MA, bump, set_if.

Ltac frame_acts :=
  lazymatch goal with
  | |- frame _ (seq _ _) => apply frame_seq; frame_acts
  | |- frame _ (ite _ _ _) => apply frame_ite; frame_acts
  | |- frame _ (when _ _) => apply frame_when; frame_acts
  | |- frame _ (switch _ _) => apply frame_switch; intros []; frame_acts
  | |- _ => frame
  end.

(** One machine: its global rule and each of its states *)
Ltac frame_machine step trans :=
  unfold step; apply frame_ite; [unfold_machines; frame_acts|];
  apply frame_switch; intros []; cbn [trans]; unfold_machines; frame_acts.

(** ** What the log says *)

Abbreviation eapol_log := (list (effect * eapol_state_machine)).

(** The port state last given to the driver *)
Fixpoint last_port (l : eapol_log) : option PortState :=
  match l with
  | [] => None
  | (Set_port_authorized b, _) :: _ => Some (if b then Authorized else Unauthorized)
  | _ :: l => last_port l
  end.

(** Since the PAE last started to authenticate the station, the EAP server
    reported success or a PMKSA of the station was found in the cache. *)
Fixpoint success_since_auth (l : eapol_log) : bool :=
  match l with
  | [] => false
  | (Entering (BE_AUTH BE_AUTH_SUCCESS), m) :: l => eapSuccess (eap_if m) || success_since_auth l
  | (Entering (AUTH_PAE AUTH_PAE_AUTHENTICATING), _) :: _ => false
  | (Pmksa_skip, _) :: _ => true
  | _ :: l => success_since_auth l
  end.

(** The port is opened when the configuration forces it open, or for a station
    that was authenticated and whose keys are in place. *)
Definition open_ok (m : eapol_state_machine) (before : eapol_log) : Prop :=
  portControl m = ForceAuthorized ∨
  (auth_pae_state m = AUTH_PAE_AUTHENTICATED ∧ portValid m = true ∧
   success_since_auth before = true).

Definition opens_ok (l : eapol_log) : Prop :=
  ∀ l1 m l2, l = l1 ++ (Set_port_authorized true, m) :: l2 → open_ok m l2.

(** ** The invariant *)

(** What the invariant is about: the private part, the port as the driver was
    told and the evidence of the log. *)
Record summary_t := mk_summary {
  priv : private_part;
  port : option PortState;
  evidence : bool }.

Definition summary {W} (s : st W) : summary_t :=
  mk_summary (private_of (sm s)) (last_port (log s)) (success_since_auth (log s)).

Record port_inv (v : summary_t) : Prop := {
  inv_port : port v = p_status (priv v);
  inv_authorized : p_pae (priv v) = AUTH_PAE_AUTHENTICATED ∨ p_pae (priv v) = AUTH_PAE_FORCE_AUTH →
    p_status (priv v) = Some Authorized;
  inv_unauthorized :
    p_pae (priv v) = AUTH_PAE_DISCONNECTED ∨ p_pae (priv v) = AUTH_PAE_HELD ∨
    p_pae (priv v) = AUTH_PAE_FORCE_UNAUTH → p_status (priv v) = Some Unauthorized;
  inv_force_auth : p_pae (priv v) = AUTH_PAE_FORCE_AUTH → p_mode (priv v) = Some ForceAuthorized;
  inv_force_unauth : p_pae (priv v) = AUTH_PAE_FORCE_UNAUTH → p_mode (priv v) = Some ForceUnauthorized;
  inv_success : p_success (priv v) = true → evidence v = true }.

Definition inv {W} (s : st W) : Prop := port_inv (summary s) ∧ opens_ok (log s).

Lemma opens_ok_cons e m l :
  opens_ok l → (e = Set_port_authorized true → open_ok m l) → opens_ok ((e, m) :: l).
Proof.
  intros Hl He [|x l1] m' l2; cbn; intros [= ]; simplify_eq; [by apply He|by eapply Hl].
Qed.

(** ** Acts that leave the summary alone *)

Definition benign_effect (e : effect) : bool :=
  match e with
  | Set_port_authorized _ | Pmksa_skip | Entering (BE_AUTH BE_AUTH_SUCCESS)
  | Entering (AUTH_PAE AUTH_PAE_AUTHENTICATING) => false
  | _ => true
  end.

Definition same {W} (s s' : st W) : Prop :=
  summary s' = summary s ∧ (opens_ok (log s) → opens_ok (log s')).

Abbreviation benign := (frame same).

Lemma benign_log e m l : benign_effect e = true →
  last_port ((e, m) :: l) = last_port l ∧ success_since_auth ((e, m) :: l) = success_since_auth l ∧
  (opens_ok l → opens_ok ((e, m) :: l)).
Proof.
  intros He. split_and!.
  - by destruct e.
  - destruct e as [x| | | | | | | | | | | | | | | | | | |]; try done. destruct x as [y|y| | | |]; try done; by destruct y.
  - intros Hl. apply opens_ok_cons; [done|]. by intros ->.
Qed.

Lemma same_refl {W} (s : st W) : same s s.
Proof. by split. Qed.

Lemma same_transitive {W} (s1 s2 s3 : st W) : same s1 s2 → same s2 s3 → same s1 s3.
Proof. intros [H1 H2] [H3 H4]. split; [congruence|auto]. Qed.

#[export] Instance same_preorder {W} : PreOrder (@same W).
Proof. split; [intros s; apply same_refl|intros s1 s2 s3; apply same_transitive]. Qed.

Lemma same_inv {W} (s s' : st W) : same s s' → inv s → inv s'.
Proof. intros [Hs Ho] [Hi Hl]. split; [by rewrite Hs|auto]. Qed.

Section benign_acts.
Context {W : Type} `{EapolEnvOk W}.

Lemma benign_upd f : (∀ m, private_of (f m) = private_of m) → benign (upd f : act W).
Proof. intros Hf s. split; [|done]. unfold summary, upd; cbn [sm log]. by rewrite Hf. Qed.

Lemma benign_note e : benign_effect e = true → benign (note e : act W).
Proof.
  intros He s. destruct (benign_log e (sm s) (log s) He) as (H1 & H2 & H3).
  split; [|exact H3]. unfold summary, note; cbn [sm log]. by rewrite H1, H2.
Qed.

Lemma benign_call e : (∀ m, benign_effect (e m) = true) → benign (call e : act W).
Proof.
  intros He s. destruct (benign_log (e (sm s)) (sm s) (log s) (He _)) as (H1' & H2 & H3).
  split; [|exact H3]. unfold summary, call; cbn [sm log]. by rewrite H1', H2, callback_private.
Qed.

Lemma benign_bump f : benign (bump f : act W).
Proof. apply benign_upd. reflexivity. Qed.

Lemma benign_set_if f : benign (set_if f : act W).
Proof. apply benign_upd. reflexivity. Qed.

(** The entry of a state by a machine other than the first two *)
Lemma benign_entry x c f g :
  benign_effect (Entering x) = true → (∀ m, private_of (f m) = private_of m) →
  benign (SM_ENTRY_MA x c f g : act W).
Proof.
  intros Hx Hf. apply (frame_seq same); [|by apply benign_upd].
  apply (frame_when same), (frame_seq same); [by apply benign_upd|by apply benign_note].
Qed.

End benign_acts.

#[export] Hint Resolve benign_note benign_call benign_bump benign_set_if benign_entry : frame.
#[export] Hint Extern 2 (frame same (upd _)) => (apply benign_upd; reflexivity) : frame.

Section benign_procedures.
Context {W : Type} `{EapolEnvOk W}.

Lemma benign_canned b : benign (eapol_auth_tx_canned_eap b : act W).
Proof. unfold eapol_auth_tx_canned_eap. frame. Qed.

Lemma benign_tx_req : benign (eapol_auth_tx_req : act W).
Proof. unfold eapol_auth_tx_req. frame. Qed.

Lemma benign_finished b : benign (finished b : act W).
Proof. unfold finished. frame. Qed.

Lemma benign_auth_step : benign (eapol_auth_step : act W).
Proof. unfold eapol_auth_step. frame. Qed.

Lemma benign_REAUTH_TIMER : benign (sm_REAUTH_TIMER_Step : act W).
Proof. frame_machine @sm_REAUTH_TIMER_Step @sm_REAUTH_TIMER_transition. Qed.

Lemma benign_AUTH_KEY_TX : benign (sm_AUTH_KEY_TX_Step : act W).
Proof. frame_machine @sm_AUTH_KEY_TX_Step @sm_AUTH_KEY_TX_transition. Qed.

Lemma benign_KEY_RX : benign (sm_KEY_RX_Step : act W).
Proof. frame_machine @sm_KEY_RX_Step @sm_KEY_RX_transition. Qed.

Lemma benign_CTRL_DIR : benign (sm_CTRL_DIR_Step : act W).
Proof. frame_machine @sm_CTRL_DIR_Step @sm_CTRL_DIR_transition. Qed.

Lemma same_send_aaa (s : st W) : same s (send_aaa s).2.
Proof.
  unfold send_aaa. destruct (aaaEapResp _); [|reflexivity].
  set (s1 := set_if _ s). assert (same s s1) as Hs by (by apply benign_set_if).
  destruct (aaaEapRespData _); [|done]. etransitivity; [exact Hs|]. by apply benign_call.
Qed.

Lemma same_changed_event addr (s : st W) : same s (sm_changed_event addr s).
Proof. unfold sm_changed_event. destruct (eapol_sm_sta_entry_alive _ _); [|done]. by apply benign_call. Qed.

Lemma same_eap_step (s : st W) :
  let r := eap_server_sm_step (world s) (sm s) in same s (mk_st r.1.1 r.1.2 (log s)).
Proof. intros r. split; [|done]. unfold summary; cbn [sm log]. subst r. by rewrite eap_step_private. Qed.

End benign_procedures.

(** ** The states of the first two machines *)

#[export] Instance private_part_eta : Eta private_part := λ p, mk_private
  (p_pae p) (p_be p) (p_status p) (p_mode p) (p_success p).
#[export] Instance summary_eta : Eta summary_t := λ v, mk_summary (priv v) (port v) (evidence v).

(** An update of the private part *)
Definition on_priv (f : private_part → private_part) (v : summary_t) : summary_t :=
  v <| priv := f (priv v) |>.

Section states.
Context {W : Type} `{EapolEnvOk W}.
Implicit Types s : st W.

Lemma upd_summary f g s :
  (∀ m, private_of (f m) = g (private_of m)) → summary (upd f s) = on_priv g (summary s).
Proof. intros Hf. unfold summary, on_priv, upd; cbn [sm log]. by rewrite Hf. Qed.

(** A state entry: perhaps a debug message, then the assignment *)
Lemma entry_split x c f g s :
  ∃ s1, SM_ENTRY_MA x c f g s = upd f s1 ∧
    (s1 = s ∨ s1 = note (Entering x) (upd (λ m, m <| changed := true |>) s)) ∧
    (g = false → s1 = note (Entering x) (upd (λ m, m <| changed := true |>) s)).
Proof.
  unfold SM_ENTRY_MA. exists (when (λ m, negb g || negb (c m))
    (upd (λ m, m <| changed := true |>) ;;; note (Entering x)) s). split; [done|].
  unfold when, ite. split; [destruct (_ || _); auto|]. by intros ->.
Qed.

(** Entering a state of the PAE machine *)
Lemma enter_pae_summary x g s :
  x ≠ AUTH_PAE_AUTHENTICATING →
  let s' := enter_pae x g s in
  summary s' = on_priv (λ p, p <| p_pae := x |>) (summary s) ∧
  (opens_ok (log s) → opens_ok (log s')) ∧
  portControl (sm s') = portControl (sm s) ∧ portValid (sm s') = portValid (sm s) ∧
  auth_pae_state (sm s') = x.
Proof.
  intros Hx s'. subst s'. unfold enter_pae.
  destruct (entry_split (AUTH_PAE x) (in_pae x) (λ m, m <| auth_pae_state := x |>) g s)
    as (s1 & -> & Hs1 & _).
  assert (same s s1) as [Hs Ho].
  { destruct Hs1 as [->| ->]; [reflexivity|].
    assert (benign_effect (Entering (AUTH_PAE x)) = true) as He by (by destruct x).
    apply (frame_seq same (upd (λ m, m <| changed := true |>)) (note (Entering (AUTH_PAE x)))); frame. }
  assert (portControl (sm s1) = portControl (sm s) ∧ portValid (sm s1) = portValid (sm s)) as [Hc Hv]
    by (by destruct Hs1 as [->| ->]).
  split_and!; [|done|done|done|done].
  rewrite <- Hs. by apply upd_summary.
Qed.

(** A port status with the call that tells the driver *)
Lemma set_port_summary (b : bool) s :
  let s' := call (λ _, Set_port_authorized b)
    (upd (λ m, m <| authPortStatus := Some (if b then Authorized else Unauthorized) |>) s) in
  summary s' = (on_priv (λ p, p <| p_status := Some (if b then Authorized else Unauthorized) |>)
                 (summary s)) <| port := Some (if b then Authorized else Unauthorized) |> ∧
  (opens_ok (log s) → (b = true → open_ok (sm s) (log s)) → opens_ok (log s')).
Proof.
  intros s'. split.
  - unfold s', summary, on_priv, call, upd. cbn [sm log]. by rewrite callback_private.
  - intros Ho Hb. subst s'. unfold call, upd; cbn [log sm]. apply opens_ok_cons; [done|].
    intros [= ->]. apply (Hb eq_refl).
Qed.

(** The PAE states that do not touch the port *)
Lemma pae_quiet_entry x g s (a b : act W) :
  x ≠ AUTH_PAE_AUTHENTICATING → benign a → benign b →
  let s' := (a ;;; enter_pae x g ;;; b) s in
  summary s' = on_priv (λ p, p <| p_pae := x |>) (summary s) ∧ (opens_ok (log s) → opens_ok (log s')).
Proof.
  intros Hx Ha Hb s'. destruct (Ha s) as [Ha1 Ha2].
  destruct (enter_pae_summary x g (a s) Hx) as (He1 & He2 & _).
  destruct (Hb (enter_pae x g (a s))) as [Hb1 Hb2].
  split; [|by auto]. subst s'. unfold seq. by rewrite Hb1, He1, Ha1.
Qed.

(** The PAE states that close the port ([b = false]) or open it *)
Lemma pae_port_entry x (p g : bool) s (a c : act W) :
  x ≠ AUTH_PAE_AUTHENTICATING → benign a → benign c →
  let q := if p then Authorized else Unauthorized in
  let s' := (a ;;; enter_pae x g ;;; upd (λ m, m <| authPortStatus := Some q |>) ;;;
             call (λ _, Set_port_authorized p) ;;; c) s in
  let s1 := enter_pae x g (a s) in
  summary s' = (on_priv (λ p, p <| p_pae := x |> <| p_status := Some q |>) (summary s))
                 <| port := Some q |> ∧
  (opens_ok (log s) → (p = true → open_ok (sm s1) (log s1)) → opens_ok (log s')).
Proof.
  intros Hx Ha Hc q s' s1. destruct (Ha s) as [Ha1 Ha2].
  destruct (enter_pae_summary x g (a s) Hx) as (He1 & He2 & _). fold s1 in He1, He2.
  destruct (set_port_summary p s1) as [Hp1 Hp2]. cbv zeta in Hp1, Hp2. fold q in Hp1, Hp2.
  set (s2 := call (λ _, Set_port_authorized p) (upd (λ m, m <| authPortStatus := Some q |>) s1)) in *.
  destruct (Hc s2) as [Hc1 Hc2].
  change s' with (c s2). split; [|by auto]. by rewrite Hc1, Hp1, He1, Ha1.
Qed.

End states.

(** The cases of the invariant: contradictory states, or a conjunct of the old one *)
Ltac port_cases := cbn in *; intuition (try congruence; eauto).

(** The states entered without touching the port, and those that close it *)
Definition quiet_state (x : auth_pae) : bool :=
  match x with
  | AUTH_PAE_INITIALIZE | AUTH_PAE_RESTART | AUTH_PAE_CONNECTING | AUTH_PAE_ABORTING => true
  | _ => false
  end.
Definition closed_state (x : auth_pae) : bool :=
  match x with AUTH_PAE_DISCONNECTED | AUTH_PAE_HELD => true | _ => false end.

Lemma port_inv_quiet x v :
  quiet_state x = true → port_inv v → port_inv (on_priv (λ p, p <| p_pae := x |>) v).
Proof. intros Hx [H1 H2 H3 H4 H5 H6]. by destruct x; constructor; port_cases. Qed.

Lemma port_inv_port x (b : bool) v :
  (if b then x = AUTH_PAE_AUTHENTICATED else closed_state x = true) →
  port_inv v →
  port_inv ((on_priv (λ p, p <| p_pae := x |> <| p_status := Some (if b then Authorized else Unauthorized) |>) v)
              <| port := Some (if b then Authorized else Unauthorized) |>).
Proof. intros Hx [H1 H2 H3 H4 H5 H6]. by destruct b, x; constructor; port_cases. Qed.

Lemma port_inv_force (b : bool) v :
  port_inv v →
  port_inv ((on_priv (λ p, p
    <| p_pae := if b then AUTH_PAE_FORCE_AUTH else AUTH_PAE_FORCE_UNAUTH |>
    <| p_status := Some (if b then Authorized else Unauthorized) |>
    <| p_mode := Some (if b then ForceAuthorized else ForceUnauthorized) |>) v)
    <| port := Some (if b then Authorized else Unauthorized) |>).
Proof. intros [H1 H2 H3 H4 H5 H6]. destruct b; constructor; port_cases. Qed.

(** A property that the first round establishes and that everything else
    [eapol_sm_step_run] does keeps is true after it. *)
Lemma step_run_from_ind {W} `{EapolEnv W} (P : st W → Prop) addr n s :
  (∀ s, P s → P (step_round addr s)) →
  (∀ s, P s → let r := eap_server_sm_step (world s) (sm s) in P (mk_st r.1.1 r.1.2 (log s))) →
  (∀ s, P s → P (send_aaa s).2) →
  (∀ s, P s → P (sm_changed_event addr s)) →
  (∀ s, P s → P (eapol_auth_step s)) →
  P (step_round addr s) → P (step_run_from addr (S n) s).
Proof.
  intros Hround Heap Haaa Hev Hstep.
  assert (∀ again s, (∀ s, P s → P (again s)) → P (step_round addr s) → P (run_once addr again s)) as Hrun.
  { intros again s' Hr H1. unfold run_once. set (s1 := step_round addr s') in *. clearbody s1.
    destruct (decide _); [|by apply Hr]. destruct (_ && _); [|by apply Hev].
    pose proof (Heap s1 H1) as H2. cbv zeta in H2 |- *. set (s2 := mk_st _ _ _) in *.
    destruct (eap_server_sm_step (world s1) (sm s1)).2; [by apply Hr|].
    pose proof (Haaa s2 H2) as H3. destruct (send_aaa s2).1; [done|]. by apply Hev. }
  revert s. induction n as [|n IH]; intros s H1; (apply Hrun; [|done]); intros s' Hs'.
  - by apply Hstep.
  - rewrite decide_True by lia. by apply IH, Hround.
Qed.

Section pae.
Context {W : Type} `{EapolEnvOk W}.
Implicit Types s : st W.

(** Every entry of the PAE machine keeps the invariant; the port is opened only
    under the conditions of [open_ok]. *)
Lemma INITIALIZE_inv g s : inv s → inv (sm_AUTH_PAE_INITIALIZE_Enter g s).
Proof.
  intros [Hi Ho].
  destruct (enter_pae_summary AUTH_PAE_INITIALIZE g s ltac:(done)) as (Hs & Hl & _).
  split; [|by apply Hl]. unfold sm_AUTH_PAE_INITIALIZE_Enter, seq.
  rewrite (upd_summary _ (λ p, p <| p_mode := Some Auto |>)) by reflexivity. rewrite Hs.
  destruct (port_inv_quiet AUTH_PAE_INITIALIZE (summary s) eq_refl Hi) as [H1' H2 H3 H4 H5 H6].
  constructor; port_cases.
Qed.

Lemma pae_quiet_inv x g s (a b : act W) :
  quiet_state x = true →
  benign a → benign b → inv s → inv ((a ;;; enter_pae x g ;;; b) s).
Proof.
  intros Hx Ha Hb [Hi Ho]. assert (x ≠ AUTH_PAE_AUTHENTICATING) as Hne by (by destruct x).
  destruct (pae_quiet_entry x g s a b Hne Ha Hb) as [Hs Hl].
  split; [|by auto]. rewrite Hs. by apply port_inv_quiet.
Qed.

Lemma RESTART_inv g s : inv s → inv (sm_AUTH_PAE_RESTART_Enter g s).
Proof. apply pae_quiet_inv; [done|frame..]. Qed.

Lemma CONNECTING_inv g s : inv s → inv (sm_AUTH_PAE_CONNECTING_Enter g s).
Proof. apply pae_quiet_inv; [done|frame..]. Qed.

Lemma ABORTING_inv g s : inv s → inv (sm_AUTH_PAE_ABORTING_Enter g s).
Proof. apply pae_quiet_inv; [done|frame..]. Qed.

Lemma AUTHENTICATING_inv s : inv s → inv (sm_AUTH_PAE_AUTHENTICATING_Enter false s).
Proof.
  intros [[H1 H2 H3 H4 H5 H6] Ho].
  unfold sm_AUTH_PAE_AUTHENTICATING_Enter, enter_pae, seq at 1.
  destruct (entry_split (AUTH_PAE AUTH_PAE_AUTHENTICATING) (in_pae AUTH_PAE_AUTHENTICATING)
    (λ m, m <| auth_pae_state := AUTH_PAE_AUTHENTICATING |>) false s) as (s1 & -> & _ & Hs1).
  specialize (Hs1 eq_refl). split.
  - rewrite (upd_summary _ (λ p, p <| p_success := false |>)) by reflexivity.
    rewrite (upd_summary _ (λ p, p <| p_pae := AUTH_PAE_AUTHENTICATING |>)) by reflexivity.
    subst s1. constructor; port_cases.
  - subst s1. unfold upd, note; cbn [log sm]. by apply opens_ok_cons.
Qed.

Lemma port_inv_closed x g s (a c : act W) :
  closed_state x = true → benign a → benign c → inv s →
  inv ((a ;;; enter_pae x g ;;; upd (λ m, m <| authPortStatus := Some Unauthorized |>) ;;;
        setPortUnauthorized ;;; c) s).
Proof.
  intros Hx Ha Hc [Hi Ho]. assert (x ≠ AUTH_PAE_AUTHENTICATING) as Hne by (by destruct x).
  destruct (pae_port_entry x false g s a c Hne Ha Hc) as [Hs Hl].
  split; [|by apply Hl]. unfold setPortUnauthorized. rewrite Hs. by apply (port_inv_port x false).
Qed.

Lemma HELD_inv g s : inv s → inv (sm_AUTH_PAE_HELD_Enter g s).
Proof. apply port_inv_closed; [done|frame|]. pose proof (benign_finished (W := W) false). frame. Qed.

Lemma DISCONNECTED_inv g s : inv s → inv (sm_AUTH_PAE_DISCONNECTED_Enter g s).
Proof. apply port_inv_closed; [done|frame|]. pose proof (benign_finished (W := W) false). frame. Qed.

Lemma AUTHENTICATED_inv s :
  inv s → authSuccess (sm s) = true → portValid (sm s) = true →
  inv (sm_AUTH_PAE_AUTHENTICATED_Enter false s).
Proof.
  intros [Hi Ho] Hsu Hv. unfold sm_AUTH_PAE_AUTHENTICATED_Enter.
  set (a := when _ (bump _)). set (c := upd (λ m, m <| reAuthCount := 0 |>) ;;; finished true).
  assert (benign a) as Ha by (subst a; frame).
  assert (benign c) as Hc by (subst c; pose proof (benign_finished (W := W) true); frame).
  destruct (pae_port_entry AUTH_PAE_AUTHENTICATED true false s a c ltac:(done) Ha Hc) as [Hs Hl].
  split; [unfold setPortAuthorized; rewrite Hs; by apply (port_inv_port _ true)|].
  apply Hl; [done|]. intros _. right. destruct (Ha s) as [Ha1 _].
  destruct (enter_pae_summary AUTH_PAE_AUTHENTICATED false (a s) ltac:(done)) as (He & _ & _ & He1 & He2).
  split_and!; [done| |].
  - rewrite He1. subst a. unfold when, ite. by destruct (_ && _).
  - change (evidence (summary (enter_pae AUTH_PAE_AUTHENTICATED false (a s))) = true).
    rewrite He, Ha1. by apply (inv_success _ Hi).
Qed.

Lemma FORCE_inv (b : bool) g s :
  inv s → (b = true → portControl (sm s) = ForceAuthorized) →
  inv ((if b then sm_AUTH_PAE_FORCE_AUTH_Enter else sm_AUTH_PAE_FORCE_UNAUTH_Enter) g s).
Proof.
  intros [Hi Ho] Hb. set (x := if b then AUTH_PAE_FORCE_AUTH else AUTH_PAE_FORCE_UNAUTH).
  assert (x ≠ AUTH_PAE_AUTHENTICATING) as Hx by (by destruct b).
  destruct (pae_port_entry x b g s skip skip Hx (frame_skip same) (frame_skip same)) as [Hs Hl].
  set (s1 := (skip ;;; _) s) in Hs, Hl.
  set (s2 := upd (λ m, m <| portMode := Some (if b then ForceAuthorized else ForceUnauthorized) |>
                         <| eapolStart := false |>) s1).
  assert (same s2 ((if b then sm_AUTH_PAE_FORCE_AUTH_Enter else sm_AUTH_PAE_FORCE_UNAUTH_Enter) g s)) as Hsame.
  { subst s1 s2 x. destruct b; apply benign_canned. }
  apply (same_inv _ _ Hsame). split.
  - subst s2. rewrite (upd_summary _ (λ p, p <| p_mode := Some (if b then ForceAuthorized else ForceUnauthorized) |>))
      by reflexivity. rewrite Hs. by apply (port_inv_force b).
  - apply Hl; [done|]. intros ->. left.
    destruct (enter_pae_summary x g s Hx) as (_ & _ & He & _).
    etransitivity; [exact He|by apply Hb].
Qed.

(** One step of the PAE machine *)
Lemma AUTH_PAE_Step_inv s : inv s → inv (sm_AUTH_PAE_Step s).
Proof.
  intros Hs. unfold sm_AUTH_PAE_Step, ite. destruct (_ || negb _) eqn:Hg; [by apply INITIALIZE_inv|].
  rewrite !orb_false_iff, negb_false_iff in Hg. destruct Hg as [[Hauto Hini] Hen].
  assert (port_off (sm s) = false) as Hoff by (unfold port_off; by rewrite Hini, Hen).
  rewrite Hoff. cbn [negb]. rewrite !andb_true_r. unfold mode_wanted in *.
  destruct (bool_decide (portControl (sm s) = ForceAuthorized) && _) eqn:Hfa.
  { apply (FORCE_inv true); [done|]. intros _. by apply andb_true_iff in Hfa as [Hfa%bool_decide_eq_true _]. }
  destruct (bool_decide (portControl (sm s) = ForceUnauthorized) && _) eqn:Hfu; [by apply (FORCE_inv false)|].
  pose proof Hs as [Hi _].
  unfold switch. destruct (auth_pae_state (sm s)) eqn:Hx; cbn [sm_AUTH_PAE_transition];
    unfold when, ite, skip;
    repeat match goal with |- context [if ?b then _ else _] => destruct b eqn:? end;
    eauto using DISCONNECTED_inv, RESTART_inv, CONNECTING_inv, AUTHENTICATING_inv, HELD_inv, ABORTING_inv.
  - apply andb_true_iff in Heqb as [? ?]. by apply AUTHENTICATED_inv.
  - apply (FORCE_inv true); [done|]. intros _.
    pose proof (inv_force_auth _ Hi Hx) as Hm. cbn in Hm. rewrite Hm in *.
    destruct (portControl (sm s)); [|done|]; by cbn in *.
  - by apply (FORCE_inv false).
Qed.

End pae.

Section backend.
Context {W : Type} `{EapolEnvOk W}.
Implicit Types s : st W.

Definition at_be (x : be_auth) : private_part → private_part := λ p, p <| p_be := x |>.

Lemma port_inv_be x v : port_inv v → port_inv (on_priv (at_be x) v).
Proof. by intros [H1 H2 H3 H4 H5 H6]. Qed.

(** Entering a state of the backend machine *)
Lemma enter_be_inv x g s (a : act W) :
  (x = BE_AUTH_SUCCESS → eapSuccess (eap_if (sm s)) = true) → benign a → inv s →
  inv ((enter_be x g ;;; a) s) ∧
  (g = false → x = BE_AUTH_SUCCESS → evidence (summary ((enter_be x g ;;; a) s)) = true).
Proof.
  intros Hx Ha [Hi Ho]. unfold enter_be, seq.
  destruct (entry_split (BE_AUTH x) (λ m, bool_decide (be_auth_state m = x))
    (λ m, m <| be_auth_state := x |>) g s) as (s1 & -> & Hs1 & Hg).
  set (s2 := upd _ s1). destruct (Ha s2) as [Ha1 Ha2].
  assert (summary s2 = on_priv (at_be x) (summary s1)) as Hs2 by (by apply upd_summary).
  rewrite Ha1, Hs2. split.
  - apply (same_inv s2); [apply Ha|]. split.
    + rewrite Hs2. apply port_inv_be. destruct Hs1 as [->| ->]; [done|].
      destruct Hi as [H1' H2 H3 H4 H5 H6]. constructor; try done. intros Hsu. cbn in *.
      destruct x; auto. by rewrite Hx.
    + destruct Hs1 as [->| ->]; [done|]. by apply opens_ok_cons.
  - intros Hgf Hxs. rewrite (Hg Hgf). subst x. cbn. by rewrite Hx.
Qed.

Lemma SUCCESS_inv s :
  eapSuccess (eap_if (sm s)) = true → inv s → inv (sm_BE_AUTH_SUCCESS_Enter false s).
Proof.
  intros Hx Hs. destruct (enter_be_inv BE_AUTH_SUCCESS false s eapol_auth_tx_req (λ _, Hx) benign_tx_req Hs)
    as [[Hi Ho] He]. specialize (He eq_refl eq_refl).
  unfold sm_BE_AUTH_SUCCESS_Enter. set (s1 := (enter_be _ _ ;;; _) s) in *.
  change (inv (upd (λ m, m <| authSuccess := true |> <| keyRun := true |>) s1)).
  split; [|done]. rewrite (upd_summary _ (λ p, p <| p_success := true |>)) by reflexivity.
  destruct Hi as [H1' H2 H3 H4 H5 H6]. by constructor.
Qed.

(** The other entries: the state and benign acts *)
Lemma be_quiet_inv x g s (a : act W) :
  x ≠ BE_AUTH_SUCCESS → benign a → inv s → inv ((enter_be x g ;;; a) s).
Proof. intros Hx Ha Hs. by apply enter_be_inv. Qed.

Lemma BE_INITIALIZE_inv g s : inv s → inv (sm_BE_AUTH_INITIALIZE_Enter g s).
Proof. apply be_quiet_inv; [done|frame]. Qed.

Lemma BE_REQUEST_inv g s : inv s → inv (sm_BE_AUTH_REQUEST_Enter g s).
Proof. pose proof (benign_tx_req (W := W)). apply be_quiet_inv; [done|frame]. Qed.

Lemma BE_RESPONSE_inv g s : inv s → inv (sm_BE_AUTH_RESPONSE_Enter g s).
Proof. apply be_quiet_inv; [done|frame]. Qed.

Lemma BE_FAIL_inv g s : inv s → inv (sm_BE_AUTH_FAIL_Enter g s).
Proof. pose proof (benign_tx_req (W := W)). apply be_quiet_inv; [done|frame]. Qed.

Lemma BE_TIMEOUT_inv g s : inv s → inv (sm_BE_AUTH_TIMEOUT_Enter g s).
Proof. apply be_quiet_inv; [done|frame]. Qed.

Lemma BE_IDLE_inv g s : inv s → inv (sm_BE_AUTH_IDLE_Enter g s).
Proof. apply be_quiet_inv; [done|frame]. Qed.

Lemma BE_IGNORE_inv g s : inv s → inv (sm_BE_AUTH_IGNORE_Enter g s).
Proof. apply be_quiet_inv; [done|frame]. Qed.

Lemma bump_inv f s : inv s → inv (bump f s).
Proof. apply same_inv, benign_bump. Qed.

Lemma ite_inv c (a b : act W) s :
  (c (sm s) = true → inv (a s)) → (c (sm s) = false → inv (b s)) → inv (ite c a b s).
Proof. unfold ite. destruct (c (sm s)); auto. Qed.

Lemma when_inv c (a : act W) s : inv s → (c (sm s) = true → inv (a s)) → inv (when c a s).
Proof. intros Hs Ha. by apply ite_inv. Qed.

Lemma REQUEST_transition_inv s : inv s → inv (be_request_transition s).
Proof.
  intros Hs. apply ite_inv; intros _; [by apply BE_RESPONSE_inv|].
  apply ite_inv; intros _; [by apply BE_REQUEST_inv|].
  apply when_inv; [done|]. intros _. by apply BE_TIMEOUT_inv.
Qed.

Lemma RESPONSE_transition_inv s : inv s → inv (sm_BE_AUTH_transition BE_AUTH_RESPONSE s).
Proof.
  intros Hs. cbn [sm_BE_AUTH_transition]. unfold seq at 1. set (s1 := when _ _ s).
  assert (inv s1) as Hs1 by (apply when_inv; [done|intros _; by apply BE_IGNORE_inv]).
  clearbody s1. apply ite_inv; intros _; [by apply BE_REQUEST_inv, bump_inv|].
  apply ite_inv; intros _; [by apply BE_TIMEOUT_inv|].
  apply ite_inv; intros _; [by apply BE_FAIL_inv, bump_inv|].
  apply when_inv; [done|]. intros Hx. by apply SUCCESS_inv; [|apply bump_inv].
Qed.

Lemma IDLE_transition_inv s : inv s → inv (sm_BE_AUTH_transition BE_AUTH_IDLE s).
Proof.
  intros Hs. apply ite_inv; intros _; [by apply BE_FAIL_inv|].
  apply ite_inv; intros _; [by apply BE_REQUEST_inv|].
  apply when_inv; [done|]. intros [Hx _]%andb_true_iff. by apply SUCCESS_inv.
Qed.

Lemma BE_AUTH_Step_inv s : inv s → inv (sm_BE_AUTH_Step s).
Proof.
  intros Hs. apply ite_inv; intros _; [by apply BE_INITIALIZE_inv|]. unfold switch.
  destruct (be_auth_state (sm s)).
  - by apply REQUEST_transition_inv.
  - by apply RESPONSE_transition_inv.
  - by apply BE_IDLE_inv.
  - by apply BE_IDLE_inv.
  - by apply BE_IDLE_inv.
  - by apply IDLE_transition_inv.
  - by apply BE_IDLE_inv.
  - by apply REQUEST_transition_inv.
Qed.

Lemma if_alive_inv addr (a : act W) s : (inv s → inv (a s)) → inv s → inv (if_alive addr a s).
Proof. unfold if_alive. destruct (_ || _); auto. Qed.

Lemma benign_inv (a : act W) s : benign a → inv s → inv (a s).
Proof. intros Ha. apply same_inv, Ha. Qed.

Lemma step_round_inv addr s : inv s → inv (step_round addr s).
Proof.
  intros Hs. unfold step_round, seq.
  apply (benign_inv _ _ (frame_if_alive same _ _ benign_CTRL_DIR)).
  apply (benign_inv _ _ (frame_if_alive same _ _ benign_KEY_RX)).
  apply (benign_inv _ _ (frame_if_alive same _ _ benign_AUTH_KEY_TX)).
  apply (benign_inv _ _ (frame_if_alive same _ _ benign_REAUTH_TIMER)).
  apply if_alive_inv; [apply BE_AUTH_Step_inv|]. by apply AUTH_PAE_Step_inv.
Qed.

Lemma step_run_inv s : inv s → inv (eapol_sm_step_run s).
Proof.
  intros Hs. apply (step_run_from_ind inv (sm_addr (sm s)) 99).
  - intros s'. apply step_round_inv.
  - intros s'. apply same_inv, same_eap_step.
  - intros s'. apply same_inv, same_send_aaa.
  - intros s'. apply same_inv, same_changed_event.
  - intros s'. apply benign_inv, benign_auth_step.
  - by apply step_round_inv.
Qed.

Lemma tick_inv s : inv s → inv (eapol_port_timers_tick s).
Proof.
  intros Hs. unfold eapol_port_timers_tick, seq.
  apply benign_inv; [frame|]. apply step_run_inv.
  apply benign_inv; [frame|]. by apply benign_inv; [frame|].
Qed.

Lemma initialize_inv s : inv s → inv (eapol_auth_initialize s).
Proof.
  intros Hs. unfold eapol_auth_initialize, seq.
  apply benign_inv; [frame|]. apply benign_inv; [frame|]. apply benign_inv; [frame|].
  apply step_run_inv. apply benign_inv; [frame|]. apply step_run_inv. by apply benign_inv; [frame|].
Qed.

(** A new state machine satisfies the invariant, and so does what
    [eapol_auth_alloc] returns. *)
Lemma new_sm_inv (w : W) eapol addr flags : inv (mk_st w (new_eapol_sm eapol addr flags) []).
Proof. split; [|by intros [|? l1] m l2 Hl]. constructor; port_cases. Qed.

Lemma alloc_inv sm_ok eap_ok random_ok eapol addr flags (w : W) s w' :
  eapol_auth_alloc sm_ok eap_ok random_ok eapol addr flags w [] = (w', Some s) → inv s.
Proof.
  unfold eapol_auth_alloc. destruct eapol as [eapol|]; [|done].
  destruct (negb sm_ok); [done|]. destruct (negb eap_ok); [done|].
  pose proof (initialize_inv _ (new_sm_inv w eapol addr flags)) as Hi.
  set (s0 := eapol_auth_initialize _) in *. clearbody s0.
  destruct (negb random_ok); [done|]. by intros [= _ <-].
Qed.

End backend.

(** ** Concrete instances *)

(** An environment whose callbacks and EAP server do nothing *)
#[export] Instance idle_env : EapolEnv unit := {|
  callback _ w m := (w, m);
  sta_entry_alive _ _ := true;
  eap_server_sm_step w m := (w, m, false) |}.

Definition eapol_example : eapol_authenticator := mk_eapol_auth 3600 false 0 None.

(** With a reauthentication period of zero, which [eapol_auth_set_conf] accepts,
    the timer machine of an authorized port never rests: the machines run the
    allowed number of rounds and ask to be run again at once. *)
Definition authorized_example : st unit :=
  mk_st tt ((new_eapol_sm eapol_example [2; 0; 0; 0; 0; 1] 0)
    <| auth_pae_state := AUTH_PAE_AUTHENTICATED |> <| portMode := Some Auto |>
    <| authPortStatus := Some Authorized |> <| be_auth_state := BE_AUTH_IDLE |>
    <| reAuthWhen := 10 |> <| eap_if := zero_eap_if <| portEnabled := true |> |>) [].

Example reauth_period_zero_spins :
  match eapol_auth_set_conf (lit "reAuthPeriod") (lit "0") authorized_example with
  | Ok (ret, s) =>
    let s10 := Nat.iter 10 eapol_port_timers_tick s in
    let again := eapol_sm_step_cb s10 in
    ret = 0 ∧ option_map fst (log s10 !! 0%nat) = Some Register_tick ∧
    option_map fst (log s10 !! 1%nat) = Some Register_step ∧
    option_map fst (log again !! 0%nat) = Some Register_step
  | _ => False
  end.
Proof. vm_compute. auto. Qed.
