(* ===== verification/Ieee8021x.v ===== *)
(** * IEEE 802.1X frames and stations

    The part of [src/ap/ieee802_1x.c] around the authenticator: the EAPOL frames
    received from a station, the start of the authentication of a station that
    has associated, and the notifications of the WPA authenticator
    ([hostapd_wpa_auth_set_eapol] of [src/ap/wpa_auth_glue.c]).

    The state is one station with its state machine, the world behind the
    callbacks and the log of the machine. *)

From Stdlib Require Import ZArith Lia.
From stdpp Require Import base option list numbers decidable relations.
From S2P Require Import Prelude CLib Common EapolAuth.
Local Open Scope Z_scope.

(** ** Data *)

Definition WLAN_STA_AUTH : Z := 0x1.
Definition WLAN_STA_ASSOC : Z := 0x2.
Definition WLAN_STA_PREAUTH : Z := 0x100.
Definition WLAN_STA_WPS : Z := 0x1000.
Definition WLAN_STA_MAYBE_WPS : Z := 0x2000.

Definition IEEE802_1X_TYPE_EAPOL_START : Z := 1.
Definition IEEE802_1X_TYPE_EAPOL_LOGOFF : Z := 2.
Definition IEEE802_1X_TYPE_EAPOL_KEY : Z := 3.
Definition IEEE802_1X_TYPE_EAPOL_ENCAPSULATED_ASF_ALERT : Z := 4.
Definition EAPOL_KEY_TYPE_RSN : Z := 2.
Definition EAPOL_KEY_TYPE_WPA : Z := 254.
Definition EAP_CODE_RESPONSE : Z := 2.
Definition EAP_CODE_INITIATE : Z := 5.
Definition sizeof_ieee802_1x_hdr : nat := 4.
Definition sizeof_ieee802_1x_eapol_key : nat := 44.

(** The configuration the handlers read *)
Record conf_1x := mk_conf_1x {
  ieee802_1x : bool;
  wpa : bool;
  osen : bool;
  wps_state : bool;
  driver_wired : bool;                 (** [drv_flags & WPA_DRIVER_FLAGS_WIRED] *)
  eapol_auth : option eapol_authenticator }.

(** [struct sta_info]: the fields the handlers read or write. [key_mgmt_psk]
    is [wpa_auth_sta_key_mgmt(sta->wpa_sm)] being a PSK suite, [pmksa] is
    [wpa_auth_sta_get_pmksa(sta->wpa_sm) != NULL]. *)
Record sta_1x := mk_sta_1x {
  sta_addr : bytes;
  sta_flags : Z;
  eapol_sm : option eapol_state_machine;
  wpa_sm : bool;
  key_mgmt_psk : bool;
  pmksa : bool;
  pending_eapol_rx : option bytes }.

#[export] Instance sta_1x_eta : Eta sta_1x := λ s, mk_sta_1x
  (sta_addr s) (sta_flags s) (eapol_sm s) (wpa_sm s) (key_mgmt_psk s) (pmksa s) (pending_eapol_rx s).

Definition flag (flags f : Z) : bool := negb (Z.eqb (Z.land flags f) 0).

(** Whether allocations and random numbers are available *)
Record resources := mk_resources {
  sm_memory : bool;
  eap_memory : bool;
  random_id : bool;
  frame_memory : bool }.

Section stations.
Context {W : Type} `{EapolEnv W}.
Infix ";;;" := seq (at level 60, right associativity).

Record station := mk_station { s_world : W; s_sta : sta_1x; s_log : eapol_log }.

Definition set_sta (f : sta_1x → sta_1x) (x : station) : station :=
  mk_station (s_world x) (f (s_sta x)) (s_log x).

(** An act of the station's state machine *)
Definition with_sm (a : act W) (x : station) : station :=
  match eapol_sm (s_sta x) with
  | None => x
  | Some m =>
    let s := a (mk_st (s_world x) m (s_log x)) in
    mk_station (world s) ((s_sta x) <| eapol_sm := Some (sm s) |>) (log s)
  end.

(** ** EAP packets *)

Definition eap_data (data : option bytes) : act W :=
  set_if (λ i, i <| eapRespData := data |>) ;;; upd (λ m, m <| eapolEap := true |>).

(** [handle_eap_response], [eap] being the packet of [len] octets; [copy] tells
    whether [wpabuf_alloc_copy] succeeds *)
Definition handle_eap_response (copy : bool) (eap : bytes) : outcome (act W) :=
  if decide (length eap < sizeof_eap_hdr + 1)%nat then Ok skip
  else
    type ← rd eap sizeof_eap_hdr;
    Ok (upd (λ m, m <| eap_type_supp := type |>) ;;;
        bump (λ c, c <| dot1xAuthEapolRespFramesRx := incr (dot1xAuthEapolRespFramesRx c) |>) ;;;
        eap_data (if copy then Some eap else None)).

Definition handle_eap_initiate (copy : bool) (eap : bytes) : outcome (act W) :=
  if decide (length eap < sizeof_eap_hdr + 1)%nat then Ok skip
  else
    _ ← rd eap sizeof_eap_hdr;
    Ok (eap_data (if copy then Some eap else None)).

Definition handle_eap (copy : bool) (buf : bytes) : outcome (act W) :=
  if decide (length buf < sizeof_eap_hdr)%nat then Ok skip
  else
    code ← rd buf 0;
    l ← slice buf 2 2;
    eap_len ← WPA_GET_BE16 l;
    if decide (eap_len < Z.of_nat sizeof_eap_hdr) then Ok skip
    else if decide (zlen buf < eap_len) then Ok skip
    else
      eap ← slice buf 0 (Z.to_nat eap_len);
      if decide (code = EAP_CODE_RESPONSE) then handle_eap_response copy eap
      else if decide (code = EAP_CODE_INITIATE) then handle_eap_initiate copy eap
      else Ok skip.

(** ** Frames received *)

(** [ieee802_1x_alloc_eapol_sm]: the station's state machine, if it can be
    created; its log starts here. *)
Definition ieee802_1x_alloc_eapol_sm (c : conf_1x) (r : resources) (x : station) : station :=
  let flags := Z.lor (if flag (sta_flags (s_sta x)) WLAN_STA_PREAUTH then EAPOL_SM_PREAUTH else 0)
    (if wpa_sm (s_sta x) then
       Z.lor EAPOL_SM_USES_WPA (if pmksa (s_sta x) then EAPOL_SM_FROM_PMKSA_CACHE else 0)
     else 0) in
  match eapol_auth_alloc (sm_memory r) (eap_memory r) (random_id r) (eapol_auth c)
          (sta_addr (s_sta x)) flags (s_world x) [] with
  | (w, Some s) => mk_station (world s) ((s_sta x) <| eapol_sm := Some (sm s) |>) (log s)
  | (w, None) => mk_station w (s_sta x) (s_log x)
  end.

Definition ieee802_1x_save_eapol (r : resources) (buf : bytes) (x : station) : station :=
  set_sta (λ s, s <| pending_eapol_rx := if frame_memory r then Some buf else None |>) x.

Definition count (f : eapol_counters → eapol_counters) : station → station := with_sm (bump f).

(** [sta->eapol_sm->eap_if->portEnabled = TRUE] *)
Definition port_enabled : act W := set_if (λ i, i <| portEnabled := true |>).

(** The case IEEE802_1X_TYPE_EAPOL_START *)
Definition rx_start (x : station) : station :=
  let x := with_sm (upd (λ m, m <| EapolAuth.sm_flags :=
                                 Z.land (EapolAuth.sm_flags m) (Z.lnot EAPOL_SM_WAIT_START) |>)) x in
  let x := if pmksa (s_sta x)
           then set_sta (λ s, s <| pmksa := false |>) (with_sm (call (λ _, Clear_pmksa)) x)
           else x in
  with_sm
    (upd (λ m, m <| eapolStart := true |>) ;;;
     bump (λ c, c <| dot1xAuthEapolStartFramesRx := incr (dot1xAuthEapolStartFramesRx c) |>) ;;;
     call (λ _, Clear_identity) ;;;
     call (λ _, Wpa_reauth_event)) x.

(** The case IEEE802_1X_TYPE_EAPOL_LOGOFF *)
Definition rx_logoff : act W :=
  call (λ _, Accounting_sta_stop) ;;;
  upd (λ m, m <| eapolLogoff := true |>) ;;;
  bump (λ c, c <| dot1xAuthEapolLogoffFramesRx := incr (dot1xAuthEapolLogoffFramesRx c) |>) ;;;
  call (λ _, Clear_identity).

(** The [switch] over the type of the frame, with its body *)
Definition rx_body (r : resources) (type : Z) (body : bytes) (x : station) : outcome station :=
  if decide (type = IEEE802_1X_TYPE_EAP_PACKET) then
    a ← handle_eap (frame_memory r) body; Ok (with_sm a x)
  else if decide (type = IEEE802_1X_TYPE_EAPOL_START) then Ok (rx_start x)
  else if decide (type = IEEE802_1X_TYPE_EAPOL_LOGOFF) then Ok (with_sm rx_logoff x)
  else if decide (type = IEEE802_1X_TYPE_EAPOL_KEY) then Ok x
  else if decide (type = IEEE802_1X_TYPE_EAPOL_ENCAPSULATED_ASF_ALERT) then Ok x
  else Ok (count (λ c, c <| dot1xAuthInvalidEapolFramesRx :=
                              incr (dot1xAuthInvalidEapolFramesRx c) |>) x).

(** The type of the key descriptor, when the body is long enough for one *)
Definition is_wpa_key (type : Z) (body : bytes) : outcome bool :=
  if decide (length body < sizeof_ieee802_1x_eapol_key)%nat then Ok false
  else if decide (type ≠ IEEE802_1X_TYPE_EAPOL_KEY) then Ok false
  else
    t ← rd body 0;
    Ok (bool_decide (t = EAPOL_KEY_TYPE_WPA) || bool_decide (t = EAPOL_KEY_TYPE_RSN)).

(** A frame for the 802.1X authenticator *)
Definition rx_1x (c : conf_1x) (r : resources) (type : Z) (body : bytes) (x : station) :
    outcome station :=
  if negb (ieee802_1x c) && negb (osen c) &&
     negb (flag (sta_flags (s_sta x)) (Z.lor WLAN_STA_WPS WLAN_STA_MAYBE_WPS)) then Ok x
  else if key_mgmt_psk (s_sta x) then Ok x
  else
    let x := match eapol_sm (s_sta x) with
             | Some _ => x
             | None => with_sm port_enabled (ieee802_1x_alloc_eapol_sm c r x)
             end in
    match eapol_sm (s_sta x) with
    | None => Ok x
    | Some _ => x ← rx_body r type body x; Ok (with_sm eapol_auth_step x)
    end.

(** [ieee802_1x_receive] of a frame from a known station; the first component
    is the frame handed to [wpa_receive], if any *)
Definition ieee802_1x_receive (c : conf_1x) (r : resources) (buf : bytes) (x : station) :
    outcome (option bytes * station) :=
  if negb (ieee802_1x c) && negb (wpa c) && negb (osen c) && negb (wps_state c) then Ok (None, x)
  else if negb (flag (sta_flags (s_sta x)) (Z.lor WLAN_STA_ASSOC WLAN_STA_PREAUTH)) &&
          negb (driver_wired c) then
    Ok (None, if flag (sta_flags (s_sta x)) WLAN_STA_AUTH then ieee802_1x_save_eapol r buf x else x)
  else if decide (length buf < sizeof_ieee802_1x_hdr)%nat then Ok (None, x)
  else
    version ← rd buf 0;
    type ← rd buf 1;
    l ← slice buf 2 2;
    datalen ← WPA_GET_BE16 l;
    if decide (zlen buf - Z.of_nat sizeof_ieee802_1x_hdr < datalen) then
      Ok (None, count (λ c, c <| dot1xAuthEapLengthErrorFramesRx :=
                                   incr (dot1xAuthEapLengthErrorFramesRx c) |>) x)
    else
      let x := count (λ c, c <| dot1xAuthLastEapolFrameVersion := version |>
                             <| dot1xAuthEapolFramesRx := incr (dot1xAuthEapolFramesRx c) |>) x in
      body ← slice buf sizeof_ieee802_1x_hdr (Z.to_nat datalen);
      key ← is_wpa_key type body;
      match key with
      | true => frame ← slice buf 0 (sizeof_ieee802_1x_hdr + Z.to_nat datalen); Ok (Some frame, x)
      | false => x ← rx_1x c r type body x; Ok (None, x)
      end.

(** ** Stations *)

Definition ieee802_1x_free_station (x : station) : station :=
  let x := set_sta (λ s, s <| pending_eapol_rx := None |>) x in
  set_sta (λ s, s <| eapol_sm := None |>) (with_sm eapol_auth_free x).

(** The state machines put into the authenticated state for a cached PMK *)
Definition skip_eap : act W :=
  note Pmksa_skip ;;;
  upd (λ m, m <| keyRun := true |>) ;;;
  set_if (λ i, i <| eapKeyAvailable := true |>) ;;;
  upd (λ m, m <| auth_pae_state := AUTH_PAE_AUTHENTICATING |> <| be_auth_state := BE_AUTH_SUCCESS |>
              <| authSuccess := true |> <| authFail := false |>) ;;;
  when eap (call (λ _, Notify_cached)) ;;;
  call (λ _, Bind_vlan).

Definition ieee802_1x_new_station (c : conf_1x) (r : resources) (x : station) : station :=
  if negb (ieee802_1x c) && negb (osen c) then ieee802_1x_free_station x
  else if key_mgmt_psk (s_sta x) then ieee802_1x_free_station x
  else
    let reassoc := bool_decide (is_Some (eapol_sm (s_sta x))) in
    let x := if reassoc then x else ieee802_1x_alloc_eapol_sm c r x in
    match eapol_sm (s_sta x) with
    | None => x
    | Some _ =>
      let x := with_sm port_enabled x in
      if pmksa (s_sta x) then with_sm skip_eap x
      else with_sm (when (λ _, reassoc) (upd (λ m, m <| reAuthenticate := true |>)) ;;;
                    eapol_auth_step) x
    end.

(** ** Notifications and callbacks *)

Definition ieee802_1x_notify_port_enabled (enabled : bool) : act W :=
  set_if (λ i, i <| portEnabled := enabled |>) ;;; eapol_auth_step.

Definition ieee802_1x_notify_port_valid (valid : bool) : act W :=
  upd (λ m, m <| portValid := valid |>) ;;; eapol_auth_step.

Definition ieee802_1x_notify_pre_auth (pre_auth : bool) : act W :=
  upd (λ m, m <| EapolAuth.sm_flags :=
    if pre_auth then Z.lor (EapolAuth.sm_flags m) EAPOL_SM_PREAUTH
    else Z.land (EapolAuth.sm_flags m) (Z.lnot EAPOL_SM_PREAUTH) |>).

Inductive wpa_eapol_variable : Set :=
| WPA_EAPOL_portEnabled | WPA_EAPOL_portValid | WPA_EAPOL_portControl_Auto
| WPA_EAPOL_keyRun | WPA_EAPOL_keyAvailable | WPA_EAPOL_keyDone | WPA_EAPOL_inc_EapolFramesTx.

(** [hostapd_wpa_auth_set_eapol]; [WPA_EAPOL_authorized], which sets the driver's
    port of a PSK station without the state machine, is not modelled. *)
Definition hostapd_wpa_auth_set_eapol (var : wpa_eapol_variable) (value : bool) : act W :=
  match var with
  | WPA_EAPOL_portEnabled => ieee802_1x_notify_port_enabled value
  | WPA_EAPOL_portValid => ieee802_1x_notify_port_valid value
  | WPA_EAPOL_portControl_Auto => upd (λ m, m <| portControl := Auto |>)
  | WPA_EAPOL_keyRun => upd (λ m, m <| keyRun := value |>)
  | WPA_EAPOL_keyAvailable => set_if (λ i, i <| eapKeyAvailable := value |>)
  | WPA_EAPOL_keyDone => upd (λ m, m <| keyDone := value |>)
  | WPA_EAPOL_inc_EapolFramesTx =>
    bump (λ c, c <| dot1xAuthEapolFramesTx := incr (dot1xAuthEapolFramesTx c) |>)
  end.

End stations.

Arguments station W : clear implicits.

(** [ieee802_1x_abort_auth], up to the RADIUS message it releases and the
    disconnection it requests *)
Definition ieee802_1x_abort_auth (m : eapol_state_machine) : eapol_state_machine :=
  if eapTimeout (eap_if m) then m <| eap_if := (eap_if m) <| portEnabled := false |> |> else m.

(** ** What can happen to a station *)

Section reachability.
Context {W : Type} `{EapolEnvOk W}.
Implicit Types x : station W.

Inductive station_step (c : conf_1x) : station W → station W → Prop :=
| Step_receive r buf x frame x' :
    ieee802_1x_receive c r buf x = Ok (frame, x') → station_step c x x'
| Step_new_station r x : station_step c x (ieee802_1x_new_station c r x)
| Step_free x : station_step c x (ieee802_1x_free_station x)
| Step_tick x : station_step c x (with_sm eapol_port_timers_tick x)
| Step_run x : station_step c x (with_sm eapol_sm_step_cb x)
| Step_set_eapol var value x : station_step c x (with_sm (hostapd_wpa_auth_set_eapol var value) x)
| Step_pre_auth b x : station_step c x (with_sm (ieee802_1x_notify_pre_auth b) x)
| Step_reauthenticate x : station_step c x (with_sm eapol_auth_reauthenticate x)
| Step_set_conf param value m ret s x :
    eapol_sm (s_sta x) = Some m →
    eapol_auth_set_conf param value (mk_st (s_world x) m (s_log x)) = Ok (ret, s) →
    station_step c x
      (mk_station (world s) ((s_sta x) <| eapol_sm := Some (sm s) |>) (log s))
(** Any other code of the access point (RADIUS, the WPA authenticator, the
    driver's events): it does not write the private part of the machine. *)
| Step_other w f m m' x :
    eapol_sm (s_sta x) = Some m → private_of m' = private_of m →
    station_step c x (mk_station w ((f (s_sta x)) <| eapol_sm := Some m' |>) (s_log x)).

Definition station_inv x : Prop :=
  ∀ m, eapol_sm (s_sta x) = Some m → inv (mk_st (s_world x) m (s_log x)).

Lemma with_sm_inv (a : act W) x :
  (∀ s, inv s → inv (a s)) → station_inv x → station_inv (with_sm a x).
Proof.
  intros Ha Hx m. unfold with_sm. destruct (eapol_sm (s_sta x)) as [m0|] eqn:He; [|by rewrite He].
  cbn. intros [= <-]. specialize (Ha _ (Hx m0 He)). by destruct (a _).
Qed.

Lemma with_sm_benign (a : act W) x : benign a → station_inv x → station_inv (with_sm a x).
Proof. intros Ha. apply with_sm_inv. intros s. by apply benign_inv. Qed.

Lemma set_sta_inv f x :
  (∀ s, eapol_sm (f s) = eapol_sm s) → station_inv x → station_inv (set_sta f x).
Proof. intros Hf Hx m. unfold set_sta; cbn [s_sta s_world s_log]. rewrite Hf. apply Hx. Qed.

Lemma alloc_station_inv c r x : station_inv x → station_inv (ieee802_1x_alloc_eapol_sm c r x).
Proof.
  intros Hx. unfold ieee802_1x_alloc_eapol_sm. set (flags := Z.lor _ _).
  destruct (eapol_auth_alloc _ _ _ _ _ flags _ []) as [w [s|]] eqn:He.
  - intros m. cbn. intros [= <-]. apply alloc_inv in He. by destruct s.
  - intros m Hm. specialize (Hx m Hm). exact Hx.
Qed.

Lemma free_inv x : station_inv (ieee802_1x_free_station x).
Proof. by intros m. Qed.

Lemma skip_eap_inv (s : st W) : inv s → inv (skip_eap s).
Proof.
  intros [[H1 H2 H3 H4 H5 H6] Ho]. unfold skip_eap. set (f := λ m, _ <| authFail := false |>).
  assert (inv (upd f (set_if (λ i, i <| eapKeyAvailable := true |>)
    (upd (λ m, m <| keyRun := true |>) (note Pmksa_skip s))))) as Hi.
  { split; [|by apply opens_ok_cons]. constructor; port_cases. }
  unfold seq. apply benign_inv; [frame|]. apply benign_inv; [frame|]. exact Hi.
Qed.

Lemma new_station_inv c r x : station_inv x → station_inv (ieee802_1x_new_station c r x).
Proof.
  intros Hx. unfold ieee802_1x_new_station.
  destruct (_ && _); [apply free_inv|]. destruct (key_mgmt_psk _); [apply free_inv|].
  set (reassoc := bool_decide _). clearbody reassoc. cbv zeta.
  set (x1 := if reassoc then x else _).
  assert (station_inv x1) as Hx1 by (subst x1; destruct reassoc; [done|by apply alloc_station_inv]).
  clearbody x1. destruct (eapol_sm (s_sta x1)) eqn:He; [|done].
  assert (station_inv (with_sm port_enabled x1)) as Hx2 by (apply with_sm_benign; [apply benign_set_if|done]).
  destruct (pmksa _).
  - apply with_sm_inv; [apply skip_eap_inv|done].
  - apply with_sm_benign; [|done]. pose proof benign_auth_step. frame.
Qed.

Lemma handle_eap_benign copy buf (a : act W) : handle_eap copy buf = Ok a → benign a.
Proof.
  assert (∀ d, benign (eap_data d : act W)) as Hd by (intros; unfold eap_data; frame).
  unfold handle_eap. destruct (decide _); [intros [= <-]; frame|].
  intros (code & _ & (l & _ & (elen & _ & Hn)%bind_Ok_inv)%bind_Ok_inv)%bind_Ok_inv.
  destruct (decide _); [injection Hn as <-; frame|]. destruct (decide _); [injection Hn as <-; frame|].
  apply bind_Ok_inv in Hn as (eap & _ & Hn).
  destruct (decide (code = EAP_CODE_RESPONSE)); [|destruct (decide (code = EAP_CODE_INITIATE))].
  - unfold handle_eap_response in Hn. destruct (decide _); [injection Hn as <-; frame|].
    apply bind_Ok_inv in Hn as (t & _ & [= <-]). frame.
  - unfold handle_eap_initiate in Hn. destruct (decide _); [injection Hn as <-; frame|].
    apply bind_Ok_inv in Hn as (t & _ & [= <-]). by apply Hd.
  - injection Hn as <-. frame.
Qed.

Lemma rx_start_inv x : station_inv x → station_inv (rx_start x).
Proof.
  intros Hx. unfold rx_start. apply with_sm_benign; [frame|]. cbv zeta.
  set (x1 := with_sm _ x). assert (station_inv x1) as Hx1 by (apply with_sm_benign; [frame|done]).
  destruct (pmksa (s_sta x1)); [|done]. apply set_sta_inv; [done|]. apply with_sm_benign; [frame|done].
Qed.

Lemma rx_body_inv r type body x x' : rx_body r type body x = Ok x' → station_inv x → station_inv x'.
Proof.
  intros Hr Hx. unfold rx_body in Hr.
  destruct (decide _). { apply bind_Ok_inv in Hr as (a & Ha & [= <-]). apply with_sm_benign; [|done]. by eapply handle_eap_benign. }
  destruct (decide _); [injection Hr as <-; by apply rx_start_inv|].
  destruct (decide _). { injection Hr as <-. apply with_sm_benign; [unfold rx_logoff; frame|done]. }
  destruct (decide _); [by injection Hr as <-|]. destruct (decide _); [by injection Hr as <-|].
  injection Hr as <-. apply with_sm_benign; [frame|done].
Qed.

Lemma rx_1x_inv c r type body x x' : rx_1x c r type body x = Ok x' → station_inv x → station_inv x'.
Proof.
  intros Hr Hx. unfold rx_1x in Hr. destruct (_ && _); [by injection Hr as <-|].
  destruct (key_mgmt_psk _); [by injection Hr as <-|]. cbv zeta in Hr.
  set (x1 := match eapol_sm (s_sta x) with Some _ => x | None => _ end) in Hr.
  assert (station_inv x1) as Hx1.
  { subst x1. destruct (eapol_sm (s_sta x)); [done|].
    apply with_sm_benign; [apply benign_set_if|by apply alloc_station_inv]. }
  clearbody x1. destruct (eapol_sm (s_sta x1)); [|by injection Hr as <-].
  apply bind_Ok_inv in Hr as (x2 & Hx2 & [= <-]). apply with_sm_benign; [apply benign_auth_step|].
  by eapply rx_body_inv.
Qed.

Lemma receive_inv c r buf x frame x' :
  ieee802_1x_receive c r buf x = Ok (frame, x') → station_inv x → station_inv x'.
Proof.
  intros Hr Hx. unfold ieee802_1x_receive in Hr. destruct (negb _ && _ && _ && _); [by injection Hr as _ <-|].
  destruct (_ && _).
  { injection Hr as _ <-. destruct (flag _ _); [|done]. by apply set_sta_inv. }
  destruct (decide _); [by injection Hr as _ <-|].
  apply bind_Ok_inv in Hr as (v & _ & (t & _ & (l & _ & (dlen & _ & Hr)%bind_Ok_inv)%bind_Ok_inv)%bind_Ok_inv).
  destruct (decide _). { injection Hr as _ <-. apply with_sm_benign; [frame|done]. }
  cbv zeta in Hr. set (x1 := count _ x) in Hr.
  assert (station_inv x1) as Hx1 by (apply with_sm_benign; [frame|done]).
  clearbody x1. apply bind_Ok_inv in Hr as (body & _ & ([] & _ & Hr)%bind_Ok_inv).
  - apply bind_Ok_inv in Hr as (f & _ & [= _ <-]). done.
  - apply bind_Ok_inv in Hr as (x2 & Hx2 & [= _ <-]). by eapply rx_1x_inv.
Qed.

Lemma set_choice_inv choices value (s : st W) :
  Forall (λ ch, ∀ m, private_of (ch.2 m) = private_of m) choices → inv s →
  inv (set_choice choices value s).2.
Proof.
  intros Hc Hs. induction Hc as [|[v f] choices Hf Hc IH]; [done|]. cbn [set_choice].
  destruct (str_eq value v); [|done]. cbn [snd].
  apply benign_inv; [|done]. apply (frame_seq same); [by apply benign_upd|apply benign_auth_step].
Qed.

Lemma set_choice_ok choices value (s : st W) ret s' :
  Ok (set_choice choices value s) = Ok (ret, s') →
  Forall (λ ch, ∀ m, private_of (ch.2 m) = private_of m) choices → inv s → inv s'.
Proof. intros [= Hs] Hc Hi. replace s' with (set_choice choices value s).2 by (by rewrite Hs). by apply set_choice_inv. Qed.

Lemma set_number_inv f value (s : st W) ret s' :
  (∀ v m, private_of (f v m) = private_of m) → set_number f value s = Ok (ret, s') → inv s → inv s'.
Proof.
  intros Hf Hn. apply bind_Ok_inv in Hn as (v & _ & [= _ <-]). apply benign_inv, benign_upd, Hf.
Qed.

Lemma set_conf_inv param value (s : st W) ret s' :
  eapol_auth_set_conf param value s = Ok (ret, s') → inv s → inv s'.
Proof.
  intros Hr Hs. unfold eapol_auth_set_conf in Hr.
  repeat (destruct (strcase_eq _ _);
    [first [refine (set_number_inv _ _ _ _ _ _ Hr Hs); reflexivity
           |apply (set_choice_ok _ _ _ _ _ Hr); [|done];
            repeat (constructor; [reflexivity|]); constructor]|]).
  by injection Hr as _ <-.
Qed.

Lemma station_step_inv c x x' : station_step c x x' → station_inv x → station_inv x'.
Proof.
  intros Hstep Hx. pose proof (benign_auth_step (W := W)) as Hb.
  destruct Hstep as [r buf x frame x' Hr|r x|x|x|x|var value x|b x|x|param value m ret s x Hm Hr|w f m m' x Hm Hp].
  - by eapply receive_inv.
  - by apply new_station_inv.
  - apply free_inv.
  - apply with_sm_inv; [apply tick_inv|done].
  - apply with_sm_inv; [apply step_run_inv|done].
  - apply with_sm_benign; [|done].
    destruct var; cbn [hostapd_wpa_auth_set_eapol];
      unfold ieee802_1x_notify_port_enabled, ieee802_1x_notify_port_valid; frame.
  - apply with_sm_benign; [by apply benign_upd|done].
  - apply with_sm_benign; [unfold eapol_auth_reauthenticate; frame|done].
  - apply set_conf_inv in Hr; [|by apply Hx]. intros m'. cbn. intros [= <-]. by destruct s.
  - intros m''. cbn. intros [= <-]. destruct (Hx m Hm) as [Hi Ho].
    split; [|exact Ho]. unfold summary in *; cbn [sm log] in *. by rewrite Hp.
Qed.

Lemma station_reach_inv c x x' : rtc (station_step c) x x' → station_inv x → station_inv x'.
Proof. induction 1 as [|x y z Hxy Hyz IH]; [done|]. intros Hx. by apply IH, (station_step_inv c x). Qed.

End reachability.

(** ** Reading frames *)

Section frames.
Context {W : Type} `{EapolEnv W}.
Implicit Types x : station W.

Lemma be16_ok l : length l = 2%nat → bytes_ok l → ∃ v, WPA_GET_BE16 l = Ok v ∧ 0 ≤ v.
Proof.
  intros Hl Hb. destruct l as [|a [|b [|? ?]]]; try done.
  apply Forall_cons_iff in Hb as [Ha [Hb _]%Forall_cons_iff].
  exists (a * 2 ^ 8 + b). split; [by apply WPA_GET_BE16_val|]. unfold is_u8 in *. lia.
Qed.

Lemma slice_take b n : (n ≤ length b)%nat → slice b 0 n = Ok (take n b).
Proof. intros Hn. by rewrite slice_ok by lia. Qed.

Lemma handle_eap_ok copy buf : bytes_ok buf → ∃ a : act W, handle_eap copy buf = Ok a.
Proof.
  intros Hb. unfold handle_eap, sizeof_eap_hdr. destruct (decide _) as [|Hlen]; [by eexists|].
  destruct (rd_lt buf 0 ltac:(lia)) as (code & -> & _). rewrite bind_Ok.
  rewrite slice_ok by lia. rewrite bind_Ok.
  destruct (be16_ok (take 2 (drop 2 buf))) as (v & -> & Hv);
    [rewrite length_take, length_drop; lia|by apply Forall_take, Forall_drop|].
  rewrite bind_Ok. destruct (decide _); [by eexists|]. destruct (decide _); [by eexists|].
  rewrite slice_take by (unfold zlen in *; lia). rewrite bind_Ok.
  set (eap := take _ buf).
  assert (∀ f : Z → act W, ∃ a, (if decide (length eap < 4 + 1)%nat then Ok skip
    else type ← rd eap 4; Ok (f type)) = Ok a) as Hf.
  { intros f. destruct (decide _); [by eexists|].
    destruct (rd_lt eap 4 ltac:(lia)) as (t & -> & _). by eexists. }
  destruct (decide (code = EAP_CODE_RESPONSE)); [exact (Hf _)|].
  destruct (decide (code = EAP_CODE_INITIATE)); [exact (Hf (λ _, _))|by eexists].
Qed.

Lemma rx_1x_ok c r type body x : bytes_ok body → ∃ x', rx_1x c r type body x = Ok x'.
Proof.
  intros Hb. unfold rx_1x. destruct (_ && _); [by eexists|]. destruct (key_mgmt_psk _); [by eexists|].
  cbv zeta. destruct (eapol_sm _); [|by eexists].
  assert (∀ y, ∃ x', rx_body r type body y = Ok x') as Hbody.
  { intros y. unfold rx_body. destruct (handle_eap_ok (frame_memory r) body Hb) as [a ->].
    repeat (destruct (decide _); [by eexists|]). by eexists. }
  destruct (eapol_sm (s_sta x)).
  - destruct (Hbody x) as [x' ->]. by eexists.
  - set (y := with_sm _ _). destruct (Hbody y) as [x' Hx']. rewrite Hx'. by eexists.
Qed.

(** Every frame is processed without reading outside it. *)
Lemma receive_ok c r buf x :
  bytes_ok buf →
  ∃ frame x', ieee802_1x_receive c r buf x = Ok (frame, x') ∧
    ∀ f, frame = Some f → ∃ n, f = take n buf ∧ (48 ≤ n ≤ length buf)%nat.
Proof.
  intros Hb. unfold ieee802_1x_receive, sizeof_ieee802_1x_hdr.
  destruct (_ && _); [by do 2 eexists|]. destruct (_ && _); [by do 2 eexists|].
  destruct (decide _) as [|Hlen]; [by do 2 eexists|].
  destruct (rd_lt buf 0 ltac:(lia)) as (v & -> & _). rewrite bind_Ok.
  destruct (rd_lt buf 1 ltac:(lia)) as (t & -> & _). rewrite bind_Ok.
  rewrite slice_ok by lia. rewrite bind_Ok.
  destruct (be16_ok (take 2 (drop 2 buf))) as (d & -> & Hd);
    [rewrite length_take, length_drop; lia|by apply Forall_take, Forall_drop|].
  rewrite bind_Ok. destruct (decide _) as [|Hdl]; [by do 2 eexists|]. cbv zeta.
  rewrite (slice_ok buf 4) by (unfold zlen in *; lia). rewrite bind_Ok.
  set (body := take (Z.to_nat d) (drop 4 buf)).
  assert (bytes_ok body) as Hbody by (by apply Forall_take, Forall_drop).
  assert (length body = Z.to_nat d) as Hbl
    by (unfold body; rewrite length_take, length_drop; unfold zlen in *; lia).
  assert (∃ key, is_wpa_key t body = Ok key ∧ (key = true → 44 ≤ length body)%nat) as (key & -> & Hk).
  { unfold is_wpa_key, sizeof_ieee802_1x_eapol_key. destruct (decide _); [by eexists|].
    destruct (decide _); [by eexists|]. destruct (rd_lt body 0 ltac:(lia)) as (y & -> & _).
    rewrite bind_Ok. eexists. split; [done|]. lia. }
  rewrite bind_Ok. destruct key.
  - rewrite slice_take by (unfold zlen in *; lia). do 2 eexists. split; [done|].
    intros f [= <-]. exists (4 + Z.to_nat d)%nat. split; [done|]. specialize (Hk eq_refl).
    unfold zlen in *. lia.
  - set (y := count _ x). destruct (rx_1x_ok c r t body y Hbody) as [x' Hx']. rewrite Hx'.
    by do 2 eexists.
Qed.

End frames.

(** An EAPOL frame of type EAP-Packet: the header, a body and whatever follows *)
Definition eap_frame (version : Z) (body extra : bytes) : bytes :=
  [version; IEEE802_1X_TYPE_EAP_PACKET] ++ WPA_PUT_BE16 (zlen body) ++ body ++ extra.

(** An EAP response *)
Definition eap_response (id : Z) (data : bytes) : bytes :=
  [EAP_CODE_RESPONSE; id] ++ WPA_PUT_BE16 (4 + zlen data) ++ data.

(** The station takes part in 802.1X authentication. *)
Definition takes_part (c : conf_1x) (s : sta_1x) : Prop :=
  ieee802_1x c = true ∧ flag (sta_flags s) (Z.lor WLAN_STA_ASSOC WLAN_STA_PREAUTH) = true ∧
  key_mgmt_psk s = false.

Section responses.
Context {W : Type} `{EapolEnv W}.
Implicit Types x : station W.

Lemma put_be16_length v : length (WPA_PUT_BE16 v) = 2%nat.
Proof. reflexivity. Qed.

Lemma handle_eap_response_frame copy id type data extra :
  4 + zlen (type :: data) < 2 ^ 16 →
  handle_eap (W := W) copy (eap_response id (type :: data) ++ extra) =
    Ok (upd (λ m, m <| eap_type_supp := type |>) ;;;
        bump (λ c, c <| dot1xAuthEapolRespFramesRx := incr (dot1xAuthEapolRespFramesRx c) |>) ;;;
        eap_data (if copy then Some (eap_response id (type :: data)) else None)).
Proof.
  intros Hlen. set (eap := eap_response id (type :: data)).
  assert (length eap = (5 + length data)%nat) as Hel by reflexivity.
  unfold handle_eap, sizeof_eap_hdr. rewrite length_app.
  rewrite decide_False by lia. rewrite (eq_refl : rd (eap ++ extra) 0 = Ok EAP_CODE_RESPONSE), bind_Ok.
  rewrite (slice_mid [2; id] (WPA_PUT_BE16 (4 + zlen (type :: data))) ((type :: data) ++ extra)
    : slice (eap ++ extra) 2 2 = _), bind_Ok.
  rewrite <- (app_nil_r (WPA_PUT_BE16 _)), get_put_be16 by (rewrite zlen_cons in *; pose proof (zlen_nonneg data); lia).
  rewrite bind_Ok. rewrite decide_False by (rewrite zlen_cons; pose proof (zlen_nonneg data); lia).
  assert (4 + zlen (type :: data) = zlen eap) as -> by (unfold zlen; rewrite Hel; cbn [length]; lia).
  rewrite decide_False by (rewrite zlen_app; pose proof (zlen_nonneg extra); lia).
  unfold zlen at 1. rewrite Nat2Z.id, slice_take by (rewrite length_app; lia).
  rewrite take_app_length, bind_Ok. rewrite decide_True by done.
  unfold handle_eap_response, sizeof_eap_hdr. by rewrite decide_False by lia.
Qed.

(** Receiving such a frame, when the station has a state machine *)
Lemma receive_eap_response c r x m version id type data extra extra' :
  let eap := eap_response id (type :: data) in
  takes_part c (s_sta x) → eapol_sm (s_sta x) = Some m → zlen eap + zlen extra < 2 ^ 16 →
  ∃ x' m', ieee802_1x_receive c r (eap_frame version (eap ++ extra) extra') x = Ok (None, x') ∧
    s_log x' = (Register_step, m') :: s_log x ∧
    eapolEap m' = true ∧ eap_type_supp m' = type ∧
    eapRespData (eap_if m') = (if frame_memory r then Some eap else None) ∧
    private_of m' = private_of m.
Proof.
  intros eap (Hc & Hf & Hp) Hm Hlen. set (body := eap ++ extra). set (buf := eap_frame version body extra').
  assert (zlen body = zlen eap + zlen extra) as Hbl by apply zlen_app.
  assert (length buf = (4 + length body + length extra')%nat) as Hbuf
    by (unfold buf, eap_frame; rewrite !length_app; cbn [length]; rewrite put_be16_length; lia).
  unfold ieee802_1x_receive, sizeof_ieee802_1x_hdr. rewrite Hc, Hf. cbn [negb andb].
  rewrite decide_False by lia. rewrite (eq_refl : rd buf 0 = Ok version), bind_Ok.
  rewrite (eq_refl : rd buf 1 = Ok IEEE802_1X_TYPE_EAP_PACKET), bind_Ok.
  rewrite (slice_mid [version; _] (WPA_PUT_BE16 (zlen body)) (body ++ extra') : slice buf 2 2 = _), bind_Ok.
  rewrite <- (app_nil_r (WPA_PUT_BE16 _)), get_put_be16 by (pose proof (zlen_nonneg body); lia).
  rewrite bind_Ok, decide_False by (unfold zlen; lia). cbv zeta.
  assert (slice buf 4 (Z.to_nat (zlen body)) = Ok body) as ->.
  { unfold zlen. rewrite Nat2Z.id.
    exact (slice_mid ([version; IEEE802_1X_TYPE_EAP_PACKET] ++ WPA_PUT_BE16 (zlen body)) body extra'). }
  rewrite bind_Ok.
  assert (is_wpa_key IEEE802_1X_TYPE_EAP_PACKET body = Ok false) as ->
    by (unfold is_wpa_key; by destruct (decide (length body < _)%nat)).
  rewrite bind_Ok. unfold count, with_sm at 1. rewrite Hm. unfold rx_1x. rewrite Hc. cbn [negb andb s_sta].
  change (key_mgmt_psk (_ <| eapol_sm := _ |>)) with (key_mgmt_psk (s_sta x)). rewrite Hp. cbv zeta.
  unfold rx_body. rewrite decide_True by done.
  pose proof (handle_eap_response_frame (frame_memory r) id type data extra) as He.
  fold eap body in He. rewrite He by (unfold eap, eap_response in Hlen; rewrite !zlen_app in Hlen;
    change (zlen [EAP_CODE_RESPONSE; id]) with 2 in Hlen; change (zlen (WPA_PUT_BE16 _)) with 2 in Hlen;
    pose proof (zlen_nonneg extra); lia).
  rewrite bind_Ok. cbn [with_sm s_sta eapol_sm setter]. 
  eexists _, _. split; [reflexivity|]. split; [reflexivity|]. by destruct (frame_memory r).
Qed.

End responses.

(** ** Properties *)

(** C23. Whatever happens to a station (frames received from it, in any order and
    with any content, its association, timers, the notifications of the WPA
    authenticator, configuration changes, and any other code that respects the
    private part of the machine), its port is opened only when the configuration
    forces it open, or when the PAE machine is in AUTHENTICATED with the keys in
    place and, since the machine last started to authenticate the station, the
    EAP server reported success or the station's PMK was found in the cache. The
    port status is always the one the driver was last told, it is Authorized in
    AUTHENTICATED and FORCE_AUTH and Unauthorized in DISCONNECTED, HELD and
    FORCE_UNAUTH. *)
Theorem port_opens_only_after_success {W} `{EapolEnvOk W} c (x0 x : station W) m :
  eapol_sm (s_sta x0) = None → rtc (station_step c) x0 x → eapol_sm (s_sta x) = Some m →
  (∀ l1 m' l2, s_log x = l1 ++ (Set_port_authorized true, m') :: l2 →
     portControl m' = ForceAuthorized ∨
     (auth_pae_state m' = AUTH_PAE_AUTHENTICATED ∧ portValid m' = true ∧
      success_since_auth l2 = true)) ∧
  last_port (s_log x) = authPortStatus m ∧
  match auth_pae_state m with
  | AUTH_PAE_AUTHENTICATED | AUTH_PAE_FORCE_AUTH => authPortStatus m = Some Authorized
  | AUTH_PAE_DISCONNECTED | AUTH_PAE_HELD | AUTH_PAE_FORCE_UNAUTH => authPortStatus m = Some Unauthorized
  | _ => True
  end.
Proof.
  intros Hnew Hr Hm.
  assert (station_inv x) as Hx by (apply (station_reach_inv c x0 x Hr); by intros m0; rewrite Hnew).
  destruct (Hx m Hm) as [Hi Ho]. split; [exact Ho|]. split; [apply (inv_port _ Hi)|].
  pose proof (inv_authorized _ Hi) as Ha. pose proof (inv_unauthorized _ Hi) as Hu.
  cbn in Ha, Hu. destruct (auth_pae_state m); auto.
Qed.

(** C24. Every frame from a station is processed without reading outside it,
    however its two length fields lie; a key frame is handed to the WPA
    authenticator as the header and the announced body, which lie inside the
    frame. An EAP response of a station that takes part in 802.1X reaches the
    EAP server exactly: the packet without the octets that follow it in the body
    and in the frame, the backend machine flagged, the machines scheduled to run,
    and the private part of the machine untouched. *)
Theorem ieee802_1x_receive_spec {W} `{EapolEnv W} c r (x : station W) :
  (∀ buf, bytes_ok buf →
     ∃ frame x', ieee802_1x_receive c r buf x = Ok (frame, x') ∧
       ∀ f, frame = Some f → ∃ n, f = take n buf ∧ (48 ≤ n ≤ length buf)%nat) ∧
  (∀ m version id type data extra extra',
     let eap := eap_response id (type :: data) in
     takes_part c (s_sta x) → eapol_sm (s_sta x) = Some m → zlen eap + zlen extra < 2 ^ 16 →
     ∃ x' m', ieee802_1x_receive c r (eap_frame version (eap ++ extra) extra') x = Ok (None, x') ∧
       s_log x' = (Register_step, m') :: s_log x ∧
       eapolEap m' = true ∧ eap_type_supp m' = type ∧
       eapRespData (eap_if m') = (if frame_memory r then Some eap else None) ∧
       private_of m' = private_of m).
Proof.
  split; [intros buf Hb; by apply receive_ok|].
  intros m version id type data extra extra' eap. apply receive_eap_response.
Qed.

(** ** Concrete instances *)

(** An EAP server that accepts every identity: restarted it asks for it, and a
    response makes it report success. The callbacks are those of the access
    point, as far as they change the machine. *)
#[export] Instance accepting_env : EapolEnv bool := {|
  callback e w m := (w, match e with Abort_auth => ieee802_1x_abort_auth m | _ => m end);
  sta_entry_alive _ _ := true;
  eap_server_sm_step w m :=
    let i := eap_if m in
    if eapRestart i then
      (false, m <| eap_if := i <| eapRestart := false |> <| eapSuccess := false |>
                             <| eapReq := true |> <| eapReqData := Some [1; 7; 0; 5; 1] |> |>, true)
    else if eapResp i then
      (true, m <| eap_if := i <| eapResp := false |> <| eapSuccess := true |> |>, true)
    else (w, m, false) |}.

#[export] Instance accepting_env_ok : EapolEnvOk bool.
Proof.
  split.
  - intros [| | | | | | | | | | | | | | | | | | |] w m; try reflexivity.
    cbn. unfold ieee802_1x_abort_auth. by destruct (eapTimeout _).
  - intros w m. cbn. destruct (eapRestart _); [reflexivity|]. by destruct (eapResp _).
Qed.

Definition conf_1x_example : conf_1x := mk_conf_1x true false false false false (Some eapol_example).
Definition resources_example : resources := mk_resources true true true true.
Definition station_example : station bool :=
  mk_station false (mk_sta_1x [2; 0; 0; 0; 0; 1] WLAN_STA_ASSOC None false false false None) [].

(** Association, the first run of the machines, the response, the second run *)
Definition associated_example : station bool :=
  with_sm eapol_sm_step_cb (ieee802_1x_new_station conf_1x_example resources_example station_example).
Definition response_example : bytes := eap_frame 2 (eap_response 7 [1; 106; 111; 101] ++ []) [0; 0].
Definition responded_example : station bool :=
  match ieee802_1x_receive conf_1x_example resources_example response_example associated_example with
  | Ok (_, x) => x
  | _ => associated_example
  end.
Definition authenticated_example : station bool := with_sm eapol_sm_step_cb responded_example.

Lemma authenticated_example_reachable :
  rtc (station_step conf_1x_example) station_example authenticated_example.
Proof.
  eapply rtc_l; [apply (Step_new_station _ resources_example)|].
  eapply rtc_l; [apply Step_run|]. fold associated_example.
  eapply rtc_l; [apply (Step_receive _ resources_example response_example _ None responded_example)|].
  - vm_compute. reflexivity.
  - apply rtc_once. exact (Step_run conf_1x_example responded_example).
Qed.

Lemma port_opens_only_after_success_witness :
  ∃ m, eapol_sm (s_sta station_example) = None ∧
    eapol_sm (s_sta authenticated_example) = Some m ∧
    option_map authPortStatus (eapol_sm (s_sta associated_example)) = Some (Some Unauthorized) ∧
    auth_pae_state m = AUTH_PAE_AUTHENTICATED ∧
    last_port (s_log authenticated_example) = authPortStatus m ∧ authPortStatus m = Some Authorized.
Proof.
  destruct (eapol_sm (s_sta authenticated_example)) as [m|] eqn:Hm; [|vm_compute in Hm; discriminate Hm].
  exists m. split; [reflexivity|]. split; [reflexivity|]. split; [vm_compute; reflexivity|].
  destruct (port_opens_only_after_success conf_1x_example station_example authenticated_example m
              eq_refl authenticated_example_reachable Hm) as (_ & Hl & Hs).
  assert (auth_pae_state m = AUTH_PAE_AUTHENTICATED) as Hp.
  { vm_compute in Hm. injection Hm as <-. reflexivity. }
  rewrite Hp in Hs. auto.
Defined.

Lemma ieee802_1x_receive_spec_witness :
  takes_part conf_1x_example (s_sta associated_example) ∧
  ∃ x' m', ieee802_1x_receive conf_1x_example resources_example response_example associated_example =
             Ok (None, x') ∧
    s_log x' = (Register_step, m') :: s_log associated_example ∧
    eapRespData (eap_if m') = Some (eap_response 7 [1; 106; 111; 101]).
Proof.
  assert (takes_part conf_1x_example (s_sta associated_example)) as Ht by (vm_compute; auto).
  split; [exact Ht|].
  destruct (eapol_sm (s_sta associated_example)) as [m|] eqn:Hm; [|vm_compute in Hm; discriminate Hm].
  destruct (ieee802_1x_receive_spec conf_1x_example resources_example associated_example) as [_ Hr].
  destruct (Hr m 2 7 1 [106; 111; 101] [] [0; 0] Ht Hm eq_refl) as (x' & m' & H1 & H2 & _ & _ & H3 & _).
  exists x', m'. auto.
Defined.
