(* ===== verification/DataPath.v ===== *)
(** * From a frame to the database

    The record the access point makes of a frame ([EndToEnd]) and what the controller
    makes of that record ([Controller]): the contract between the two formats. In
    between the access point has a shell run the client program with the record in
    double quotes; the shell is not modelled, so nothing is said here of how it
    changes a record with quotes, [$], backticks or backslashes. *)

From Stdlib Require Import ZArith Lia Strings.String.
From stdpp Require Import base option list numbers decidable.
From S2P Require Import Prelude CLib Common Client ProbeResp ProbeReq EndToEnd Controller.
Local Open Scope Z_scope.

(** An octet that is neither NUL nor [EOT] nor a comma *)
Definition plain_octet (c : Z) : Prop := c ≠ 0 ∧ c ≠ EOT ∧ c ≠ 44.

Definition plain_text (s : bytes) : Prop := s ≠ [] ∧ Forall plain_octet s.

Lemma digits_plain s : s ≠ [] → Forall (λ c, is_digit c = true) s → plain_text s.
Proof.
  intros Hne Hs. split; [done|]. induction Hs as [|c s Hc Hs IH]; constructor.
  - unfold is_digit in Hc. rewrite bool_decide_eq_true in Hc. unfold plain_octet, EOT. lia.
  - destruct s; [constructor|by apply IH].
Qed.

Lemma udec_plain n : 0 ≤ n → plain_text (udec n).
Proof.
  intros Hn. apply digits_plain; [|by apply udec_digits]. pose proof (udec_length_pos n Hn).
  destruct (udec n); [cbn in *; lia|done].
Qed.

Lemma udec0_plain w n : 0 ≤ n → plain_text (udec0 w n).
Proof.
  intros Hn. apply digits_plain; [|by apply udec0_digits]. pose proof (udec_length_pos n Hn).
  unfold udec0. destruct (udec n); [cbn in *; lia|]. by destruct (zeros _).
Qed.

Lemma hexdig_plain n : 0 ≤ n → plain_octet (hexdig n).
Proof. intros Hn. unfold hexdig, plain_octet, EOT. destruct (decide _); lia. Qed.

Lemma hex02_plain a : is_u8 a → Forall plain_octet (hex02 a).
Proof.
  intros [Ha _]. unfold hex02.
  constructor; [|constructor; [|constructor]]; apply hexdig_plain.
  - apply Z.div_pos; lia.
  - apply Z.mod_pos_bound. lia.
Qed.

Lemma rd_octet b i x : bytes_ok b → rd b i = Ok x → is_u8 x.
Proof.
  unfold rd. intros Hb. destruct (b !! i) as [y|] eqn:Hi; [|done]. intros [= <-].
  by eapply Forall_lookup_1.
Qed.

Lemma mac_plain a mac : bytes_ok a → mac_txt a = Ok mac → plain_text mac.
Proof.
  intros Ha Hm. unfold mac_txt in Hm.
  repeat (let H := fresh in apply bind_Ok_inv in Hm as (? & H & Hm); apply rd_octet in H; [|exact Ha]).
  match type of Hm with Ok ?t = _ => assert (mac = t) as -> by congruence end. split; [done|].
  assert (plain_octet 58) by done.
  repeat (apply Forall_app_2; [by apply hex02_plain|constructor; [done|]]). by apply hex02_plain.
Qed.

Lemma plain_no_comma s : Forall plain_octet s → 44 ∉ s.
Proof. intros Hs Hin. rewrite list.Forall_forall in Hs. by destruct (Hs 44 Hin) as (_ & _ & ?). Qed.

(** ** The fields of a record *)

Lemma fields_cons s r : plain_text s → fields (s ++ 44 :: r) = s :: fields r.
Proof.
  intros [Hne Hs]. unfold fields.
  assert (pieces (s ++ 44 :: r) = s :: pieces r) as ->; [|by rewrite filter_cons_True].
  clear Hne. induction Hs as [|c s (_ & _ & Hc) Hs IH]; cbn [app pieces]; [by rewrite decide_True|].
  by rewrite decide_False, IH by done.
Qed.

Lemma fields_last s : plain_text s → fields s = [s].
Proof.
  intros [Hne Hs]. unfold fields. assert (pieces s = [s]) as ->; [|by rewrite filter_cons_True].
  clear Hne. induction Hs as [|c s (_ & _ & Hc) Hs IH]; cbn [app pieces]; [done|].
  by rewrite decide_False, IH by done.
Qed.

Lemma record_fields f mac tv :
  frame_ok f → plain_text mac → plain_text (cf_ts f) →
  0 ≤ fst tv * 1000000 + snd tv →
  fields (frame_record f mac tv) =
    mac :: cf_ts f :: udec0 18 (fst tv * 1000000 + snd tv) :: udec0 8 (cf_seq f) :: lit "1" :: [48 + cf_mfb f] ::
    udec (zlen (cf_data f)) :: fields (cf_data f).
Proof.
  intros Hf Hm Ht Hc. unfold frame_record, csv_text. rewrite sdec_udec by apply zlen_nonneg.
  pose proof (fo_seq f Hf). pose proof (fo_mfb f Hf).
  assert (plain_text [48 + cf_mfb f]) as Hmf
    by (split; [done|]; repeat constructor; unfold EOT; lia).
  rewrite fields_cons by done. rewrite fields_cons by done.
  rewrite fields_cons by (by apply udec0_plain).
  change (lit ",1,") with ([44] ++ lit "1" ++ [44]).
  rewrite <- !app_assoc. cbn [app].
  rewrite fields_cons by (apply udec0_plain; lia).
  rewrite (fields_cons (lit "1")) by (by split; [|repeat constructor]).
  pose proof (λ r, fields_cons [48 + cf_mfb f] r Hmf) as Hfm. cbn [app] in Hfm. rewrite Hfm.
  by rewrite fields_cons by (apply udec_plain, zlen_nonneg).
Qed.

(** A field is no longer than the text. *)
Lemma pieces_length s p : p ∈ pieces s → (length p ≤ length s)%nat.
Proof.
  revert p. induction s as [|c s IH]; intros p; cbn [pieces].
  - by intros ->%list_elem_of_singleton.
  - destruct (decide (c = 44)).
    + intros [->|Hp%IH]%elem_of_cons; cbn; lia.
    + destruct (pieces s) as [|q ps].
      * intros ->%list_elem_of_singleton. cbn. lia.
      * intros [->|Hp]%elem_of_cons; [pose proof (IH q ltac:(by left))|pose proof (IH p ltac:(by right))]; cbn; lia.
Qed.

Lemma fields_length s p : p ∈ fields s → (length p ≤ length s)%nat.
Proof. unfold fields. rewrite list_elem_of_filter. intros [_ Hp]. by apply pieces_length. Qed.

Lemma insert_length mac cli_ts ap_ts con_ts seq ie_index mf len data :
  length (insert_text mac cli_ts ap_ts con_ts seq ie_index mf len data) =
  (198 + length mac + length cli_ts + length ap_ts + length (udec0 18 con_ts) + length seq + length ie_index +
   length mf + length len + length data)%nat.
Proof.
  unfold insert_text, DB_TABLE_NAME. rewrite !length_app. unfold lit. rewrite !length_map. cbn [length list_ascii_of_string].
  lia.
Qed.

Lemma record_fits f mac tv :
  frame_ok f → length mac = 17%nat → 0 ≤ fst tv * 1000000 + snd tv < 10 ^ 18 → zlen (cf_data f) ≤ 426 →
  (length (frame_record f mac tv) ≤ 499)%nat.
Proof.
  intros Hf Hm Ht Hl. rewrite (record_length f mac tv Hf Hm Ht).
  pose proof (fo_data f Hf) as (_ & _ & Hd).
  pose proof (udec_length_le 3 (zlen (cf_data f)) ltac:(cbn; lia) ltac:(lia)). unfold zlen in *. lia.
Qed.

(** What the controller is to store of a frame with the text [d] for its data *)
Definition frame_statement (f : client_frame) (mac : bytes) (tv : Z * Z) (con_ts : Z) (d : bytes) : bytes :=
  insert_text mac (cf_ts f) (udec0 18 (fst tv * 1000000 + snd tv)) con_ts (udec0 8 (cf_seq f)) (lit "1")
    [48 + cf_mfb f] (udec (zlen (cf_data f))) d.

Section run.
Context `{!Layout}.

Lemma statement_fits f mac tv con_ts d :
  frame_ok f → length mac = 17%nat → 0 ≤ fst tv * 1000000 + snd tv < 10 ^ 18 → 0 ≤ con_ts < 10 ^ 18 →
  zlen (cf_data f) ≤ 426 → (length d ≤ length (cf_data f))%nat →
  snprintf_cont 1024 (frame_statement f mac tv con_ts d) = frame_statement f mac tv con_ts d.
Proof.
  intros Hf Hm Ht Hc Hl Hd. destruct (fo_ts f Hf) as (_ & _ & Htl).
  unfold snprintf_cont, frame_statement. apply take_ge. rewrite insert_length.
  pose proof (udec_length_le 3 (zlen (cf_data f)) ltac:(pose proof (fo_data f Hf); cbn; lia) ltac:(lia)).
  rewrite Hm, Htl, !udec0_length by (exact Hc || exact Ht || exact (fo_seq f Hf) || lia).
  change (length (lit "1")) with 1%nat. unfold zlen in *. cbn [length]. lia.
Qed.

Lemma frame_statement_made f mac tv peer con_ts :
  frame_ok f → length mac = 17%nat → plain_text mac → plain_text (cf_ts f) →
  0 ≤ fst tv * 1000000 + snd tv < 10 ^ 18 → 0 ≤ con_ts < 10 ^ 18 → zlen (cf_data f) ≤ 426 →
  process_and_save peer con_ts (frame_record f mac tv) =
    match fields (cf_data f) with
    | [] => Undef NullDeref
    | d :: rest =>
      if decide (length rest < spare)%nat then Ok (frame_statement f mac tv con_ts d) else Undef OutOfBounds
    end.
Proof.
  intros Hf Hm Hmp Htp Ht Hc Hl. pose proof (record_fields f mac tv Hf Hmp Htp ltac:(lia)) as Hr.
  destruct (fo_ts f Hf) as (_ & _ & Htl).
  assert (str_eq (cf_ts f) (lit "NA") = false) as Hna.
  { apply bool_decide_eq_false. intros He. rewrite He in Htl. discriminate Htl. }
  destruct (fields (cf_data f)) as [|d rest] eqn:Hd.
  - rewrite (process_few peer con_ts) by (rewrite Hr; cbn; lia). by rewrite Hr, Hna.
  - rewrite (process_eight _ _ _ _ _ _ _ _ _ _ _ _ Hr), Hna. destruct (decide _); [|done].
    rewrite bind_Ok. f_equal. apply statement_fits; try done. apply fields_length. rewrite Hd. by left.
Qed.

(** C30. The record and what the controller makes of it. When a frame of the client
    with at most 426 octets of data is received, the access point runs a command with
    the complete record of it between double quotes; and of this record the controller
    makes the statement with the station, the three times, the number, the fragment bit
    and the length of the frame, and with its data up to the first comma after its
    start: exactly when the array of the controller has an entry behind it for each
    piece of the data between commas. Otherwise it writes behind the array, or, when
    the data is nothing but commas, uses a null pointer. *)
Theorem frame_stored `{Malloc} f env h m ssi peer con_ts :
  (∀ n, malloc_ok n = true) →
  frame_ok f → carries m f → accepted env h m ssi → clock_ok env → bytes_ok m →
  plain_text (cf_ts f) → zlen (cf_data f) ≤ 426 → 0 ≤ con_ts < 10 ^ 18 →
  ∃ mac e b record,
    mac_txt (mgmt_sa m) = Ok mac ∧ record = frame_record f mac (now_tv env) ∧
    handle_probe_req env h m ssi =
      ('(h', sent) ← answer env (with_ack (tracked env h m) b) m e;
       Ok (h', Ev_system (tcpclient ++ [34] ++ record ++ [34]) :: sent)) ∧
    process_and_save peer con_ts record =
      match fields (cf_data f) with
      | [] => Undef NullDeref
      | d :: rest =>
        if decide (length rest < spare)%nat then Ok (frame_statement f mac (now_tv env) con_ts d)
        else Undef OutOfBounds
      end.
Proof.
  intros Hmal Hf Hcar Hacc Hclk Hm Htp Hl Hc.
  destruct (frame_handled Hmal f env h m ssi Hf Hcar Hacc Hclk) as (res & e & b & mac & _ & Hmac & _ & _ & Hh).
  destruct Hcar as (_ & _ & _ & _ & Hlen & _).
  assert (length (mgmt_sa m) = 6%nat) as Hsa
    by (unfold mgmt_sa, ETH_ALEN, zlen in *; rewrite length_take, length_drop; lia).
  pose proof (mac_txt_length _ _ Hsa Hmac) as Hml.
  assert (plain_text mac) as Hmp by (eapply mac_plain; [|exact Hmac]; by apply Forall_take, Forall_drop).
  exists mac, e, b, (frame_record f mac (now_tv env)). split_and!; [done|done| |by apply frame_statement_made].
  rewrite Hh. unfold command_of. by rewrite take_ge by (by apply record_fits).
Qed.
End run.

(** ** A concrete instance *)

Lemma octets_ok b : forallb (λ c, (0 <=? c) && (c <? 256)) b = true → bytes_ok b.
Proof.
  intros Hb. apply Forall_forall. intros c Hc. rewrite forallb_forall in Hb.
  specialize (Hb c Hc). unfold is_u8. lia.
Qed.

Example frame_stored_witness :
  ∃ mac e b record,
    mac_txt (mgmt_sa request_example) = Ok mac ∧ record = frame_record cf_example mac (now_tv env_example) ∧
    handle_probe_req (H := malloc_always) env_example (hapd_example None) request_example 0 =
      ('(h', sent) ← answer (H := malloc_always) env_example
         (with_ack (tracked (H := malloc_always) env_example (hapd_example None) request_example) b) request_example e;
       Ok (h', Ev_system (tcpclient ++ [34] ++ record ++ [34]) :: sent)) ∧
    @process_and_save roomy peer_example 1513000000251234 record =
      match fields (cf_data cf_example) with
      | [] => Undef NullDeref
      | d :: rest =>
        if decide (length rest < 1)%nat
        then Ok (frame_statement cf_example mac (now_tv env_example) 1513000000251234 d) else Undef OutOfBounds
      end.
Proof.
  eapply (@frame_stored roomy malloc_always cf_example env_example (hapd_example None)
            request_example 0 peer_example 1513000000251234 (λ _, eq_refl)).
  - exact cf_example_ok.
  - exact request_example_carries.
  - exact (conj eq_refl eq_refl).
  - exact clock_example_ok.
  - apply octets_ok. vm_compute. reflexivity.
  - apply udec0_plain. done.
  - by vm_compute.
  - done.
Defined.
