(* ===== verification/DataGen.v ===== *)
(** * The data generators

    [data_gen/send_randdata_over_tcp.cpp] and
    [data_gen/send_randdata_over_probe.cpp] (under [src/]): random text sent to
    the controller directly, or given to the probe stuffing client. Memory behind
    allocated blocks is a parameter, as in [Controller]; options are as
    [getopt_long] returns them. *)

From Stdlib Require Import ZArith Lia Strings.String.
From stdpp Require Import base option list numbers decidable.
From S2P Require Import Prelude CLib Controller Common DataPath.
Local Open Scope Z_scope.

Definition alphanum : bytes := lit "0123456789ABCDEFGHIJKLMNOPQRSTUVWXYZabcdefghijklmnopqrstuvwxyz".

Inductive gen_event :=
| Gen_system (command : bytes)
| Gen_log (text : bytes).

(** [ARG_BYTES + 300] is computed in [int]. *)
Definition size_ok (ARG_BYTES : Z) : outcome unit := guard_ub Overflow (bool_decide (ARG_BYTES + 300 < 2 ^ 31)).

Section generators.
Context `{Malloc} `{Layout}.

(** [gen_rand_string]: [rnd i] is the [i]-th result of [rand]. The string is in a
    block of [ARG_BYTES + 1] octets. *)
Definition gen_rand_string (ARG_BYTES : Z) (rnd : nat → Z) : outcome bytes :=
  let text := map (λ i, nth (Z.to_nat (rnd i `mod` 62)) alphanum 0) (seq 0 (Z.to_nat ARG_BYTES)) in
  match calloc (ARG_BYTES + 1) with
  | None => Undef NullDeref
  | Some b => if decide (ARG_BYTES < 0) then Undef OutOfBounds else write b 0 (text ++ [0])
  end.

(** [snprintf] of [text] with the limit [n] into a block *)
Definition snprintf (b : option bytes) (n : Z) (text : bytes) : outcome bytes :=
  match b with
  | None => Undef NullDeref
  | Some b => if decide (n < 1) then Ok b else write b 0 (take (Z.to_nat (n - 1)) text ++ [0])
  end.

(** ** Over TCP *)

Inductive tcp_opt :=
| topt_host (arg : bytes) | topt_port (arg : bytes) | topt_bytes (arg : bytes) | topt_unknown.

Record tcp_args := mk_tcp_args {
  TCP_HOST : option bytes;
  TCP_PORT : Z;
  TCP_BYTES : Z }.

Fixpoint tcp_options (os : list tcp_opt) (a : tcp_args) : outcome (run tcp_args) :=
  match os with
  | [] => Ok (Ret a)
  | topt_host arg :: os => h ← copy_arg arg; tcp_options os (mk_tcp_args (Some h) (TCP_PORT a) (TCP_BYTES a))
  | topt_port arg :: os => p ← atoi arg; tcp_options os (mk_tcp_args (TCP_HOST a) p (TCP_BYTES a))
  | topt_bytes arg :: os => n ← atoi arg; tcp_options os (mk_tcp_args (TCP_HOST a) (TCP_PORT a) n)
  | topt_unknown :: _ => Ok (Exit 1)
  end.

Definition tcp_record (gen_ts : Z) (randstr : bytes) : bytes :=
  lit "NA," ++ udec0 18 gen_ts ++ lit ",0,0,0,0," ++ sdec (zlen randstr) ++ 44 :: randstr.

Definition tcp_command (host : bytes) (port : Z) (record : bytes) : bytes :=
  lit "/home/mate/Desktop/domf-code/bin/tcpclient.out --tcp -h" ++ host ++ lit " -p" ++ sdec port ++
  lit " -s" ++ 34 :: record ++ [34].

Definition log_text (data_origin_ts : Z) (data : bytes) : bytes :=
  lit "Data Size: " ++ sdec (zlen data) ++ 10 :: lit "Data Origin Timestamp: " ++ udec0 18 data_origin_ts ++
  10 :: lit "Data: " ++ data ++ [10; 10].

(** [log_ok] tells whether the log file can be opened. *)
Definition send_over_tcp (os : list tcp_opt) (rnd : nat → Z) (tv : Z * Z) (log_ok : bool) :
    outcome (run (list gen_event)) :=
  r ← tcp_options os (mk_tcp_args None (-1) 200);
  match r with
  | Exit n => Ok (Exit n)
  | Ret a =>
    if decide (TCP_PORT a = -1) then Ok (Exit 1)
    else
      match TCP_HOST a with
      | None => Ok (Exit 1)
      | Some h =>
        empty ← strcmp_lit h [];
        if (empty : bool) then Ok (Exit 1)
        else
          _ ← size_ok (TCP_BYTES a);
          o ← gen_rand_string (TCP_BYTES a) rnd;
          let gen_ts := u64 (fst tv * 1000000 + snd tv) in
          let block := calloc (TCP_BYTES a + 100) in
          randstr ← cstr o;
          host ← cstr h;
          command ← snprintf block (TCP_BYTES a + 300)
            (tcp_command host (TCP_PORT a) (tcp_record gen_ts randstr));
          c ← cstr command;
          Ok (Ret (Gen_system c :: if log_ok then [Gen_log (log_text gen_ts randstr)] else []))
      end
  end.

(** ** Over probe requests *)

Inductive probe_opt :=
| popt_iface (arg : bytes) | popt_bytes (arg : bytes) | popt_unknown.

Fixpoint probe_options (os : list probe_opt) (iface : option bytes) (n : Z) :
    outcome (run (option bytes * Z)) :=
  match os with
  | [] => Ok (Ret (iface, n))
  | popt_iface arg :: os => i ← copy_arg arg; probe_options os (Some i) n
  | popt_bytes arg :: os => n ← atoi arg; probe_options os iface n
  | popt_unknown :: _ => Ok (Exit 1)
  end.

Definition path_to_probing_script : bytes :=
  lit "/home/mate/Desktop/domf-code/data_over_wifi/probe_stuffing/probe_stuffing".

Definition script_command (iface randstr : bytes) : bytes :=
  path_to_probing_script ++ lit " -i" ++ iface ++ lit " -d" ++ 34 :: randstr ++ 34 :: lit " -e1".

Definition send_over_probe (os : list probe_opt) (rnd : nat → Z) : outcome (run (list gen_event)) :=
  r ← probe_options os None 200;
  match r with
  | Exit n => Ok (Exit n)
  | Ret (None, _) => Ok (Exit 1)
  | Ret (Some i, n) =>
    empty ← strcmp_lit i [];
    if (empty : bool) then Ok (Exit 1)
    else
      _ ← size_ok n;
      o ← gen_rand_string n rnd;
      let block := calloc (n + 100) in
      iface ← cstr i;
      randstr ← cstr o;
      command ← snprintf block (n + 300) (script_command iface randstr);
      c ← cstr command;
      let up := snprintf_cont 50 (lit "sudo ifconfig " ++ iface ++ lit " up") in
      let down := snprintf_cont 50 (lit "sudo ifconfig " ++ iface ++ lit " down") in
      Ok (Ret [Gen_system up; Gen_system c; Gen_system down])
  end.

End generators.

(** ** The generated text *)

Definition rand_text (n : nat) (rnd : nat → Z) : bytes :=
  map (λ i, nth (Z.to_nat (rnd i `mod` 62)) alphanum 0) (seq 0 n).

Lemma alphanum_octet i : (i < 62)%nat → 48 ≤ nth i alphanum 0 < 128.
Proof.
  intros Hi. assert (Forall (λ c, 48 ≤ c < 128) alphanum) as Hall
    by (apply (bool_decide_eq_true_1 _); vm_compute; reflexivity).
  rewrite Forall_forall in Hall. apply Hall, nth_In. exact Hi.
Qed.

Lemma rand_text_plain n rnd : (0 < n)%nat → plain_text (rand_text n rnd).
Proof.
  intros Hn. split; [destruct n; [lia|done]|]. unfold rand_text. apply List.Forall_map, List.Forall_forall.
  intros i _. assert (0 ≤ rnd i `mod` 62 < 62) by (apply Z.mod_pos_bound; lia).
  pose proof (alphanum_octet (Z.to_nat (rnd i `mod` 62)) ltac:(lia)). unfold plain_octet, EOT. lia.
Qed.

Lemma gen_rand_string_ok `{Malloc} `{Layout} n rnd :
  (∀ k, malloc_ok k = true) → 0 ≤ n →
  gen_rand_string n rnd = Ok (rand_text (Z.to_nat n) rnd ++ 0 :: excess (n + 1)).
Proof.
  intros Hm Hn. unfold gen_rand_string. rewrite (calloc_ok Hm) by lia. rewrite decide_False by lia.
  fold (rand_text (Z.to_nat n) rnd).
  assert (length (rand_text (Z.to_nat n) rnd) = Z.to_nat n) as Hl
    by (unfold rand_text; by rewrite length_map, length_seq).
  unfold write. rewrite length_app, Hl, decide_True by (rewrite length_app, length_replicate; cbn; lia).
  rewrite take_0, app_nil_l, <- app_assoc. cbn [app].
  rewrite (drop_app_length' (replicate _ _)) by (rewrite length_replicate; cbn; lia). done.
Qed.

Lemma tcp_record_fields ts s :
  0 ≤ ts → plain_text s →
  fields (tcp_record ts s) =
    [lit "NA"; udec0 18 ts; lit "0"; lit "0"; lit "0"; lit "0"; udec (zlen s); s].
Proof.
  intros Ht Hs. unfold tcp_record. rewrite EndToEnd.sdec_udec by apply zlen_nonneg.
  assert (plain_text (lit "0")) as H0 by (by split; [|repeat constructor]).
  assert (plain_text (lit "NA")) as HNA by (by split; [|repeat constructor]).
  change (lit "NA,") with (lit "NA" ++ [44]). rewrite <- app_assoc. cbn [app].
  rewrite (fields_cons (lit "NA")) by done. 
  change (lit ",0,0,0,0,") with ([44] ++ lit "0" ++ [44] ++ lit "0" ++ [44] ++ lit "0" ++ [44] ++ lit "0" ++ [44]).
  rewrite <- !app_assoc. cbn [app]. rewrite fields_cons by (by apply udec0_plain).
  do 4 rewrite (fields_cons (lit "0")) by done.
  rewrite fields_cons by (apply udec_plain, zlen_nonneg). by rewrite fields_last.
Qed.

(** The command does not fit into its block, whatever the length of the text. *)
Lemma tcp_command_length host port ts s :
  0 ≤ ts < 10 ^ 18 →
  length (tcp_command host port (tcp_record ts s)) =
    (94 + length host + length (sdec port) + length (sdec (zlen s)) + length s)%nat.
Proof.
  intros Ht. unfold tcp_command, tcp_record. repeat rewrite ?length_app, ?length_cons.
  rewrite (udec0_length 18) by (exact Ht || lia). unfold lit. rewrite !length_map. cbn [length list_ascii_of_string]. lia.
Qed.

Lemma snprintf_overflow `{Malloc} `{Layout} n m text :
  (∀ k, malloc_ok k = true) → 0 ≤ n → 1 ≤ m →
  n + zlen (excess n) ≤ zlen (take (Z.to_nat (m - 1)) text) → snprintf (calloc n) m text = Undef OutOfBounds.
Proof.
  intros Hm Hn Hm1 Hl. unfold snprintf. rewrite (calloc_ok Hm) by done. rewrite decide_False by lia.
  unfold write. unfold zlen in Hl. rewrite decide_False; [done|].
  rewrite !length_app, length_replicate. cbn [length]. lia.
Qed.

Lemma tcp_command_overflows `{Malloc} `{Layout} host port n ts rnd :
  (∀ k, malloc_ok k = true) → 0 ≤ ts < 10 ^ 18 → 1 ≤ n → zlen host + zlen (sdec port) ≤ 190 → 
  zlen (sdec n) ≤ 10 → zlen (excess (n + 100)) + 5 < zlen host + zlen (sdec port) + zlen (sdec n) →
  snprintf (calloc (n + 100)) (n + 300) (tcp_command host port (tcp_record ts (rand_text (Z.to_nat n) rnd))) =
    Undef OutOfBounds.
Proof.
  intros Hm Ht Hn Hs Hd Hl. apply snprintf_overflow; [done|lia|lia|].
  assert (length (rand_text (Z.to_nat n) rnd) = Z.to_nat n) as Hr
    by (unfold rand_text; by rewrite length_map, length_seq).
  unfold zlen at 2. rewrite length_take, tcp_command_length by done.
  assert (zlen (rand_text (Z.to_nat n) rnd) = n) as -> by (unfold zlen; lia).
  unfold zlen in *. lia.
Qed.

(** A record of the TCP generator is stored under the name "NA": the controller
    looks for "NA" in the second field, which holds the time, so that the address of
    the sender never replaces it. *)
Lemma generated_record_stored `{L : Layout} peer con_ts gen_ts n rnd :
  0 ≤ gen_ts < 10 ^ 18 → 0 ≤ con_ts < 10 ^ 18 → (0 < n ≤ 700)%nat → (1 ≤ spare)%nat →
  process_and_save peer con_ts (tcp_record gen_ts (rand_text n rnd)) =
    Ok (insert_text (lit "NA") (udec0 18 gen_ts) (lit "0") con_ts (lit "0") (lit "0") (lit "0")
         (udec (Z.of_nat n)) (rand_text n rnd)).
Proof.
  intros Hg Hc Hn Hs.
  assert (zlen (rand_text n rnd) = Z.of_nat n) as Hl
    by (unfold zlen, rand_text; by rewrite length_map, length_seq).
  erewrite process_eight by (apply tcp_record_fields; [lia|apply rand_text_plain; lia]).
  rewrite decide_True by (cbn; lia). rewrite Hl.
  assert (length (udec0 18 gen_ts) = 18%nat) as Hu by (apply udec0_length; [exact Hg|lia]).
  assert (str_eq (udec0 18 gen_ts) (lit "NA") = false) as ->.
  { apply bool_decide_eq_false. intros He. rewrite He in Hu. discriminate Hu. }
  rewrite bind_Ok.
  unfold snprintf_cont. f_equal. apply take_ge. rewrite insert_length, Hu.
  pose proof (udec_length_le 3 (Z.of_nat n) ltac:(cbn; lia) ltac:(lia)).
  rewrite (udec0_length 18 con_ts) by (exact Hc || lia).
  change (length (lit "NA")) with 2%nat. change (length (lit "0")) with 1%nat. unfold zlen in Hl. lia.
Qed.

Example generated_record_stored_witness :
  let s := rand_text 10 (λ i, Z.of_nat (7 * i)) in
  s = lit "07ELSZgnu1" ∧
  @process_and_save roomy peer_example 1513000000251234 (tcp_record 1513000000250000 s) =
    Ok (insert_text (lit "NA") (udec0 18 1513000000250000) (lit "0") 1513000000251234 (lit "0") (lit "0") (lit "0")
         (udec 10) s).
Proof.
  split; [vm_compute; reflexivity|].
  apply (@generated_record_stored roomy peer_example 1513000000251234 1513000000250000 10
           (λ i, Z.of_nat (7 * i))); done || (cbn; lia).
Defined.
