(* ===== verification/WpaCommon.v ===== *)
(** * WPA: cipher suites, key management and the RSN element

    [src/common/wpa_common.c] and the constants of [wpa_common.h] and [defs.h]:
    cipher and key management suites as bit masks, as selectors in elements and
    as text in the configuration, and the parsers of the RSN and WPA elements.
    Key derivation and the MIC are in [WpaKeys]; what only fast transition
    (802.11r) uses is not modelled. *)

From Stdlib Require Import ZArith Lia Strings.String.
From stdpp Require Import base option list numbers decidable.
From S2P Require Import Prelude CLib Common.
Local Open Scope Z_scope.

(** ** Constants *)

Definition BIT (n : Z) : Z := Z.shiftl 1 n.

Definition WPA_CIPHER_NONE := BIT 0.
Definition WPA_CIPHER_WEP40 := BIT 1.
Definition WPA_CIPHER_WEP104 := BIT 2.
Definition WPA_CIPHER_TKIP := BIT 3.
Definition WPA_CIPHER_CCMP := BIT 4.
Definition WPA_CIPHER_AES_128_CMAC := BIT 5.
Definition WPA_CIPHER_GCMP := BIT 6.
Definition WPA_CIPHER_GCMP_256 := BIT 8.
Definition WPA_CIPHER_CCMP_256 := BIT 9.
Definition WPA_CIPHER_BIP_GMAC_128 := BIT 11.
Definition WPA_CIPHER_BIP_GMAC_256 := BIT 12.
Definition WPA_CIPHER_BIP_CMAC_256 := BIT 13.
Definition WPA_CIPHER_GTK_NOT_USED := BIT 14.

Definition WPA_KEY_MGMT_IEEE8021X := BIT 0.
Definition WPA_KEY_MGMT_PSK := BIT 1.
Definition WPA_KEY_MGMT_NONE := BIT 2.
Definition WPA_KEY_MGMT_IEEE8021X_NO_WPA := BIT 3.
Definition WPA_KEY_MGMT_WPA_NONE := BIT 4.
Definition WPA_KEY_MGMT_FT_IEEE8021X := BIT 5.
Definition WPA_KEY_MGMT_FT_PSK := BIT 6.
Definition WPA_KEY_MGMT_IEEE8021X_SHA256 := BIT 7.
Definition WPA_KEY_MGMT_PSK_SHA256 := BIT 8.
Definition WPA_KEY_MGMT_SAE := BIT 10.
Definition WPA_KEY_MGMT_FT_SAE := BIT 11.
Definition WPA_KEY_MGMT_CCKM := BIT 14.
Definition WPA_KEY_MGMT_OSEN := BIT 15.
Definition WPA_KEY_MGMT_IEEE8021X_SUITE_B := BIT 16.
Definition WPA_KEY_MGMT_IEEE8021X_SUITE_B_192 := BIT 17.

Definition WPA_PROTO_WPA := BIT 0.
Definition WPA_PROTO_RSN := BIT 1.
Definition WPA_PROTO_OSEN := BIT 3.

Definition PMKID_LEN : Z := 16.
Definition WPA_SELECTOR_LEN : Z := 4.
Definition RSN_SELECTOR_LEN : Z := 4.
Definition WPA_VERSION : Z := 1.
Definition RSN_VERSION : Z := 1.
Definition OSEN_IE_VENDOR_TYPE : Z := 0x506f9a12.

Definition RSN_SELECTOR (a b c d : Z) : Z :=
  Z.lor (Z.lor (Z.lor (Z.shiftl a 24) (Z.shiftl b 16)) (Z.shiftl c 8)) d.

Definition WPA_OUI_TYPE := RSN_SELECTOR 0x00 0x50 0xf2 1.
Definition WPA_AUTH_KEY_MGMT_NONE := RSN_SELECTOR 0x00 0x50 0xf2 0.
Definition WPA_AUTH_KEY_MGMT_UNSPEC_802_1X := RSN_SELECTOR 0x00 0x50 0xf2 1.
Definition WPA_AUTH_KEY_MGMT_PSK_OVER_802_1X := RSN_SELECTOR 0x00 0x50 0xf2 2.
Definition WPA_CIPHER_SUITE_NONE := RSN_SELECTOR 0x00 0x50 0xf2 0.
Definition WPA_CIPHER_SUITE_TKIP := RSN_SELECTOR 0x00 0x50 0xf2 2.
Definition WPA_CIPHER_SUITE_CCMP := RSN_SELECTOR 0x00 0x50 0xf2 4.

Definition RSN_AUTH_KEY_MGMT_UNSPEC_802_1X := RSN_SELECTOR 0x00 0x0f 0xac 1.
Definition RSN_AUTH_KEY_MGMT_PSK_OVER_802_1X := RSN_SELECTOR 0x00 0x0f 0xac 2.
Definition RSN_AUTH_KEY_MGMT_802_1X_SHA256 := RSN_SELECTOR 0x00 0x0f 0xac 5.
Definition RSN_AUTH_KEY_MGMT_PSK_SHA256 := RSN_SELECTOR 0x00 0x0f 0xac 6.
Definition RSN_AUTH_KEY_MGMT_802_1X_SUITE_B := RSN_SELECTOR 0x00 0x0f 0xac 11.
Definition RSN_AUTH_KEY_MGMT_802_1X_SUITE_B_192 := RSN_SELECTOR 0x00 0x0f 0xac 12.
Definition RSN_AUTH_KEY_MGMT_OSEN := RSN_SELECTOR 0x50 0x6f 0x9a 0x01.

Definition RSN_CIPHER_SUITE_NONE := RSN_SELECTOR 0x00 0x0f 0xac 0.
Definition RSN_CIPHER_SUITE_TKIP := RSN_SELECTOR 0x00 0x0f 0xac 2.
Definition RSN_CIPHER_SUITE_CCMP := RSN_SELECTOR 0x00 0x0f 0xac 4.
Definition RSN_CIPHER_SUITE_AES_128_CMAC := RSN_SELECTOR 0x00 0x0f 0xac 6.
Definition RSN_CIPHER_SUITE_NO_GROUP_ADDRESSED := RSN_SELECTOR 0x00 0x0f 0xac 7.
Definition RSN_CIPHER_SUITE_GCMP := RSN_SELECTOR 0x00 0x0f 0xac 8.
Definition RSN_CIPHER_SUITE_GCMP_256 := RSN_SELECTOR 0x00 0x0f 0xac 9.
Definition RSN_CIPHER_SUITE_CCMP_256 := RSN_SELECTOR 0x00 0x0f 0xac 10.
Definition RSN_CIPHER_SUITE_BIP_GMAC_128 := RSN_SELECTOR 0x00 0x0f 0xac 11.
Definition RSN_CIPHER_SUITE_BIP_GMAC_256 := RSN_SELECTOR 0x00 0x0f 0xac 12.
Definition RSN_CIPHER_SUITE_BIP_CMAC_256 := RSN_SELECTOR 0x00 0x0f 0xac 13.

Definition RSN_SELECTOR_GET (a : bytes) : outcome Z := WPA_GET_BE32 a.
Definition RSN_SELECTOR_PUT (val : Z) : bytes := WPA_PUT_BE32 val.

(** ** Ciphers *)

Definition wpa_cipher_key_len (cipher : Z) : Z :=
  if decide (cipher ∈ [WPA_CIPHER_CCMP_256; WPA_CIPHER_GCMP_256; WPA_CIPHER_BIP_GMAC_256;
                       WPA_CIPHER_BIP_CMAC_256]) then 32
  else if decide (cipher ∈ [WPA_CIPHER_CCMP; WPA_CIPHER_GCMP; WPA_CIPHER_AES_128_CMAC;
                            WPA_CIPHER_BIP_GMAC_128]) then 16
  else if decide (cipher = WPA_CIPHER_TKIP) then 32
  else 0.

Definition wpa_cipher_rsc_len (cipher : Z) : Z :=
  if decide (cipher ∈ [WPA_CIPHER_CCMP_256; WPA_CIPHER_GCMP_256; WPA_CIPHER_CCMP; WPA_CIPHER_GCMP;
                       WPA_CIPHER_TKIP]) then 6 else 0.

Inductive wpa_alg : Set :=
| WPA_ALG_NONE | WPA_ALG_WEP | WPA_ALG_TKIP | WPA_ALG_CCMP | WPA_ALG_IGTK | WPA_ALG_PMK
| WPA_ALG_GCMP | WPA_ALG_SMS4 | WPA_ALG_KRK | WPA_ALG_GCMP_256 | WPA_ALG_CCMP_256
| WPA_ALG_BIP_GMAC_128 | WPA_ALG_BIP_GMAC_256 | WPA_ALG_BIP_CMAC_256.

#[export] Instance wpa_alg_eq_dec : EqDecision wpa_alg.
Proof. solve_decision. Defined.

Definition wpa_cipher_to_alg (cipher : Z) : wpa_alg :=
  if decide (cipher = WPA_CIPHER_CCMP_256) then WPA_ALG_CCMP_256
  else if decide (cipher = WPA_CIPHER_GCMP_256) then WPA_ALG_GCMP_256
  else if decide (cipher = WPA_CIPHER_CCMP) then WPA_ALG_CCMP
  else if decide (cipher = WPA_CIPHER_GCMP) then WPA_ALG_GCMP
  else if decide (cipher = WPA_CIPHER_TKIP) then WPA_ALG_TKIP
  else if decide (cipher = WPA_CIPHER_AES_128_CMAC) then WPA_ALG_IGTK
  else if decide (cipher = WPA_CIPHER_BIP_GMAC_128) then WPA_ALG_BIP_GMAC_128
  else if decide (cipher = WPA_CIPHER_BIP_GMAC_256) then WPA_ALG_BIP_GMAC_256
  else if decide (cipher = WPA_CIPHER_BIP_CMAC_256) then WPA_ALG_BIP_CMAC_256
  else WPA_ALG_NONE.

Definition wpa_cipher_valid_pairwise (cipher : Z) : bool :=
  bool_decide (cipher = WPA_CIPHER_CCMP_256 ∨ cipher = WPA_CIPHER_GCMP_256 ∨ cipher = WPA_CIPHER_CCMP ∨
               cipher = WPA_CIPHER_GCMP ∨ cipher = WPA_CIPHER_TKIP).

Definition wpa_cipher_valid_group (cipher : Z) : bool :=
  wpa_cipher_valid_pairwise cipher || bool_decide (cipher = WPA_CIPHER_GTK_NOT_USED).

Definition wpa_cipher_valid_mgmt_group (cipher : Z) : bool :=
  bool_decide (cipher = WPA_CIPHER_AES_128_CMAC ∨ cipher = WPA_CIPHER_BIP_GMAC_128 ∨
               cipher = WPA_CIPHER_BIP_GMAC_256 ∨ cipher = WPA_CIPHER_BIP_CMAC_256).

Definition wpa_cipher_to_suite (proto cipher : Z) : Z :=
  let rsn := bool_decide (proto = WPA_PROTO_RSN) in
  if has_flag cipher WPA_CIPHER_CCMP_256 then RSN_CIPHER_SUITE_CCMP_256
  else if has_flag cipher WPA_CIPHER_GCMP_256 then RSN_CIPHER_SUITE_GCMP_256
  else if has_flag cipher WPA_CIPHER_CCMP then if rsn then RSN_CIPHER_SUITE_CCMP else WPA_CIPHER_SUITE_CCMP
  else if has_flag cipher WPA_CIPHER_GCMP then RSN_CIPHER_SUITE_GCMP
  else if has_flag cipher WPA_CIPHER_TKIP then if rsn then RSN_CIPHER_SUITE_TKIP else WPA_CIPHER_SUITE_TKIP
  else if has_flag cipher WPA_CIPHER_NONE then if rsn then RSN_CIPHER_SUITE_NONE else WPA_CIPHER_SUITE_NONE
  else if has_flag cipher WPA_CIPHER_GTK_NOT_USED then RSN_CIPHER_SUITE_NO_GROUP_ADDRESSED
  else if has_flag cipher WPA_CIPHER_AES_128_CMAC then RSN_CIPHER_SUITE_AES_128_CMAC
  else if has_flag cipher WPA_CIPHER_BIP_GMAC_128 then RSN_CIPHER_SUITE_BIP_GMAC_128
  else if has_flag cipher WPA_CIPHER_BIP_GMAC_256 then RSN_CIPHER_SUITE_BIP_GMAC_256
  else if has_flag cipher WPA_CIPHER_BIP_CMAC_256 then RSN_CIPHER_SUITE_BIP_CMAC_256
  else 0.

(** One [if (flags & flag) { RSN_SELECTOR_PUT(pos, suite); ... }] *)
Definition suite_if (flags flag suite : Z) : list Z := if has_flag flags flag then [suite] else [].

(** The suites put at [start], whose number is the result *)
Definition rsn_cipher_put_suites (ciphers : Z) : list Z :=
  suite_if ciphers WPA_CIPHER_CCMP_256 RSN_CIPHER_SUITE_CCMP_256 ++
  suite_if ciphers WPA_CIPHER_GCMP_256 RSN_CIPHER_SUITE_GCMP_256 ++
  suite_if ciphers WPA_CIPHER_CCMP RSN_CIPHER_SUITE_CCMP ++
  suite_if ciphers WPA_CIPHER_GCMP RSN_CIPHER_SUITE_GCMP ++
  suite_if ciphers WPA_CIPHER_TKIP RSN_CIPHER_SUITE_TKIP ++
  suite_if ciphers WPA_CIPHER_NONE RSN_CIPHER_SUITE_NONE.

Definition wpa_cipher_put_suites (ciphers : Z) : list Z :=
  suite_if ciphers WPA_CIPHER_CCMP WPA_CIPHER_SUITE_CCMP ++
  suite_if ciphers WPA_CIPHER_TKIP WPA_CIPHER_SUITE_TKIP ++
  suite_if ciphers WPA_CIPHER_NONE WPA_CIPHER_SUITE_NONE.

Definition wpa_pick_pairwise_cipher (ciphers : Z) (none_allowed : bool) : Z :=
  if has_flag ciphers WPA_CIPHER_CCMP_256 then WPA_CIPHER_CCMP_256
  else if has_flag ciphers WPA_CIPHER_GCMP_256 then WPA_CIPHER_GCMP_256
  else if has_flag ciphers WPA_CIPHER_CCMP then WPA_CIPHER_CCMP
  else if has_flag ciphers WPA_CIPHER_GCMP then WPA_CIPHER_GCMP
  else if has_flag ciphers WPA_CIPHER_TKIP then WPA_CIPHER_TKIP
  else if none_allowed && has_flag ciphers WPA_CIPHER_NONE then WPA_CIPHER_NONE
  else -1.

Definition wpa_pick_group_cipher (ciphers : Z) : Z :=
  if has_flag ciphers WPA_CIPHER_CCMP_256 then WPA_CIPHER_CCMP_256
  else if has_flag ciphers WPA_CIPHER_GCMP_256 then WPA_CIPHER_GCMP_256
  else if has_flag ciphers WPA_CIPHER_CCMP then WPA_CIPHER_CCMP
  else if has_flag ciphers WPA_CIPHER_GCMP then WPA_CIPHER_GCMP
  else if has_flag ciphers WPA_CIPHER_GTK_NOT_USED then WPA_CIPHER_GTK_NOT_USED
  else if has_flag ciphers WPA_CIPHER_TKIP then WPA_CIPHER_TKIP
  else -1.

Definition wpa_select_ap_group_cipher (wpa wpa_pairwise rsn_pairwise : Z) : Z :=
  let pairwise := Z.lor (if has_flag wpa 1 then wpa_pairwise else 0)
                        (if has_flag wpa 2 then rsn_pairwise else 0) in
  if has_flag pairwise WPA_CIPHER_TKIP then WPA_CIPHER_TKIP
  else if decide (Z.land pairwise (Z.lor WPA_CIPHER_CCMP WPA_CIPHER_GCMP) = WPA_CIPHER_GCMP)
  then WPA_CIPHER_GCMP
  else if decide (Z.land pairwise (Z.lor (Z.lor WPA_CIPHER_GCMP_256 WPA_CIPHER_CCMP) WPA_CIPHER_GCMP) =
                  WPA_CIPHER_GCMP_256) then WPA_CIPHER_GCMP_256
  else if decide (Z.land pairwise (Z.lor (Z.lor WPA_CIPHER_CCMP_256 WPA_CIPHER_CCMP) WPA_CIPHER_GCMP) =
                  WPA_CIPHER_CCMP_256) then WPA_CIPHER_CCMP_256
  else WPA_CIPHER_CCMP.

(** ** Ciphers as text *)

Definition is_blank (c : Z) : bool := bool_decide (c = 32 ∨ c = 9).

Fixpoint skip_blanks (s : bytes) : bytes :=
  match s with
  | c :: r => if is_blank c then skip_blanks r else s
  | [] => []
  end.

(** The characters before the next blank, and what starts with it *)
Fixpoint word (s : bytes) : bytes * bytes :=
  match s with
  | c :: r => if is_blank c then ([], s) else let w := word r in (c :: w.1, w.2)
  | [] => ([], [])
  end.

Definition cipher_of (s : bytes) : option Z :=
  if str_eq s (lit "CCMP-256") then Some WPA_CIPHER_CCMP_256
  else if str_eq s (lit "GCMP-256") then Some WPA_CIPHER_GCMP_256
  else if str_eq s (lit "CCMP") then Some WPA_CIPHER_CCMP
  else if str_eq s (lit "GCMP") then Some WPA_CIPHER_GCMP
  else if str_eq s (lit "TKIP") then Some WPA_CIPHER_TKIP
  else if str_eq s (lit "WEP104") then Some WPA_CIPHER_WEP104
  else if str_eq s (lit "WEP40") then Some WPA_CIPHER_WEP40
  else if str_eq s (lit "NONE") then Some WPA_CIPHER_NONE
  else if str_eq s (lit "GTK_NOT_USED") then Some WPA_CIPHER_GTK_NOT_USED
  else None.

(** The loop; every word but the last is followed by a blank, so that each turn
    consumes an octet. *)
Fixpoint parse_ciphers (fuel : nat) (s : bytes) (val : Z) : outcome Z :=
  match fuel with
  | O => Stuck
  | S fuel =>
    match skip_blanks s with
    | [] => Ok val
    | s =>
      let w := word s in
      match cipher_of w.1 with
      | None => Ok (-1)
      | Some c =>
        let val := Z.lor val c in
        match w.2 with
        | [] => Ok val
        | _ :: r => parse_ciphers fuel r val
        end
      end
    end
  end.

(** [mem] tells whether the copy of the text can be allocated. *)
Definition wpa_parse_cipher (mem : bool) (value : bytes) : outcome Z :=
  if mem then parse_ciphers (S (length value)) value 0 else Ok (-1).

(** One [if (ciphers & flag) { os_snprintf(...) }]: [None] for the error *)
Definition write_cipher (size : Z) (ciphers flag : Z) (delim name : bytes) (acc : option bytes) : option bytes :=
  match acc with
  | None => None
  | Some s =>
    if has_flag ciphers flag then
      let t := (if decide (s = []) then [] else delim) ++ name in
      if decide (zlen t < size - zlen s) then Some (s ++ t) else None
    else Some s
  end.

(** The result is the text written to a buffer of [size] octets; its length is
    what the function returns. *)
Definition wpa_write_ciphers (size ciphers : Z) (delim : bytes) : option bytes :=
  write_cipher size ciphers WPA_CIPHER_NONE delim (lit "NONE")
  (write_cipher size ciphers WPA_CIPHER_TKIP delim (lit "TKIP")
  (write_cipher size ciphers WPA_CIPHER_GCMP delim (lit "GCMP")
  (write_cipher size ciphers WPA_CIPHER_CCMP delim (lit "CCMP")
  (write_cipher size ciphers WPA_CIPHER_GCMP_256 delim (lit "GCMP-256")
  (write_cipher size ciphers WPA_CIPHER_CCMP_256 delim (lit "CCMP-256") (Some [])))))).

(** ** The RSN and WPA elements *)

Definition rsn_selector_to_bitfield (s : Z) : Z :=
  if decide (s = RSN_CIPHER_SUITE_NONE) then WPA_CIPHER_NONE
  else if decide (s = RSN_CIPHER_SUITE_TKIP) then WPA_CIPHER_TKIP
  else if decide (s = RSN_CIPHER_SUITE_CCMP) then WPA_CIPHER_CCMP
  else if decide (s = RSN_CIPHER_SUITE_AES_128_CMAC) then WPA_CIPHER_AES_128_CMAC
  else if decide (s = RSN_CIPHER_SUITE_GCMP) then WPA_CIPHER_GCMP
  else if decide (s = RSN_CIPHER_SUITE_CCMP_256) then WPA_CIPHER_CCMP_256
  else if decide (s = RSN_CIPHER_SUITE_GCMP_256) then WPA_CIPHER_GCMP_256
  else if decide (s = RSN_CIPHER_SUITE_BIP_GMAC_128) then WPA_CIPHER_BIP_GMAC_128
  else if decide (s = RSN_CIPHER_SUITE_BIP_GMAC_256) then WPA_CIPHER_BIP_GMAC_256
  else if decide (s = RSN_CIPHER_SUITE_BIP_CMAC_256) then WPA_CIPHER_BIP_CMAC_256
  else if decide (s = RSN_CIPHER_SUITE_NO_GROUP_ADDRESSED) then WPA_CIPHER_GTK_NOT_USED
  else 0.

Definition rsn_key_mgmt_to_bitfield (s : Z) : Z :=
  if decide (s = RSN_AUTH_KEY_MGMT_UNSPEC_802_1X) then WPA_KEY_MGMT_IEEE8021X
  else if decide (s = RSN_AUTH_KEY_MGMT_PSK_OVER_802_1X) then WPA_KEY_MGMT_PSK
  else if decide (s = RSN_AUTH_KEY_MGMT_802_1X_SHA256) then WPA_KEY_MGMT_IEEE8021X_SHA256
  else if decide (s = RSN_AUTH_KEY_MGMT_PSK_SHA256) then WPA_KEY_MGMT_PSK_SHA256
  else if decide (s = RSN_AUTH_KEY_MGMT_802_1X_SUITE_B) then WPA_KEY_MGMT_IEEE8021X_SUITE_B
  else if decide (s = RSN_AUTH_KEY_MGMT_802_1X_SUITE_B_192) then WPA_KEY_MGMT_IEEE8021X_SUITE_B_192
  else if decide (s = RSN_AUTH_KEY_MGMT_OSEN) then WPA_KEY_MGMT_OSEN
  else 0.

Definition wpa_selector_to_bitfield (s : Z) : Z :=
  if decide (s = WPA_CIPHER_SUITE_NONE) then WPA_CIPHER_NONE
  else if decide (s = WPA_CIPHER_SUITE_TKIP) then WPA_CIPHER_TKIP
  else if decide (s = WPA_CIPHER_SUITE_CCMP) then WPA_CIPHER_CCMP
  else 0.

Definition wpa_key_mgmt_to_bitfield (s : Z) : Z :=
  if decide (s = WPA_AUTH_KEY_MGMT_UNSPEC_802_1X) then WPA_KEY_MGMT_IEEE8021X
  else if decide (s = WPA_AUTH_KEY_MGMT_PSK_OVER_802_1X) then WPA_KEY_MGMT_PSK
  else if decide (s = WPA_AUTH_KEY_MGMT_NONE) then WPA_KEY_MGMT_WPA_NONE
  else 0.

(** [struct wpa_ie_data]; [pmkid] is the run of octets from the pointer on. *)
Record wpa_ie_data := mk_wpa_ie {
  proto : Z;
  pairwise_cipher : Z;
  group_cipher : Z;
  key_mgmt : Z;
  capabilities : Z;
  num_pmkid : Z;
  pmkid : option bytes;
  mgmt_group_cipher : Z }.

#[export] Instance wpa_ie_data_eta : Eta wpa_ie_data := λ d, mk_wpa_ie (proto d) (pairwise_cipher d)
  (group_cipher d) (key_mgmt d) (capabilities d) (num_pmkid d) (pmkid d) (mgmt_group_cipher d).

(** A part of the parser goes on from [pos] with [left_] octets, or returns an error
    with what was parsed until then. *)
Inductive parsing : Type :=
| Next (d : wpa_ie_data) (pos : bytes) (left_ : Z)
| Error (res : Z) (d : wpa_ie_data).

Definition then_ (p : outcome parsing) (f : wpa_ie_data → bytes → Z → outcome parsing) : outcome parsing :=
  r ← p;
  match r with
  | Next d pos left_ => f d pos left_
  | Error res d => Ok (Error res d)
  end.

Definition parsed (p : outcome parsing) : outcome (Z * wpa_ie_data) :=
  r ← p;
  match r with
  | Next d _ _ => Ok (0, d)
  | Error res d => Ok (res, d)
  end.

(** The loop over [count] suites *)
Fixpoint or_suites (to_bitfield : Z → Z) (count : nat) (pos : bytes) (left_ acc : Z) :
    outcome (Z * bytes * Z) :=
  match count with
  | O => Ok (acc, pos, left_)
  | S count =>
    s ← RSN_SELECTOR_GET pos;
    or_suites to_bitfield count (drop 4 pos) (left_ - RSN_SELECTOR_LEN) (Z.lor acc (to_bitfield s))
  end.

(** A counted list of suites, stored with [put]; [botch] and [short] are the error
    codes. *)
Definition suite_list (to_bitfield : Z → Z) (put : Z → wpa_ie_data → wpa_ie_data) (botch short : Z)
    (d : wpa_ie_data) (pos : bytes) (left_ : Z) : outcome parsing :=
  if decide (2 ≤ left_) then
    count ← WPA_GET_LE16 pos;
    let pos := drop 2 pos in
    let left_ := left_ - 2 in
    if decide (count = 0 ∨ left_ / RSN_SELECTOR_LEN < count) then Ok (Error botch (put 0 d))
    else
      r ← or_suites to_bitfield (Z.to_nat count) pos left_ 0;
      Ok (Next (put r.1.1 d) r.1.2 r.2)
  else if decide (left_ = 1) then Ok (Error short d)
  else Ok (Next d pos left_).

Definition put_pairwise (v : Z) (d : wpa_ie_data) : wpa_ie_data := d <| pairwise_cipher := v |>.
Definition put_key_mgmt (v : Z) (d : wpa_ie_data) : wpa_ie_data := d <| key_mgmt := v |>.

Definition parse_capabilities (d : wpa_ie_data) (pos : bytes) (left_ : Z) : outcome parsing :=
  if decide (2 ≤ left_) then
    c ← WPA_GET_LE16 pos;
    Ok (Next (d <| capabilities := c |>) (drop 2 pos) (left_ - 2))
  else Ok (Next d pos left_).

Definition rsn_group (d : wpa_ie_data) (pos : bytes) (left_ : Z) : outcome parsing :=
  if decide (RSN_SELECTOR_LEN ≤ left_) then
    s ← RSN_SELECTOR_GET pos;
    let d := d <| group_cipher := rsn_selector_to_bitfield s |> in
    if wpa_cipher_valid_group (group_cipher d) then Ok (Next d (drop 4 pos) (left_ - RSN_SELECTOR_LEN))
    else Ok (Error (-1) d)
  else if decide (0 < left_) then Ok (Error (-3) d)
  else Ok (Next d pos left_).

Definition rsn_no_cmac (d : wpa_ie_data) (pos : bytes) (left_ : Z) : outcome parsing :=
  if has_flag (pairwise_cipher d) WPA_CIPHER_AES_128_CMAC then Ok (Error (-1) d) else Ok (Next d pos left_).

(** The check of the pairwise ciphers is in the branch that read them; for the
    default it holds anyway. *)
Definition rsn_pairwise_suites (d : wpa_ie_data) (pos : bytes) (left_ : Z) : outcome parsing :=
  then_ (suite_list rsn_selector_to_bitfield put_pairwise (-4) (-5) d pos left_) rsn_no_cmac.

Definition rsn_pmkids (d : wpa_ie_data) (pos : bytes) (left_ : Z) : outcome parsing :=
  if decide (2 ≤ left_) then
    n ← WPA_GET_LE16 pos;
    let pos := drop 2 pos in
    let left_ := left_ - 2 in
    if decide (left_ / PMKID_LEN < n) then Ok (Error (-9) (d <| num_pmkid := 0 |>))
    else Ok (Next (d <| num_pmkid := n |> <| pmkid := Some pos |>)
                  (drop (Z.to_nat (n * PMKID_LEN)) pos) (left_ - n * PMKID_LEN))
  else Ok (Next d pos left_).

Definition rsn_mgmt_group (d : wpa_ie_data) (pos : bytes) (left_ : Z) : outcome parsing :=
  if decide (4 ≤ left_) then
    s ← RSN_SELECTOR_GET pos;
    let d := d <| mgmt_group_cipher := rsn_selector_to_bitfield s |> in
    if wpa_cipher_valid_mgmt_group (mgmt_group_cipher d)
    then Ok (Next d (drop 4 pos) (left_ - RSN_SELECTOR_LEN))
    else Ok (Error (-10) d)
  else Ok (Next d pos left_).

Definition sizeof_rsn_ie_hdr : Z := 4.
Definition sizeof_wpa_ie_hdr : Z := 8.

Definition rsn_defaults : wpa_ie_data :=
  mk_wpa_ie WPA_PROTO_RSN WPA_CIPHER_CCMP WPA_CIPHER_CCMP WPA_KEY_MGMT_IEEE8021X 0 0 None
    WPA_CIPHER_AES_128_CMAC.

(** The header: an OSEN element or an RSN element of the right length and version *)
Definition rsn_header (rsn_ie : bytes) (rsn_ie_len : Z) : outcome parsing :=
  osen ←
    (if decide (6 ≤ rsn_ie_len) then
       l ← rd rsn_ie 1;
       if decide (4 ≤ l ∧ l = rsn_ie_len - 2) then
         t ← WPA_GET_BE32 (drop 2 rsn_ie); Ok (bool_decide (t = OSEN_IE_VENDOR_TYPE))
       else Ok false
     else Ok false);
  if (osen : bool) then
    Ok (Next (rsn_defaults <| proto := WPA_PROTO_OSEN |>) (drop 6 rsn_ie) (rsn_ie_len - 6))
  else
    id ← rd rsn_ie 0;
    if decide (id ≠ WLAN_EID_RSN) then Ok (Error (-2) rsn_defaults)
    else
      l ← rd rsn_ie 1;
      if decide (l ≠ rsn_ie_len - 2) then Ok (Error (-2) rsn_defaults)
      else
        v ← WPA_GET_LE16 (drop 2 rsn_ie);
        if decide (v ≠ RSN_VERSION) then Ok (Error (-2) rsn_defaults)
        else Ok (Next rsn_defaults (drop 4 rsn_ie) (rsn_ie_len - sizeof_rsn_ie_hdr)).

(** The fields after the header, in order *)
Definition rsn_fields (d : wpa_ie_data) (pos : bytes) (left_ : Z) : outcome parsing :=
  then_ (rsn_group d pos left_) (λ d pos left_,
  then_ (rsn_pairwise_suites d pos left_) (λ d pos left_,
  then_ (suite_list rsn_key_mgmt_to_bitfield put_key_mgmt (-6) (-7) d pos left_) (λ d pos left_,
  then_ (parse_capabilities d pos left_) (λ d pos left_,
  then_ (rsn_pmkids d pos left_) rsn_mgmt_group)))).

Definition wpa_parse_wpa_ie_rsn (rsn_ie : bytes) (rsn_ie_len : Z) : outcome (Z * wpa_ie_data) :=
  if decide (rsn_ie_len = 0) then Ok (-1, rsn_defaults)
  else if decide (rsn_ie_len < sizeof_rsn_ie_hdr) then Ok (-1, rsn_defaults)
  else parsed (then_ (rsn_header rsn_ie rsn_ie_len) rsn_fields).

Definition wpa_defaults : wpa_ie_data :=
  mk_wpa_ie WPA_PROTO_WPA WPA_CIPHER_TKIP WPA_CIPHER_TKIP WPA_KEY_MGMT_IEEE8021X 0 0 None 0.

Definition wpa_header (wpa_ie : bytes) (wpa_ie_len : Z) : outcome parsing :=
  id ← rd wpa_ie 0;
  if decide (id ≠ WLAN_EID_VENDOR_SPECIFIC) then Ok (Error (-2) wpa_defaults)
  else
    l ← rd wpa_ie 1;
    if decide (l ≠ wpa_ie_len - 2) then Ok (Error (-2) wpa_defaults)
    else
      oui ← RSN_SELECTOR_GET (drop 2 wpa_ie);
      if decide (oui ≠ WPA_OUI_TYPE) then Ok (Error (-2) wpa_defaults)
      else
        v ← WPA_GET_LE16 (drop 6 wpa_ie);
        if decide (v ≠ WPA_VERSION) then Ok (Error (-2) wpa_defaults)
        else Ok (Next wpa_defaults (drop 8 wpa_ie) (wpa_ie_len - sizeof_wpa_ie_hdr)).

Definition wpa_group_suite (d : wpa_ie_data) (pos : bytes) (left_ : Z) : outcome parsing :=
  if decide (WPA_SELECTOR_LEN ≤ left_) then
    s ← RSN_SELECTOR_GET pos;
    Ok (Next (d <| group_cipher := wpa_selector_to_bitfield s |>) (drop 4 pos) (left_ - WPA_SELECTOR_LEN))
  else if decide (0 < left_) then Ok (Error (-3) d)
  else Ok (Next d pos left_).

Definition wpa_fields (d : wpa_ie_data) (pos : bytes) (left_ : Z) : outcome parsing :=
  then_ (wpa_group_suite d pos left_) (λ d pos left_,
  then_ (suite_list wpa_selector_to_bitfield put_pairwise (-4) (-5) d pos left_) (λ d pos left_,
  then_ (suite_list wpa_key_mgmt_to_bitfield put_key_mgmt (-6) (-7) d pos left_) parse_capabilities)).

Definition wpa_parse_wpa_ie_wpa (wpa_ie : bytes) (wpa_ie_len : Z) : outcome (Z * wpa_ie_data) :=
  if decide (wpa_ie_len < sizeof_wpa_ie_hdr) then Ok (-1, wpa_defaults)
  else parsed (then_ (wpa_header wpa_ie wpa_ie_len) wpa_fields).

(** ** Reading inside the element *)

Lemma get_le16_ok pos : bytes_ok pos → 2 ≤ zlen pos → ∃ v, WPA_GET_LE16 pos = Ok v ∧ 0 ≤ v < 2 ^ 16.
Proof.
  intros Hb Hl. unfold zlen in Hl. destruct pos as [|a [|b r]]; [cbn in Hl; lia..|].
  apply Forall_cons_iff in Hb as [Ha [Hb _]%Forall_cons_iff]. unfold is_u8 in *.
  exists (b * 2 ^ 8 + a). unfold WPA_GET_LE16.
  rewrite (eq_refl : rd (a :: b :: r) 1 = Ok b), (eq_refl : rd (a :: b :: r) 0 = Ok a), !bind_Ok.
  rewrite lor_shiftl_add by lia. split; [done|lia].
Qed.

Lemma get_be32_ok pos : 4 ≤ zlen pos → ∃ v, WPA_GET_BE32 pos = Ok v.
Proof.
  intros Hl. unfold zlen in Hl. destruct pos as [|a [|b [|c [|d r]]]]; cbn in Hl; try lia. by eexists.
Qed.

(** The rest of the element is where [pos] points to. *)
Definition fits (pos : bytes) (left_ : Z) : Prop := 0 ≤ left_ ≤ zlen pos ∧ bytes_ok pos.

(** The PMKIDs are inside the element. *)
Definition pmkids_inside (d : wpa_ie_data) : Prop :=
  match pmkid d with
  | Some p => 0 ≤ num_pmkid d ∧ num_pmkid d * PMKID_LEN ≤ zlen p
  | None => num_pmkid d = 0
  end.

Definition safe (p : outcome parsing) : Prop :=
  ∃ r, p = Ok r ∧
    match r with
    | Next d pos left_ => fits pos left_ ∧ pmkids_inside d
    | Error _ d => pmkids_inside d ∨ num_pmkid d = 0
    end.

Lemma then_safe p f :
  safe p → (∀ d pos left_, fits pos left_ → pmkids_inside d → safe (f d pos left_)) → safe (then_ p f).
Proof.
  intros ([d pos l|res d] & -> & Hr) Hf; cbn; [|by eexists]. destruct Hr. by apply Hf.
Qed.

Lemma fits_drop pos l n : fits pos l → 0 ≤ n ≤ l → fits (drop (Z.to_nat n) pos) (l - n).
Proof.
  intros [Hl Hb] Hn. split; [|by apply Forall_drop]. unfold zlen in *. rewrite length_drop. lia.
Qed.

Lemma or_suites_ok conv count pos l acc :
  fits pos l → Z.of_nat count * 4 ≤ l →
  ∃ v, or_suites conv count pos l acc =
    Ok (v, drop (count * 4) pos, l - Z.of_nat count * 4) ∧ fits (drop (count * 4) pos) (l - Z.of_nat count * 4).
Proof.
  revert pos l acc. induction count as [|n IH]; intros pos l acc Hf Hn.
  - exists acc. cbn. rewrite drop_0, Z.sub_0_r. done.
  - cbn [or_suites]. destruct (get_be32_ok pos) as [s Hs]; [destruct Hf; lia|].
    unfold RSN_SELECTOR_GET. rewrite Hs, bind_Ok. pose proof (fits_drop pos l 4 Hf ltac:(lia)) as Hf'.
    change (Z.to_nat 4) with 4%nat in Hf'.
    destruct (IH (drop 4 pos) (l - 4) (Z.lor acc (conv s)) Hf' ltac:(lia)) as (v & Hv & Hfv).
    exists v. unfold RSN_SELECTOR_LEN. rewrite Hv. rewrite drop_drop in *.
    replace (S n * 4)%nat with (4 + n * 4)%nat by lia.
    replace (l - 4 - Z.of_nat n * 4) with (l - Z.of_nat (S n) * 4) in * by lia. done.
Qed.

Lemma suite_list_safe conv put botch short d pos l :
  (∀ v d, pmkid (put v d) = pmkid d ∧ num_pmkid (put v d) = num_pmkid d) →
  fits pos l → pmkids_inside d → safe (suite_list conv put botch short d pos l).
Proof.
  intros Hput Hf Hd. assert (∀ v, pmkids_inside (put v d)) as Hd'.
  { intros v. unfold pmkids_inside. destruct (Hput v d) as [-> ->]. done. }
  unfold suite_list. destruct (decide _).
  - destruct (get_le16_ok pos) as (c & -> & Hc); [apply Hf|destruct Hf; lia|]. rewrite bind_Ok.
    pose proof (fits_drop pos l 2 Hf ltac:(lia)) as Hf'. change (Z.to_nat 2) with 2%nat in Hf'.
    destruct (decide _) as [|Hn]; [eexists; split; [done|by left]|].
    assert (c * 4 ≤ l - 2) as Hle.
    { assert (c ≤ (l - 2) / 4) by (unfold RSN_SELECTOR_LEN in Hn; lia).
      pose proof (Z.mul_div_le (l - 2) 4). lia. }
    destruct (or_suites_ok conv (Z.to_nat c) (drop 2 pos) (l - 2) 0 Hf' ltac:(lia)) as (v & -> & Hv).
    rewrite bind_Ok. eexists. split; [done|]. cbn [fst snd]. done.
  - destruct (decide _); eexists; (split; [done|]); [by left|done].
Qed.

Ltac part_safe Hf Hd :=
  repeat match goal with
  | |- safe (if _ then _ else _) => destruct (decide _)
  end;
  try (eexists; split; [done|]; first [by left | done]).

Lemma capabilities_safe d pos l : fits pos l → pmkids_inside d → safe (parse_capabilities d pos l).
Proof.
  intros Hf Hd. unfold parse_capabilities. part_safe Hf Hd.
  destruct (get_le16_ok pos) as (c & -> & Hc); [apply Hf|destruct Hf; lia|].
  eexists. split; [done|]. split; [|done]. by apply (fits_drop pos l 2); [|lia].
Qed.

Lemma rsn_group_safe d pos l : fits pos l → pmkids_inside d → safe (rsn_group d pos l).
Proof.
  intros Hf Hd. unfold rsn_group, RSN_SELECTOR_LEN, RSN_SELECTOR_GET. part_safe Hf Hd.
  destruct (get_be32_ok pos) as (c & ->); [destruct Hf; lia|]. rewrite bind_Ok. cbv zeta.
  destruct (wpa_cipher_valid_group _); eexists; (split; [done|]); [|by left].
  split; [|done]. by apply (fits_drop pos l 4); [|lia].
Qed.

Lemma wpa_group_safe d pos l : fits pos l → pmkids_inside d → safe (wpa_group_suite d pos l).
Proof.
  intros Hf Hd. unfold wpa_group_suite, WPA_SELECTOR_LEN, RSN_SELECTOR_GET. part_safe Hf Hd.
  destruct (get_be32_ok pos) as (c & ->); [destruct Hf; lia|].
  eexists; (split; [done|]). split; [|done]. by apply (fits_drop pos l 4); [|lia].
Qed.

Lemma rsn_pairwise_safe d pos l : fits pos l → pmkids_inside d → safe (rsn_pairwise_suites d pos l).
Proof.
  intros Hf Hd. apply then_safe; [by apply suite_list_safe|]. clear. intros d pos l Hf Hd. unfold rsn_no_cmac.
  destruct (has_flag _ _); eexists; (split; [done|]); [by left|done].
Qed.

Lemma rsn_pmkids_safe d pos l : fits pos l → pmkids_inside d → safe (rsn_pmkids d pos l).
Proof.
  intros Hf Hd. unfold rsn_pmkids. part_safe Hf Hd.
  destruct (get_le16_ok pos) as (n & -> & Hn); [apply Hf|destruct Hf; lia|]. rewrite bind_Ok.
  pose proof (fits_drop pos l 2 Hf ltac:(lia)) as Hf'. change (Z.to_nat 2) with 2%nat in Hf'.
  destruct (decide _) as [|Hle]; [eexists; split; [done|by right]|]. unfold PMKID_LEN in *.
  assert (n * 16 ≤ l - 2) by (pose proof (Z.mul_div_le (l - 2) 16); lia).
  eexists. split; [done|]. split; [by apply fits_drop; [|lia]|].
  unfold pmkids_inside. cbn. unfold PMKID_LEN. destruct Hf' as [Hf' _]. lia.
Qed.

Lemma rsn_mgmt_group_safe d pos l : fits pos l → pmkids_inside d → safe (rsn_mgmt_group d pos l).
Proof.
  intros Hf Hd. unfold rsn_mgmt_group, RSN_SELECTOR_LEN, RSN_SELECTOR_GET. part_safe Hf Hd.
  destruct (get_be32_ok pos) as (c & ->); [destruct Hf; lia|]. rewrite bind_Ok. cbv zeta.
  destruct (wpa_cipher_valid_mgmt_group _); eexists; (split; [done|]); [|by left].
  split; [|done]. by apply (fits_drop pos l 4); [|lia].
Qed.

Lemma rsn_fields_safe d pos l : fits pos l → pmkids_inside d → safe (rsn_fields d pos l).
Proof.
  intros Hf Hd.
  apply then_safe; [by apply rsn_group_safe|]. clear. intros d pos l Hf Hd.
  apply then_safe; [by apply rsn_pairwise_safe|]. clear. intros d pos l Hf Hd.
  apply then_safe; [by apply suite_list_safe|]. clear. intros d pos l Hf Hd.
  apply then_safe; [by apply capabilities_safe|]. clear. intros d pos l Hf Hd.
  apply then_safe; [by apply rsn_pmkids_safe|]. clear. intros d pos l Hf Hd.
  by apply rsn_mgmt_group_safe.
Qed.

Lemma wpa_fields_safe d pos l : fits pos l → pmkids_inside d → safe (wpa_fields d pos l).
Proof.
  intros Hf Hd.
  apply then_safe; [by apply wpa_group_safe|]. clear. intros d pos l Hf Hd.
  apply then_safe; [by apply suite_list_safe|]. clear. intros d pos l Hf Hd.
  apply then_safe; [by apply suite_list_safe|]. clear. intros d pos l Hf Hd.
  by apply capabilities_safe.
Qed.

Lemma rsn_header_safe ie : bytes_ok ie → sizeof_rsn_ie_hdr ≤ zlen ie → safe (rsn_header ie (zlen ie)).
Proof.
  intros Hb Hl. unfold sizeof_rsn_ie_hdr in Hl.
  assert (fits ie (zlen ie)) as Hf by (split; [pose proof (zlen_nonneg ie); lia|done]).
  destruct (rd_lt ie 0) as (id & Hid & _); [unfold zlen in Hl; lia|].
  destruct (rd_lt ie 1) as (l & Hlen & _); [unfold zlen in Hl; lia|].
  destruct (get_le16_ok (drop 2 ie)) as (v & Hv & _).
  { by apply Forall_drop. } { unfold zlen in *. rewrite length_drop. lia. }
  unfold rsn_header. rewrite Hid, Hlen, !bind_Ok, Hv.
  assert (∃ o, (if decide (6 ≤ zlen ie) then
      if decide (4 ≤ l ∧ l = zlen ie - 2) then
        t ← WPA_GET_BE32 (drop 2 ie); Ok (bool_decide (t = OSEN_IE_VENDOR_TYPE))
      else Ok false else Ok false) = Ok o ∧ (o = true → 6 ≤ zlen ie)) as (o & -> & Ho).
  { destruct (decide _); [|eexists; by split]. destruct (decide _); [|eexists; by split].
    destruct (get_be32_ok (drop 2 ie)) as (t & ->); [unfold zlen in *; rewrite length_drop; lia|].
    eexists. by split. }
  rewrite bind_Ok. destruct o; [|destruct (decide _); [eexists; split; [done|by left]|];
    destruct (decide _); [eexists; split; [done|by left]|]; rewrite bind_Ok;
    destruct (decide _); [eexists; split; [done|by left]|]].
  - eexists. split; [done|]. split; [|done]. apply (fits_drop ie _ 6); [done|]. specialize (Ho eq_refl). lia.
  - eexists. split; [done|]. split; [|done]. by apply (fits_drop ie _ 4).
Qed.

Lemma wpa_header_safe ie : bytes_ok ie → sizeof_wpa_ie_hdr ≤ zlen ie → safe (wpa_header ie (zlen ie)).
Proof.
  intros Hb Hl. unfold sizeof_wpa_ie_hdr in Hl.
  assert (fits ie (zlen ie)) as Hf by (split; [lia|done]).
  destruct (rd_lt ie 0) as (id & Hid & _); [unfold zlen in Hl; lia|].
  destruct (rd_lt ie 1) as (l & Hlen & _); [unfold zlen in Hl; lia|].
  destruct (get_be32_ok (drop 2 ie)) as (o & Ho); [unfold zlen in *; rewrite length_drop; lia|].
  destruct (get_le16_ok (drop 6 ie)) as (v & Hv & _).
  { by apply Forall_drop. } { unfold zlen in *. rewrite length_drop. lia. }
  unfold wpa_header, RSN_SELECTOR_GET. rewrite Hid, bind_Ok.
  destruct (decide _); [eexists; split; [done|by left]|]. rewrite Hlen, bind_Ok.
  destruct (decide _); [eexists; split; [done|by left]|]. rewrite Ho, bind_Ok.
  destruct (decide _); [eexists; split; [done|by left]|]. rewrite Hv, bind_Ok.
  destruct (decide _); [eexists; split; [done|by left]|].
  eexists. split; [done|]. split; [|done]. by apply (fits_drop ie _ 8).
Qed.

(** The number of PMKIDs reported is inside the element. *)
Definition reported_inside (d : wpa_ie_data) : Prop := pmkids_inside d ∨ num_pmkid d = 0.

Lemma parsed_safe p : safe p → ∃ res d, parsed p = Ok (res, d) ∧ reported_inside d.
Proof.
  intros ([d pos l|res d] & -> & Hr); do 2 eexists; (split; [done|]); [left; apply Hr|exact Hr].
Qed.

(** ** Sets of suites as bit masks *)

Lemma has_flag_BIT c n : 0 ≤ n → has_flag c (BIT n) = Z.testbit c n.
Proof.
  intros Hn. unfold has_flag, BIT. rewrite Z.shiftl_1_l.
  destruct (Z.testbit c n) eqn:Ht.
  - apply negb_true_iff, Z.eqb_neq. intros H0.
    assert (Z.testbit (Z.land c (2 ^ n)) n = false) as Hf by (by rewrite H0, Z.bits_0).
    rewrite Z.land_spec, Ht, Z.pow2_bits_true in Hf by done. done.
  - apply negb_false_iff, Z.eqb_eq. apply Z.bits_inj'. intros k Hk. rewrite Z.bits_0, Z.land_spec.
    destruct (decide (k = n)) as [->|]; [by rewrite Ht|].
    rewrite (Z.pow2_bits_false n k) by lia. apply andb_false_r.
Qed.

Lemma land_BIT c n : 0 ≤ n → Z.land c (BIT n) = if has_flag c (BIT n) then BIT n else 0.
Proof.
  intros Hn. rewrite has_flag_BIT by done. unfold BIT. rewrite Z.shiftl_1_l. apply Z.bits_inj'. intros k Hk.
  rewrite Z.land_spec. destruct (decide (k = n)) as [->|].
  - rewrite Z.pow2_bits_true, andb_true_r by done.
    destruct (Z.testbit c n); [by rewrite Z.pow2_bits_true|by rewrite Z.bits_0].
  - rewrite (Z.pow2_bits_false n k), andb_false_r by lia.
    destruct (Z.testbit c n); [by rewrite Z.pow2_bits_false by lia|by rewrite Z.bits_0].
Qed.

(** The mask of a list of suites *)
Definition mask_of (conv : Z → Z) (acc : Z) (l : list Z) : Z := fold_left (λ a s, Z.lor a (conv s)) l acc.

Lemma mask_of_app conv acc l1 l2 : mask_of conv acc (l1 ++ l2) = mask_of conv (mask_of conv acc l1) l2.
Proof. apply fold_left_app. Qed.

Lemma mask_of_if conv acc c n suite :
  0 ≤ n → conv suite = BIT n → mask_of conv acc (suite_if c (BIT n) suite) = Z.lor acc (Z.land c (BIT n)).
Proof.
  intros Hn Hc. rewrite land_BIT by done. unfold suite_if. destruct (has_flag _ _); cbn; [by rewrite Hc|].
  by rewrite Z.lor_0_r.
Qed.

Definition WPA_ALLOWED_PAIRWISE_CIPHERS : Z :=
  Z.lor (Z.lor (Z.lor (Z.lor (Z.lor WPA_CIPHER_CCMP WPA_CIPHER_GCMP) WPA_CIPHER_TKIP) WPA_CIPHER_NONE)
    WPA_CIPHER_GCMP_256) WPA_CIPHER_CCMP_256.

Lemma rsn_pairwise_mask c :
  mask_of rsn_selector_to_bitfield 0 (rsn_cipher_put_suites c) = Z.land c WPA_ALLOWED_PAIRWISE_CIPHERS.
Proof.
  unfold rsn_cipher_put_suites. rewrite !mask_of_app.
  unfold WPA_CIPHER_CCMP_256, WPA_CIPHER_GCMP_256, WPA_CIPHER_CCMP, WPA_CIPHER_GCMP, WPA_CIPHER_TKIP, WPA_CIPHER_NONE.
  rewrite !mask_of_if by (done || reflexivity). rewrite Z.lor_0_l, <- !Z.land_lor_distr_r. reflexivity.
Qed.

Lemma wpa_pairwise_mask c :
  mask_of wpa_selector_to_bitfield 0 (wpa_cipher_put_suites c) =
    Z.land c (Z.lor (Z.lor WPA_CIPHER_CCMP WPA_CIPHER_TKIP) WPA_CIPHER_NONE).
Proof.
  unfold wpa_cipher_put_suites. rewrite !mask_of_app.
  unfold WPA_CIPHER_CCMP, WPA_CIPHER_TKIP, WPA_CIPHER_NONE.
  rewrite !mask_of_if by (done || reflexivity). rewrite Z.lor_0_l, <- !Z.land_lor_distr_r. reflexivity.
Qed.

Definition suites_octets (l : list Z) : bytes := concat (map RSN_SELECTOR_PUT l).

Lemma suites_octets_length l : zlen (suites_octets l) = 4 * zlen l.
Proof.
  unfold suites_octets, zlen. induction l as [|s l IH]; [done|]. cbn [map concat length].
  rewrite length_app. cbn [length RSN_SELECTOR_PUT WPA_PUT_BE32]. lia.
Qed.

Lemma or_suites_octets conv l r left_ acc :
  Forall (λ s, 0 ≤ s < 2 ^ 32) l →
  or_suites conv (length l) (suites_octets l ++ r) left_ acc = Ok (mask_of conv acc l, r, left_ - 4 * zlen l).
Proof.
  intros Hl. revert left_ acc. induction Hl as [|s l Hs Hl IH]; intros left_ acc.
  - cbn. by rewrite Z.sub_0_r.
  - cbn [length or_suites]. unfold suites_octets. cbn [map concat]. rewrite <- app_assoc.
    unfold RSN_SELECTOR_GET, RSN_SELECTOR_PUT at 1. rewrite get_put_be32, bind_Ok by done.
    change (drop 4 (RSN_SELECTOR_PUT s ++ ?x)) with x. fold (suites_octets l). rewrite IH.
    unfold RSN_SELECTOR_LEN. rewrite zlen_cons. do 2 f_equal. lia.
Qed.

Lemma suite_list_octets conv put botch short d l r left_ :
  Forall (λ s, 0 ≤ s < 2 ^ 32) l → 0 < zlen l < 2 ^ 16 → 2 + 4 * zlen l ≤ left_ →
  suite_list conv put botch short d (WPA_PUT_LE16 (zlen l) ++ suites_octets l ++ r) left_ =
    Ok (Next (put (mask_of conv 0 l) d) r (left_ - 2 - 4 * zlen l)).
Proof.
  intros Hs Hl Hleft. unfold suite_list. rewrite decide_True by lia. rewrite get_put_le16, bind_Ok by lia.
  change (drop 2 (WPA_PUT_LE16 ?v ++ ?x)) with x. unfold RSN_SELECTOR_LEN.
  rewrite decide_False by (pose proof (Z.div_le_lower_bound (left_ - 2) 4 (zlen l)); lia).
  unfold zlen at 1. rewrite Nat2Z.id, or_suites_octets, bind_Ok by done. done.
Qed.

Lemma suite_if_range c f s : 0 ≤ s < 2 ^ 32 → Forall (λ s, 0 ≤ s < 2 ^ 32) (suite_if c f s).
Proof. intros Hs. unfold suite_if. destruct (has_flag _ _); [by constructor|constructor]. Qed.

Lemma rsn_suites_range c : Forall (λ s, 0 ≤ s < 2 ^ 32) (rsn_cipher_put_suites c).
Proof. unfold rsn_cipher_put_suites. repeat apply Forall_app_2; by apply suite_if_range. Qed.

Lemma wpa_suites_range c : Forall (λ s, 0 ≤ s < 2 ^ 32) (wpa_cipher_put_suites c).
Proof. unfold wpa_cipher_put_suites. repeat apply Forall_app_2; by apply suite_if_range. Qed.

Lemma suite_if_length c f s : zlen (suite_if c f s) ≤ 1.
Proof. unfold suite_if, zlen. destruct (has_flag _ _); cbn; lia. Qed.

Lemma rsn_suites_length c : zlen (rsn_cipher_put_suites c) ≤ 6.
Proof.
  unfold rsn_cipher_put_suites. rewrite !zlen_app.
  pose proof (suite_if_length c WPA_CIPHER_CCMP_256 RSN_CIPHER_SUITE_CCMP_256).
  pose proof (suite_if_length c WPA_CIPHER_GCMP_256 RSN_CIPHER_SUITE_GCMP_256).
  pose proof (suite_if_length c WPA_CIPHER_CCMP RSN_CIPHER_SUITE_CCMP).
  pose proof (suite_if_length c WPA_CIPHER_GCMP RSN_CIPHER_SUITE_GCMP).
  pose proof (suite_if_length c WPA_CIPHER_TKIP RSN_CIPHER_SUITE_TKIP).
  pose proof (suite_if_length c WPA_CIPHER_NONE RSN_CIPHER_SUITE_NONE). lia.
Qed.

Lemma wpa_suites_length c : zlen (wpa_cipher_put_suites c) ≤ 3.
Proof.
  unfold wpa_cipher_put_suites. rewrite !zlen_app.
  pose proof (suite_if_length c WPA_CIPHER_CCMP WPA_CIPHER_SUITE_CCMP).
  pose proof (suite_if_length c WPA_CIPHER_TKIP WPA_CIPHER_SUITE_TKIP).
  pose proof (suite_if_length c WPA_CIPHER_NONE WPA_CIPHER_SUITE_NONE). lia.
Qed.

(** ** Ciphers as text *)

(** The ciphers with names that are written, in order *)
Definition named_ciphers : list (Z * bytes) :=
  [(WPA_CIPHER_CCMP_256, lit "CCMP-256"); (WPA_CIPHER_GCMP_256, lit "GCMP-256"); (WPA_CIPHER_CCMP, lit "CCMP");
   (WPA_CIPHER_GCMP, lit "GCMP"); (WPA_CIPHER_TKIP, lit "TKIP"); (WPA_CIPHER_NONE, lit "NONE")].

(** All sets of these ciphers *)
Definition pairwise_sets : list Z :=
  fold_right (λ c l, l ++ map (Z.lor c.1) l) [0] named_ciphers.

Lemma land_BIT_either c n : 0 ≤ n → Z.land c (BIT n) = 0 ∨ Z.land c (BIT n) = BIT n.
Proof. intros Hn. rewrite land_BIT by done. destruct (has_flag _ _); auto. Qed.

(** Every mask of pairwise ciphers is one of them. *)
Lemma pairwise_sets_all c : Z.land c WPA_ALLOWED_PAIRWISE_CIPHERS ∈ pairwise_sets.
Proof.
  unfold WPA_ALLOWED_PAIRWISE_CIPHERS. rewrite !Z.land_lor_distr_r.
  unfold WPA_CIPHER_CCMP, WPA_CIPHER_GCMP, WPA_CIPHER_TKIP, WPA_CIPHER_NONE, WPA_CIPHER_GCMP_256, WPA_CIPHER_CCMP_256.
  destruct (land_BIT_either c 4 ltac:(done)) as [-> | ->], (land_BIT_either c 6 ltac:(done)) as [-> | ->],
    (land_BIT_either c 3 ltac:(done)) as [-> | ->], (land_BIT_either c 0 ltac:(done)) as [-> | ->],
    (land_BIT_either c 8 ltac:(done)) as [-> | ->], (land_BIT_either c 9 ltac:(done)) as [-> | ->];
    apply (bool_decide_eq_true_1 _); vm_compute; reflexivity.
Qed.

(** What is written depends on the named ciphers only. *)
Lemma has_flag_land c m f : Z.land m f = f → has_flag (Z.land c m) f = has_flag c f.
Proof. intros Hf. unfold has_flag. by rewrite <- Z.land_assoc, Hf. Qed.

Lemma write_ciphers_mask size c delim :
  wpa_write_ciphers size (Z.land c WPA_ALLOWED_PAIRWISE_CIPHERS) delim = wpa_write_ciphers size c delim.
Proof.
  unfold wpa_write_ciphers, write_cipher. by rewrite !has_flag_land by reflexivity.
Qed.

(** Writing into a larger buffer gives the same text. *)
Lemma write_cipher_mono s1 s2 c f d n acc1 acc2 :
  s1 ≤ s2 → (∀ t, acc1 = Some t → acc2 = Some t) →
  ∀ t, write_cipher s1 c f d n acc1 = Some t → write_cipher s2 c f d n acc2 = Some t.
Proof.
  intros Hs Ha t. destruct acc1 as [a|]; [|done]. rewrite (Ha a eq_refl). unfold write_cipher.
  destruct (has_flag _ _); [|done]. destruct (decide (_ < _)) as [Hlt|]; [|done].
  destruct (decide (_ < s2 - _)); [done|lia].
Qed.

Lemma write_ciphers_mono s1 s2 c d t :
  s1 ≤ s2 → wpa_write_ciphers s1 c d = Some t → wpa_write_ciphers s2 c d = Some t.
Proof.
  intros Hs. revert t. unfold wpa_write_ciphers. do 6 (apply write_cipher_mono; [done|]). done.
Qed.

Definition text_ok (m : Z) : bool :=
  match wpa_write_ciphers 100 m [32] with
  | Some t => bool_decide (wpa_parse_cipher true t = Ok m)
  | None => false
  end.

Lemma text_ok_all : forallb text_ok pairwise_sets = true.
Proof. vm_compute. reflexivity. Qed.

Lemma written_parsed size c t :
  wpa_write_ciphers size c [32] = Some t →
  wpa_parse_cipher true t = Ok (Z.land c WPA_ALLOWED_PAIRWISE_CIPHERS).
Proof.
  rewrite <- write_ciphers_mask. set (m := Z.land c _). intros Hw.
  pose proof text_ok_all as Hall. rewrite forallb_forall in Hall.
  specialize (Hall m (proj1 (list_elem_of_In _ _) (pairwise_sets_all c))). unfold text_ok in Hall.
  destruct (wpa_write_ciphers 100 m [32]) as [t'|] eqn:Ht'; [|done].
  apply bool_decide_eq_true in Hall. assert (t = t') as ->; [|done].
  destruct (Z.le_ge_cases size 100).
  - apply (write_ciphers_mono size 100) in Hw; [|done]. congruence.
  - apply (write_ciphers_mono 100 size) in Ht'; [|lia]. congruence.
Qed.

Lemma parsers_inside ie :
  bytes_ok ie →
  (∃ res d, wpa_parse_wpa_ie_rsn ie (zlen ie) = Ok (res, d) ∧ reported_inside d) ∧
  (∃ res d, wpa_parse_wpa_ie_wpa ie (zlen ie) = Ok (res, d) ∧ reported_inside d).
Proof.
  intros Hb. split.
  - unfold wpa_parse_wpa_ie_rsn. destruct (decide _); [do 2 eexists; split; [done|by left]|].
    destruct (decide _); [do 2 eexists; split; [done|by left]|].
    apply parsed_safe, then_safe; [apply rsn_header_safe; [done|lia]|exact rsn_fields_safe].
  - unfold wpa_parse_wpa_ie_wpa. destruct (decide _); [do 2 eexists; split; [done|by left]|].
    apply parsed_safe, then_safe; [apply wpa_header_safe; [done|lia]|exact wpa_fields_safe].
Qed.

(** C40. The parsers of the RSN and the WPA element stay inside any element they are
    given, whatever it contains, and the PMKIDs they report are inside it. *)
Theorem wpa_parse_inside ie :
  bytes_ok ie →
  (∃ res d, wpa_parse_wpa_ie_rsn ie (zlen ie) = Ok (res, d) ∧ reported_inside d) ∧
  (∃ res d, wpa_parse_wpa_ie_wpa ie (zlen ie) = Ok (res, d) ∧ reported_inside d).
Proof. apply parsers_inside. Qed.

Lemma wpa_parse_inside_witness :
  let ie := [48; 20; 1; 0; 0; 15; 172; 4; 1; 0; 0; 15; 172; 4; 1; 0; 0; 15; 172; 2; 12; 0] in
  (∃ res d, wpa_parse_wpa_ie_rsn ie (zlen ie) = Ok (res, d) ∧ reported_inside d) ∧
  wpa_parse_wpa_ie_rsn ie (zlen ie) =
    Ok (0, mk_wpa_ie WPA_PROTO_RSN WPA_CIPHER_CCMP WPA_CIPHER_CCMP WPA_KEY_MGMT_PSK 12 0 None WPA_CIPHER_AES_128_CMAC).
Proof.
  cbv zeta. split; [|vm_compute; reflexivity].
  apply (wpa_parse_inside [48; 20; 1; 0; 0; 15; 172; 4; 1; 0; 0; 15; 172; 4; 1; 0; 0; 15; 172; 2; 12; 0]).
  repeat (constructor; [split; [discriminate|reflexivity]|]). constructor.
Defined.

(** A set of ciphers written as text is parsed back to the ciphers that have a
    name there: no name is a prefix of the wrong one and the separators are skipped. *)
Lemma wpa_ciphers_roundtrip size ciphers t :
  wpa_write_ciphers size ciphers [32] = Some t →
  wpa_parse_cipher true t = Ok (Z.land ciphers WPA_ALLOWED_PAIRWISE_CIPHERS).
Proof. apply written_parsed. Qed.

Lemma wpa_ciphers_roundtrip_witness :
  wpa_write_ciphers 50 (Z.lor WPA_CIPHER_CCMP WPA_CIPHER_TKIP) [32] = Some (lit "CCMP TKIP") ∧
  wpa_parse_cipher true (lit "CCMP TKIP") =
    Ok (Z.land (Z.lor WPA_CIPHER_CCMP WPA_CIPHER_TKIP) WPA_ALLOWED_PAIRWISE_CIPHERS).
Proof.
  assert (wpa_write_ciphers 50 (Z.lor WPA_CIPHER_CCMP WPA_CIPHER_TKIP) [32] = Some (lit "CCMP TKIP")) as Hw
    by (vm_compute; reflexivity).
  split; [exact Hw|exact (wpa_ciphers_roundtrip _ _ _ Hw)].
Defined.
