(* ===== verification/WpaKeys.v ===== *)
(** * WPA: derivation of keys and integrity codes

    [src/crypto/sha1-prf.c], [src/crypto/sha256-prf.c] and the key functions of
    [src/common/wpa_common.c]: the pairwise transient key, the PMKID, the MIC of
    EAPOL-Key frames and the comparison of elements.

    The primitives come from the TLS library of the build (OpenSSL) and are the
    class [Crypto]; they can fail. The code copies the result of a primitive that
    failed without looking in several places: what it copies is then the
    content of a local array nobody wrote ([unwritten]). *)

From Stdlib Require Import ZArith Lia Strings.String.
From stdpp Require Import base option list numbers decidable.
From S2P Require Import Prelude CLib Common WpaCommon.
Local Open Scope Z_scope.

(** ** The primitives *)

(** [None] is a failure. [aes_wrap] is given a multiple of eight octets. *)
Class Crypto : Type := {
  hmac_md5 : bytes → bytes → option bytes;
  hmac_sha1 : bytes → bytes → option bytes;
  hmac_sha256 : bytes → bytes → option bytes;
  omac1_aes_128 : bytes → bytes → option bytes;
  aes_wrap : bytes → bytes → option bytes;
  rc4_skip : bytes → Z → bytes → bytes;
  unwritten : nat → bytes }.

Definition SHA1_MAC_LEN : Z := 20.
Definition SHA256_MAC_LEN : Z := 32.
Definition MD5_MAC_LEN : Z := 16.

(** The documented lengths of the results *)
Class CryptoOk (C : Crypto) : Prop := {
  hmac_md5_len : ∀ k d h, hmac_md5 k d = Some h → zlen h = MD5_MAC_LEN;
  hmac_sha1_len : ∀ k d h, hmac_sha1 k d = Some h → zlen h = SHA1_MAC_LEN;
  hmac_sha256_len : ∀ k d h, hmac_sha256 k d = Some h → zlen h = SHA256_MAC_LEN;
  omac1_aes_128_len : ∀ k d h, omac1_aes_128 k d = Some h → zlen h = 16;
  aes_wrap_len : ∀ k d c, aes_wrap k d = Some c → zlen c = zlen d + 8;
  rc4_skip_len : ∀ k n d, zlen (rc4_skip k n d) = zlen d;
  unwritten_len : ∀ n, length (unwritten n) = n }.

Section keys.
Context `{Crypto}.

(** ** Pseudo-random functions *)

(** The loop both functions have: [acc] is what is written to the buffer, [pos] its
    length, [hmac] the hash for a counter and [next] the increment of the counter. A
    turn writes at least one octet, so that [buf_len] turns are enough. *)
Fixpoint prf_loop (fuel : nat) (mac_len : Z) (hmac : Z → option bytes) (next : Z → Z) (counter buf_len : Z)
    (acc : bytes) : Z * bytes :=
  match fuel with
  | O => (0, acc)
  | S fuel =>
    if decide (zlen acc < buf_len) then
      match hmac counter with
      | None => (-1, acc)
      | Some hash =>
        let plen := buf_len - zlen acc in
        if decide (mac_len ≤ plen) then prf_loop fuel mac_len hmac next (next counter) buf_len (acc ++ hash)
        else (0, acc ++ take (Z.to_nat plen) hash)
      end
    else (0, acc)
  end.

(** The result and the octets written to the buffer; [label] without its
    terminator, which is part of the input. *)
Definition sha1_prf (key label data : bytes) (buf_len : Z) : Z * bytes :=
  prf_loop (Z.to_nat buf_len) SHA1_MAC_LEN (λ counter, hmac_sha1 key (label ++ [0] ++ data ++ [counter]))
    (λ counter, u8 (counter + 1)) 0 buf_len [].

(** [buf[pos - 1] &= mask] *)
Definition mask_last (mask : Z) (b : bytes) : bytes := alter (λ x, Z.land x mask) (length b - 1)%nat b.

Definition sha256_prf_bits (key label data : bytes) (buf_len_bits : Z) : Z * bytes :=
  let buf_len := (buf_len_bits + 7) / 8 in
  let length_le := WPA_PUT_LE16 (u16 buf_len_bits) in
  match prf_loop (Z.to_nat buf_len) SHA256_MAC_LEN
          (λ counter, hmac_sha256 key (WPA_PUT_LE16 counter ++ label ++ data ++ length_le))
          (λ counter, u16 (counter + 1)) 1 buf_len [] with
  | (0, b) =>
    (0, if decide (buf_len_bits mod 8 = 0) then b
        else mask_last (u8 (Z.shiftl 0xff (8 - buf_len_bits mod 8))) b)
  | r => r
  end.

Definition sha256_prf (key label data : bytes) (buf_len : Z) : Z * bytes :=
  sha256_prf_bits key label data (buf_len * 8).

(** ** Lengths *)

Definition wpa_kck_len (akmp : Z) : Z := if decide (akmp = WPA_KEY_MGMT_IEEE8021X_SUITE_B_192) then 24 else 16.
Definition wpa_kek_len (akmp : Z) : Z := if decide (akmp = WPA_KEY_MGMT_IEEE8021X_SUITE_B_192) then 32 else 16.
Definition wpa_mic_len (akmp : Z) : Z := if decide (akmp = WPA_KEY_MGMT_IEEE8021X_SUITE_B_192) then 24 else 16.

Definition wpa_key_mgmt_suite_b (akm : Z) : bool :=
  has_flag akm (Z.lor WPA_KEY_MGMT_IEEE8021X_SUITE_B WPA_KEY_MGMT_IEEE8021X_SUITE_B_192).

Definition wpa_key_mgmt_sha256 (akm : Z) : bool :=
  has_flag akm (Z.lor (Z.lor (Z.lor WPA_KEY_MGMT_PSK_SHA256 WPA_KEY_MGMT_IEEE8021X_SHA256) WPA_KEY_MGMT_OSEN)
    WPA_KEY_MGMT_IEEE8021X_SUITE_B).

(** ** The MIC of EAPOL-Key frames *)

Definition WPA_KEY_INFO_TYPE_AKM_DEFINED : Z := 0.
Definition WPA_KEY_INFO_TYPE_HMAC_MD5_RC4 := BIT 0.
Definition WPA_KEY_INFO_TYPE_HMAC_SHA1_AES := BIT 1.
Definition WPA_KEY_INFO_TYPE_AES_128_CMAC : Z := 3.

(** The octets written to [mic]; [key] is an array of at least 16 octets. The AKM-defined versions are compiled out. *)
Definition wpa_eapol_key_mic (key : bytes) (key_len ver : Z) (buf : bytes) : option bytes :=
  let k := take (Z.to_nat key_len) key in
  if decide (ver = WPA_KEY_INFO_TYPE_HMAC_MD5_RC4) then hmac_md5 k buf
  else if decide (ver = WPA_KEY_INFO_TYPE_HMAC_SHA1_AES) then
    hash ← hmac_sha1 k buf; Some (take (Z.to_nat MD5_MAC_LEN) hash)
  else if decide (ver = WPA_KEY_INFO_TYPE_AES_128_CMAC) then omac1_aes_128 (take 16 key) buf
  else None.

(** ** Comparing memory *)

(** The sign of [os_memcmp] *)
Fixpoint memcmp (a b : bytes) : comparison :=
  match a, b with
  | x :: a, y :: b => match x ?= y with Eq => memcmp a b | c => c end
  | _, _ => Eq
  end.

Definition mem_lt (a b : bytes) : bool := bool_decide (memcmp a b = Lt).

(** ** The pairwise transient key *)

Definition WPA_KCK_MAX_LEN : nat := 24.
Definition WPA_KEK_MAX_LEN : nat := 32.
Definition WPA_TK_MAX_LEN : nat := 32.

(** [struct wpa_ptk]: the arrays have their full size. *)
Record wpa_ptk := mk_ptk {
  kck : bytes;
  kek : bytes;
  tk : bytes;
  kck_len : Z;
  kek_len : Z;
  tk_len : Z }.

(** [os_memset(ptk, 0, sizeof( *ptk))] *)
Definition zero_ptk : wpa_ptk :=
  mk_ptk (replicate WPA_KCK_MAX_LEN 0) (replicate WPA_KEK_MAX_LEN 0) (replicate WPA_TK_MAX_LEN 0) 0 0 0.

(** A local [struct wpa_ptk] *)
Definition local_ptk : wpa_ptk :=
  mk_ptk (unwritten WPA_KCK_MAX_LEN) (unwritten WPA_KEK_MAX_LEN) (unwritten WPA_TK_MAX_LEN) 0 0 0.

(** Overwriting the start of an array *)
Definition overlay (new old : bytes) : bytes := new ++ drop (length new) old.

(** The smaller of two before the larger *)
Definition in_order (a b : bytes) : bytes := if mem_lt a b then a ++ b else b ++ a.

Definition ptk_data (addr1 addr2 nonce1 nonce2 : bytes) : bytes := in_order addr1 addr2 ++ in_order nonce1 nonce2.

(** The buffer [tmp] after the pseudo-random function, whose result is ignored *)
Definition ptk_octets (pmk label data : bytes) (akmp ptk_len : Z) : bytes :=
  let tmp := unwritten (WPA_KCK_MAX_LEN + WPA_KEK_MAX_LEN + WPA_TK_MAX_LEN) in
  overlay ((if wpa_key_mgmt_sha256 akmp then sha256_prf pmk label data ptk_len
            else sha1_prf pmk label data ptk_len).2) tmp.

Definition part_of (off len : Z) (b : bytes) : bytes := take (Z.to_nat len) (drop (Z.to_nat off) b).

Definition wpa_pmk_to_ptk (pmk label addr1 addr2 nonce1 nonce2 : bytes) (akmp cipher : Z) : wpa_ptk :=
  let kck_l := wpa_kck_len akmp in
  let kek_l := wpa_kek_len akmp in
  let tk_l := wpa_cipher_key_len cipher in
  let tmp := ptk_octets pmk label (ptk_data addr1 addr2 nonce1 nonce2) akmp (kck_l + kek_l + tk_l) in
  mk_ptk (overlay (part_of 0 kck_l tmp) (kck local_ptk))
    (overlay (part_of kck_l kek_l tmp) (kek local_ptk))
    (overlay (part_of (kck_l + kek_l) tk_l tmp) (tk local_ptk)) kck_l kek_l tk_l.

(** ** The PMKID *)

Definition rsn_pmkid (pmk aa spa : bytes) (use_sha256 : bool) : bytes :=
  let data := lit "PMK Name" ++ aa ++ spa in
  let hash := unwritten (Z.to_nat SHA256_MAC_LEN) in
  take (Z.to_nat PMKID_LEN)
    (overlay (default [] (if use_sha256 then hmac_sha256 pmk data else hmac_sha1 pmk data)) hash).

(** ** Comparing elements *)

(** Without fast transition the elements have to be identical. *)
Definition wpa_compare_rsn_ie (ie1 ie2 : option bytes) : Z :=
  match ie1, ie2 with
  | Some a, Some b => if decide (a = b) then 0 else -1
  | _, _ => -1
  end.

End keys.

(** ** Theorems *)

Section prf.
Context (mac_len : Z) (hmac : Z → option bytes) (next : Z → Z).
Hypothesis mac_pos : 0 < mac_len.
Hypothesis hmac_len : ∀ c h, hmac c = Some h → zlen h = mac_len.

(** The hashes for the counters from [c], one after the other *)
Fixpoint prf_stream (n : nat) (c : Z) : bytes :=
  match n with
  | O => []
  | S n => default [] (hmac c) ++ prf_stream n (next c)
  end.

Lemma prf_loop_stream fuel c buf_len acc :
  (∀ c, hmac c ≠ None) → zlen acc ≤ buf_len → buf_len - zlen acc ≤ Z.of_nat fuel →
  prf_loop fuel mac_len hmac next c buf_len acc =
    (0, acc ++ take (Z.to_nat (buf_len - zlen acc)) (prf_stream fuel c)).
Proof.
  intros Hh. revert c acc. induction fuel as [|fuel IH]; intros c acc Hl Hf; cbn [prf_loop prf_stream].
  - replace (Z.to_nat (buf_len - zlen acc)) with 0%nat by lia. by rewrite take_0, app_nil_r.
  - case_decide as Hd.
    2:{ replace (Z.to_nat (buf_len - zlen acc)) with 0%nat by lia. by rewrite take_0, app_nil_r. }
    destruct (hmac c) as [h|] eqn:E; [|by destruct (Hh c)]. cbn [default from_option id].
    assert (length h = Z.to_nat mac_len) as Hlen by (apply hmac_len in E; unfold zlen in E; lia).
    cbv zeta. case_decide as Hm.
    + assert (zlen (acc ++ h) = zlen acc + mac_len) as Hz by (rewrite zlen_app; unfold zlen; lia).
      rewrite IH by lia. rewrite Hz, <- app_assoc, (take_app h).
      rewrite (take_ge h (Z.to_nat (buf_len - zlen acc))) by lia. do 4 f_equal. rewrite Hlen. lia.
    + by rewrite take_app_le by lia.
Qed.

Lemma prf_stream_length n c : (∀ c, hmac c ≠ None) → zlen (prf_stream n c) = mac_len * Z.of_nat n.
Proof.
  intros Hh. revert c. induction n as [|n IH]; intros c; cbn [prf_stream]; [unfold zlen; cbn; lia|].
  rewrite zlen_app, IH. destruct (hmac c) eqn:E; [|by destruct (Hh c)].
  cbn. rewrite (hmac_len _ _ E). lia.
Qed.

(** An octet of the stream, when the counter does not wrap *)
Lemma prf_stream_lookup n c limit i :
  (∀ c, hmac c ≠ None) → (∀ c, 0 ≤ c < limit → next c = c + 1) → 0 ≤ c →
  c + Z.of_nat i / mac_len ≤ limit → Z.of_nat i < mac_len * Z.of_nat n →
  prf_stream n c !! i = default [] (hmac (c + Z.of_nat i / mac_len)) !! Z.to_nat (Z.of_nat i mod mac_len).
Proof.
  intros Hh Hn. revert c i. induction n as [|n IH]; intros c i Hc Hl Hi; [lia|]. cbn [prf_stream].
  destruct (hmac c) as [h|] eqn:E; [|by destruct (Hh c)]. cbn [default from_option id].
  assert (length h = Z.to_nat mac_len) as Hlen by (apply hmac_len in E; unfold zlen in E; lia).
  destruct (decide (Z.of_nat i < mac_len)) as [Hlt|Hge].
  - rewrite lookup_app_l by lia. rewrite Z.div_small, Z.mod_small by lia. rewrite Z.add_0_r, E. cbn.
    by rewrite Nat2Z.id.
  - rewrite lookup_app_r by lia. rewrite Hlen.
    assert (Z.of_nat i / mac_len = 1 + Z.of_nat (i - Z.to_nat mac_len) / mac_len) as Hd.
    { replace (Z.of_nat i) with (Z.of_nat (i - Z.to_nat mac_len) + 1 * mac_len) at 1 by lia.
      rewrite Z.div_add by lia. lia. }
    assert (0 ≤ Z.of_nat (i - Z.to_nat mac_len) / mac_len) by (apply Z.div_pos; lia).
    rewrite (Hn c) by lia.
    rewrite IH by lia.
    rewrite Hd, Z.add_assoc.
    replace (Z.of_nat i `mod` mac_len) with (Z.of_nat (i - Z.to_nat mac_len) `mod` mac_len); [done|].
    replace (Z.of_nat i) with (Z.of_nat (i - Z.to_nat mac_len) + 1 * mac_len) by lia.
    by rewrite Z.mod_add by lia.
Qed.

(** The octets the loop writes: octet [i] is an octet of the hash for the
    [i / mac_len]-th counter. *)
Lemma prf_loop_octets (first buf_len limit : Z) :
  (∀ c, hmac c ≠ None) → (∀ c, 0 ≤ c < limit → next c = c + 1) → 0 ≤ first → 0 ≤ buf_len →
  first + buf_len / mac_len ≤ limit →
  ∃ b, prf_loop (Z.to_nat buf_len) mac_len hmac next first buf_len [] = (0, b) ∧ zlen b = buf_len ∧
    ∀ i, Z.of_nat i < buf_len →
      b !! i = default [] (hmac (first + Z.of_nat i / mac_len)) !! Z.to_nat (Z.of_nat i mod mac_len).
Proof.
  intros Hh Hn Hf Hb Hl. eexists. split; [|split].
  - apply prf_loop_stream; [done| |]; change (zlen (@nil Z)) with 0; lia.
  - change (zlen (@nil Z)) with 0. rewrite Z.sub_0_r. cbn [app].
    pose proof (prf_stream_length (Z.to_nat buf_len) first Hh) as Hs.
    unfold zlen in *. rewrite length_take. nia.
  - intros i Hi. change (zlen (@nil Z)) with 0. rewrite Z.sub_0_r. cbn [app].
    rewrite lookup_take_lt by lia. apply (prf_stream_lookup _ _ limit); [done|done|lia| |nia].
    assert (Z.of_nat i / mac_len ≤ buf_len / mac_len) by (apply Z.div_le_mono; lia). lia.
Qed.

(** However the hashes come out, no more than the buffer is written. *)
Lemma prf_loop_fits fuel c buf_len acc :
  zlen acc ≤ buf_len → zlen (prf_loop fuel mac_len hmac next c buf_len acc).2 ≤ buf_len.
Proof.
  revert c acc. induction fuel as [|fuel IH]; intros c acc Hl; cbn [prf_loop]; [done|].
  case_decide; [|done]. destruct (hmac c) as [h|] eqn:E; [|done]. apply hmac_len in E. cbv zeta.
  case_decide.
  - apply IH. rewrite zlen_app. lia.
  - cbn. rewrite zlen_app. unfold zlen in *. rewrite length_take. lia.
Qed.

End prf.

(** ** Comparison *)

Lemma memcmp_refl a : memcmp a a = Eq.
Proof. induction a as [|x a IH]; cbn; [done|]. by rewrite Z.compare_refl. Qed.

Lemma memcmp_eq a b : length a = length b → memcmp a b = Eq → a = b.
Proof.
  revert b. induction a as [|x a IH]; intros [|y b]; cbn; try done.
  intros Hl. destruct (Z.compare_spec x y) as [->|?|?]; try done. intros. f_equal. apply IH; [lia|done].
Qed.

Lemma memcmp_antisym a b : memcmp b a = CompOpp (memcmp a b).
Proof.
  revert b. induction a as [|x a IH]; intros [|y b]; cbn; try done.
  rewrite (Z.compare_antisym x y). destruct (x ?= y); cbn; [apply IH|done|done].
Qed.

Lemma in_order_comm a b : length a = length b → in_order a b = in_order b a.
Proof.
  intros Hl. unfold in_order, mem_lt. rewrite (memcmp_antisym a b).
  destruct (memcmp a b) eqn:E; cbn; try done. by rewrite (memcmp_eq _ _ Hl E).
Qed.

Lemma zlen_in_order a b : zlen (in_order a b) = zlen a + zlen b.
Proof. unfold in_order. destruct (mem_lt a b); rewrite zlen_app; lia. Qed.

(** ** The keys as octets of the pseudo-random function *)

Lemma overlay_take new old : take (length new) (overlay new old) = new.
Proof. apply take_app_length. Qed.

Lemma length_overlay new old : (length new ≤ length old)%nat → length (overlay new old) = length old.
Proof. intros. unfold overlay. rewrite length_app, length_drop. lia. Qed.

Lemma part_of_length off len b : 0 ≤ off → 0 ≤ len → off + len ≤ zlen b → zlen (part_of off len b) = len.
Proof. intros. unfold part_of, zlen in *. rewrite length_take, length_drop. lia. Qed.

Lemma part_of_app a l1 l2 b : 0 ≤ a → 0 ≤ l1 → 0 ≤ l2 → part_of a l1 b ++ part_of (a + l1) l2 b = part_of a (l1 + l2) b.
Proof.
  intros. unfold part_of. rewrite (Z2Nat.inj_add a l1), (Z2Nat.inj_add l1 l2) by done.
  rewrite <- drop_drop. apply take_take_drop.
Qed.

Lemma wpa_cipher_key_len_range cipher : 0 ≤ wpa_cipher_key_len cipher ≤ 32.
Proof. unfold wpa_cipher_key_len. repeat case_decide; lia. Qed.

Lemma wpa_kck_len_range akmp : wpa_kck_len akmp = 16 ∨ wpa_kck_len akmp = 24.
Proof. unfold wpa_kck_len. case_decide; auto. Qed.

Lemma wpa_kek_len_range akmp : wpa_kek_len akmp = 16 ∨ wpa_kek_len akmp = 32.
Proof. unfold wpa_kek_len. case_decide; auto. Qed.

(** The octets of the key, the three keys one after the other *)
Definition ptk_keys (p : wpa_ptk) : bytes :=
  take (Z.to_nat (kck_len p)) (kck p) ++ take (Z.to_nat (kek_len p)) (kek p) ++ take (Z.to_nat (tk_len p)) (tk p).

(** The input of the hash for block [c] of the key *)
Definition ptk_input (akmp : Z) (label data : bytes) (bits c : Z) : bytes :=
  if wpa_key_mgmt_sha256 akmp then WPA_PUT_LE16 (1 + c) ++ label ++ data ++ WPA_PUT_LE16 (u16 bits)
  else label ++ [0] ++ data ++ [c].

Section ptk.
Context {C : Crypto} {HC : CryptoOk C}.

Definition ptk_hash (akmp : Z) (key d : bytes) : bytes :=
  default [] (if wpa_key_mgmt_sha256 akmp then hmac_sha256 key d else hmac_sha1 key d).

Definition ptk_mac_len (akmp : Z) : Z := if wpa_key_mgmt_sha256 akmp then SHA256_MAC_LEN else SHA1_MAC_LEN.

Lemma sha1_prf_fits key label data n : 0 ≤ n → zlen (sha1_prf key label data n).2 ≤ n.
Proof.
  intros. unfold sha1_prf. eapply prf_loop_fits; [|done]. intros c h. apply hmac_sha1_len.
Qed.

Lemma zlen_mask_last m b : zlen (mask_last m b) = zlen b.
Proof. unfold mask_last, zlen. by rewrite length_alter. Qed.

Lemma sha256_prf_fits key label data n : 0 ≤ n → zlen (sha256_prf key label data n).2 ≤ n.
Proof.
  intros Hn. unfold sha256_prf, sha256_prf_bits.
  replace ((n * 8 + 7) / 8) with n by (apply Z.div_unique with 7; lia).
  match goal with |- context [prf_loop ?f ?m ?h ?x ?c ?l ?a] =>
    pose proof (prf_loop_fits m h x (λ c0 h0, hmac_sha256_len _ _ h0) f c l a Hn) as Hf;
    destruct (prf_loop f m h x c l a) as [[| |] b] end; cbn in *; try done.
  case_decide; cbn; [done|]. by rewrite zlen_mask_last.
Qed.

(** The octets of both functions, when no hash fails *)
Lemma prf_octets akmp key label data n :
  (∀ d, hmac_sha1 key d ≠ None) → (∀ d, hmac_sha256 key d ≠ None) → 0 ≤ n ≤ 4096 →
  let b := (if wpa_key_mgmt_sha256 akmp then sha256_prf key label data n else sha1_prf key label data n).2 in
  zlen b = n ∧ ∀ i, Z.of_nat i < n →
    b !! i = ptk_hash akmp key (ptk_input akmp label data (n * 8) (Z.of_nat i / ptk_mac_len akmp))
               !! Z.to_nat (Z.of_nat i mod ptk_mac_len akmp).
Proof.
  intros H1 H2 Hn b. subst b. unfold ptk_hash, ptk_input, ptk_mac_len. destruct (wpa_key_mgmt_sha256 akmp).
  - unfold sha256_prf, sha256_prf_bits.
    replace ((n * 8 + 7) / 8) with n by (apply Z.div_unique with 7; lia).
    match goal with |- context [prf_loop ?f ?m ?h ?x ?c ?l ?a] =>
      destruct (prf_loop_octets m h x ltac:(done) (λ c0 h0, hmac_sha256_len _ _ h0) 1 n (2 ^ 16 - 1))
        as (b & Hb & Hl & Ho) end;
      [done|intros c Hc; unfold u16; apply Z.mod_small; lia|done|lia| |].
    + unfold SHA256_MAC_LEN. assert (n / 32 ≤ 4096 / 32) by (apply Z.div_le_mono; lia). change (4096 / 32) with 128 in *. lia.
    + rewrite Hb. rewrite decide_True by (by apply Z.mod_mul). cbn. by split.
  - unfold sha1_prf.
    match goal with |- context [prf_loop ?f ?m ?h ?x ?c ?l ?a] =>
      destruct (prf_loop_octets m h x ltac:(done) (λ c0 h0, hmac_sha1_len _ _ h0) 0 n (2 ^ 8 - 1))
        as (b & Hb & Hl & Ho) end;
      [done|intros c Hc; unfold u8; apply Z.mod_small; lia|done|lia| |].
    + unfold SHA1_MAC_LEN. assert (n / 20 ≤ 4096 / 20) by (apply Z.div_le_mono; lia). change (4096 / 20) with 204 in *. lia.
    + rewrite Hb. cbn. by split.
Qed.

(** ** The PMKID *)

Lemma rsn_pmkid_length k aa sp b : length (rsn_pmkid k aa sp b) = 16%nat.
Proof.
  unfold rsn_pmkid. rewrite length_take, length_overlay; rewrite unwritten_len; [done|].
  destruct b.
  - destruct (hmac_sha256 _ _) as [h|] eqn:E; cbn; [|lia].
    apply hmac_sha256_len in E. unfold zlen, SHA256_MAC_LEN in *. lia.
  - destruct (hmac_sha1 _ _) as [h|] eqn:E; cbn; [|lia].
    apply hmac_sha1_len in E. unfold zlen, SHA1_MAC_LEN, SHA256_MAC_LEN in *. lia.
Qed.

(** ** The MIC *)

Lemma wpa_eapol_key_mic_len key l ver buf m : wpa_eapol_key_mic key l ver buf = Some m → zlen m = 16.
Proof.
  unfold wpa_eapol_key_mic. repeat case_decide; try done.
  - apply hmac_md5_len.
  - destruct (hmac_sha1 _ _) as [h|] eqn:E; cbn; [|done]. intros [= <-].
    apply hmac_sha1_len in E. unfold zlen, SHA1_MAC_LEN, MD5_MAC_LEN in *. rewrite length_take. lia.
  - apply omac1_aes_128_len.
Qed.

(** ** The PTK *)

Lemma ptk_comm pmk label a1 a2 n1 n2 akmp cipher :
  length a1 = length a2 → length n1 = length n2 →
  wpa_pmk_to_ptk pmk label a1 a2 n1 n2 akmp cipher = wpa_pmk_to_ptk pmk label a2 a1 n2 n1 akmp cipher.
Proof.
  intros Ha Hn. unfold wpa_pmk_to_ptk, ptk_data. by rewrite (in_order_comm a1 a2), (in_order_comm n1 n2).
Qed.

Lemma ptk_lens pmk label a1 a2 n1 n2 akmp cipher :
  let p := wpa_pmk_to_ptk pmk label a1 a2 n1 n2 akmp cipher in
  length (kck p) = WPA_KCK_MAX_LEN ∧ length (kek p) = WPA_KEK_MAX_LEN ∧ length (tk p) = WPA_TK_MAX_LEN ∧
  kck_len p = wpa_kck_len akmp ∧ kek_len p = wpa_kek_len akmp ∧ tk_len p = wpa_cipher_key_len cipher.
Proof.
  intros p. pose proof (wpa_cipher_key_len_range cipher). pose proof (wpa_kck_len_range akmp).
  pose proof (wpa_kek_len_range akmp).
  split_and!; try done; unfold p, wpa_pmk_to_ptk, local_ptk; cbn [kck kek tk];
    rewrite length_overlay by (unfold part_of; rewrite length_take, unwritten_len;
      unfold WPA_KCK_MAX_LEN, WPA_KEK_MAX_LEN, WPA_TK_MAX_LEN; lia); apply unwritten_len.
Qed.

(** The three keys are the octets of [tmp]. *)
Lemma ptk_keys_octets pmk label a1 a2 n1 n2 akmp cipher :
  let n := wpa_kck_len akmp + wpa_kek_len akmp + wpa_cipher_key_len cipher in
  ptk_keys (wpa_pmk_to_ptk pmk label a1 a2 n1 n2 akmp cipher) =
    take (Z.to_nat n) (ptk_octets pmk label (ptk_data a1 a2 n1 n2) akmp n).
Proof.
  intros n. pose proof (wpa_cipher_key_len_range cipher). pose proof (wpa_kck_len_range akmp).
  pose proof (wpa_kek_len_range akmp).
  unfold ptk_keys, wpa_pmk_to_ptk. cbn [kck kek tk kck_len kek_len tk_len]. fold n.
  set (tmp := ptk_octets _ _ _ _ _).
  assert (88 ≤ zlen tmp) as Hl.
  { unfold tmp, ptk_octets, overlay. rewrite zlen_app. unfold zlen at 2. rewrite length_drop, unwritten_len.
    change (WPA_KCK_MAX_LEN + WPA_KEK_MAX_LEN + WPA_TK_MAX_LEN)%nat with 88%nat. unfold zlen. lia. }
  assert (∀ off l old, 0 ≤ off → 0 ≤ l → off + l ≤ 88 →
    take (Z.to_nat l) (overlay (part_of off l tmp) old) = part_of off l tmp) as Ht.
  { intros off l old Ho Hll Hs. assert (Z.to_nat l = length (part_of off l tmp)) as ->; [|apply overlay_take].
    pose proof (part_of_length off l tmp Ho Hll ltac:(lia)). unfold zlen in *. lia. }
  rewrite !Ht by (unfold n in *; lia).
  rewrite part_of_app by lia. rewrite (part_of_app 0) by lia.
  unfold part_of. cbn [drop]. f_equal. unfold n. lia.
Qed.

(** C31. Both sides of the 4-way handshake, which give the addresses and nonces in
    opposite order, derive the same pairwise transient key. When no hash fails, the
    key confirmation, key encryption and temporal keys are consecutive octets of the
    pseudo-random function of IEEE 802.11: octet [i] is an octet of the hash, under
    the PMK, of the label, the ordered addresses and nonces and the block number. *)
Theorem wpa_pmk_to_ptk_spec (pmk label a1 a2 n1 n2 : bytes) (akmp cipher : Z)
    (Ha : length a1 = length a2) (Hn : length n1 = length n2)
    (H1 : ∀ d, hmac_sha1 pmk d ≠ None) (H2 : ∀ d, hmac_sha256 pmk d ≠ None) :
  let n := wpa_kck_len akmp + wpa_kek_len akmp + wpa_cipher_key_len cipher in
  let p := wpa_pmk_to_ptk pmk label a1 a2 n1 n2 akmp cipher in
  p = wpa_pmk_to_ptk pmk label a2 a1 n2 n1 akmp cipher ∧
  zlen (ptk_keys p) = n ∧
  ∀ i, Z.of_nat i < n →
    ptk_keys p !! i =
      ptk_hash akmp pmk (ptk_input akmp label (in_order a1 a2 ++ in_order n1 n2) (n * 8)
                           (Z.of_nat i / ptk_mac_len akmp))
        !! Z.to_nat (Z.of_nat i mod ptk_mac_len akmp).
Proof.
  intros n p. split; [by apply ptk_comm|].
  assert (0 ≤ n ≤ 88) as Hr.
  { pose proof (wpa_cipher_key_len_range cipher). pose proof (wpa_kck_len_range akmp).
    pose proof (wpa_kek_len_range akmp). unfold n. lia. }
  destruct (prf_octets akmp pmk label (ptk_data a1 a2 n1 n2) n H1 H2 ltac:(lia)) as [Hl Ho].
  unfold p. rewrite ptk_keys_octets. fold n. unfold ptk_octets.
  set (b := (if wpa_key_mgmt_sha256 akmp then _ else _).2) in *.
  assert (Z.to_nat n = length b) as Hb by (unfold zlen in Hl; lia).
  rewrite Hb, overlay_take. split; [done|apply Ho].
Qed.

End ptk.

(** ** Examples *)

(** A toy hash: the sum of the octets in every octet of the result *)
Definition toy_sum (k d : bytes) : Z := foldr Z.add 0 (k ++ d) `mod` 251.

Definition toy_crypto : Crypto := {|
  hmac_md5 k d := Some (replicate 16 (toy_sum k d));
  hmac_sha1 k d := Some (replicate 20 (toy_sum k d));
  hmac_sha256 k d := Some (replicate 32 (toy_sum k d));
  omac1_aes_128 k d := Some (replicate 16 (toy_sum k d));
  aes_wrap k d := Some (replicate 8 (toy_sum k d) ++ d);
  rc4_skip k n d := d;
  unwritten n := replicate n 0 |}.

Lemma toy_crypto_ok : CryptoOk toy_crypto.
Proof.
  split; cbn -[replicate]; intros; simplify_eq; try reflexivity; unfold zlen; rewrite ?length_app, ?length_replicate; lia.
Defined.

Lemma wpa_pmk_to_ptk_spec_witness :
  let p := @wpa_pmk_to_ptk toy_crypto (replicate 32 7) (lit "Pairwise key expansion")
             [2; 0; 0; 0; 0; 1] [2; 0; 0; 0; 0; 9] (replicate 32 5) (replicate 32 3)
             WPA_KEY_MGMT_PSK WPA_CIPHER_CCMP in
  p = @wpa_pmk_to_ptk toy_crypto (replicate 32 7) (lit "Pairwise key expansion")
        [2; 0; 0; 0; 0; 9] [2; 0; 0; 0; 0; 1] (replicate 32 3) (replicate 32 5)
        WPA_KEY_MGMT_PSK WPA_CIPHER_CCMP ∧
  zlen (ptk_keys p) = 48.
Proof.
  assert (CryptoOk toy_crypto) as HC by exact toy_crypto_ok.
  destruct (@wpa_pmk_to_ptk_spec toy_crypto HC (replicate 32 7) (lit "Pairwise key expansion")
    [2; 0; 0; 0; 0; 1] [2; 0; 0; 0; 0; 9] (replicate 32 5) (replicate 32 3) WPA_KEY_MGMT_PSK WPA_CIPHER_CCMP)
    as (H1 & H2 & _); [done|done|done|done|]. split; [exact H1|exact H2].
Defined.
