(* ===== verification/Pmksa.v ===== *)
(** * The PMKSA cache of the authenticator

    [src/ap/pmksa_cache_auth.c]: the entries in a list ordered by expiration and in
    128 hash chains by PMKID, and the timeout that removes expired ones.

    An entry is named by its address ([e_ptr]); it does not change while it is in
    the cache, so that the list and the chains hold it by value. The callback
    [free_cb] is a log of the entries freed. PMKIDs are derived in
    [WpaKeys]; the variants for Suite B are compiled out in the modelled build, where
    they leave the PMKID zero. The timeout is in the data of
    the event loop ([Eloop]). *)

From Stdlib Require Import ZArith Lia Sorted Strings.String.
From stdpp Require Import base option list numbers decidable relations.
From S2P Require Import Prelude CLib Common Reltime Eloop WpaCommon WpaKeys.
Local Open Scope Z_scope.

Definition pmksa_cache_max_entries : Z := 1024.
Definition dot11RSNAConfigPMKLifetime : Z := 43200.
Definition PMKID_HASH_SIZE : nat := 128.
Definition PMK_LEN_MAX : Z := 48.

(** [struct rsn_pmksa_cache_entry]; [pmk] holds its [pmk_len] octets. *)
Record rsn_pmksa_cache_entry := mk_entry {
  e_ptr : Z;
  e_pmkid : bytes;
  pmk : bytes;
  expiration : Z;
  akmp : Z;
  spa : bytes;
  identity : option bytes;
  cui : option bytes;
  radius_class : option (list bytes);
  eap_type_authsrv : Z;
  vlan_desc : option (list Z);
  opportunistic : bool;
  acct_multi_session_id : Z }.

#[export] Instance rsn_pmksa_cache_entry_eta : Eta rsn_pmksa_cache_entry := λ e, mk_entry (e_ptr e) (e_pmkid e)
  (pmk e) (expiration e) (akmp e) (spa e) (identity e) (cui e) (radius_class e) (eap_type_authsrv e)
  (vlan_desc e) (opportunistic e) (acct_multi_session_id e).

#[export] Instance rsn_pmksa_cache_entry_eq_dec : EqDecision rsn_pmksa_cache_entry.
Proof. solve_decision. Defined.

(** [struct rsn_pmksa_cache], the entries freed (newest first) and the event loop *)
Record rsn_pmksa_cache := mk_cache {
  chains : list (list rsn_pmksa_cache_entry);
  entries : list rsn_pmksa_cache_entry;
  pmksa_count : Z;
  freed : list rsn_pmksa_cache_entry;
  loop_data : eloop_data }.

#[export] Instance rsn_pmksa_cache_eta : Eta rsn_pmksa_cache := λ c, mk_cache
  (chains c) (entries c) (pmksa_count c) (freed c) (loop_data c).

(** What an operation sees of the outside: the clock, the clock in
    [eloop_register_timeout], and whether the timeout can be allocated *)
Record pm_env := mk_pm_env {
  now : Z * Z;
  now_timeout : option (Z * Z);
  mem_timeout : bool }.

Definition PMKID_HASH (pmkid : bytes) : nat := Z.to_nat (Z.land (nth 0 pmkid 0) 0x7f).

(** Unlinking an entry from a list *)
Fixpoint unlink (p : Z) (l : list rsn_pmksa_cache_entry) : list rsn_pmksa_cache_entry :=
  match l with
  | [] => []
  | e :: l => if decide (e_ptr e = p) then l else e :: unlink p l
  end.

(** The entry with the pointer [pos] *)
Definition pmksa_cache_free_entry (entry : rsn_pmksa_cache_entry) (c : rsn_pmksa_cache) : rsn_pmksa_cache :=
  mk_cache (alter (unlink (e_ptr entry)) (PMKID_HASH (e_pmkid entry)) (chains c))
    (unlink (e_ptr entry) (entries c)) (pmksa_count c - 1) (entry :: freed c) (loop_data c).

(** A loop that frees the first entry as long as [cond] holds of it; every turn
    frees one entry. *)
Fixpoint free_while (fuel : nat) (cond : rsn_pmksa_cache_entry → bool) (c : rsn_pmksa_cache) : rsn_pmksa_cache :=
  match fuel, entries c with
  | S fuel, e :: _ => if cond e then free_while fuel cond (pmksa_cache_free_entry e c) else c
  | _, _ => c
  end.

Definition pmksa_cache_auth_flush (c : rsn_pmksa_cache) : rsn_pmksa_cache :=
  free_while (length (entries c)) (λ _, true) c.

Section cache.
Context {C : Crypto}.

(** The handler [pmksa_cache_expire] and the address of the cache *)
Context (expire_handler cache_ptr : Z).

(** [int sec]: the subtraction is converted, the addition must not overflow. *)
Definition pmksa_cache_set_expiration (env : pm_env) (c : rsn_pmksa_cache) : outcome rsn_pmksa_cache :=
  let ev := (eloop_cancel_timeout expire_handler cache_ptr 0 (loop_data c)).2 in
  match entries c with
  | [] => Ok (c <| loop_data := ev |>)
  | e :: _ =>
    let sec := s32 (expiration e - fst (now env)) in
    let sec := if decide (sec < 0) then 0 else sec in
    _ ← guard_ub Overflow (bool_decide (sec + 1 < 2 ^ 31));
    Ok (c <| loop_data := (eloop_register_timeout (mem_timeout env) (now_timeout env) (sec + 1) 0
                             expire_handler cache_ptr 0 ev).2 |>)
  end.

Definition pmksa_cache_expire (env : pm_env) (c : rsn_pmksa_cache) : outcome rsn_pmksa_cache :=
  pmksa_cache_set_expiration env
    (free_while (length (entries c)) (λ e, bool_decide (expiration e ≤ fst (now env))) c).

(** The parts of [struct eapol_state_machine] that are remembered; the VLAN is that
    of the station, with its [notempty]. *)
Record eapol_data := mk_eapol_data {
  ed_identity : option bytes;
  ed_radius_cui : option bytes;
  ed_radius_class : option (list bytes);
  ed_eap_type_authsrv : Z;
  ed_vlan_desc : option (bool * list Z);
  ed_acct_multi_session_id : Z }.

(** Which of the copies can be allocated, and how many attributes of a class are *)
Record copies := mk_copies {
  mem_identity : bool;
  mem_cui : bool;
  mem_class : option nat;
  mem_vlan : bool }.

Definition copy_if {A} (mem : bool) (x : option A) : option A := if mem then x else None.

Definition radius_copy_class (mem : option nat) (src : option (list bytes)) : option (list bytes) :=
  match src, mem with
  | Some l, Some n => Some (take n l)
  | _, _ => None
  end.

Definition pmksa_cache_from_eapol_data (m : copies) (entry : rsn_pmksa_cache_entry) (eapol : option eapol_data) :
    rsn_pmksa_cache_entry :=
  match eapol with
  | None => entry
  | Some d =>
    entry <| identity := copy_if (mem_identity m) (ed_identity d) |>
          <| cui := copy_if (mem_cui m) (ed_radius_cui d) |>
          <| radius_class := radius_copy_class (mem_class m) (ed_radius_class d) |>
          <| eap_type_authsrv := ed_eap_type_authsrv d |>
          <| vlan_desc := match ed_vlan_desc d with
                          | Some (true, v) => copy_if (mem_vlan m) (Some v)
                          | _ => None
                          end |>
          <| acct_multi_session_id := ed_acct_multi_session_id d |>
  end.

(** Before the first entry that expires later *)
Fixpoint insert_entry (entry : rsn_pmksa_cache_entry) (l : list rsn_pmksa_cache_entry) :
    list rsn_pmksa_cache_entry :=
  match l with
  | [] => [entry]
  | pos :: r => if decide (expiration entry < expiration pos) then entry :: l else pos :: insert_entry entry r
  end.

(** [prev == NULL]: the entry became the first. *)
Definition goes_first (entry : rsn_pmksa_cache_entry) (l : list rsn_pmksa_cache_entry) : bool :=
  match l with
  | [] => true
  | pos :: _ => bool_decide (expiration entry < expiration pos)
  end.

Definition pmksa_cache_link_entry (env : pm_env) (entry : rsn_pmksa_cache_entry) (c : rsn_pmksa_cache) :
    outcome rsn_pmksa_cache :=
  let c' := mk_cache (alter (cons entry) (PMKID_HASH (e_pmkid entry)) (chains c))
              (insert_entry entry (entries c)) (pmksa_count c + 1) (freed c) (loop_data c) in
  if goes_first entry (entries c) then pmksa_cache_set_expiration env c' else Ok c'.

(** The octets at the two pointers are compared with [os_memcmp]. *)
Definition same_spa (spa_ : option bytes) (e : rsn_pmksa_cache_entry) : bool :=
  match spa_ with None => true | Some a => bool_decide (spa e = a) end.

Definition pmksa_cache_auth_get (c : rsn_pmksa_cache) (spa_ pmkid : option bytes) : option rsn_pmksa_cache_entry :=
  match pmkid with
  | Some p =>
    chain ← chains c !! PMKID_HASH p;
    List.find (λ e, same_spa spa_ e && bool_decide (e_pmkid e = p)) chain
  | None => List.find (same_spa spa_) (entries c)
  end.

Definition pmksa_cache_get_okc (c : rsn_pmksa_cache) (aa spa_ pmkid : bytes) : option rsn_pmksa_cache_entry :=
  List.find (λ e, bool_decide (spa e = spa_) &&
                  bool_decide (rsn_pmkid (pmk e) aa spa_ (wpa_key_mgmt_sha256 (akmp e)) = pmkid)) (entries c).

(** [entry_ptr] is the result of [os_zalloc]; the derived PMKID is only computed
    when none is given. *)
Definition pmksa_cache_auth_add (env : pm_env) (m : copies) (entry_ptr : option Z) (pmk_ : bytes)
    (pmkid kck : option bytes) (aa spa_ : bytes) (session_timeout : Z) (eapol : option eapol_data) (akmp_ : Z)
    (c : rsn_pmksa_cache) : outcome (option rsn_pmksa_cache_entry * rsn_pmksa_cache) :=
  if decide (zlen pmk_ > PMK_LEN_MAX) then Ok (None, c)
  else if wpa_key_mgmt_suite_b akmp_ && bool_decide (kck = None) then Ok (None, c)
  else
    match entry_ptr with
    | None => Ok (None, c)
    | Some p =>
      let id :=
        match pmkid with
        | Some i => i
        | None => if wpa_key_mgmt_suite_b akmp_ then replicate 16 0
                  else rsn_pmkid pmk_ aa spa_ (wpa_key_mgmt_sha256 akmp_)
        end in
      let lifetime := if decide (0 < session_timeout) then session_timeout else dot11RSNAConfigPMKLifetime in
      let entry := mk_entry p id pmk_ (fst (now env) + lifetime) akmp_ spa_ None None None 0 None false 0 in
      let entry := pmksa_cache_from_eapol_data m entry eapol in
      let c := match pmksa_cache_auth_get c (Some spa_) None with
               | Some pos => pmksa_cache_free_entry pos c
               | None => c
               end in
      let c := if decide (pmksa_cache_max_entries ≤ pmksa_count c) then
                 match entries c with
                 | first :: _ => pmksa_cache_free_entry first c
                 | [] => c
                 end
               else c in
      c ← pmksa_cache_link_entry env entry c;
      Ok (Some entry, c)
    end.

Definition pmksa_cache_add_okc (env : pm_env) (m : copies) (entry_ptr : option Z)
    (old_entry : rsn_pmksa_cache_entry) (aa pmkid : bytes) (c : rsn_pmksa_cache) :
    outcome (option rsn_pmksa_cache_entry * rsn_pmksa_cache) :=
  match entry_ptr with
  | None => Ok (None, c)
  | Some p =>
    let entry := mk_entry p pmkid (pmk old_entry) (expiration old_entry) (akmp old_entry) (spa old_entry)
      (copy_if (mem_identity m) (identity old_entry)) (copy_if (mem_cui m) (cui old_entry))
      (radius_copy_class (mem_class m) (radius_class old_entry)) (eap_type_authsrv old_entry)
      (copy_if (mem_vlan m) (vlan_desc old_entry)) true 0 in
    c ← pmksa_cache_link_entry env entry c;
    Ok (Some entry, c)
  end.

Definition pmksa_cache_auth_init (ev : eloop_data) : rsn_pmksa_cache :=
  mk_cache (replicate PMKID_HASH_SIZE []) [] 0 [] ev.

(** ** Disconnection by RADIUS *)

(** [struct radius_das_attrs] *)
Record radius_das_attrs := mk_das {
  sta_addr : option bytes;
  user_name : option bytes;
  acct_session_id : option bytes;
  das_multi_session_id : option bytes;
  das_cui : option bytes }.

Definition hexDigit (n : Z) : Z := if decide (n < 10) then 48 + n else 55 + n.

(** [%016llX] *)
Definition hex16 (n : Z) : bytes := map (λ i, hexDigit ((n / 16 ^ (15 - Z.of_nat i)) `mod` 16)) (seq 0 16).

(** One attribute: [None] when it does not match *)
Definition das_attr {A} (attr : option A) (matches : A → bool) (match_ : option Z) : option Z :=
  match match_, attr with
  | Some n, Some a => if matches a then Some (n + 1) else None
  | _, _ => match_
  end.

Definition das_attr_match (entry : rsn_pmksa_cache_entry) (attr : radius_das_attrs) : Z :=
  default 0
    (das_attr (user_name attr) (λ u, bool_decide (identity entry = Some u))
    (das_attr (das_cui attr) (λ u, bool_decide (cui entry = Some u))
    (das_attr (das_multi_session_id attr)
       (λ s, bool_decide (s = hex16 (acct_multi_session_id entry)))
    (das_attr (sta_addr attr) (λ a, bool_decide (a = spa entry)) (Some 0))))).

(** The loop over the entries that were in the list at its start *)
Fixpoint das_loop (attr : radius_das_attrs) (l : list rsn_pmksa_cache_entry) (found : Z) (c : rsn_pmksa_cache) :
    Z * rsn_pmksa_cache :=
  match l with
  | [] => (found, c)
  | e :: l =>
    if decide (das_attr_match e attr ≠ 0) then das_loop attr l (found + 1) (pmksa_cache_free_entry e c)
    else das_loop attr l found c
  end.

Definition pmksa_cache_auth_radius_das_disconnect (attr : radius_das_attrs) (c : rsn_pmksa_cache) :
    Z * rsn_pmksa_cache :=
  match acct_session_id attr with
  | Some _ => (-1, c)
  | None =>
    let r := das_loop attr (entries c) 0 c in
    (if decide (r.1 ≠ 0) then 0 else -1, r.2)
  end.

(** All entries go without [free_cb], and the timeout; what stays is the event loop. *)
Definition pmksa_cache_auth_deinit (c : rsn_pmksa_cache) : Eloop.eloop_data :=
  (eloop_cancel_timeout expire_handler cache_ptr 0 (loop_data c)).2.

End cache.

(** ** Lists of entries *)

Lemma unlink_sublist p l : sublist (unlink p l) l.
Proof. induction l as [|e l IH]; cbn; [constructor|]. by destruct (decide _); constructor. Qed.

Definition ptrs (l : list rsn_pmksa_cache_entry) : list Z := e_ptr <$> l.

(** With different pointers unlinking removes exactly the entry. *)
Lemma unlink_elem p l x : NoDup (ptrs l) → x ∈ unlink p l ↔ x ∈ l ∧ e_ptr x ≠ p.
Proof.
  induction l as [|e l IH]; cbn; [intros _; split; [by intros ?%elem_of_nil|by intros [?%elem_of_nil _]]|].
  intros [He Hl]%list.NoDup_cons.
  destruct (decide (e_ptr e = p)) as [<-|Hne]; rewrite ?elem_of_cons, ?IH by done.
  - split.
    + intros Hx. split; [by right|]. intros Heq. apply He. rewrite <- Heq. by apply list_elem_of_fmap_2.
    + intros [[->|Hx] Hn]; done.
  - split; [|tauto]. intros [->|Hx]; [|tauto]. split; [by left|done].
Qed.

Lemma ptrs_unlink p l : sublist (ptrs (unlink p l)) (ptrs l).
Proof. induction l as [|e l IH]; cbn; [constructor|]. by destruct (decide _); constructor. Qed.

Lemma unlink_length p l : p ∈ ptrs l → S (length (unlink p l)) = length l.
Proof.
  induction l as [|e l IH]; cbn; [by intros ?%elem_of_nil|]. intros [->|Hp]%elem_of_cons.
  - by rewrite decide_True.
  - destruct (decide _); [done|]. cbn. by rewrite IH.
Qed.

Lemma insert_entry_split e l : ∃ l1 l2, l = l1 ++ l2 ∧ insert_entry e l = l1 ++ e :: l2 ∧
  Forall (λ x, expiration x ≤ expiration e) l1 ∧
  match l2 with [] => True | x :: _ => expiration e < expiration x end.
Proof.
  induction l as [|x l IH]; cbn; [by exists [], []; repeat constructor|].
  destruct (decide _) as [Hlt|Hge]; [exists [], (x :: l); by repeat constructor|].
  destruct IH as (l1 & l2 & -> & -> & H1 & H2). exists (x :: l1), l2.
  split_and!; [done|done| |done]. constructor; [lia|done].
Qed.

Lemma insert_entry_elem e l x : x ∈ insert_entry e l ↔ x = e ∨ x ∈ l.
Proof.
  destruct (insert_entry_split e l) as (l1 & l2 & -> & -> & _). rewrite !elem_of_app, elem_of_cons. tauto.
Qed.

Definition exp_le (a b : rsn_pmksa_cache_entry) : Prop := expiration a ≤ expiration b.

Lemma insert_entry_sorted e l : StronglySorted exp_le l → StronglySorted exp_le (insert_entry e l).
Proof.
  destruct (insert_entry_split e l) as (l1 & l2 & -> & -> & H1 & H2). intros Hs.
  apply sorted_insert; [done|done|].
  assert (StronglySorted exp_le l2) as Hs2.
  { eapply sorted_sublist; [|exact Hs]. by apply sublist_inserts_l. }
  destruct l2 as [|x l2]; [constructor|]. apply StronglySorted_inv in Hs2 as [_ Hx].
  constructor; [unfold exp_le; lia|]. eapply Forall_impl; [exact Hx|]. unfold exp_le. cbn. lia.
Qed.

(** ** The invariant *)

(** The entries are in order of expiration, have different addresses, PMKIDs of 16
    octets, are counted, and each chain holds exactly the entries with its hash. *)
Record cache_ok (c : rsn_pmksa_cache) : Prop := {
  co_sorted : StronglySorted exp_le (entries c);
  co_ptrs : NoDup (ptrs (entries c));
  co_pmkids : Forall (λ e, length (e_pmkid e) = 16%nat) (entries c);
  co_count : pmksa_count c = zlen (entries c);
  co_length : length (chains c) = PMKID_HASH_SIZE;
  co_chains h l : chains c !! h = Some l →
    NoDup (ptrs l) ∧ ∀ e, e ∈ l ↔ e ∈ entries c ∧ PMKID_HASH (e_pmkid e) = h;
  co_loop : eloop_ok (loop_data c) }.

Lemma hash_range p : (PMKID_HASH p < PMKID_HASH_SIZE)%nat.
Proof.
  unfold PMKID_HASH, PMKID_HASH_SIZE. change 0x7f with (Z.ones 7). rewrite Z.land_ones by lia.
  pose proof (Z.mod_pos_bound (nth 0 p 0) (2 ^ 7)). lia.
Qed.

(** Entries of the cache with the same address are the same. *)
Lemma ptr_inj l x y : NoDup (ptrs l) → x ∈ l → y ∈ l → e_ptr x = e_ptr y → x = y.
Proof.
  induction l as [|e l IH]; cbn; [by intros _ ?%elem_of_nil|].
  intros [He Hl]%list.NoDup_cons [->|Hx]%elem_of_cons [->|Hy]%elem_of_cons Heq; [done|..].
  - exfalso. apply He. rewrite Heq. by apply list_elem_of_fmap_2.
  - exfalso. apply He. rewrite <- Heq. by apply list_elem_of_fmap_2.
  - by apply IH.
Qed.

Lemma free_entry_ok e c : cache_ok c → e ∈ entries c → cache_ok (pmksa_cache_free_entry e c).
Proof.
  intros [H1 H2 H3 H4 H5 H6 H7] He. split; cbn.
  - eapply sorted_sublist; [apply unlink_sublist|done].
  - eapply sublist_NoDup; [done|apply ptrs_unlink].
  - eapply sublist_Forall; [apply unlink_sublist|done].
  - rewrite H4. unfold zlen. pose proof (unlink_length (e_ptr e) (entries c)) as Hl.
    rewrite <- Hl by (by apply list_elem_of_fmap_2). lia.
  - by rewrite length_alter.
  - intros h l Hl. destruct (decide (h = PMKID_HASH (e_pmkid e))) as [->|Hh].
    + rewrite list_lookup_alter_eq in Hl. destruct (chains c !! PMKID_HASH (e_pmkid e)) as [k|] eqn:Hk; cbn in Hl; [|discriminate Hl].
      injection Hl as <-. destruct (H6 _ _ Hk) as [Hn Hin].
      split; [eapply sublist_NoDup; [done|apply ptrs_unlink]|]. intros x.
      rewrite !unlink_elem, Hin by done. tauto.
    + rewrite list_lookup_alter_ne in Hl by done. destruct (H6 _ _ Hl) as [Hn Hin]. split; [done|].
      intros x. rewrite Hin, unlink_elem by done. split; [|tauto]. intros [Hx Hxh]. split; [|done].
      split; [done|]. intros Heq. apply Hh. rewrite <- Hxh. do 2 f_equal.
      by apply (ptr_inj (entries c)).
  - done.
Qed.

Lemma free_while_ok n cond c : cache_ok c → cache_ok (free_while n cond c).
Proof.
  revert c. induction n as [|n IH]; intros c Hc; cbn; [done|].
  destruct (entries c) as [|e l] eqn:He; [done|]. destruct (cond e); [|done].
  apply IH, free_entry_ok; [done|]. rewrite He. by left.
Qed.

(** The loop ends because its condition does not hold any more. *)
Lemma free_while_end n cond c :
  (length (entries c) ≤ n)%nat →
  match entries (free_while n cond c) with [] => True | e :: _ => cond e = false end.
Proof.
  revert c. induction n as [|n IH]; intros c Hn; cbn.
  - destruct (entries c); [done|]. cbn in Hn. lia.
  - destruct (entries c) as [|e l] eqn:He; [by rewrite He|].
    destruct (cond e) eqn:Hc; [|by rewrite He]. apply IH. cbn. rewrite He. cbn.
    rewrite decide_True by done. cbn in Hn. lia.
Qed.

(** Only entries that satisfy the condition are freed. *)
Lemma free_while_keeps n cond c x :
  cache_ok c → x ∈ entries c → cond x = false → x ∈ entries (free_while n cond c).
Proof.
  revert c. induction n as [|n IH]; intros c Hc Hx Hf; cbn; [done|].
  destruct (entries c) as [|e l] eqn:He; [by apply elem_of_nil in Hx|]. destruct (cond e) eqn:Hce; [|by rewrite He].
  assert (e ∈ entries c) as Hin by (rewrite He; by left).
  apply IH; [by apply free_entry_ok| |done]. cbn. rewrite unlink_elem by apply Hc.
  split; [by rewrite He|]. intros Heq. assert (x = e) as ->; [|congruence].
  apply (ptr_inj (entries c)); [apply Hc|by rewrite He|done|done].
Qed.

Lemma free_while_subset n cond c x : x ∈ entries (free_while n cond c) → x ∈ entries c.
Proof.
  revert c. induction n as [|n IH]; intros c; cbn; [done|].
  destruct (entries c) as [|e l] eqn:He; [by rewrite He|]. destruct (cond e); [|by rewrite He].
  intros Hx%IH. cbn in Hx. rewrite He in Hx. cbn in Hx. rewrite decide_True in Hx by done. by right.
Qed.

Section operations.
Context (expire_handler cache_ptr : Z).

Definition env_ok (env : pm_env) : Prop :=
  usec_ok (now env) ∧ from_option usec_ok True (now_timeout env).

(** Every entry expires within the range of [int] around [t]. *)
Definition expiry_ok (t : Z) (c : rsn_pmksa_cache) : Prop :=
  Forall (λ e, t - 2 ^ 31 ≤ expiration e < t + 2 ^ 31 - 1) (entries c).

Lemma cache_ok_loop c ev : cache_ok c → eloop_ok ev → cache_ok (c <| loop_data := ev |>).
Proof. by intros [H1 H2 H3 H4 H5 H6 H7] Hev. Qed.

Lemma s32_small z : - 2 ^ 31 ≤ z < 2 ^ 31 → s32 z = z.
Proof. intros Hz. unfold s32. rewrite Z.mod_small by lia. lia. Qed.

(** What is registered: the timeout for the first entry *)
Definition timer_for (env : pm_env) (e : rsn_pmksa_cache_entry) (ev : Eloop.eloop_data) : Prop :=
  ∃ t, t ∈ timeout ev ∧ (t_handler t, t_eloop_data t, t_user_data t) = (expire_handler, cache_ptr, 0) ∧
    us (time t) = us (now env) + (Z.max 0 (expiration e - fst (now env)) + 1) * 1000000.

(** Memory and the clock are available for the timeout. *)
Definition can_register (env : pm_env) : Prop :=
  mem_timeout env = true ∧ now_timeout env = Some (now env) ∧ 0 ≤ fst (now env) < 2 ^ 62.

Lemma set_expiration_spec env c :
  env_ok env → expiry_ok (fst (now env)) c → eloop_ok (loop_data c) →
  ∃ ev, pmksa_cache_set_expiration expire_handler cache_ptr env c = Ok (c <| loop_data := ev |>) ∧ eloop_ok ev ∧
    (can_register env → match entries c with [] => True | e :: _ => timer_for env e ev end).
Proof.
  intros [He1 He2] Hx Hev. unfold pmksa_cache_set_expiration.
  pose proof (cancelled_ok (matches_ctx expire_handler cache_ptr 0) false (loop_data c) Hev) as Hev'.
  fold (eloop_cancel_timeout expire_handler cache_ptr 0 (loop_data c)) in Hev'.
  destruct (entries c) as [|e l] eqn:Hl; [by eexists|].
  unfold expiry_ok in Hx. rewrite Hl in Hx. apply Forall_cons_iff in Hx as [Hx _].
  rewrite s32_small by lia. set (sec := if decide _ then _ else _).
  assert (sec = Z.max 0 (expiration e - fst (now env))) as Hsec by (unfold sec; destruct (decide _); lia).
  clearbody sec. rewrite bool_decide_eq_true_2 by lia. cbn [guard_ub]. rewrite bind_Ok.
  eexists. split_and!; [done|by apply register_timeout_ok|].
  intros (Hm & Hr & Hn). rewrite Hm, Hr.
  destruct (register_timeout_at (now env) (sec + 1) 0 expire_handler cache_ptr 0
              (eloop_cancel_timeout expire_handler cache_ptr 0 (loop_data c)).2 Hev' He1 ltac:(lia) ltac:(lia) ltac:(lia) ltac:(lia))
    as (l1 & l2 & t & _ & -> & Ht & _ & Hus & _). exists t. cbn [snd].
  split_and!; [|done|rewrite Hus, <- Hsec; lia]. cbn. apply elem_of_app. right. by left.
Qed.

(** The cache with [e] in its list and chain *)
Definition linked (e : rsn_pmksa_cache_entry) (c : rsn_pmksa_cache) : rsn_pmksa_cache :=
  mk_cache (alter (cons e) (PMKID_HASH (e_pmkid e)) (chains c))
    (insert_entry e (entries c)) (pmksa_count c + 1) (freed c) (loop_data c).

Lemma linked_ok e c :
  cache_ok c → e_ptr e ∉ ptrs (entries c) → length (e_pmkid e) = 16%nat → cache_ok (linked e c).
Proof.
  intros [H1 H2 H3 H4 H5 H6 H7] Hp Hid. split; cbn.
  - by apply insert_entry_sorted.
  - destruct (insert_entry_split e (entries c)) as (l1 & l2 & Hl & -> & _).
    unfold ptrs in *. rewrite Hl, fmap_app in *. rewrite fmap_cons. cbn.
    rewrite <- Permutation_middle. constructor; done.
  - apply Forall_forall. intros x [->|Hin]%insert_entry_elem; [done|].
    exact (proj1 (Forall_forall _ _) H3 x Hin).
  - destruct (insert_entry_split e (entries c)) as (l1 & l2 & Hl & -> & _).
    rewrite H4, Hl. rewrite !zlen_app, zlen_cons. lia.
  - by rewrite length_alter.
  - intros h l Hl. destruct (decide (h = PMKID_HASH (e_pmkid e))) as [->|Hh].
    + rewrite list_lookup_alter_eq in Hl. destruct (chains c !! PMKID_HASH (e_pmkid e)) as [k|] eqn:Hk; cbn in Hl; [|discriminate Hl].
      injection Hl as <-. destruct (H6 _ _ Hk) as [Hn Hin]. split.
      * constructor; [|done]. intros (x & Hxp & Hxk)%list_elem_of_fmap. apply Hp. rewrite Hxp.
        apply list_elem_of_fmap_2. by apply Hin.
      * intros x. rewrite elem_of_cons, insert_entry_elem, Hin. split; [|tauto].
        intros [->|[Hy Hyh]]; [by split; [left|]|by split; [right|]].
    + rewrite list_lookup_alter_ne in Hl by done. destruct (H6 _ _ Hl) as [Hn Hin]. split; [done|].
      intros x. rewrite Hin, insert_entry_elem. split; [tauto|]. intros [[->|Hxe] Hxh]; [congruence|done].
  - done.
Qed.

(** The one addition that can overflow *)
Definition too_late (env : pm_env) (e : rsn_pmksa_cache_entry) : Prop :=
  s32 (expiration e - fst (now env)) = 2 ^ 31 - 1.

Lemma s32_range z : - 2 ^ 31 ≤ s32 z < 2 ^ 31.
Proof. unfold s32. pose proof (Z.mod_pos_bound (z + 2 ^ 31) (2 ^ 32)). lia. Qed.

Lemma set_expiration_cases env c :
  env_ok env → cache_ok c →
  (∃ c', pmksa_cache_set_expiration expire_handler cache_ptr env c = Ok c' ∧ cache_ok c' ∧ entries c' = entries c) ∨
  pmksa_cache_set_expiration expire_handler cache_ptr env c = Undef Overflow ∧
    ∃ e l, entries c = e :: l ∧ too_late env e.
Proof.
  intros [He1 He2] Hc. unfold pmksa_cache_set_expiration.
  pose proof (cancelled_ok (matches_ctx expire_handler cache_ptr 0) false (loop_data c) (co_loop _ Hc)) as Hev.
  fold (eloop_cancel_timeout expire_handler cache_ptr 0 (loop_data c)) in Hev.
  destruct (entries c) as [|e l] eqn:Hl; [left; eexists; split_and!; [done|by apply cache_ok_loop|done]|].
  pose proof (s32_range (expiration e - fst (now env))) as Hr. unfold too_late.
  set (z := s32 _) in *. cbn zeta. destruct (bool_decide _) eqn:Hb; cbn [guard_ub]; rewrite ?bind_Ok.
  - left. eexists. split_and!; [done|apply cache_ok_loop; [done|by apply register_timeout_ok]|done].
  - right. split; [done|]. exists e, l. split; [done|]. apply bool_decide_eq_false in Hb.
    revert Hb. case_decide; lia.
Qed.

Lemma link_entry_cases env e c :
  env_ok env → cache_ok c → e_ptr e ∉ ptrs (entries c) → length (e_pmkid e) = 16%nat →
  (∃ c', pmksa_cache_link_entry expire_handler cache_ptr env e c = Ok c' ∧ cache_ok c' ∧
         entries c' = insert_entry e (entries c)) ∨
  pmksa_cache_link_entry expire_handler cache_ptr env e c = Undef Overflow ∧ too_late env e.
Proof.
  intros He Hc Hp Hid. unfold pmksa_cache_link_entry. fold (linked e c).
  pose proof (linked_ok e c Hc Hp Hid) as Hc'.
  destruct (goes_first e (entries c)) eqn:Hg; [|left; by exists (linked e c)].
  destruct (set_expiration_cases env (linked e c) He Hc') as [Hok|(-> & x & l & Hx & Hl)];
    [by left|right]. split; [done|]. cbn in Hx. destruct (entries c) as [|y r]; cbn in Hx, Hg.
  - by injection Hx as <- <-.
  - apply bool_decide_eq_true in Hg. rewrite decide_True in Hx by done. by injection Hx as <- <-.
Qed.

End operations.

(** ** Operations and reachable caches *)

Section reachable.
Context {C : Crypto} {HC : CryptoOk C} (expire_handler cache_ptr : Z).

(** An operation; [op_other]: something else of the program uses the event loop. *)
Inductive pm_op :=
  | op_add (env : pm_env) (m : copies) (p : option Z) (pmk_ : bytes) (pmkid kck : option bytes) (aa spa_ : bytes)
      (session_timeout : Z) (eapol : option eapol_data) (akmp_ : Z)
  | op_okc (env : pm_env) (m : copies) (p : option Z) (old : rsn_pmksa_cache_entry) (aa pmkid : bytes)
  | op_free (e : rsn_pmksa_cache_entry)
  | op_flush
  | op_expire (env : pm_env)
  | op_das (attr : radius_das_attrs)
  | op_other (ev : Eloop.eloop_data).

Definition run_op (o : pm_op) (c : rsn_pmksa_cache) : outcome rsn_pmksa_cache :=
  match o with
  | op_add env m p k i kck aa sp st ea ak =>
    r ← pmksa_cache_auth_add expire_handler cache_ptr env m p k i kck aa sp st ea ak c; Ok r.2
  | op_okc env m p old aa i => r ← pmksa_cache_add_okc expire_handler cache_ptr env m p old aa i c; Ok r.2
  | op_free e => Ok (pmksa_cache_free_entry e c)
  | op_flush => Ok (pmksa_cache_auth_flush c)
  | op_expire env => pmksa_cache_expire expire_handler cache_ptr env c
  | op_das attr => Ok (pmksa_cache_auth_radius_das_disconnect attr c).2
  | op_other ev => Ok (c <| loop_data := ev |>)
  end.

Lemma init_ok ev : eloop_ok ev → cache_ok (pmksa_cache_auth_init ev).
Proof.
  intros Hev. split; cbn [entries chains pmksa_count loop_data pmksa_cache_auth_init]; [constructor..|done|done| |done].
  intros h l Hl. apply lookup_replicate in Hl as [-> _]. split; [constructor|]. intros e.
  split; [by intros ?%elem_of_nil|by intros [?%elem_of_nil _]].
Qed.

Lemma free_entry_subset e c x : x ∈ entries (pmksa_cache_free_entry e c) → x ∈ entries c.
Proof. cbn. intros Hx. eapply elem_of_submseteq; [exact Hx|]. apply sublist_submseteq, unlink_sublist. Qed.

(** Making room: at most one entry is removed, the first. *)
Definition make_room (c : rsn_pmksa_cache) : rsn_pmksa_cache :=
  if decide (pmksa_cache_max_entries ≤ pmksa_count c) then
    match entries c with first :: _ => pmksa_cache_free_entry first c | [] => c end
  else c.

Definition drop_old (spa_ : bytes) (c : rsn_pmksa_cache) : rsn_pmksa_cache :=
  match pmksa_cache_auth_get c (Some spa_) None with
  | Some pos => pmksa_cache_free_entry pos c
  | None => c
  end.

Lemma make_room_ok c : cache_ok c → cache_ok (make_room c).
Proof.
  intros Hc. unfold make_room. destruct (decide _); [|done]. destruct (entries c) eqn:He; [done|].
  apply free_entry_ok; [done|]. rewrite He. by left.
Qed.

Lemma make_room_subset c x : x ∈ entries (make_room c) → x ∈ entries c.
Proof.
  unfold make_room. destruct (decide _); [|done]. destruct (entries c) eqn:He; [by rewrite He|].
  rewrite <- He. apply free_entry_subset.
Qed.

Lemma find_in {A} (f : A → bool) l x : List.find f l = Some x → x ∈ l ∧ f x = true.
Proof. intros [Hx Hf]%List.find_some. split; [by apply list_elem_of_In|done]. Qed.

Lemma find_none {A} (f : A → bool) l x : List.find f l = None → x ∈ l → f x = false.
Proof. intros Hn Hx. eapply List.find_none; [done|]. by apply list_elem_of_In. Qed.

Lemma drop_old_ok spa_ c : cache_ok c → cache_ok (drop_old spa_ c).
Proof.
  intros Hc. unfold drop_old. destruct (pmksa_cache_auth_get _ _ _) as [pos|] eqn:Hg; [|done].
  apply free_entry_ok; [done|]. by apply find_in in Hg as [? _].
Qed.

Lemma drop_old_subset spa_ c x : x ∈ entries (drop_old spa_ c) → x ∈ entries c.
Proof. unfold drop_old. destruct (pmksa_cache_auth_get _ _ _); [apply free_entry_subset|done]. Qed.

Lemma from_eapol_fields m e d :
  let e' := pmksa_cache_from_eapol_data m e d in
  e_ptr e' = e_ptr e ∧ e_pmkid e' = e_pmkid e ∧ expiration e' = expiration e ∧ spa e' = spa e ∧ pmk e' = pmk e.
Proof. by destruct d as [[]|]. Qed.

(** The entry of [pmksa_cache_auth_add] *)
Definition new_entry (env : pm_env) (m : copies) (p : Z) (pmk_ : bytes) (pmkid : option bytes) (aa spa_ : bytes)
    (st : Z) (eapol : option eapol_data) (akmp_ : Z) : rsn_pmksa_cache_entry :=
  pmksa_cache_from_eapol_data m
    (mk_entry p
       match pmkid with
       | Some i => i
       | None => if wpa_key_mgmt_suite_b akmp_ then replicate 16 0
                 else rsn_pmkid pmk_ aa spa_ (wpa_key_mgmt_sha256 akmp_)
       end
       pmk_ (fst (now env) + if decide (0 < st) then st else dot11RSNAConfigPMKLifetime)
       akmp_ spa_ None None None 0 None false 0) eapol.

Lemma auth_add_eq env m p k i kck aa sp st ea ak c :
  pmksa_cache_auth_add expire_handler cache_ptr env m p k i kck aa sp st ea ak c =
  if decide (zlen k > PMK_LEN_MAX) then Ok (None, c)
  else if wpa_key_mgmt_suite_b ak && bool_decide (kck = None) then Ok (None, c)
  else match p with
       | None => Ok (None, c)
       | Some p =>
         let e := new_entry env m p k i aa sp st ea ak in
         c ← pmksa_cache_link_entry expire_handler cache_ptr env e (make_room (drop_old sp c));
         Ok (Some e, c)
       end.
Proof. by destruct p. Qed.


Lemma new_entry_pmkid env m p k i aa sp st ea ak :
  from_option (λ i, length i = 16%nat) True i →
  length (e_pmkid (new_entry env m p k i aa sp st ea ak)) = 16%nat.
Proof.
  intros Hi. unfold new_entry. destruct (from_eapol_fields m (mk_entry p
    match i with Some i => i | None => if wpa_key_mgmt_suite_b ak then replicate 16 0
      else rsn_pmkid k aa sp (wpa_key_mgmt_sha256 ak) end k
    (fst (now env) + if decide (0 < st) then st else dot11RSNAConfigPMKLifetime)
    ak sp None None None 0 None false 0) ea) as (_ & -> & _). cbn.
  destruct i; [done|]. destruct (wpa_key_mgmt_suite_b ak); [done|apply rsn_pmkid_length].
Qed.

Lemma das_loop_ok attr l found c :
  NoDup (ptrs l) → (∀ x, x ∈ l → x ∈ entries c) → cache_ok c →
  cache_ok (das_loop attr l found c).2 ∧ ∀ x, x ∈ entries (das_loop attr l found c).2 → x ∈ entries c.
Proof.
  revert found c. induction l as [|e l IH]; intros found c Hn Hs Hc; cbn; [done|].
  apply list.NoDup_cons in Hn as [He Hn]. destruct (decide _).
  - destruct (IH (found + 1) (pmksa_cache_free_entry e c)) as [H1 H2]; [done| |apply free_entry_ok; [done|]; apply Hs; by left|].
    + intros x Hx. cbn. rewrite unlink_elem by apply Hc. split; [by apply Hs; right|].
      intros Heq. apply He. fold (ptrs l). rewrite <- Heq. by apply list_elem_of_fmap_2.
    + split; [done|]. intros x Hx. eapply free_entry_subset. by apply H2.
  - apply IH; [done| |done]. intros x Hx. apply Hs. by right.
Qed.

(** ** Safety *)

(** What the callers guarantee: nothing is assumed of the clock and of the
    session timeouts, which come from a RADIUS server as any 32-bit number. *)

Definition op_ok (o : pm_op) (c : rsn_pmksa_cache) : Prop :=
  match o with
  | op_add env m p k i kck aa sp st ea ak =>
    env_ok env ∧ from_option (λ p, p ∉ ptrs (entries c)) True p ∧ from_option (λ i, length i = 16%nat) True i ∧
    - 2 ^ 31 ≤ st < 2 ^ 31
  | op_okc env m p old aa i =>
    env_ok env ∧ from_option (λ p, p ∉ ptrs (entries c)) True p ∧ length i = 16%nat
  | op_free e => e ∈ entries c
  | op_expire env => env_ok env
  | op_other ev => eloop_ok ev
  | op_flush | op_das _ => True
  end.

Inductive reaches : rsn_pmksa_cache → Prop :=
  | reaches_init ev : eloop_ok ev → reaches (pmksa_cache_auth_init ev)
  | reaches_step c o c' : reaches c → op_ok o c → run_op o c = Ok c' → reaches c'.

(** The only ways to an overflow: a session timeout of exactly [2 ^ 31 - 1], a
    copied entry that expires that many seconds from now, or such an entry that
    becomes the first. *)
Definition overflow_cause (o : pm_op) (c : rsn_pmksa_cache) : Prop :=
  match o with
  | op_add env m p k i kck aa sp st ea ak => st = 2 ^ 31 - 1
  | op_okc env m p old aa i => s32 (expiration old - fst (now env)) = 2 ^ 31 - 1
  | op_expire env => ∃ e, e ∈ entries c ∧ s32 (expiration e - fst (now env)) = 2 ^ 31 - 1
  | _ => False
  end.

Lemma lifetime_too_late env m p k i aa sp st ea ak :
  - 2 ^ 31 ≤ st < 2 ^ 31 → too_late env (new_entry env m p k i aa sp st ea ak) → st = 2 ^ 31 - 1.
Proof.
  intros Hst. unfold too_late, new_entry. edestruct from_eapol_fields as (_ & _ & -> & _). cbn.
  unfold dot11RSNAConfigPMKLifetime. intros Hl. rewrite s32_small in Hl by (destruct (decide _); lia).
  destruct (decide _); lia.
Qed.

Lemma step_cases o c :
  cache_ok c → op_ok o c →
  (∃ c', run_op o c = Ok c' ∧ cache_ok c') ∨ run_op o c = Undef Overflow ∧ overflow_cause o c.
Proof.
  intros Hc Ho. destruct o as [env m p k i kck aa sp st ea ak|env m p old aa i|e| |env|attr|ev]; cbn [run_op].
  - destruct Ho as (He & Hp & Hi & Hst). rewrite auth_add_eq.
    destruct (decide _); [left; by exists c|]. destruct (_ && _); [left; by exists c|].
    destruct p as [p|]; [|left; by exists c]. cbn zeta.
    set (e := new_entry _ _ _ _ _ _ _ _ _ _). set (c1 := make_room _).
    assert (e_ptr e ∉ ptrs (entries c1)) as Hfresh.
    { assert (e_ptr e = p) as ->.
      { subst e. unfold new_entry. by edestruct from_eapol_fields as (-> & _). }
      intros Hin. apply Hp. apply list_elem_of_fmap in Hin as (x & -> & Hx%make_room_subset%drop_old_subset).
      by apply list_elem_of_fmap_2. }
    destruct (link_entry_cases expire_handler cache_ptr env e c1) as [(c2 & -> & Hc2 & _)|[-> Hl]];
      [done|by apply make_room_ok, drop_old_ok|done|by apply new_entry_pmkid|left; by exists c2|right].
    split; [done|]. by eapply lifetime_too_late.
  - destruct Ho as (He & Hp & Hi). unfold pmksa_cache_add_okc. destruct p as [p|]; [|left; by exists c].
    set (e := mk_entry _ _ _ _ _ _ _ _ _ _ _ _ _).
    destruct (link_entry_cases expire_handler cache_ptr env e c) as [(c2 & -> & Hc2 & _)|[-> Hl]];
      [done|done|done|done|left; by exists c2|by right].
  - left. eexists. split; [done|by apply free_entry_ok].
  - left. eexists. split; [done|by apply free_while_ok].
  - unfold pmksa_cache_expire. set (c1 := free_while _ _ _).
    destruct (set_expiration_cases expire_handler cache_ptr env c1) as [(c2 & -> & Hc2 & _)|(-> & e & l & Hl & Hlate)];
      [done|by apply free_while_ok|left; by exists c2|right].
    split; [done|]. exists e. split; [|done].
    assert (e ∈ entries c1) as Hin by (rewrite Hl; by left). revert Hin. apply free_while_subset.
  - left. eexists. split; [done|]. unfold pmksa_cache_auth_radius_das_disconnect.
    destruct (acct_session_id attr); [done|]. cbn. apply das_loop_ok; [apply Hc|done|done].
  - left. eexists. split; [done|by apply cache_ok_loop].
Qed.

Lemma reaches_ok c : reaches c → cache_ok c.
Proof.
  induction 1 as [ev Hev|c o c' _ Hc Ho Hr]; [by apply init_ok|].
  destruct (step_cases o c Hc Ho) as [(c2 & Hr2 & Hc2)|[Hr2 _]]; congruence.
Qed.

(** An opportunistic copy of an entry, of this or another cache *)
Lemma add_okc_spec env m p old aa i c :
  reaches c → op_ok (op_okc env m p old aa i) c → ¬ overflow_cause (op_okc env m p old aa i) c →
  ∃ e c', pmksa_cache_add_okc expire_handler cache_ptr env m p old aa i c = Ok (e, c') ∧ reaches c' ∧
    ∀ x, e = Some x → x ∈ entries c' ∧ spa x = spa old ∧ pmk x = pmk old ∧ e_pmkid x = i.
Proof.
  intros Hc Ho Hn. pose proof (reaches_ok _ Hc) as Hok.
  assert (∃ e c', pmksa_cache_add_okc expire_handler cache_ptr env m p old aa i c = Ok (e, c') ∧
    ∀ x, e = Some x → x ∈ entries c' ∧ spa x = spa old ∧ pmk x = pmk old ∧ e_pmkid x = i) as (e & c' & Hr & Hx).
  { unfold pmksa_cache_add_okc. destruct p as [p|]; [|by exists None, c].
    destruct Ho as (He & Hp & Hi). set (e := mk_entry _ _ _ _ _ _ _ _ _ _ _ _ _).
    destruct (link_entry_cases expire_handler cache_ptr env e c) as [(c2 & -> & _ & Hen)|[_ []%Hn]]; [done..|].
    exists (Some e), c2. split; [done|]. intros x [= <-]. rewrite Hen. split; [|done]. apply insert_entry_elem. by left. }
  exists e, c'. split; [done|]. split; [|done]. eapply reaches_step; [done|exact Ho|]. cbn [run_op]. by rewrite Hr.
Qed.

End reachable.

Section theorems.
Context {C : Crypto} {HC : CryptoOk C} (expire_handler cache_ptr : Z).

(** ** Lookup *)

(** A linear search of the entries, the reference for the hash chains *)
Definition linear_get (c : rsn_pmksa_cache) (spa_ pmkid : option bytes) : option rsn_pmksa_cache_entry :=
  List.find (λ e, same_spa spa_ e && match pmkid with None => true | Some p => bool_decide (e_pmkid e = p) end)
    (entries c).

Definition matches_get (spa_ pmkid : option bytes) (e : rsn_pmksa_cache_entry) : Prop :=
  from_option (λ a, spa e = a) True spa_ ∧ from_option (λ p, e_pmkid e = p) True pmkid.

Lemma matches_get_spec spa_ pmkid e :
  same_spa spa_ e && match pmkid with None => true | Some p => bool_decide (e_pmkid e = p) end = true ↔
  matches_get spa_ pmkid e.
Proof.
  unfold matches_get, same_spa. rewrite andb_true_iff.
  destruct spa_, pmkid; cbn; rewrite ?bool_decide_eq_true; tauto.
Qed.

Lemma find_eq_None {A} (f : A → bool) l : (∀ x, x ∈ l → f x = false) → List.find f l = None.
Proof.
  intros Hn. destruct (List.find f l) eqn:Hf; [|done]. apply find_in in Hf as [Hx Hf]. by rewrite Hn in Hf.
Qed.

Lemma linear_get_Some c spa_ pmkid e :
  linear_get c spa_ pmkid = Some e → e ∈ entries c ∧ matches_get spa_ pmkid e.
Proof. intros [Hx Hm%matches_get_spec]%find_in. done. Qed.

Lemma linear_get_None c spa_ pmkid e :
  linear_get c spa_ pmkid = None → e ∈ entries c → ¬ matches_get spa_ pmkid e.
Proof. intros Hn Hx Hm%matches_get_spec. eapply find_none in Hn; [|done]. cbn in Hn. congruence. Qed.

Lemma chain_get c spa_ p :
  cache_ok c →
  match pmksa_cache_auth_get c spa_ (Some p) with
  | Some e => e ∈ entries c ∧ matches_get spa_ (Some p) e
  | None => ∀ e, e ∈ entries c → ¬ matches_get spa_ (Some p) e
  end.
Proof.
  intros Hc. cbn. pose proof (hash_range p) as Hh. rewrite <- (co_length _ Hc) in Hh.
  apply lookup_lt_is_Some in Hh as [l Hl]. rewrite Hl. cbn.
  destruct (co_chains _ Hc _ _ Hl) as [_ Hin]. destruct (List.find _ l) eqn:Hf.
  - apply find_in in Hf as [Hx Hm]. apply Hin in Hx as [Hx _]. split; [done|].
    by apply (matches_get_spec spa_ (Some p)) in Hm.
  - intros e Hx Hm. assert (PMKID_HASH (e_pmkid e) = PMKID_HASH p) as He by (by destruct Hm as [_ ->]).
    eapply find_none in Hf; [|by apply Hin]. apply (matches_get_spec spa_ (Some p)) in Hm. cbn in Hf. congruence.
Qed.

(** C32. Searching the cache by PMKID, which only looks at one hash chain, is
    equivalent to a search of all entries: it finds an entry exactly when there is
    one with the address and the PMKID, it finds such an entry, and the same one when
    they are unique. A search without PMKID is a search of all entries. *)
Theorem pmksa_get_linear (c : rsn_pmksa_cache) (spa_ pmkid : option bytes)
    (Hc : reaches expire_handler cache_ptr c) :
  match pmksa_cache_auth_get c spa_ pmkid, linear_get c spa_ pmkid with
  | Some e, Some e' => e ∈ entries c ∧ matches_get spa_ pmkid e ∧ matches_get spa_ pmkid e' ∧
      (pmkid = None ∨ (∀ x y, x ∈ entries c → y ∈ entries c → matches_get spa_ pmkid x →
                         matches_get spa_ pmkid y → x = y) → e = e')
  | None, None => ∀ e, e ∈ entries c → ¬ matches_get spa_ pmkid e
  | _, _ => False
  end.
Proof.
  apply reaches_ok in Hc.
  pose proof (linear_get_Some c spa_ pmkid) as Hs. pose proof (linear_get_None c spa_ pmkid) as Hn.
  destruct pmkid as [p|].
  - pose proof (chain_get c spa_ p Hc) as Hg. destruct (pmksa_cache_auth_get _ _ _) as [e|], (linear_get _ _ _) as [e'|].
    + destruct Hg as [Hx Hm], (Hs e' eq_refl) as [Hx' Hm']. split_and!; [done..|]. intros [?|Hu]; [done|]. by apply Hu.
    + destruct Hg as [Hx Hm]. by eapply Hn.
    + destruct (Hs e' eq_refl) as [Hx' Hm']. by eapply Hg.
    + done.
  - assert (pmksa_cache_auth_get c spa_ None = linear_get c spa_ None) as ->.
    { unfold linear_get. cbn [pmksa_cache_auth_get]. clear. induction (entries c) as [|e l IH]; [done|].
      cbn [List.find]. rewrite andb_true_r, IH. done. }
    destruct (linear_get _ _ _) as [e|]; [|by intros e; apply Hn].
    destruct (Hs e eq_refl) as [Hx Hm]. split_and!; done.
Qed.

(** C33. Whatever sequence of additions, opportunistic copies, removals, flushes,
    expirations and disconnections the cache went through, at whatever times and with
    whatever session timeouts, its entries are in order of expiration and counted, and every
    hash chain holds exactly the entries with its hash, once. The next operation leaves it so,
    or it is an addition, a copy or an expiration for which the timeout of the first entry
    lies exactly [2 ^ 31 - 1] seconds ahead: for an addition, one with a session
    timeout of 0x7fffffff. Then the addition of one second overflows. *)
Theorem pmksa_reachable_ok (c : rsn_pmksa_cache) (o : pm_op)
    (Hc : reaches expire_handler cache_ptr c) (Ho : op_ok o c) :
  cache_ok c ∧
  ((∃ c', run_op expire_handler cache_ptr o c = Ok c' ∧ cache_ok c') ∨
   run_op expire_handler cache_ptr o c = Undef Overflow ∧ overflow_cause o c).
Proof. apply reaches_ok in Hc. split; [done|by apply step_cases]. Qed.

(** ** Expiration *)

Lemma free_while_entries n cond c l1 l2 :
  (length (entries c) ≤ n)%nat → entries c = l1 ++ l2 → Forall (λ e, cond e = true) l1 →
  match l2 with [] => True | e :: _ => cond e = false end →
  entries (free_while n cond c) = l2.
Proof.
  revert c l1. induction n as [|n IH]; intros c l1 Hn He H1 H2.
  - destruct (entries c) eqn:Hc; [|cbn in Hn; lia]. cbn. rewrite Hc. symmetry in He.
    by apply app_eq_nil in He as [_ ->].
  - destruct l1 as [|e l1]; cbn in He |- *; rewrite He.
    + destruct l2 as [|e l2]; [done|]. by rewrite H2.
    + apply Forall_cons_iff in H1 as [-> H1]. eapply IH; [|by cbn; rewrite He; cbn; rewrite decide_True|done|done].
      cbn. rewrite He in Hn |- *. cbn in Hn |- *. rewrite decide_True by done. lia.
Qed.

Lemma free_while_freed n cond c x :
  x ∈ entries c → x ∉ entries (free_while n cond c) → x ∈ freed (free_while n cond c).
Proof.
  assert (∀ n c, x ∈ freed c → x ∈ freed (free_while n cond c)) as Hmono.
  { clear n c. induction n as [|n IH]; intros c Hx; cbn; [done|]. destruct (entries c); [done|].
    destruct (cond _); [|done]. apply IH. cbn. by right. }
  revert c. induction n as [|n IH]; intros c Hx; cbn; [done|]. destruct (entries c) as [|e l] eqn:He; [by rewrite He|].
  destruct (cond e); [|by rewrite He]. apply elem_of_cons in Hx as [->|Hx]; intros Hn.
  - apply Hmono. cbn. by left.
  - apply IH; [|done]. cbn. rewrite He. cbn. by rewrite decide_True.
Qed.

(** In order of expiration, the entries that have expired come first. *)
Lemma sorted_expired t l :
  StronglySorted exp_le l →
  ∃ l1, l = l1 ++ filter (λ e, t < expiration e) l ∧ Forall (λ e, bool_decide (expiration e ≤ t) = true) l1 ∧
  match filter (λ e, t < expiration e) l with [] => True | e :: _ => bool_decide (expiration e ≤ t) = false end.
Proof.
  induction l as [|e l IH]; intros Hs; [by exists []|]. apply StronglySorted_inv in Hs as [Hs He].
  rewrite filter_cons. destruct (decide (t < expiration e)) as [Hlt|Hge].
  - exists []. split_and!; [|constructor|by apply bool_decide_eq_false_2; lia].
    cbn. f_equal. clear IH Hs. induction l as [|x l IH]; [done|]. apply Forall_cons_iff in He as [Hx He].
    rewrite filter_cons_True by (unfold exp_le in Hx; lia). f_equal. by apply IH.
  - destruct (IH Hs) as (l1 & Hl & H1 & H2). exists (e :: l1). split_and!; [by cbn; f_equal| |done].
    constructor; [by apply bool_decide_eq_true_2; lia|done].
Qed.

(** The expiration timeout removes exactly the entries that have expired, frees each
    of them, and registers itself again for one second after the first of the others
    expires, if memory allows it and the times lie within an [int] of each other. *)
Lemma pmksa_cache_expire_spec (c : rsn_pmksa_cache) (env : pm_env)
    (Hc : reaches expire_handler cache_ptr c) (He : env_ok env) (Hl : expiry_ok (fst (now env)) c) :
  ∃ c', pmksa_cache_expire expire_handler cache_ptr env c = Ok c' ∧
    entries c' = filter (λ e, fst (now env) < expiration e) (entries c) ∧
    (∀ x, x ∈ entries c → x ∉ entries c' → x ∈ freed c') ∧
    (can_register env →
     match entries c' with [] => True | e :: _ => timer_for expire_handler cache_ptr env e (loop_data c') end).
Proof.
  apply reaches_ok in Hc. unfold pmksa_cache_expire.
  destruct (sorted_expired (fst (now env)) (entries c) (co_sorted _ Hc)) as (l1 & Hl1 & Hx1 & Hx2).
  set (c1 := free_while _ _ _).
  assert (entries c1 = filter (λ e, fst (now env) < expiration e) (entries c)) as Hc1.
  { eapply free_while_entries; [done|exact Hl1|exact Hx1|exact Hx2]. }
  destruct (set_expiration_spec expire_handler cache_ptr env c1) as (ev & -> & _ & Hev);
    [done| |by apply (co_loop c1), free_while_ok|].
  { apply Forall_forall. intros x Hx%free_while_subset. revert x Hx. by apply Forall_forall. }
  eexists. split_and!; [done|exact Hc1| |exact Hev].
  intros x Hx Hnx. cbn. apply free_while_freed; done.
Qed.

End theorems.

(** ** Addition *)

Section addition.
Context {C : Crypto} {HC : CryptoOk C} (expire_handler cache_ptr : Z).

(** At most one entry for each station *)
Definition one_per_sta (c : rsn_pmksa_cache) : Prop :=
  ∀ x y, x ∈ entries c → y ∈ entries c → spa x = spa y → x = y.

Lemma drop_old_gone sp c x : cache_ok c → one_per_sta c → x ∈ entries (drop_old sp c) → spa x ≠ sp.
Proof.
  intros Hc Hu Hx Heq. pose proof (drop_old_subset _ _ _ Hx) as Hin. revert Hx. unfold drop_old.
  destruct (pmksa_cache_auth_get _ _ _) as [pos|] eqn:Hg; cbn in Hg.
  - apply find_in in Hg as [Hpos Hm]. cbn in Hm. apply bool_decide_eq_true in Hm.
    cbn. rewrite unlink_elem by apply Hc. intros [_ Hne]. apply Hne. f_equal. apply Hu; congruence.
  - eapply find_none in Hg; [|done]. cbn in Hg. by apply bool_decide_eq_false in Hg.
Qed.

Lemma free_entry_keeps e c x :
  cache_ok c → e ∈ entries c → x ∈ entries c → x ≠ e → x ∈ entries (pmksa_cache_free_entry e c).
Proof.
  intros Hc He Hx Hne. cbn. rewrite unlink_elem by apply Hc. split; [done|]. intros Heq. apply Hne.
  by apply (ptr_inj (entries c)); [apply Hc|..].
Qed.

Lemma free_entry_len e c : e ∈ entries c → zlen (entries (pmksa_cache_free_entry e c)) = zlen (entries c) - 1.
Proof.
  intros He. cbn. unfold zlen. pose proof (unlink_length (e_ptr e) (entries c)) as Hl.
  rewrite <- Hl by (by apply list_elem_of_fmap_2). lia.
Qed.

Lemma drop_old_len sp c : zlen (entries (drop_old sp c)) ≤ zlen (entries c).
Proof.
  unfold drop_old. destruct (pmksa_cache_auth_get _ _ _) as [pos|] eqn:Hg; [|lia].
  apply find_in in Hg as [? _]. rewrite free_entry_len by done. lia.
Qed.

Lemma make_room_len c :
  cache_ok c → zlen (entries (make_room c)) ≤ Z.max (zlen (entries c) - 1) (pmksa_cache_max_entries - 1).
Proof.
  intros Hc. unfold make_room. rewrite (co_count _ Hc). destruct (decide _) as [Hge|Hge]; [|lia].
  destruct (entries c) as [|e l] eqn:He; [rewrite He; done|].
  rewrite free_entry_len by (rewrite He; by left). rewrite He. lia.
Qed.

Lemma zlen_insert_entry e l : zlen (insert_entry e l) = 1 + zlen l.
Proof. destruct (insert_entry_split e l) as (l1 & l2 & -> & -> & _). rewrite !zlen_app, zlen_cons. lia. Qed.

(** C34. Adding a key for a station, with any session timeout but the one that overflows
    (0x7fffffff), stores an entry with the key, for the session's time or 12 hours, and never more than 1024 entries unless the cache had more. Keys of other
    stations stay, unless the cache was full. When no station had more than one entry, the
    new entry is the one that is found afterwards, by the station's address alone and
    with its PMKID. *)
Theorem pmksa_cache_auth_add_spec (c : rsn_pmksa_cache) (env : pm_env) (m : copies) (p : Z) (k : bytes)
    (i kck : option bytes) (aa sp : bytes) (st : Z) (ea : option eapol_data) (ak : Z)
    (Hc : reaches expire_handler cache_ptr c) (Ho : op_ok (op_add env m (Some p) k i kck aa sp st ea ak) c)
    (Hst : st ≠ 0x7fffffff) (Hk : zlen k ≤ 48) (Hb : wpa_key_mgmt_suite_b ak = false) :
  ∃ e c', pmksa_cache_auth_add expire_handler cache_ptr env m (Some p) k i kck aa sp st ea ak c = Ok (Some e, c') ∧
    spa e = sp ∧ pmk e = k ∧ e_pmkid e = default (rsn_pmkid k aa sp (wpa_key_mgmt_sha256 ak)) i ∧
    expiration e = fst (now env) + (if decide (0 < st) then st else 43200) ∧
    e ∈ entries c' ∧ zlen (entries c') ≤ Z.max 1024 (zlen (entries c)) ∧
    (∀ x, x ∈ entries c' → x = e ∨ x ∈ entries c) ∧
    (∀ x, x ∈ entries c → spa x ≠ sp → zlen (entries c) < 1024 → x ∈ entries c') ∧
    (one_per_sta c → one_per_sta c' ∧ pmksa_cache_auth_get c' (Some sp) None = Some e ∧
       pmksa_cache_auth_get c' (Some sp) (Some (e_pmkid e)) = Some e).
Proof.
  apply reaches_ok in Hc. rewrite auth_add_eq, Hb.
  rewrite decide_False by (unfold PMK_LEN_MAX; lia). cbn [andb]. cbn zeta.
  destruct Ho as (He & Hp & Hi & Hr). set (e := new_entry _ _ _ _ _ _ _ _ _ _). set (c1 := make_room _).
  pose proof (drop_old_ok sp c Hc) as Hc0.
  assert (∀ x, x ∈ entries c1 → x ∈ entries (drop_old sp c)) as Hs0 by (intros x; apply make_room_subset).
  assert (∀ x, x ∈ entries c1 → x ∈ entries c) as Hs by (intros x ?%Hs0%drop_old_subset; done).
  assert (e_ptr e = p ∧ e_pmkid e = default (rsn_pmkid k aa sp (wpa_key_mgmt_sha256 ak)) i ∧ spa e = sp ∧ pmk e = k ∧
          expiration e = fst (now env) + (if decide (0 < st) then st else 43200)) as (Hep & Hei & Hes & Hek & Hex).
  { subst e. unfold new_entry. edestruct from_eapol_fields as (-> & -> & -> & -> & ->). cbn. rewrite Hb. by destruct i. }
  destruct (link_entry_cases expire_handler cache_ptr env e c1) as [(c2 & -> & Hc2 & Hen)|[_ Hlate]];
    [done|by apply make_room_ok| |by apply new_entry_pmkid| |by apply lifetime_too_late in Hlate].
  { rewrite Hep. intros Hin. apply Hp. apply list_elem_of_fmap in Hin as (x & -> & Hx%Hs). by apply list_elem_of_fmap_2. }
  exists e, c2. do 5 (split; [done|]).
  assert (∀ x, x ∈ entries c2 ↔ x = e ∨ x ∈ entries c1) as Hin by (intros x; rewrite Hen; apply insert_entry_elem).
  split; [apply Hin; by left|]. split.
  { rewrite Hen, zlen_insert_entry. pose proof (make_room_len _ Hc0) as Hm. pose proof (drop_old_len sp c).
    fold c1 in Hm. unfold pmksa_cache_max_entries in Hm. lia. }
  split; [intros x [->|Hx]%Hin; [by left|right; by apply Hs]|]. split.
  { intros x Hx Hne Hlen. apply Hin. right. subst c1. unfold make_room. rewrite (co_count _ Hc0), decide_False.
    2:{ pose proof (drop_old_len sp c). unfold pmksa_cache_max_entries. lia. }
    unfold drop_old. destruct (pmksa_cache_auth_get _ _ _) as [pos|] eqn:Hg; [|done].
    apply find_in in Hg as [Hpos Hm]. cbn in Hm. apply bool_decide_eq_true in Hm.
    apply free_entry_keeps; [done..|congruence]. }
  intros Hu. assert (∀ x, x ∈ entries c2 → spa x = sp → x = e) as Honly.
  { intros x [->|Hx]%Hin Hxs; [done|]. exfalso. by apply (drop_old_gone sp c x Hc Hu); [apply Hs0|]. }
  assert (e ∈ entries c2) as He2 by (apply Hin; by left). split_and!.
  - intros x y [->|Hx]%Hin [->|Hy]%Hin Heq; [done| | |by apply Hu; [apply Hs..|]].
    + symmetry. apply Honly; [apply Hin; by right|congruence].
    + apply Honly; [apply Hin; by right|congruence].
  - cbn. destruct (List.find _ _) as [x|] eqn:Hg.
    + apply find_in in Hg as [Hx Hm]. cbn in Hm. apply bool_decide_eq_true in Hm. f_equal. by apply Honly.
    + eapply find_none in Hg; [|done]. cbn in Hg. by apply bool_decide_eq_false in Hg.
  - pose proof (chain_get c2 (Some sp) (e_pmkid e) Hc2) as Hg. destruct (pmksa_cache_auth_get _ _ _) as [x|].
    + destruct Hg as (Hx & Hm & _). cbn in Hm. f_equal. by apply Honly.
    + exfalso. by apply (Hg e).
Qed.

End addition.

(** ** A cache with two stations *)

Section example.

(** The toy hash *)
#[local] Existing Instances toy_crypto toy_crypto_ok.

Definition ex_env : pm_env := mk_pm_env (100, 0) (Some (100, 0)) true.
Definition ex_copies : copies := mk_copies true true None true.
Definition ex_add (p : Z) (sp : bytes) (st : Z) : pm_op :=
  op_add ex_env ex_copies (Some p) [9; 9; 9] None None [1; 2; 3; 4; 5; 6] sp st None WPA_KEY_MGMT_IEEE8021X.

Definition ex_cache0 : rsn_pmksa_cache := pmksa_cache_auth_init Eloop.eloop_init.
Definition ex_step (o : pm_op) (c : rsn_pmksa_cache) : rsn_pmksa_cache :=
  match run_op 1 2 o c with Ok c => c | _ => c end.
Definition ex_cache1 : rsn_pmksa_cache := Eval vm_compute in ex_step (ex_add 16 [2; 0; 0; 0; 0; 1] 0) ex_cache0.
Definition ex_cache2 : rsn_pmksa_cache := Eval vm_compute in ex_step (ex_add 32 [2; 0; 0; 0; 0; 2] 60) ex_cache1.

Lemma ex_add_ok p sp st c :
  (p ∉ ptrs (entries c)) → - 2 ^ 31 ≤ st < 2 ^ 31 → op_ok (ex_add p sp st) c.
Proof. intros Hp Hst. split_and!; [done|done|done|lia|lia]. Qed.

Lemma ex_reaches1 : reaches 1 2 ex_cache1.
Proof.
  apply (reaches_step 1 2 ex_cache0 (ex_add 16 [2; 0; 0; 0; 0; 1] 0)); [|apply ex_add_ok; [by intros ?%elem_of_nil|lia]|by vm_compute].
  apply reaches_init, eloop_init_ok.
Qed.

Lemma ex_reaches2 : reaches 1 2 ex_cache2.
Proof.
  apply (reaches_step 1 2 ex_cache1 (ex_add 32 [2; 0; 0; 0; 0; 2] 60)); [apply ex_reaches1| |by vm_compute].
  apply ex_add_ok; [|lia]. cbn. by intros [?|?%elem_of_nil]%elem_of_cons.
Qed.

Lemma pmksa_get_linear_witness :
  ∃ e, pmksa_cache_auth_get ex_cache2 (Some [2; 0; 0; 0; 0; 1]) (Some (replicate 16 198))
    = Some e ∧ e ∈ entries ex_cache2.
Proof.
  pose proof (pmksa_get_linear 1 2 ex_cache2 (Some [2; 0; 0; 0; 0; 1])
    (Some (replicate 16 198)) ex_reaches2) as Hw.
  destruct (pmksa_cache_auth_get _ _ _) as [e|] eqn:He; [|by vm_compute in He].
  exists e. split; [done|]. destruct (linear_get _ _ _); [apply Hw|destruct Hw].
Defined.

(** A session timeout of 0x7fffffff *)
Lemma pmksa_add_overflow : run_op 1 2 (ex_add 16 [2; 0; 0; 0; 0; 1] (2 ^ 31 - 1)) ex_cache0 = Undef Overflow.
Proof. by vm_compute. Qed.

Lemma pmksa_reachable_ok_witness :
  (cache_ok ex_cache1 ∧ ∃ c', run_op 1 2 (ex_add 32 [2; 0; 0; 0; 0; 2] 60) ex_cache1 = Ok c' ∧ cache_ok c') ∧
  overflow_cause (ex_add 16 [2; 0; 0; 0; 0; 1] (2 ^ 31 - 1)) ex_cache0.
Proof.
  assert (reaches 1 2 ex_cache0) as H0 by apply reaches_init, eloop_init_ok.
  assert (op_ok (ex_add 32 [2; 0; 0; 0; 0; 2] 60) ex_cache1) as Ht1
    by (apply ex_add_ok; [cbn; by intros [?|?%elem_of_nil]%elem_of_cons|lia]).
  assert (op_ok (ex_add 16 [2; 0; 0; 0; 0; 1] (2 ^ 31 - 1)) ex_cache0) as Ht2
    by (apply ex_add_ok; [by intros ?%elem_of_nil|lia]).
  split.
  - destruct (pmksa_reachable_ok 1 2 ex_cache1 _ ex_reaches1 Ht1) as [Hok [Hr|[Hr _]]]; [by split|].
    exfalso. by vm_compute in Hr.
  - destruct (pmksa_reachable_ok 1 2 ex_cache0 _ H0 Ht2) as [_ [(c' & Hr & _)|[_ Hr]]]; [|exact Hr].
    exfalso. by vm_compute in Hr.
Defined.

Lemma pmksa_cache_expire_spec_witness :
  ∃ c', pmksa_cache_expire 1 2 (mk_pm_env (170, 0) (Some (170, 0)) true) ex_cache2 = Ok c' ∧
    map spa (entries c') = [[2; 0; 0; 0; 0; 1]].
Proof.
  destruct (pmksa_cache_expire_spec 1 2 ex_cache2 (mk_pm_env (170, 0) (Some (170, 0)) true)
    ex_reaches2) as (c' & Hc' & He & _); [done|repeat (constructor; [by vm_compute|]); constructor|].
  exists c'. split; [exact Hc'|]. rewrite He. by vm_compute.
Defined.

Lemma pmksa_cache_auth_add_spec_witness :
  ∃ e c', pmksa_cache_auth_add 1 2 ex_env ex_copies (Some 32) [9; 9; 9] None None [1; 2; 3; 4; 5; 6]
    [2; 0; 0; 0; 0; 1] 60 None WPA_KEY_MGMT_IEEE8021X ex_cache1 = Ok (Some e, c') ∧
    pmksa_cache_auth_get c' (Some [2; 0; 0; 0; 0; 1]) None = Some e ∧ expiration e = 160.
Proof.
  destruct (pmksa_cache_auth_add_spec 1 2 ex_cache1 ex_env ex_copies 32 [9; 9; 9] None None [1; 2; 3; 4; 5; 6]
    [2; 0; 0; 0; 0; 1] 60 None WPA_KEY_MGMT_IEEE8021X ex_reaches1)
    as (e & c' & Hr & Hs & _ & _ & Hx & _ & _ & _ & _ & Hu); [|done|done|done|].
  - apply ex_add_ok; [|lia]. cbn. by intros [?|?%elem_of_nil]%elem_of_cons.
  - exists e, c'. split; [exact Hr|]. split; [|exact Hx]. apply Hu.
    intros x y Hxx Hyy _. cbn in Hxx, Hyy. apply elem_of_cons in Hxx as [->|[]%elem_of_nil].
    by apply elem_of_cons in Hyy as [->|[]%elem_of_nil].
Defined.

End example.
