(* ===== verification/WpaIe.v ===== *)
(** * The WPA and RSN elements of the authenticator

    [src/ap/wpa_auth_ie.c]: the elements the access point sends, the check of the
    element of a station that associates, and the KDEs of EAPOL-Key frames. The
    PMKSA caches are those of [Pmksa], the parsers of elements those of [WpaCommon];
    fast transition, SAE and test options are compiled out in the modelled build. *)

From Stdlib Require Import ZArith Lia Strings.String.
From stdpp Require Import base option list numbers decidable relations.
From S2P Require Import Prelude CLib Common Reltime Eloop WpaCommon WpaKeys Pmksa.
Local Open Scope Z_scope.

Definition RSN_NUM_REPLAY_COUNTERS_16 : Z := 3.
Definition WPA_CAPABILITY_PREAUTH := BIT 0.
Definition WPA_CAPABILITY_MFPR := BIT 6.
Definition WPA_CAPABILITY_MFPC := BIT 7.
Definition WPA_CAPABILITY_PEERKEY_ENABLED := BIT 9.
Definition RSN_KEY_DATA_GROUPKEY := RSN_SELECTOR 0x00 0x0f 0xac 1.
Definition RSN_KEY_DATA_MAC_ADDR := RSN_SELECTOR 0x00 0x0f 0xac 3.
Definition RSN_KEY_DATA_PMKID := RSN_SELECTOR 0x00 0x0f 0xac 4.
Definition RSN_KEY_DATA_SMK := RSN_SELECTOR 0x00 0x0f 0xac 5.
Definition RSN_KEY_DATA_NONCE := RSN_SELECTOR 0x00 0x0f 0xac 6.
Definition RSN_KEY_DATA_LIFETIME := RSN_SELECTOR 0x00 0x0f 0xac 7.
Definition RSN_KEY_DATA_ERROR := RSN_SELECTOR 0x00 0x0f 0xac 8.
Definition RSN_KEY_DATA_IGTK := RSN_SELECTOR 0x00 0x0f 0xac 9.

Inductive mfp_options : Set :=
| NO_MGMT_FRAME_PROTECTION | MGMT_FRAME_PROTECTION_OPTIONAL | MGMT_FRAME_PROTECTION_REQUIRED.

#[export] Instance mfp_options_eq_dec : EqDecision mfp_options.
Proof. solve_decision. Defined.

(** [struct wpa_auth_config], without what other builds add and fields nobody reads *)
Record wpa_auth_config := mk_conf {
  conf_wpa : Z;
  conf_key_mgmt : Z;
  wpa_pairwise : Z;
  wpa_group : Z;
  wpa_group_rekey : Z;
  wpa_strict_rekey : bool;
  wpa_gmk_rekey : Z;
  wpa_ptk_rekey : Z;
  rsn_pairwise : Z;
  rsn_preauth : bool;
  eapol_version : Z;
  peerkey : bool;
  wmm_enabled : bool;
  disable_pmksa_caching : bool;
  okc : bool;
  tx_status : bool;
  ieee80211w : mfp_options;
  group_mgmt_cipher : Z;
  disable_gtk : bool }.

(** ** Writing *)

(** Storing octets at [pos] in a buffer of [len] octets, of which [acc] is written *)
Definition put_octets (len : Z) (d acc : bytes) : outcome bytes :=
  _ ← guard_ub OutOfBounds (bool_decide (zlen acc + zlen d ≤ len));
  Ok (acc ++ d).

(** A counted list of suites; an empty one is an error. The count is stored once the
    suites are, in the place kept for it. *)
Definition put_suites (len : Z) (l : list Z) (acc : bytes) : outcome (option bytes) :=
  if decide (l = []) then Ok None
  else acc ← put_octets len (WPA_PUT_LE16 (zlen l) ++ suites_octets l) acc; Ok (Some acc).

(** Going on unless an error was returned *)
Definition and_then (m : outcome (option bytes)) (f : bytes → outcome (option bytes)) : outcome (option bytes) :=
  r ← m;
  match r with Some acc => f acc | None => Ok None end.

(** [hdr->len = (pos - buf) - 2] *)
Definition set_len (acc : bytes) : outcome (option bytes) := Ok (Some (<[1%nat := u8 (zlen acc - 2)]> acc)).

Definition wpa_akm_suites (akm : Z) : list Z :=
  suite_if akm WPA_KEY_MGMT_IEEE8021X WPA_AUTH_KEY_MGMT_UNSPEC_802_1X ++
  suite_if akm WPA_KEY_MGMT_PSK WPA_AUTH_KEY_MGMT_PSK_OVER_802_1X.

(** The octets written; [None] for the error *)
Definition wpa_write_wpa_ie (conf : wpa_auth_config) (len : Z) : outcome (option bytes) :=
  acc ← put_octets len ([WLAN_EID_VENDOR_SPECIFIC; 0] ++ RSN_SELECTOR_PUT WPA_OUI_TYPE ++ WPA_PUT_LE16 WPA_VERSION) [];
  let suite := wpa_cipher_to_suite WPA_PROTO_WPA (wpa_group conf) in
  if decide (suite = 0) then Ok None
  else
    acc ← put_octets len (RSN_SELECTOR_PUT suite) acc;
    and_then (put_suites len (wpa_cipher_put_suites (wpa_pairwise conf)) acc) (λ acc,
    and_then (put_suites len (wpa_akm_suites (conf_key_mgmt conf)) acc) set_len).

Definition rsn_akm_suites (akm : Z) : list Z :=
  suite_if akm WPA_KEY_MGMT_IEEE8021X RSN_AUTH_KEY_MGMT_UNSPEC_802_1X ++
  suite_if akm WPA_KEY_MGMT_PSK RSN_AUTH_KEY_MGMT_PSK_OVER_802_1X ++
  suite_if akm WPA_KEY_MGMT_IEEE8021X_SHA256 RSN_AUTH_KEY_MGMT_802_1X_SHA256 ++
  suite_if akm WPA_KEY_MGMT_PSK_SHA256 RSN_AUTH_KEY_MGMT_PSK_SHA256 ++
  suite_if akm WPA_KEY_MGMT_IEEE8021X_SUITE_B RSN_AUTH_KEY_MGMT_802_1X_SUITE_B ++
  suite_if akm WPA_KEY_MGMT_IEEE8021X_SUITE_B_192 RSN_AUTH_KEY_MGMT_802_1X_SUITE_B_192.

Definition flag_if (b : bool) (v : Z) : Z := if b then v else 0.

(** The capabilities of [conf->ieee80211w] *)
Definition mfp_capab (conf : wpa_auth_config) : Z :=
  match ieee80211w conf with
  | NO_MGMT_FRAME_PROTECTION => 0
  | MGMT_FRAME_PROTECTION_OPTIONAL => WPA_CAPABILITY_MFPC
  | MGMT_FRAME_PROTECTION_REQUIRED => Z.lor WPA_CAPABILITY_MFPC WPA_CAPABILITY_MFPR
  end.

Definition rsn_capab (conf : wpa_auth_config) : Z :=
  Z.lor (Z.lor (Z.lor (flag_if (rsn_preauth conf) WPA_CAPABILITY_PREAUTH)
                      (flag_if (peerkey conf) WPA_CAPABILITY_PEERKEY_ENABLED))
               (flag_if (wmm_enabled conf) (Z.shiftl RSN_NUM_REPLAY_COUNTERS_16 2)))
        (mfp_capab conf).

Definition put_pmkid (len : Z) (pmkid : option bytes) (acc : bytes) : outcome (option bytes) :=
  match pmkid with
  | None => Ok (Some acc)
  | Some p =>
    if decide (2 + PMKID_LEN > len - zlen acc) then Ok None
    else acc ← put_octets len (WPA_PUT_LE16 1 ++ p) acc; Ok (Some acc)
  end.

Definition mgmt_suite (cipher : Z) : option Z :=
  if decide (cipher = WPA_CIPHER_AES_128_CMAC) then Some RSN_CIPHER_SUITE_AES_128_CMAC
  else if decide (cipher = WPA_CIPHER_BIP_GMAC_128) then Some RSN_CIPHER_SUITE_BIP_GMAC_128
  else if decide (cipher = WPA_CIPHER_BIP_GMAC_256) then Some RSN_CIPHER_SUITE_BIP_GMAC_256
  else if decide (cipher = WPA_CIPHER_BIP_CMAC_256) then Some RSN_CIPHER_SUITE_BIP_CMAC_256
  else None.

Definition put_mgmt_group (len : Z) (conf : wpa_auth_config) (pmkid : option bytes) (acc : bytes) :
    outcome (option bytes) :=
  if decide (ieee80211w conf ≠ NO_MGMT_FRAME_PROTECTION ∧ group_mgmt_cipher conf ≠ WPA_CIPHER_AES_128_CMAC) then
    if decide (2 + 4 > len - zlen acc) then Ok None
    else
      acc ← (if pmkid is None then put_octets len (WPA_PUT_LE16 0) acc else Ok acc);
      match mgmt_suite (group_mgmt_cipher conf) with
      | None => Ok None
      | Some s => acc ← put_octets len (RSN_SELECTOR_PUT s) acc; Ok (Some acc)
      end
  else Ok (Some acc).

Definition wpa_write_rsn_ie (conf : wpa_auth_config) (len : Z) (pmkid : option bytes) : outcome (option bytes) :=
  acc ← put_octets len ([WLAN_EID_RSN; 0] ++ WPA_PUT_LE16 RSN_VERSION) [];
  let suite := wpa_cipher_to_suite WPA_PROTO_RSN (wpa_group conf) in
  if decide (suite = 0) then Ok None
  else
    acc ← put_octets len (RSN_SELECTOR_PUT suite) acc;
    and_then (put_suites len (rsn_cipher_put_suites (rsn_pairwise conf)) acc) (λ acc,
    and_then (put_suites len (rsn_akm_suites (conf_key_mgmt conf)) acc) (λ acc,
    acc ← put_octets len (WPA_PUT_LE16 (rsn_capab conf)) acc;
    and_then (put_pmkid len pmkid acc) (λ acc,
    and_then (put_mgmt_group len conf pmkid acc) set_len))).

Definition osen_capab (conf : wpa_auth_config) : Z :=
  Z.lor (flag_if (wmm_enabled conf) (Z.shiftl RSN_NUM_REPLAY_COUNTERS_16 2)) (mfp_capab conf).

Definition wpa_write_osen (conf : wpa_auth_config) : bytes :=
  let body := WPA_PUT_BE24 OUI_WFA ++ [HS20_OSEN_OUI_TYPE] ++
    RSN_SELECTOR_PUT RSN_CIPHER_SUITE_NO_GROUP_ADDRESSED ++
    WPA_PUT_LE16 1 ++ RSN_SELECTOR_PUT RSN_CIPHER_SUITE_CCMP ++
    WPA_PUT_LE16 1 ++ RSN_SELECTOR_PUT RSN_AUTH_KEY_MGMT_OSEN ++ WPA_PUT_LE16 (osen_capab conf) in
  WLAN_EID_VENDOR_SPECIFIC :: u8 (zlen body) :: body.

Definition sizeof_buf : Z := 128.

(** The element(s) of the authenticator: [wpa_ie] and [wpa_ie_len]. The first
    component is the result; an earlier element is kept when writing fails. *)
Record own_ie := mk_own_ie { wpa_ie : option bytes; wpa_ie_len : Z }.

(** What is written to the buffer; [write] starts where the elements so far end. *)
Definition add_ie (write : Z → outcome (option bytes)) (acc : bytes) : outcome (option bytes) :=
  and_then (write (sizeof_buf - zlen acc)) (λ ie, Ok (Some (acc ++ ie))).

Definition gen_buf (conf : wpa_auth_config) : outcome (option bytes) :=
  acc ← (if decide (conf_wpa conf = WPA_PROTO_OSEN) then put_octets sizeof_buf (wpa_write_osen conf) [] else Ok []);
  and_then (if has_flag (conf_wpa conf) WPA_PROTO_RSN then add_ie (λ len, wpa_write_rsn_ie conf len None) acc
            else Ok (Some acc)) (λ acc,
  if has_flag (conf_wpa conf) WPA_PROTO_WPA then add_ie (wpa_write_wpa_ie conf) acc else Ok (Some acc)).

Definition wpa_auth_gen_wpa_ie (mem : bool) (conf : wpa_auth_config) (o : own_ie) : outcome (Z * own_ie) :=
  r ← gen_buf conf;
  match r with
  | None => Ok (-1, o)
  | Some buf => if mem then Ok (0, mk_own_ie (Some buf) (zlen buf)) else Ok (-1, mk_own_ie None (wpa_ie_len o))
  end.

(** [os_memcpy] of [data_len] and [data2_len] octets; the length octet wraps. *)
Definition wpa_add_kde (kde : Z) (data : bytes) (data2 : option bytes) : bytes :=
  [WLAN_EID_VENDOR_SPECIFIC; u8 (RSN_SELECTOR_LEN + zlen data + zlen (default [] data2))] ++
  RSN_SELECTOR_PUT kde ++ data ++ default [] data2.

(** ** The element of a station *)

Inductive wpa_validate_result : Set :=
| WPA_IE_OK | WPA_INVALID_IE | WPA_INVALID_GROUP | WPA_INVALID_PAIRWISE | WPA_INVALID_AKMP | WPA_NOT_ENABLED
| WPA_ALLOC_FAIL | WPA_MGMT_FRAME_PROTECTION_VIOLATION | WPA_INVALID_MGMT_GROUP_CIPHER | WPA_INVALID_MDIE
| WPA_INVALID_PROTO.

#[export] Instance wpa_validate_result_eq_dec : EqDecision wpa_validate_result.
Proof. solve_decision. Defined.

Inductive wpa_version : Set := WPA_VERSION_NO_WPA | WPA_VERSION_WPA | WPA_VERSION_WPA2.

(** The part of [struct wpa_authenticator] that is used here *)
Record wpa_authenticator := mk_auth {
  conf : wpa_auth_config;
  auth_addr : bytes;
  auth_pmksa : rsn_pmksa_cache;
  dot11RSNAAuthenticationSuiteSelected : Z;
  dot11RSNAPairwiseCipherSelected : Z;
  dot11RSNAGroupCipherSelected : Z;
  dot11RSNAPMKIDUsed : bytes }.

#[export] Instance wpa_authenticator_eta : Eta wpa_authenticator := λ a, mk_auth (conf a) (auth_addr a)
  (auth_pmksa a) (dot11RSNAAuthenticationSuiteSelected a) (dot11RSNAPairwiseCipherSelected a)
  (dot11RSNAGroupCipherSelected a) (dot11RSNAPMKIDUsed a).

(** The part of [struct wpa_state_machine] that is set here; [sm_wpa_ie] is all of
    the memory allocated. *)
Record wpa_sm := mk_sm {
  sm_addr : bytes;
  sm_key_mgmt : Z;
  sm_pairwise : Z;
  mgmt_frame_prot : bool;
  sm_wpa : wpa_version;
  sm_pmksa : option rsn_pmksa_cache_entry;
  sm_wpa_ie : option bytes;
  sm_wpa_ie_len : Z }.

#[export] Instance wpa_sm_eta : Eta wpa_sm := λ s, mk_sm (sm_addr s) (sm_key_mgmt s) (sm_pairwise s)
  (mgmt_frame_prot s) (sm_wpa s) (sm_pmksa s) (sm_wpa_ie s) (sm_wpa_ie_len s).

(** The first of the listed flags that is set *)
Fixpoint first_flag (flags : Z) (l : list (Z * Z)) (other : Z) : Z :=
  match l with
  | [] => other
  | (flag, v) :: l => if has_flag flags flag then v else first_flag flags l other
  end.

Definition rsn_auth_suite (key_mgmt : Z) : Z :=
  first_flag key_mgmt
    [(WPA_KEY_MGMT_IEEE8021X_SUITE_B_192, RSN_AUTH_KEY_MGMT_802_1X_SUITE_B_192);
     (WPA_KEY_MGMT_IEEE8021X_SUITE_B, RSN_AUTH_KEY_MGMT_802_1X_SUITE_B);
     (WPA_KEY_MGMT_IEEE8021X_SHA256, RSN_AUTH_KEY_MGMT_802_1X_SHA256);
     (WPA_KEY_MGMT_PSK_SHA256, RSN_AUTH_KEY_MGMT_PSK_SHA256);
     (WPA_KEY_MGMT_IEEE8021X, RSN_AUTH_KEY_MGMT_UNSPEC_802_1X);
     (WPA_KEY_MGMT_PSK, RSN_AUTH_KEY_MGMT_PSK_OVER_802_1X)] RSN_AUTH_KEY_MGMT_UNSPEC_802_1X.

Definition wpa_auth_suite (key_mgmt : Z) : Z :=
  first_flag key_mgmt
    [(WPA_KEY_MGMT_IEEE8021X, WPA_AUTH_KEY_MGMT_UNSPEC_802_1X);
     (WPA_KEY_MGMT_PSK, WPA_AUTH_KEY_MGMT_PSK_OVER_802_1X)] WPA_AUTH_KEY_MGMT_UNSPEC_802_1X.

Definition or_suite (selector other : Z) : Z := if decide (selector = 0) then other else selector.

(** Parsing, and what of it goes into the MIB variables *)
Definition parse_ie (rsn : bool) (ie : bytes) (a : wpa_authenticator) :
    outcome (Z * wpa_ie_data * wpa_authenticator) :=
  if rsn then
    r ← wpa_parse_wpa_ie_rsn ie (zlen ie);
    let d := r.2 in
    Ok (r, a <| dot11RSNAAuthenticationSuiteSelected := rsn_auth_suite (key_mgmt d) |>
             <| dot11RSNAPairwiseCipherSelected :=
                  or_suite (wpa_cipher_to_suite WPA_PROTO_RSN (pairwise_cipher d)) RSN_CIPHER_SUITE_CCMP |>
             <| dot11RSNAGroupCipherSelected :=
                  or_suite (wpa_cipher_to_suite WPA_PROTO_RSN (group_cipher d)) RSN_CIPHER_SUITE_CCMP |>)
  else
    r ← wpa_parse_wpa_ie_wpa ie (zlen ie);
    let d := r.2 in
    Ok (r, a <| dot11RSNAAuthenticationSuiteSelected := wpa_auth_suite (key_mgmt d) |>
             <| dot11RSNAPairwiseCipherSelected :=
                  or_suite (wpa_cipher_to_suite WPA_PROTO_WPA (pairwise_cipher d)) RSN_CIPHER_SUITE_TKIP |>
             <| dot11RSNAGroupCipherSelected :=
                  or_suite (wpa_cipher_to_suite WPA_PROTO_WPA (group_cipher d)) WPA_CIPHER_SUITE_TKIP |>).

(** What is none of the other suites is [PSK]. *)
Definition pick_key_mgmt (key_mgmt : Z) : Z :=
  first_flag key_mgmt
    (map (λ k, (k, k)) [WPA_KEY_MGMT_IEEE8021X_SUITE_B_192; WPA_KEY_MGMT_IEEE8021X_SUITE_B;
       WPA_KEY_MGMT_IEEE8021X_SHA256; WPA_KEY_MGMT_PSK_SHA256; WPA_KEY_MGMT_IEEE8021X]) WPA_KEY_MGMT_PSK.

(** The negotiation: the error, or the key management, pairwise ciphers in common and
    management frame protection; the key management is kept with a later error. *)
Definition check_mfp (c : wpa_auth_config) (d : wpa_ie_data) (ciphers : Z) : option wpa_validate_result :=
  if decide (ieee80211w c = MGMT_FRAME_PROTECTION_REQUIRED) then
    if has_flag (capabilities d) WPA_CAPABILITY_MFPC then
      if has_flag ciphers WPA_CIPHER_TKIP then Some WPA_MGMT_FRAME_PROTECTION_VIOLATION
      else if decide (mgmt_group_cipher d ≠ group_mgmt_cipher c) then Some WPA_INVALID_MGMT_GROUP_CIPHER
      else None
    else Some WPA_MGMT_FRAME_PROTECTION_VIOLATION
  else None.

Definition uses_mfp (c : wpa_auth_config) (d : wpa_ie_data) : bool :=
  bool_decide (ieee80211w c ≠ NO_MGMT_FRAME_PROTECTION) && has_flag (capabilities d) WPA_CAPABILITY_MFPC.

Definition negotiate (rsn : bool) (c : wpa_auth_config) (d : wpa_ie_data) (sm : wpa_sm) :
    wpa_validate_result * wpa_sm :=
  if decide (group_cipher d ≠ wpa_group c) then (WPA_INVALID_GROUP, sm)
  else
    let key_mgmt := Z.land (key_mgmt d) (conf_key_mgmt c) in
    if decide (key_mgmt = 0) then (WPA_INVALID_AKMP, sm)
    else
      let sm := sm <| sm_key_mgmt := pick_key_mgmt key_mgmt |> in
      let ciphers := Z.land (pairwise_cipher d) (if rsn then rsn_pairwise c else wpa_pairwise c) in
      if decide (ciphers = 0) then (WPA_INVALID_PAIRWISE, sm)
      else
        match check_mfp c d ciphers with
        | Some e => (e, sm)
        | None =>
          let sm := sm <| mgmt_frame_prot := uses_mfp c d |>
                       <| sm_pairwise := wpa_pick_pairwise_cipher ciphers false |> in
          if decide (sm_pairwise sm < 0) then (WPA_INVALID_PAIRWISE, sm)
          else (WPA_IE_OK, sm <| sm_wpa := if rsn then WPA_VERSION_WPA2 else WPA_VERSION_WPA |>)
        end.

Section validate.
Context {C : Crypto} {HC : CryptoOk C} (expire_handler cache_ptr : Z).

(** The [i]-th PMKID *)
Definition nth_pmkid (ids : bytes) (i : nat) : outcome bytes := slice ids (i * 16) 16.

(** The first of the PMKIDs that [found] knows of, with what it found *)
Fixpoint search_pmkids {A} (found : bytes → option A) (ids : bytes) (i n : nat) : outcome (option (A * bytes)) :=
  match n with
  | O => Ok None
  | S n =>
    p ← nth_pmkid ids i;
    match found p with
    | Some x => Ok (Some (x, p))
    | None => search_pmkids found ids (S i) n
    end
  end.

(** [wpa_auth_for_each_auth(wpa_auth, wpa_auth_okc_iter, &idata)]: the caches of all
    authenticators, [before] and [after] the own one *)
Fixpoint okc_iter (caches : list rsn_pmksa_cache) (aa spa_ pmkid : bytes) : option rsn_pmksa_cache_entry :=
  match caches with
  | [] => None
  | c :: caches =>
    match pmksa_cache_get_okc c aa spa_ pmkid with
    | Some e => Some e
    | None => okc_iter caches aa spa_ pmkid
    end
  end.

(** What the operation sees of the outside: that of the PMKSA cache, the other caches,
    and whether the copy of the element can be allocated *)
Record val_env := mk_val_env {
  v_env : pm_env;
  v_copies : copies;
  v_entry : option Z;
  v_before : list rsn_pmksa_cache;
  v_after : list rsn_pmksa_cache;
  v_mem : bool }.

(** [sm->pmksa] and [pmkid] *)
Definition find_pmksa (v : val_env) (a : wpa_authenticator) (sm : wpa_sm) (ids : bytes) (n : nat) :
    outcome (option rsn_pmksa_cache_entry * option bytes * wpa_authenticator) :=
  r ← search_pmkids (λ p, pmksa_cache_auth_get (auth_pmksa a) (Some (sm_addr sm)) (Some p)) ids 0 n;
  match r with
  | Some (e, _) => Ok (Some e, Some (e_pmkid e), a)
  | None =>
    if okc (conf a) then
      r ← search_pmkids (okc_iter (v_before v ++ auth_pmksa a :: v_after v) (auth_addr a) (sm_addr sm)) ids 0 n;
      match r with
      | Some (old, p) =>
        r ← pmksa_cache_add_okc expire_handler cache_ptr (v_env v) (v_copies v) (v_entry v) old (auth_addr a) p
              (auth_pmksa a);
        Ok (r.1, Some p, a <| auth_pmksa := r.2 |>)
      | None => Ok (None, None, a)
      end
    else Ok (None, None, a)
  end.

(** [if (sm->pmksa && pmkid)] *)
Definition note_pmkid (e : option rsn_pmksa_cache_entry) (used : option bytes) (a : wpa_authenticator) :
    wpa_authenticator :=
  match e, used with Some _, Some p => a <| dot11RSNAPMKIDUsed := p |> | _, _ => a end.

(** The copy of the element in [sm->wpa_ie] *)
Definition keep_ie (mem : bool) (ie : bytes) (sm : wpa_sm) : outcome (wpa_validate_result * wpa_sm) :=
  if (match sm_wpa_ie sm with None => true | Some _ => bool_decide (sm_wpa_ie_len sm < zlen ie) end) then
    if mem then Ok (WPA_IE_OK, sm <| sm_wpa_ie := Some ie |> <| sm_wpa_ie_len := zlen ie |>)
    else Ok (WPA_ALLOC_FAIL, sm <| sm_wpa_ie := None |>)
  else
    match sm_wpa_ie sm with
    | Some b => b ← write b 0 ie; Ok (WPA_IE_OK, sm <| sm_wpa_ie := Some b |> <| sm_wpa_ie_len := zlen ie |>)
    | None => Ok (WPA_ALLOC_FAIL, sm)
    end.

(** With an authenticator, a state machine and at least one octet *)
Definition validate_ie (v : val_env) (a : wpa_authenticator) (sm : wpa_sm) (ie : bytes) :
    outcome (wpa_validate_result * wpa_authenticator * wpa_sm) :=
  id ← rd ie 0;
  let rsn := bool_decide (id = WLAN_EID_RSN) in
  if has_flag (conf_wpa (conf a)) (if rsn then WPA_PROTO_RSN else WPA_PROTO_WPA) then
    r ← parse_ie rsn ie a;
    let '(res, d, a) := r in
    if decide (res ≠ 0) then Ok (WPA_INVALID_IE, a, sm)
    else
      match negotiate rsn (conf a) d sm with
      | (WPA_IE_OK, sm) =>
        r ← find_pmksa v a sm (default [] (pmkid d)) (Z.to_nat (num_pmkid d));
        let '(e, used, a) := r in
        let sm := sm <| sm_pmksa := e |> in
        let a := note_pmkid e used a in
        r ← keep_ie (v_mem v) ie sm;
        Ok (r.1, a, r.2)
      | (e, sm) => Ok (e, a, sm)
      end
  else Ok (WPA_INVALID_PROTO, a, sm).

(** The pointers may be null. *)
Definition wpa_validate_wpa_ie (v : val_env) (wpa_auth : option wpa_authenticator) (sm : option wpa_sm)
    (ie : option bytes) : outcome (wpa_validate_result * option wpa_authenticator * option wpa_sm) :=
  match wpa_auth, sm with
  | Some a, Some s =>
    match ie with
    | Some (x :: l) => r ← validate_ie v a s (x :: l); Ok (r.1.1, Some r.1.2, Some r.2)
    | _ => Ok (WPA_INVALID_IE, wpa_auth, sm)
    end
  | _, _ => Ok (WPA_NOT_ENABLED, wpa_auth, sm)
  end.

End validate.

Definition wpa_auth_uses_mfp (sm : option wpa_sm) : bool := from_option mgmt_frame_prot false sm.

(** ** The KDEs of EAPOL-Key frames *)

(** A pointer into the key data, as its position, and a length *)
Definition field : Type := option (nat * Z).

Record wpa_eapol_ie_parse := mk_kde {
  k_wpa_ie : field;
  k_rsn_ie : field;
  k_pmkid : option nat;
  k_gtk : field;
  k_mac_addr : field;
  k_smk : field;
  k_nonce : field;
  k_lifetime : field;
  k_error : field;
  k_igtk : field;
  k_osen : field }.

#[export] Instance wpa_eapol_ie_parse_eta : Eta wpa_eapol_ie_parse := λ k, mk_kde (k_wpa_ie k) (k_rsn_ie k)
  (k_pmkid k) (k_gtk k) (k_mac_addr k) (k_smk k) (k_nonce k) (k_lifetime k) (k_error k) (k_igtk k) (k_osen k).

Definition no_kdes : wpa_eapol_ie_parse := mk_kde None None None None None None None None None None None.

(** The KDEs with data of more than two octets, by selector *)
Definition put_kde (selector : Z) (f : field) (k : wpa_eapol_ie_parse) : wpa_eapol_ie_parse :=
  if decide (selector = RSN_KEY_DATA_GROUPKEY) then k <| k_gtk := f |>
  else if decide (selector = RSN_KEY_DATA_MAC_ADDR) then k <| k_mac_addr := f |>
  else if decide (selector = RSN_KEY_DATA_SMK) then k <| k_smk := f |>
  else if decide (selector = RSN_KEY_DATA_NONCE) then k <| k_nonce := f |>
  else if decide (selector = RSN_KEY_DATA_LIFETIME) then k <| k_lifetime := f |>
  else if decide (selector = RSN_KEY_DATA_ERROR) then k <| k_error := f |>
  else if decide (selector = RSN_KEY_DATA_IGTK) then k <| k_igtk := f |>
  else k.

Definition selector_at (buf : bytes) (pos : nat) : outcome Z := RSN_SELECTOR_GET (drop pos buf).

(** [if (len >= n && RSN_SELECTOR_GET(pos + 2) == selector)] *)
Definition selector_is (buf : bytes) (pos : nat) (enough : bool) (selector : Z) : outcome bool :=
  if enough then s ← selector_at buf (pos + 2); Ok (bool_decide (s = selector)) else Ok false.

(** The vendor-specific element that starts a WPA element of version 1 *)
Definition is_wpa_ie (buf : bytes) (pos : nat) (len : Z) : outcome bool :=
  b ← selector_is buf pos (bool_decide (6 ≤ len)) WPA_OUI_TYPE;
  if (b : bool) then
    x ← rd buf (pos + 6);
    if decide (x = 1) then y ← rd buf (pos + 7); Ok (bool_decide (y = 0)) else Ok false
  else Ok false.

(** The result is 1 for the end mark and 0 otherwise. *)
Definition wpa_parse_generic (buf : bytes) (pos end_ : nat) (k : wpa_eapol_ie_parse) :
    outcome (Z * wpa_eapol_ie_parse) :=
  len ← rd buf (pos + 1);
  if decide (len = 0) then Ok (1, k)
  else
    wpa ← is_wpa_ie buf pos len;
    if (wpa : bool) then Ok (0, k <| k_wpa_ie := Some (pos, len + 2) |>)
    else
      osen ← selector_is buf pos (bool_decide (4 ≤ len)) OSEN_IE_VENDOR_TYPE;
      if (osen : bool) then Ok (0, k <| k_osen := Some (pos, len + 2) |>)
      else
        id ← selector_is buf pos
               (bool_decide (1 + RSN_SELECTOR_LEN < Z.of_nat end_ - Z.of_nat pos) &&
                bool_decide (RSN_SELECTOR_LEN + PMKID_LEN ≤ len)) RSN_KEY_DATA_PMKID;
        if (id : bool) then Ok (0, k <| k_pmkid := Some (pos + 6)%nat |>)
        else if decide (RSN_SELECTOR_LEN + 2 < len) then
          s ← selector_at buf (pos + 2);
          Ok (0, put_kde s (Some ((pos + 6)%nat, len - RSN_SELECTOR_LEN)) k)
        else Ok (0, k).

(** The loop; every turn goes at least two octets on. *)
Fixpoint kde_loop (fuel : nat) (buf : bytes) (pos : nat) (k : wpa_eapol_ie_parse) :
    outcome (Z * wpa_eapol_ie_parse) :=
  match fuel with
  | O => Stuck
  | S fuel =>
    if decide (1 < zlen buf - Z.of_nat pos) then
      id ← rd buf pos;
      len ← rd buf (pos + 1);
      if decide (id = 0xdd ∧ (Z.of_nat pos = zlen buf - 1 ∨ len = 0)) then Ok (0, k)
      else if decide (2 + len > zlen buf - Z.of_nat pos) then Ok (-1, k)
      else if decide (id = WLAN_EID_RSN) then
        kde_loop fuel buf (pos + Z.to_nat (2 + len)) (k <| k_rsn_ie := Some (pos, len + 2) |>)
      else if decide (id = WLAN_EID_VENDOR_SPECIFIC) then
        r ← wpa_parse_generic buf pos (length buf) k;
        if decide (r.1 < 0) then Ok (r.1, r.2)
        else if decide (0 < r.1) then Ok (0, r.2)
        else kde_loop fuel buf (pos + Z.to_nat (2 + len)) r.2
      else kde_loop fuel buf (pos + Z.to_nat (2 + len)) k
    else Ok (0, k)
  end.

Definition wpa_parse_kde_ies (buf : bytes) : outcome (Z * wpa_eapol_ie_parse) :=
  kde_loop (S (length buf)) buf 0 no_kdes.

(** ** What is written *)

Lemma put_octets_ok len d acc : zlen acc + zlen d ≤ len → put_octets len d acc = Ok (acc ++ d).
Proof. intros Hl. unfold put_octets. by rewrite bool_decide_eq_true_2. Qed.

Lemma put_suites_ok len l acc :
  zlen acc + 2 + 4 * zlen l ≤ len →
  put_suites len l acc =
    Ok (if decide (l = []) then None else Some (acc ++ WPA_PUT_LE16 (zlen l) ++ suites_octets l)).
Proof.
  intros Hl. unfold put_suites. destruct (decide _); [done|].
  rewrite put_octets_ok; [done|]. rewrite zlen_app, suites_octets_length. change (zlen (WPA_PUT_LE16 _)) with 2. lia.
Qed.

Lemma and_then_None f : and_then (Ok None) f = Ok None.
Proof. done. Qed.

Lemma and_then_Some acc f : and_then (Ok (Some acc)) f = f acc.
Proof. done. Qed.

Lemma set_len_eq id rest : set_len (id :: 0 :: rest) = Ok (Some (id :: u8 (zlen rest) :: rest)).
Proof.
  unfold set_len. replace (zlen (id :: 0 :: rest) - 2) with (zlen rest) by (rewrite !zlen_cons; lia). done.
Qed.

Lemma wpa_akm_length akm : zlen (wpa_akm_suites akm) ≤ 2.
Proof.
  unfold wpa_akm_suites. rewrite zlen_app.
  pose proof (suite_if_length akm WPA_KEY_MGMT_IEEE8021X WPA_AUTH_KEY_MGMT_UNSPEC_802_1X).
  pose proof (suite_if_length akm WPA_KEY_MGMT_PSK WPA_AUTH_KEY_MGMT_PSK_OVER_802_1X). lia.
Qed.

Lemma rsn_akm_length akm : zlen (rsn_akm_suites akm) ≤ 6.
Proof.
  unfold rsn_akm_suites. rewrite !zlen_app.
  pose proof (suite_if_length akm WPA_KEY_MGMT_IEEE8021X RSN_AUTH_KEY_MGMT_UNSPEC_802_1X).
  pose proof (suite_if_length akm WPA_KEY_MGMT_PSK RSN_AUTH_KEY_MGMT_PSK_OVER_802_1X).
  pose proof (suite_if_length akm WPA_KEY_MGMT_IEEE8021X_SHA256 RSN_AUTH_KEY_MGMT_802_1X_SHA256).
  pose proof (suite_if_length akm WPA_KEY_MGMT_PSK_SHA256 RSN_AUTH_KEY_MGMT_PSK_SHA256).
  pose proof (suite_if_length akm WPA_KEY_MGMT_IEEE8021X_SUITE_B RSN_AUTH_KEY_MGMT_802_1X_SUITE_B).
  pose proof (suite_if_length akm WPA_KEY_MGMT_IEEE8021X_SUITE_B_192 RSN_AUTH_KEY_MGMT_802_1X_SUITE_B_192). lia.
Qed.

Lemma wpa_akm_range akm : Forall (λ s, 0 ≤ s < 2 ^ 32) (wpa_akm_suites akm).
Proof. unfold wpa_akm_suites. repeat apply Forall_app_2; by apply suite_if_range. Qed.

Lemma rsn_akm_range akm : Forall (λ s, 0 ≤ s < 2 ^ 32) (rsn_akm_suites akm).
Proof. unfold rsn_akm_suites. repeat apply Forall_app_2; by apply suite_if_range. Qed.

(** A counted list in an element *)
Definition counted (l : list Z) : bytes := WPA_PUT_LE16 (zlen l) ++ suites_octets l.

Lemma counted_length l : zlen (counted l) = 2 + 4 * zlen l.
Proof. unfold counted. rewrite zlen_app, suites_octets_length. done. Qed.

Definition pmkid_part (pmkid : option bytes) : bytes := from_option (λ p, WPA_PUT_LE16 1 ++ p) [] pmkid.

(** The management group cipher; without it, [Some []] *)
Definition mgmt_part (conf : wpa_auth_config) (pmkid : option bytes) : option bytes :=
  if decide (ieee80211w conf ≠ NO_MGMT_FRAME_PROTECTION ∧ group_mgmt_cipher conf ≠ WPA_CIPHER_AES_128_CMAC)
  then s ← mgmt_suite (group_mgmt_cipher conf);
       Some ((if pmkid is None then WPA_PUT_LE16 0 else []) ++ RSN_SELECTOR_PUT s)
  else Some [].

Lemma put_pmkid_ok len pmkid acc :
  zlen acc + 18 ≤ len → from_option (λ p, zlen p = 16) True pmkid →
  put_pmkid len pmkid acc = Ok (Some (acc ++ pmkid_part pmkid)).
Proof.
  intros Hl Hp. unfold put_pmkid, PMKID_LEN. destruct pmkid as [p|]; cbn in *; [|by rewrite app_nil_r].
  rewrite decide_False by lia. rewrite put_octets_ok; [done|]. rewrite !zlen_cons. lia.
Qed.

Lemma put_mgmt_group_ok len conf pmkid acc :
  zlen acc + 6 ≤ len → put_mgmt_group len conf pmkid acc = Ok (m ← mgmt_part conf pmkid; Some (acc ++ m)).
Proof.
  intros Hl. unfold put_mgmt_group, mgmt_part. destruct (decide (_ ∧ _)); [|cbn; by rewrite app_nil_r].
  rewrite decide_False by lia. destruct pmkid as [p|].
  - rewrite bind_Ok. destruct (mgmt_suite _) as [s|]; [|done]. rewrite put_octets_ok; [done|].
    change (zlen (RSN_SELECTOR_PUT s)) with 4. lia.
  - rewrite put_octets_ok by (change (zlen (WPA_PUT_LE16 0)) with 2; lia). rewrite bind_Ok.
    destruct (mgmt_suite _) as [s|]; [|done]. rewrite put_octets_ok; [by rewrite <- app_assoc|].
    rewrite zlen_app. change (zlen (RSN_SELECTOR_PUT s)) with 4. change (zlen (WPA_PUT_LE16 0)) with 2. lia.
Qed.

(** The RSN element without its first two octets *)
Definition rsn_body (conf : wpa_auth_config) (pmkid : option bytes) (m : bytes) : bytes :=
  WPA_PUT_LE16 RSN_VERSION ++ RSN_SELECTOR_PUT (wpa_cipher_to_suite WPA_PROTO_RSN (wpa_group conf)) ++
  counted (rsn_cipher_put_suites (rsn_pairwise conf)) ++ counted (rsn_akm_suites (conf_key_mgmt conf)) ++
  WPA_PUT_LE16 (rsn_capab conf) ++ pmkid_part pmkid ++ m.

(** Whether there is an RSN element for the configuration *)
Definition rsn_valid (conf : wpa_auth_config) : bool :=
  bool_decide (wpa_cipher_to_suite WPA_PROTO_RSN (wpa_group conf) ≠ 0) &&
  bool_decide (rsn_cipher_put_suites (rsn_pairwise conf) ≠ []) &&
  bool_decide (rsn_akm_suites (conf_key_mgmt conf) ≠ []).

Lemma write_rsn_eq conf len pmkid :
  86 ≤ len → from_option (λ p, zlen p = 16) True pmkid →
  wpa_write_rsn_ie conf len pmkid =
    Ok (if rsn_valid conf then
          m ← mgmt_part conf pmkid;
          let body := rsn_body conf pmkid m in
          Some (WLAN_EID_RSN :: u8 (zlen body) :: body)
        else None).
Proof.
  intros Hl Hp. unfold wpa_write_rsn_ie, rsn_valid.
  rewrite put_octets_ok by (change (zlen ([WLAN_EID_RSN; 0] ++ WPA_PUT_LE16 RSN_VERSION)) with 4; rewrite (eq_refl : zlen (@nil Z) = 0); lia).
  rewrite bind_Ok, app_nil_l. cbv zeta. set (suite := wpa_cipher_to_suite _ _).
  destruct (decide (suite = 0)) as [|Hs]; [by rewrite bool_decide_eq_false_2 by tauto|].
  rewrite bool_decide_eq_true_2 by done. cbn [andb].
  pose proof (rsn_suites_length (rsn_pairwise conf)) as Hn1. pose proof (rsn_akm_length (conf_key_mgmt conf)) as Hn2.
  rewrite put_octets_ok by (change (zlen ([WLAN_EID_RSN; 0] ++ WPA_PUT_LE16 RSN_VERSION)) with 4;
                     change (zlen (RSN_SELECTOR_PUT suite)) with 4; lia). rewrite bind_Ok.
  set (acc := ([WLAN_EID_RSN; 0] ++ WPA_PUT_LE16 RSN_VERSION) ++ RSN_SELECTOR_PUT suite).
  assert (zlen acc = 8) as Ha by done. rewrite put_suites_ok by (rewrite Ha; lia).
  fold (counted (rsn_cipher_put_suites (rsn_pairwise conf))).
  destruct (decide _) as [->|Hs1]; [done|]. rewrite bool_decide_eq_true_2 by done. cbn [andb].
  rewrite and_then_Some. rewrite put_suites_ok by (rewrite zlen_app, counted_length; cbn [length]; lia).
  fold (counted (rsn_akm_suites (conf_key_mgmt conf))).
  destruct (decide _) as [->|Hs2]; [done|]. rewrite bool_decide_eq_true_2 by done.
  rewrite and_then_Some. rewrite put_octets_ok by (rewrite !zlen_app, !counted_length; change (zlen (WPA_PUT_LE16 _)) with 2; lia).
  rewrite bind_Ok.
  rewrite put_pmkid_ok; [|rewrite !zlen_app, !counted_length; change (zlen (WPA_PUT_LE16 _)) with 2; lia|done].
  rewrite and_then_Some. assert (zlen (pmkid_part pmkid) ≤ 18) as Hpl.
  { destruct pmkid as [p|]; cbn in Hp |- *; [rewrite !zlen_cons, Hp|]; done. }
  rewrite put_mgmt_group_ok by (rewrite !zlen_app, !counted_length; change (zlen (WPA_PUT_LE16 _)) with 2; lia).
  destruct (mgmt_part conf pmkid) as [m|]; cbn [mbind option_bind]; [|done]. rewrite and_then_Some.
  rewrite <- !(app_assoc _ _ m). unfold acc. rewrite <- !app_assoc.
  exact (set_len_eq WLAN_EID_RSN (rsn_body conf pmkid m)).
Qed.

Lemma mgmt_part_length conf pmkid m : mgmt_part conf pmkid = Some m → zlen m ≤ 6.
Proof.
  unfold mgmt_part. destruct (decide (_ ∧ _)); [|by intros [= <-]]. destruct (mgmt_suite _); [|done].
  intros [= <-]. by destruct pmkid.
Qed.

Lemma rsn_body_length conf pmkid m :
  from_option (λ p, zlen p = 16) True pmkid → mgmt_part conf pmkid = Some m →
  zlen (rsn_body conf pmkid m) ≤ 66 + zlen (pmkid_part pmkid).
Proof.
  intros Hp Hm%mgmt_part_length. unfold rsn_body. rewrite !zlen_app, !counted_length.
  change (zlen (WPA_PUT_LE16 _)) with 2. change (zlen (RSN_SELECTOR_PUT _)) with 4.
  pose proof (rsn_suites_length (rsn_pairwise conf)). pose proof (rsn_akm_length (conf_key_mgmt conf)). lia.
Qed.

(** The WPA element without its first two octets *)
Definition wpa_body (conf : wpa_auth_config) : bytes :=
  RSN_SELECTOR_PUT WPA_OUI_TYPE ++ WPA_PUT_LE16 WPA_VERSION ++
  RSN_SELECTOR_PUT (wpa_cipher_to_suite WPA_PROTO_WPA (wpa_group conf)) ++
  counted (wpa_cipher_put_suites (wpa_pairwise conf)) ++ counted (wpa_akm_suites (conf_key_mgmt conf)).

Definition wpa_valid (conf : wpa_auth_config) : bool :=
  bool_decide (wpa_cipher_to_suite WPA_PROTO_WPA (wpa_group conf) ≠ 0) &&
  bool_decide (wpa_cipher_put_suites (wpa_pairwise conf) ≠ []) &&
  bool_decide (wpa_akm_suites (conf_key_mgmt conf) ≠ []).

Lemma write_wpa_eq conf len :
  36 ≤ len →
  wpa_write_wpa_ie conf len =
    Ok (if wpa_valid conf then Some (WLAN_EID_VENDOR_SPECIFIC :: u8 (zlen (wpa_body conf)) :: wpa_body conf) else None).
Proof.
  intros Hl. unfold wpa_write_wpa_ie, wpa_valid.
  set (h := [WLAN_EID_VENDOR_SPECIFIC; 0] ++ RSN_SELECTOR_PUT WPA_OUI_TYPE ++ WPA_PUT_LE16 WPA_VERSION).
  assert (zlen h = 8) as Hh by done. rewrite put_octets_ok by (rewrite (eq_refl : zlen (@nil Z) = 0); lia).
  rewrite bind_Ok, app_nil_l. cbv zeta. set (suite := wpa_cipher_to_suite _ _).
  destruct (decide (suite = 0)) as [|Hs]; [by rewrite bool_decide_eq_false_2 by tauto|].
  rewrite bool_decide_eq_true_2 by done. cbn [andb].
  pose proof (wpa_suites_length (wpa_pairwise conf)) as Hn1. pose proof (wpa_akm_length (conf_key_mgmt conf)) as Hn2.
  rewrite put_octets_ok by (change (zlen (RSN_SELECTOR_PUT suite)) with 4; lia). rewrite bind_Ok.
  rewrite put_suites_ok by (rewrite zlen_app; change (zlen (RSN_SELECTOR_PUT suite)) with 4; lia).
  fold (counted (wpa_cipher_put_suites (wpa_pairwise conf))).
  destruct (decide _) as [->|Hs1]; [done|]. rewrite bool_decide_eq_true_2 by done. cbn [andb].
  rewrite and_then_Some.
  rewrite put_suites_ok by (rewrite !zlen_app, counted_length; change (zlen (RSN_SELECTOR_PUT suite)) with 4; lia).
  fold (counted (wpa_akm_suites (conf_key_mgmt conf))).
  destruct (decide _) as [->|Hs2]; [done|]. rewrite bool_decide_eq_true_2 by done.
  rewrite and_then_Some. unfold h. rewrite <- !app_assoc.
  exact (set_len_eq WLAN_EID_VENDOR_SPECIFIC (wpa_body conf)).
Qed.

Lemma wpa_body_length conf : zlen (wpa_body conf) ≤ 34.
Proof.
  unfold wpa_body. rewrite !zlen_app, !counted_length.
  change (zlen (WPA_PUT_LE16 _)) with 2. change (zlen (RSN_SELECTOR_PUT _)) with 4.
  pose proof (wpa_suites_length (wpa_pairwise conf)). pose proof (wpa_akm_length (conf_key_mgmt conf)). lia.
Qed.

(** ** Reading what was written *)

Definition RSN_ALLOWED_AKMS : Z :=
  Z.lor (Z.lor (Z.lor (Z.lor (Z.lor WPA_KEY_MGMT_IEEE8021X WPA_KEY_MGMT_PSK) WPA_KEY_MGMT_IEEE8021X_SHA256)
    WPA_KEY_MGMT_PSK_SHA256) WPA_KEY_MGMT_IEEE8021X_SUITE_B) WPA_KEY_MGMT_IEEE8021X_SUITE_B_192.

Definition WPA_ALLOWED_AKMS : Z := Z.lor WPA_KEY_MGMT_IEEE8021X WPA_KEY_MGMT_PSK.

Lemma rsn_akm_mask k : mask_of rsn_key_mgmt_to_bitfield 0 (rsn_akm_suites k) = Z.land k RSN_ALLOWED_AKMS.
Proof.
  unfold rsn_akm_suites. rewrite !mask_of_app.
  unfold WPA_KEY_MGMT_IEEE8021X, WPA_KEY_MGMT_PSK, WPA_KEY_MGMT_IEEE8021X_SHA256, WPA_KEY_MGMT_PSK_SHA256,
    WPA_KEY_MGMT_IEEE8021X_SUITE_B, WPA_KEY_MGMT_IEEE8021X_SUITE_B_192.
  rewrite !mask_of_if by (done || reflexivity). rewrite Z.lor_0_l, <- !Z.land_lor_distr_r. reflexivity.
Qed.

Lemma wpa_akm_mask k : mask_of wpa_key_mgmt_to_bitfield 0 (wpa_akm_suites k) = Z.land k WPA_ALLOWED_AKMS.
Proof.
  unfold wpa_akm_suites. rewrite !mask_of_app. unfold WPA_KEY_MGMT_IEEE8021X, WPA_KEY_MGMT_PSK.
  rewrite !mask_of_if by (done || reflexivity). rewrite Z.lor_0_l, <- !Z.land_lor_distr_r. reflexivity.
Qed.

(** The group ciphers of an RSN element are found again, and their suites are words. *)
Lemma rsn_group_suite g :
  wpa_cipher_valid_group g = true →
  rsn_selector_to_bitfield (wpa_cipher_to_suite WPA_PROTO_RSN g) = g ∧
  0 < wpa_cipher_to_suite WPA_PROTO_RSN g < 2 ^ 32.
Proof.
  unfold wpa_cipher_valid_group, wpa_cipher_valid_pairwise. rewrite orb_true_iff, !bool_decide_eq_true.
  by intros [[-> | [-> | [-> | [-> | ->]]]] | ->]; vm_compute.
Qed.

Lemma mgmt_suite_valid c :
  wpa_cipher_valid_mgmt_group c = true → ∃ s, mgmt_suite c = Some s ∧ rsn_selector_to_bitfield s = c ∧ 0 ≤ s < 2 ^ 32.
Proof.
  unfold wpa_cipher_valid_mgmt_group. rewrite bool_decide_eq_true.
  intros [-> | [-> | [-> | ->]]]; (eexists; split; [vm_compute; reflexivity|by vm_compute]).
Qed.

Lemma rsn_capab_range conf : 0 ≤ rsn_capab conf < 2 ^ 16.
Proof.
  unfold rsn_capab, mfp_capab.
  by destruct (rsn_preauth conf), (peerkey conf), (wmm_enabled conf), (ieee80211w conf); vm_compute.
Qed.

Lemma no_cmac c : has_flag (Z.land c WPA_ALLOWED_PAIRWISE_CIPHERS) WPA_CIPHER_AES_128_CMAC = false.
Proof.
  unfold has_flag. rewrite <- Z.land_assoc.
  by replace (Z.land WPA_ALLOWED_PAIRWISE_CIPHERS WPA_CIPHER_AES_128_CMAC) with 0 by reflexivity; rewrite Z.land_0_r.
Qed.

Lemma then_Next d pos l f : then_ (Ok (Next d pos l)) f = f d pos l.
Proof. done. Qed.

Lemma zlen_pos {A} (l : list A) : l ≠ [] → 0 < zlen l.
Proof. destruct l; [done|]. rewrite zlen_cons. pose proof (zlen_nonneg l). lia. Qed.

Definition with_pmkids (n : Z) (p : bytes) (d : wpa_ie_data) : wpa_ie_data :=
  d <| num_pmkid := n |> <| pmkid := Some p |>.

(** The end of an element with a PMKID or a management group cipher *)
Lemma pmkids_part conf pmkid_ m d :
  from_option (λ p, zlen p = 16) True pmkid_ → mgmt_part conf pmkid_ = Some m →
  (ieee80211w conf ≠ NO_MGMT_FRAME_PROTECTION → wpa_cipher_valid_mgmt_group (group_mgmt_cipher conf) = true) →
  mgmt_group_cipher d = WPA_CIPHER_AES_128_CMAC → num_pmkid d = 0 →
  ∃ d' pos, then_ (rsn_pmkids d (pmkid_part pmkid_ ++ m) (zlen (pmkid_part pmkid_ ++ m))) rsn_mgmt_group =
    Ok (Next d' pos 0) ∧
    d' = d <| num_pmkid := (if pmkid_ is None then 0 else 1) |> <| pmkid := pmkid d' |>
           <| mgmt_group_cipher := (if decide (ieee80211w conf = NO_MGMT_FRAME_PROTECTION)
                                    then WPA_CIPHER_AES_128_CMAC else group_mgmt_cipher conf) |> ∧
    from_option (λ p, ∃ r, pmkid d' = Some (p ++ r)) True pmkid_.
Proof.
  intros Hp Hm Hv Hc Hn.
  assert (∀ d' l, mgmt_group_cipher d' = WPA_CIPHER_AES_128_CMAC → ((l = [] ∧ m = []) ∨
      (m ≠ [] ∧ ∃ s, mgmt_suite (group_mgmt_cipher conf) = Some s ∧ l = RSN_SELECTOR_PUT s)) →
    ∃ pos, rsn_mgmt_group d' l (zlen l) = Ok (Next (d' <| mgmt_group_cipher :=
      if decide (ieee80211w conf = NO_MGMT_FRAME_PROTECTION) then WPA_CIPHER_AES_128_CMAC
      else group_mgmt_cipher conf |>) pos 0)) as Hmg.
  { intros d' l Hd' Hl. unfold mgmt_part in Hm. destruct (decide (_ ∧ _)) as [[H1 H2]|H1].
    - rewrite decide_False by done. destruct (mgmt_suite_valid _ (Hv H1)) as (s & Hs & Hsb & Hsr).
      destruct Hl as [[_ ->]|(_ & s' & Hs' & ->)]; [rewrite Hs in Hm; by destruct pmkid_|].
      assert (s' = s) as -> by congruence. exists []. unfold rsn_mgmt_group, RSN_SELECTOR_GET.
      rewrite decide_True by done. rewrite <- (app_nil_r (RSN_SELECTOR_PUT s)) at 1.
      unfold RSN_SELECTOR_PUT at 1. rewrite get_put_be32, bind_Ok by done. cbv zeta. cbn [setter mgmt_group_cipher].
      rewrite Hsb, Hv by done. done.
    - injection Hm as <-. destruct Hl as [[-> _]|[? _]]; [|done]. exists []. unfold rsn_mgmt_group.
      rewrite decide_False by (change (zlen (@nil Z)) with 0; lia). do 3 f_equal. destruct d'. cbn in *. subst. f_equal.
      destruct (decide (ieee80211w conf = _)); [done|]. symmetry.
      destruct (decide (group_mgmt_cipher conf = WPA_CIPHER_AES_128_CMAC)); [done|tauto]. }
  destruct pmkid_ as [p|]; cbn [pmkid_part from_option] in *.
  - rewrite <- app_assoc. unfold rsn_pmkids. rewrite !zlen_app, Hp. change (zlen (WPA_PUT_LE16 1)) with 2.
    pose proof (zlen_nonneg m). rewrite decide_True by lia. rewrite get_put_le16, bind_Ok by done.
    change (drop 2 (WPA_PUT_LE16 1 ++ ?x)) with x. cbv zeta. unfold PMKID_LEN.
    rewrite decide_False by (pose proof (Z.div_le_lower_bound (2 + (16 + zlen m) - 2) 16 1); lia).
    rewrite then_Next. change (Z.to_nat (1 * 16)) with 16%nat.
    replace (drop 16 (p ++ m)) with m by (unfold zlen in Hp; rewrite drop_app_length'; [done|lia]).
    replace (2 + (16 + zlen m) - 2 - 1 * 16) with (zlen m) by lia.
    destruct (Hmg (with_pmkids 1 (p ++ m) d) m Hc) as [pos Hpos].
    + revert Hm. unfold mgmt_part. destruct (decide (_ ∧ _)); [|by intros [= <-]; left].
      destruct (mgmt_suite _) as [s|]; [|done]. intros [= <-]. right. split; [done|]. by exists s.
    + do 2 eexists. split; [exact Hpos|]. split; [done|]. by exists m.
  - unfold rsn_pmkids. destruct (decide (m = [])) as [->|Hne].
    + change (zlen (@nil Z)) with 0. cbn [app]. change (zlen (@nil Z)) with 0. rewrite decide_False by lia. rewrite then_Next.
      destruct (Hmg d [] Hc) as [pos Hpos]; [by left|]. do 2 eexists. split; [exact Hpos|].
      split; [|done]. destruct d. cbn in *. by rewrite Hn.
    + assert (∃ s, mgmt_suite (group_mgmt_cipher conf) = Some s ∧ m = WPA_PUT_LE16 0 ++ RSN_SELECTOR_PUT s) as (s & Hs & ->).
      { revert Hm. unfold mgmt_part. destruct (decide (_ ∧ _)); [|by intros [= <-]].
        destruct (mgmt_suite _) as [s|]; [|done]. intros [= <-]. by exists s. }
      rewrite app_nil_l, zlen_app. change (zlen (WPA_PUT_LE16 0)) with 2. change (zlen (RSN_SELECTOR_PUT s)) with 4.
      rewrite decide_True by done. rewrite get_put_le16, bind_Ok by done.
      change (drop 2 (WPA_PUT_LE16 0 ++ ?x)) with x. cbv zeta. rewrite decide_False by done.
      rewrite then_Next. cbn [Z.mul Z.to_nat]. rewrite drop_0. change (2 + 4 - 2 - 0) with (zlen (RSN_SELECTOR_PUT s)).
      destruct (Hmg (with_pmkids 0 (RSN_SELECTOR_PUT s) d) (RSN_SELECTOR_PUT s) Hc) as [pos Hpos].
      { right. split; [done|]. by exists s. }
      do 2 eexists. split; [exact Hpos|]. done.
Qed.

(** The elements of a configuration with valid group ciphers *)
Definition group_ok (conf : wpa_auth_config) : Prop :=
  wpa_cipher_valid_group (wpa_group conf) = true ∧
  (ieee80211w conf ≠ NO_MGMT_FRAME_PROTECTION → wpa_cipher_valid_mgmt_group (group_mgmt_cipher conf) = true).

Lemma mgmt_part_ok conf pmkid_ : group_ok conf → ∃ m, mgmt_part conf pmkid_ = Some m.
Proof.
  intros [_ Hm]. unfold mgmt_part. destruct (decide (_ ∧ _)) as [[H1 _]|]; [|by eexists].
  destruct (mgmt_suite_valid _ (Hm H1)) as (s & -> & _). by eexists.
Qed.

(** What the parser finds in the RSN element of a configuration *)
Definition rsn_found (conf : wpa_auth_config) (n : Z) (ids : option bytes) : wpa_ie_data :=
  mk_wpa_ie WPA_PROTO_RSN (Z.land (rsn_pairwise conf) WPA_ALLOWED_PAIRWISE_CIPHERS) (wpa_group conf)
    (Z.land (conf_key_mgmt conf) RSN_ALLOWED_AKMS) (rsn_capab conf) n ids
    (if decide (ieee80211w conf = NO_MGMT_FRAME_PROTECTION) then WPA_CIPHER_AES_128_CMAC else group_mgmt_cipher conf).

Lemma le16_version r : WPA_PUT_LE16 1 ++ r = 1 :: 0 :: r.
Proof. done. Qed.

(** The header of a written RSN element; it is not taken for an OSEN element. *)
Lemma rsn_header_written n s r :
  n = zlen r + 6 → 0 ≤ n < 256 →
  rsn_header (WLAN_EID_RSN :: n :: WPA_PUT_LE16 RSN_VERSION ++ RSN_SELECTOR_PUT s ++ r) (n + 2) =
    Ok (Next rsn_defaults (RSN_SELECTOR_PUT s ++ r) (4 + zlen r)).
Proof.
  intros Hn Hr. pose proof (zlen_nonneg r). unfold rsn_header. rewrite decide_True by lia.
  change (rd (WLAN_EID_RSN :: n :: ?x) 1) with (Ok n). rewrite !bind_Ok.
  change (drop 2 (WLAN_EID_RSN :: n :: ?x)) with x. replace (n + 2 - 2) with n by lia.
  destruct (decide (4 ≤ n ∧ n = n)) as [_|Hd]; [|lia]. destruct (decide (n ≠ n)) as [Hd|_]; [lia|].
  assert (∃ t, WPA_GET_BE32 (WPA_PUT_LE16 RSN_VERSION ++ RSN_SELECTOR_PUT s ++ r) = Ok t ∧ t ≠ OSEN_IE_VENDOR_TYPE)
    as (t & -> & Ht).
  { unfold RSN_VERSION, RSN_SELECTOR_PUT, WPA_PUT_BE32. rewrite le16_version. cbn [app].
    rewrite WPA_GET_BE32_val by (done || (rewrite land_255; apply u8_range)). eexists. split; [done|].
    unfold OSEN_IE_VENDOR_TYPE. rewrite !land_255. pose proof (u8_range (Z.shiftr s 24)) as H1.
    pose proof (u8_range (Z.shiftr s 16)) as H2. unfold is_u8, u8 in *. lia. }
  rewrite !bind_Ok, bool_decide_eq_false_2 by done.
  change (rd (WLAN_EID_RSN :: ?x) 0) with (Ok WLAN_EID_RSN). rewrite bind_Ok, decide_False by tauto.
  rewrite get_put_le16, bind_Ok by done. rewrite decide_False by tauto.
  unfold sizeof_rsn_ie_hdr. replace (n + 2 - 4) with (4 + zlen r) by lia. done.
Qed.

Lemma rsn_group_put d s r l :
  wpa_cipher_valid_group (rsn_selector_to_bitfield s) = true → 0 ≤ s < 2 ^ 32 → 4 ≤ l →
  rsn_group d (RSN_SELECTOR_PUT s ++ r) l = Ok (Next (d <| group_cipher := rsn_selector_to_bitfield s |>) r (l - 4)).
Proof.
  intros Hv Hs Hl. unfold rsn_group, RSN_SELECTOR_LEN, RSN_SELECTOR_GET. rewrite decide_True by done.
  unfold RSN_SELECTOR_PUT at 1. rewrite get_put_be32, bind_Ok by done. cbv zeta. cbn [group_cipher setter].
  by rewrite Hv.
Qed.

Lemma capabilities_put d v r l :
  0 ≤ v < 2 ^ 16 → 2 ≤ l → parse_capabilities d (WPA_PUT_LE16 v ++ r) l = Ok (Next (d <| capabilities := v |>) r (l - 2)).
Proof. intros Hv Hl. unfold parse_capabilities. rewrite decide_True by done. by rewrite get_put_le16, bind_Ok. Qed.

Lemma rsn_pairwise_put d c l r n :
  l = rsn_cipher_put_suites c → l ≠ [] → 2 + 4 * zlen l ≤ n →
  rsn_pairwise_suites d (counted l ++ r) n =
    Ok (Next (put_pairwise (Z.land c WPA_ALLOWED_PAIRWISE_CIPHERS) d) r (n - 2 - 4 * zlen l)).
Proof.
  intros -> Hn%zlen_pos Hl. unfold rsn_pairwise_suites, counted. rewrite <- app_assoc.
  pose proof (rsn_suites_length c). rewrite suite_list_octets; [|apply rsn_suites_range|lia|lia].
  rewrite then_Next, rsn_pairwise_mask. unfold rsn_no_cmac. cbn [put_pairwise pairwise_cipher setter].
  by rewrite no_cmac.
Qed.

Lemma rsn_parse_written conf pmkid_ m :
  group_ok conf → rsn_valid conf = true → from_option (λ p, zlen p = 16) True pmkid_ →
  mgmt_part conf pmkid_ = Some m →
  let ie := WLAN_EID_RSN :: u8 (zlen (rsn_body conf pmkid_ m)) :: rsn_body conf pmkid_ m in
  ∃ ids, wpa_parse_wpa_ie_rsn ie (zlen ie) = Ok (0, rsn_found conf (if pmkid_ is None then 0 else 1) ids) ∧
    from_option (λ p, ∃ r, ids = Some (p ++ r)) True pmkid_.
Proof.
  intros [Hg Hm] Hv Hp Hmp. cbv zeta. unfold rsn_valid in Hv. rewrite !andb_true_iff, !bool_decide_eq_true in Hv.
  destruct Hv as [[_ Hs1] Hs2%zlen_pos]. pose proof (zlen_pos _ Hs1). destruct (rsn_group_suite _ Hg) as [Hgs Hgr].
  pose proof (rsn_body_length conf pmkid_ m Hp Hmp) as Hlen.
  assert (zlen (pmkid_part pmkid_) ≤ 18) as Hpl by (destruct pmkid_ as [p|]; cbn in Hp |- *; [rewrite !zlen_cons, Hp|]; done).
  pose proof (zlen_nonneg (rsn_body conf pmkid_ m)) as Hnn.
  rewrite !zlen_cons. rewrite u8_small by (unfold is_u8; lia).
  set (l1 := rsn_cipher_put_suites (rsn_pairwise conf)) in *. set (l2 := rsn_akm_suites (conf_key_mgmt conf)) in *.
  pose proof (rsn_suites_length (rsn_pairwise conf)) as Hl1. pose proof (rsn_akm_length (conf_key_mgmt conf)) as Hl2.
  fold l1 in Hl1. fold l2 in Hl2. set (tl := pmkid_part pmkid_ ++ m).
  set (r := counted l1 ++ counted l2 ++ WPA_PUT_LE16 (rsn_capab conf) ++ tl).
  set (s := wpa_cipher_to_suite WPA_PROTO_RSN (wpa_group conf)) in *.
  assert (rsn_body conf pmkid_ m = WPA_PUT_LE16 RSN_VERSION ++ RSN_SELECTOR_PUT s ++ r) as Hb by done.
  assert (zlen (rsn_body conf pmkid_ m) = zlen r + 6) as Hbl.
  { rewrite Hb, !zlen_app. change (zlen (WPA_PUT_LE16 RSN_VERSION)) with 2. change (zlen (RSN_SELECTOR_PUT s)) with 4. lia. }
  unfold wpa_parse_wpa_ie_rsn. rewrite !decide_False by (unfold sizeof_rsn_ie_hdr; pose proof (zlen_nonneg r); lia).
  replace (1 + (1 + zlen (rsn_body conf pmkid_ m))) with (zlen (rsn_body conf pmkid_ m) + 2) by lia.
  set (n := zlen (rsn_body conf pmkid_ m)) in *. rewrite Hb. rewrite rsn_header_written by lia. rewrite then_Next. unfold rsn_fields.
  pose proof (zlen_nonneg r). rewrite rsn_group_put by (rewrite ?Hgs; done || lia). rewrite Hgs, then_Next.
  assert (zlen r = 2 + 4 * zlen l1 + (2 + 4 * zlen l2) + 2 + zlen tl) as Hrl.
  { unfold r. rewrite !zlen_app, !counted_length. change (zlen (WPA_PUT_LE16 _)) with 2. lia. }
  pose proof (zlen_nonneg tl). unfold r at 1. rewrite (rsn_pairwise_put _ (rsn_pairwise conf) l1) by (done || lia).
  rewrite then_Next. unfold counted at 1. rewrite <- app_assoc.
  rewrite suite_list_octets; [|apply rsn_akm_range|lia|lia]. rewrite then_Next. unfold l2 at 1. rewrite rsn_akm_mask.
  rewrite capabilities_put by (apply rsn_capab_range || lia). rewrite then_Next.
  replace (4 + zlen r - 4 - 2 - 4 * zlen l1 - 2 - 4 * zlen l2 - 2) with (zlen tl) by lia.
  match goal with |- context [then_ (rsn_pmkids ?d _ _) _] => set (d0 := d) end.
  destruct (pmkids_part conf pmkid_ m d0 Hp Hmp Hm eq_refl eq_refl) as (d' & pos & Hd & Hd' & Hids).
  fold tl in Hd. rewrite Hd. exists (pmkid d'). split; [|done]. cbn [parsed mbind outcome_bind]. rewrite Hd'. done.
Qed.

(** What the parser finds in the WPA element of a configuration *)
Definition wpa_found (conf : wpa_auth_config) : wpa_ie_data :=
  mk_wpa_ie WPA_PROTO_WPA (Z.land (wpa_pairwise conf) (Z.lor (Z.lor WPA_CIPHER_CCMP WPA_CIPHER_TKIP) WPA_CIPHER_NONE))
    (wpa_group conf) (Z.land (conf_key_mgmt conf) WPA_ALLOWED_AKMS) 0 0 None 0.

Lemma wpa_group_suite_word g :
  g = WPA_CIPHER_CCMP ∨ g = WPA_CIPHER_TKIP →
  wpa_selector_to_bitfield (wpa_cipher_to_suite WPA_PROTO_WPA g) = g ∧
  0 < wpa_cipher_to_suite WPA_PROTO_WPA g < 2 ^ 32.
Proof. by intros [-> | ->]; vm_compute. Qed.

Lemma wpa_group_put d s r l :
  0 ≤ s < 2 ^ 32 → 4 ≤ l →
  wpa_group_suite d (RSN_SELECTOR_PUT s ++ r) l = Ok (Next (d <| group_cipher := wpa_selector_to_bitfield s |>) r (l - 4)).
Proof.
  intros Hs Hl. unfold wpa_group_suite, WPA_SELECTOR_LEN, RSN_SELECTOR_GET. rewrite decide_True by done.
  unfold RSN_SELECTOR_PUT at 1. by rewrite get_put_be32, bind_Ok.
Qed.

Lemma wpa_header_written n r :
  n = zlen r + 6 → 
  wpa_header (WLAN_EID_VENDOR_SPECIFIC :: n :: RSN_SELECTOR_PUT WPA_OUI_TYPE ++ WPA_PUT_LE16 WPA_VERSION ++ r) (n + 2) =
    Ok (Next wpa_defaults r (zlen r)).
Proof.
  intros Hn. unfold wpa_header. change (rd (WLAN_EID_VENDOR_SPECIFIC :: ?x) 0) with (Ok WLAN_EID_VENDOR_SPECIFIC).
  rewrite bind_Ok, decide_False by tauto. change (rd (WLAN_EID_VENDOR_SPECIFIC :: n :: ?x) 1) with (Ok n).
  rewrite bind_Ok. destruct (decide (n ≠ n + 2 - 2)) as [?|_]; [lia|]. change (drop 2 (WLAN_EID_VENDOR_SPECIFIC :: n :: ?x)) with x.
  unfold RSN_SELECTOR_GET, RSN_SELECTOR_PUT at 1. rewrite get_put_be32, bind_Ok, decide_False by (done || tauto).
  change (drop 6 (WLAN_EID_VENDOR_SPECIFIC :: n :: RSN_SELECTOR_PUT WPA_OUI_TYPE ++ ?x)) with x.
  rewrite get_put_le16, bind_Ok, decide_False by (done || tauto). unfold sizeof_wpa_ie_hdr.
  replace (n + 2 - 8) with (zlen r) by lia. done.
Qed.

Lemma wpa_parse_written conf :
  wpa_group conf = WPA_CIPHER_CCMP ∨ wpa_group conf = WPA_CIPHER_TKIP → wpa_valid conf = true →
  let ie := WLAN_EID_VENDOR_SPECIFIC :: u8 (zlen (wpa_body conf)) :: wpa_body conf in
  wpa_parse_wpa_ie_wpa ie (zlen ie) = Ok (0, wpa_found conf).
Proof.
  intros Hg Hv. cbv zeta. unfold wpa_valid in Hv. rewrite !andb_true_iff, !bool_decide_eq_true in Hv.
  destruct Hv as [[_ Hs1%zlen_pos] Hs2%zlen_pos]. destruct (wpa_group_suite_word _ Hg) as [Hgs Hgr].
  pose proof (wpa_body_length conf) as Hlen. pose proof (zlen_nonneg (wpa_body conf)) as Hnn.
  rewrite !zlen_cons. rewrite u8_small by (unfold is_u8; lia). revert Hlen Hnn. unfold wpa_body.
  pose proof (wpa_suites_length (wpa_pairwise conf)) as Hl1. pose proof (wpa_akm_length (conf_key_mgmt conf)) as Hl2.
  pose proof (wpa_pairwise_mask (wpa_pairwise conf)) as Hm1. pose proof (wpa_akm_mask (conf_key_mgmt conf)) as Hm2.
  pose proof (wpa_suites_range (wpa_pairwise conf)) as Hr1. pose proof (wpa_akm_range (conf_key_mgmt conf)) as Hr2.
  replace (wpa_found conf) with
    (mk_wpa_ie WPA_PROTO_WPA (mask_of wpa_selector_to_bitfield 0 (wpa_cipher_put_suites (wpa_pairwise conf)))
      (wpa_selector_to_bitfield (wpa_cipher_to_suite WPA_PROTO_WPA (wpa_group conf)))
      (mask_of wpa_key_mgmt_to_bitfield 0 (wpa_akm_suites (conf_key_mgmt conf))) 0 0 None 0)
    by (rewrite Hm1, Hm2, Hgs; done).
  clear Hm1 Hm2.
  generalize dependent (wpa_cipher_put_suites (wpa_pairwise conf)). intros l1 Hs1 Hl1 Hr1.
  generalize dependent (wpa_akm_suites (conf_key_mgmt conf)). intros l2 Hs2 Hl2 Hr2.
  generalize dependent (wpa_cipher_to_suite WPA_PROTO_WPA (wpa_group conf)). intros s _ Hgr.
  set (r := RSN_SELECTOR_PUT s ++ counted l1 ++ counted l2). intros Hlen Hnn.
  set (n := zlen (RSN_SELECTOR_PUT WPA_OUI_TYPE ++ WPA_PUT_LE16 WPA_VERSION ++ r)) in *.
  assert (n = zlen r + 6) as Hnr by (unfold n; rewrite !zlen_app; change (zlen (WPA_PUT_LE16 _)) with 2; change (zlen (RSN_SELECTOR_PUT _)) with 4; lia).
  assert (zlen r = 8 + 4 * zlen l1 + 4 * zlen l2) as Hrl.
  { unfold r. rewrite !zlen_app, !counted_length. change (zlen (RSN_SELECTOR_PUT _)) with 4. lia. }
  unfold wpa_parse_wpa_ie_wpa. rewrite decide_False by (unfold sizeof_wpa_ie_hdr; lia).
  replace (1 + (1 + n)) with (n + 2) by lia. rewrite wpa_header_written by lia. rewrite then_Next.
  unfold wpa_fields, r at 1. rewrite wpa_group_put by lia. rewrite then_Next. unfold counted at 1. rewrite <- app_assoc.
  rewrite suite_list_octets by (done || lia). rewrite then_Next. unfold counted. rewrite <- (app_nil_r (suites_octets l2)).
  rewrite suite_list_octets by (done || lia). rewrite then_Next. unfold parse_capabilities.
  rewrite decide_False by lia. done.
Qed.

(** ** The buffer of the own elements *)

(** The octets of the own elements, without a buffer *)
Definition own_octets (conf : wpa_auth_config) : option bytes :=
  r ← (if has_flag (conf_wpa conf) WPA_PROTO_RSN then
         if rsn_valid conf then
           m ← mgmt_part conf None;
           Some (WLAN_EID_RSN :: u8 (zlen (rsn_body conf None m)) :: rsn_body conf None m)
         else None
       else Some []);
  w ← (if has_flag (conf_wpa conf) WPA_PROTO_WPA then
         if wpa_valid conf then Some (WLAN_EID_VENDOR_SPECIFIC :: u8 (zlen (wpa_body conf)) :: wpa_body conf) else None
       else Some []);
  Some ((if decide (conf_wpa conf = WPA_PROTO_OSEN) then wpa_write_osen conf else []) ++ r ++ w).

Lemma and_then_Ok (x : option bytes) f g :
  (∀ a, x = Some a → f a = Ok (g a)) → and_then (Ok x) f = Ok (a ← x; g a).
Proof. destruct x as [a|]; [|done]. intros Hf. by apply Hf. Qed.

Lemma gen_buf_eq conf :
  gen_buf conf = Ok (own_octets conf) ∧ from_option (λ b, zlen b ≤ 104) True (own_octets conf).
Proof.
  unfold gen_buf, own_octets. set (osen := if decide _ then wpa_write_osen conf else []).
  assert ((if decide (conf_wpa conf = WPA_PROTO_OSEN) then put_octets sizeof_buf (wpa_write_osen conf) [] else Ok [])
    = Ok osen) as ->.
  { unfold osen. destruct (decide _); [|done]. by rewrite put_octets_ok. }
  rewrite bind_Ok. pose proof (wpa_body_length conf) as Hw. pose proof (zlen_nonneg (wpa_body conf)) as Hw0.
  assert (∀ m, mgmt_part conf None = Some m → zlen (rsn_body conf None m) ≤ 66) as Hr.
  { intros m Hm. by apply (rsn_body_length conf None m). }
  destruct (decide (conf_wpa conf = WPA_PROTO_OSEN)) as [Ho|Ho].
  - rewrite Ho. change (has_flag WPA_PROTO_OSEN WPA_PROTO_RSN) with false.
    change (has_flag WPA_PROTO_OSEN WPA_PROTO_WPA) with false.
    cbv beta iota. cbn [mbind option_bind]. rewrite !app_nil_r, and_then_Some. by split.
  - assert (zlen osen = 0) as Hz by done. destruct (has_flag (conf_wpa conf) WPA_PROTO_RSN).
    + unfold add_ie. rewrite write_rsn_eq by (rewrite ?Hz; unfold sizeof_buf; done || lia).
      destruct (rsn_valid conf); [|done]. destruct (mgmt_part conf None) as [m|] eqn:Hm; [|done].
      specialize (Hr m eq_refl). pose proof (zlen_nonneg (rsn_body conf None m)). cbn [mbind option_bind].
      cbv zeta. rewrite !and_then_Some. destruct (has_flag (conf_wpa conf) WPA_PROTO_WPA).
      * rewrite write_wpa_eq by (rewrite zlen_app, !zlen_cons; unfold sizeof_buf; lia).
        destruct (wpa_valid conf); [|done]. rewrite and_then_Some, <- app_assoc. split; [done|].
        cbn [mbind option_bind from_option]. rewrite !zlen_app, !zlen_cons. lia.
      * cbn [mbind option_bind]. rewrite app_nil_r. split; [done|]. cbn [from_option]. rewrite !zlen_app, !zlen_cons. lia.
    + rewrite and_then_Some. cbn [mbind option_bind]. destruct (has_flag (conf_wpa conf) WPA_PROTO_WPA).
      * unfold add_ie. rewrite write_wpa_eq by (unfold sizeof_buf; lia). destruct (wpa_valid conf); [|done].
        rewrite and_then_Some. split; [done|]. cbn [mbind option_bind from_option].
        rewrite !zlen_app, !zlen_cons. change (zlen (@nil Z)) with 0. lia.
      * cbn [mbind option_bind]. rewrite !app_nil_r. split; [done|]. cbn [from_option]. rewrite Hz. lia.
Qed.

(** ** Reading the KDEs inside the key data *)

Definition inside_buf (n : Z) (f : field) : Prop := from_option (λ x, Z.of_nat x.1 + x.2 ≤ n ∧ 0 ≤ x.2) True f.

(** Every pointer and length found is inside the key data. *)
Record kdes_inside (n : Z) (k : wpa_eapol_ie_parse) : Prop := {
  ki_wpa : inside_buf n (k_wpa_ie k);
  ki_rsn : inside_buf n (k_rsn_ie k);
  ki_pmkid : from_option (λ p, Z.of_nat p + 16 ≤ n) True (k_pmkid k);
  ki_gtk : inside_buf n (k_gtk k);
  ki_mac : inside_buf n (k_mac_addr k);
  ki_smk : inside_buf n (k_smk k);
  ki_nonce : inside_buf n (k_nonce k);
  ki_lifetime : inside_buf n (k_lifetime k);
  ki_error : inside_buf n (k_error k);
  ki_igtk : inside_buf n (k_igtk k);
  ki_osen : inside_buf n (k_osen k) }.

Lemma put_kde_inside n s f k : kdes_inside n k → inside_buf n f → kdes_inside n (put_kde s f k).
Proof.
  intros [H1 H2 H3 H4 H5 H6 H7 H8 H9 H10 H11] Hf. unfold put_kde.
  repeat (destruct (decide _); [by split|]). by split.
Qed.

Lemma selector_at_ok buf pos : (pos + 4 ≤ length buf)%nat → ∃ s, selector_at buf pos = Ok s.
Proof.
  intros Hl. unfold selector_at, RSN_SELECTOR_GET. apply get_be32_ok. unfold zlen. rewrite length_drop. lia.
Qed.

Lemma selector_is_ok buf pos b s :
  (b = true → (pos + 6 ≤ length buf)%nat) → ∃ r, selector_is buf pos b s = Ok r ∧ (r = true → b = true).
Proof.
  intros Hb. unfold selector_is. destruct b; [|by exists false]. specialize (Hb eq_refl).
  destruct (selector_at_ok buf (pos + 2)) as [x ->]; [lia|]. by eexists.
Qed.

(** An element of [len] octets after its first two *)
Lemma parse_generic_inside buf pos len k :
  buf !! (pos + 1)%nat = Some len → 0 ≤ len → Z.of_nat pos + 2 + len ≤ zlen buf → kdes_inside (zlen buf) k →
  ∃ r k', wpa_parse_generic buf pos (length buf) k = Ok (r, k') ∧ 0 ≤ r ∧ kdes_inside (zlen buf) k'.
Proof.
  intros Hlen Hl Hfit Hk. unfold wpa_parse_generic. unfold rd at 1. rewrite Hlen, bind_Ok.
  destruct (decide _); [by exists 1, k|].
  assert (∃ w, is_wpa_ie buf pos len = Ok w) as [w ->].
  { unfold is_wpa_ie. destruct (selector_is_ok buf pos (bool_decide (6 ≤ len)) WPA_OUI_TYPE) as (r & -> & Hr).
    { intros H6%bool_decide_eq_true. unfold zlen in Hfit. lia. }
    rewrite bind_Ok. destruct r; [|by eexists]. specialize (Hr eq_refl). apply bool_decide_eq_true in Hr. unfold zlen in Hfit.
    destruct (rd_lt buf (pos + 6)) as (x & -> & _); [lia|]. rewrite bind_Ok.
    destruct (decide _); [|by eexists]. destruct (rd_lt buf (pos + 7)) as (y & -> & _); [lia|]. by eexists. }
  rewrite bind_Ok.
  assert (∀ f, f = Some (pos, len + 2) → inside_buf (zlen buf) f) as Hf by (intros f ->; cbn; lia).
  destruct w.
  { do 2 eexists. split; [done|]. split; [done|]. by destruct Hk; split; try done; apply Hf. }
  destruct (selector_is_ok buf pos (bool_decide (4 ≤ len)) OSEN_IE_VENDOR_TYPE) as (r & -> & _).
  { intros H6%bool_decide_eq_true. unfold zlen in Hfit. lia. }
  rewrite bind_Ok. destruct r.
  { do 2 eexists. split; [done|]. split; [done|]. by destruct Hk; split; try done; apply Hf. }
  set (b := bool_decide _ && bool_decide _). unfold RSN_SELECTOR_LEN, PMKID_LEN in *.
  assert (b = true → 20 ≤ len) as Hb.
  { unfold b. rewrite andb_true_iff, !bool_decide_eq_true. lia. }
  destruct (selector_is_ok buf pos b RSN_KEY_DATA_PMKID) as (r & -> & Hr).
  { intros H6%Hb. unfold zlen in Hfit. lia. }
  rewrite bind_Ok. destruct r.
  { do 2 eexists. split; [done|]. split; [done|]. specialize (Hb (Hr eq_refl)).
    destruct Hk; split; try done. cbn. lia. }
  destruct (decide _); [|by exists 0, k].
  destruct (selector_at_ok buf (pos + 2)) as [s ->]; [unfold zlen in Hfit; lia|]. rewrite bind_Ok.
  do 2 eexists. split; [done|]. split; [done|]. apply put_kde_inside; [done|]. cbn. lia.
Qed.

Lemma kde_loop_inside fuel buf pos k :
  bytes_ok buf → (pos ≤ length buf < fuel + pos)%nat → kdes_inside (zlen buf) k →
  ∃ r k', kde_loop fuel buf pos k = Ok (r, k') ∧ (r = 0 ∨ r = -1) ∧ kdes_inside (zlen buf) k'.
Proof.
  intros Hb. revert pos k. induction fuel as [|fuel IH]; intros pos k Hn Hk; [lia|]. cbn [kde_loop].
  destruct (decide _) as [Hp|]; [|do 2 eexists; split; [done|]; by split; [left|]]. unfold zlen in Hp.
  destruct (rd_lt buf pos) as (id & -> & _); [lia|]. rewrite bind_Ok.
  destruct (rd_lt buf (pos + 1)) as (len & -> & Hlen); [lia|]. rewrite bind_Ok.
  assert (is_u8 len) as Hl8 by (eapply (proj1 (list.Forall_lookup _ _)); [exact Hb|exact Hlen]). unfold is_u8 in Hl8.
  destruct (decide _); [do 2 eexists; split; [done|]; by split; [left|]|].
  destruct (decide (2 + len > _)) as [|Hfit]; [do 2 eexists; split; [done|]; by split; [right|]|].
  assert ((pos + Z.to_nat (2 + len) ≤ length buf < fuel + (pos + Z.to_nat (2 + len)))%nat) as Hn'
    by (unfold zlen in Hfit; lia).
  destruct (decide (id = WLAN_EID_RSN)).
  { apply IH; [done|]. destruct Hk. split; try done. cbn. lia. }
  destruct (decide _); [|by apply IH].
  destruct (parse_generic_inside buf pos len k Hlen) as (r & k' & -> & Hr & Hk'); [lia|lia|done|].
  rewrite bind_Ok. cbn [fst snd]. rewrite decide_False by lia.
  destruct (decide (0 < r)); [do 2 eexists; split; [done|]; by split; [left|]|]. by apply IH.
Qed.

(** ** KDEs written and read *)

(** A KDE that is none of the two elements with a place of their own, with data
    that fits its length octet *)
Definition kde_ok (x : Z * bytes) : Prop :=
  0 ≤ x.1 < 2 ^ 32 ∧ x.1 ≠ WPA_OUI_TYPE ∧ x.1 ≠ OSEN_IE_VENDOR_TYPE ∧ zlen x.2 ≤ 251.

Definition kdes_octets (l : list (Z * bytes)) : bytes := concat (map (λ x, wpa_add_kde x.1 x.2 None) l).

(** The last KDE of type [t] of the OUI 00-0F-AC with at least [min] octets of
    data: where its data is and what it is, when the first KDE starts at [pos] *)
Fixpoint kde_last (t min : Z) (pos : nat) (l : list (Z * bytes)) : option (nat * bytes) :=
  match l with
  | [] => None
  | x :: l =>
    match kde_last t min (pos + 6 + length x.2) l with
    | Some r => Some r
    | None => if decide (x.1 = 0x000fac00 + t ∧ min ≤ zlen x.2) then Some ((pos + 6)%nat, x.2) else None
    end
  end.

Definition kde_field (r : option (nat * bytes)) : field := (λ r, (r.1, zlen r.2)) <$> r.

(** What the parser reports for KDEs that start at [pos], over what it had *)
Definition kdes_over (pos : nat) (l : list (Z * bytes)) (k : wpa_eapol_ie_parse) : wpa_eapol_ie_parse :=
  let over t old := match kde_last t 3 pos l with Some r => Some (r.1, zlen r.2) | None => old end in
  mk_kde (k_wpa_ie k) (k_rsn_ie k)
    (match kde_last 4 16 pos l with Some r => Some r.1 | None => k_pmkid k end)
    (over 1 (k_gtk k)) (over 3 (k_mac_addr k)) (over 5 (k_smk k)) (over 6 (k_nonce k))
    (over 7 (k_lifetime k)) (over 8 (k_error k)) (over 9 (k_igtk k)) (k_osen k).

(** One KDE over what the parser had *)
Definition kde_step (pos : nat) (s : Z) (d : bytes) (k : wpa_eapol_ie_parse) : wpa_eapol_ie_parse :=
  if decide (s = RSN_KEY_DATA_PMKID ∧ 16 ≤ zlen d) then k <| k_pmkid := Some (pos + 6)%nat |>
  else if decide (2 < zlen d) then put_kde s (Some ((pos + 6)%nat, zlen d)) k
  else k.

Lemma kde_step_eq pos s d k :
  let over t old := if decide (s = 0x000fac00 + t ∧ 3 ≤ zlen d) then Some ((pos + 6)%nat, zlen d) else old in
  kde_step pos s d k =
    mk_kde (k_wpa_ie k) (k_rsn_ie k)
      (if decide (s = 0x000fac00 + 4 ∧ 16 ≤ zlen d) then Some (pos + 6)%nat else k_pmkid k)
      (over 1 (k_gtk k)) (over 3 (k_mac_addr k)) (over 5 (k_smk k)) (over 6 (k_nonce k))
      (over 7 (k_lifetime k)) (over 8 (k_error k)) (over 9 (k_igtk k)) (k_osen k).
Proof.
  cbn zeta. unfold kde_step.
  assert (∀ f, put_kde s f k =
    if decide (s = 0x000fac00 + 1) then k <| k_gtk := f |>
    else if decide (s = 0x000fac00 + 3) then k <| k_mac_addr := f |>
    else if decide (s = 0x000fac00 + 5) then k <| k_smk := f |>
    else if decide (s = 0x000fac00 + 6) then k <| k_nonce := f |>
    else if decide (s = 0x000fac00 + 7) then k <| k_lifetime := f |>
    else if decide (s = 0x000fac00 + 8) then k <| k_error := f |>
    else if decide (s = 0x000fac00 + 9) then k <| k_igtk := f |>
    else k) as Hput by done.
  rewrite Hput. clear Hput. change RSN_KEY_DATA_PMKID with (0x000fac00 + 4).
  assert (∀ t t', t ≠ t' → 0x000fac00 + t ≠ 0x000fac00 + t') as Hne by (intros; lia).
  assert (∀ (c : Z) (P : Prop), s ≠ c → ¬ (s = c ∧ P)) as Hno by tauto.
  assert (∀ t t' (P : Prop), t ≠ t' → ¬ (0x000fac00 + t = 0x000fac00 + t' ∧ P)) as Hno' by (intros; lia).
  destruct (decide (s = 0x000fac00 + 1)) as [->|H1];
    [|destruct (decide (s = 0x000fac00 + 3)) as [->|H3];
    [|destruct (decide (s = 0x000fac00 + 5)) as [->|H5];
    [|destruct (decide (s = 0x000fac00 + 6)) as [->|H6];
    [|destruct (decide (s = 0x000fac00 + 7)) as [->|H7];
    [|destruct (decide (s = 0x000fac00 + 8)) as [->|H8];
    [|destruct (decide (s = 0x000fac00 + 9)) as [->|H9]]]]]]].
  all: repeat first [rewrite (decide_False (P := (_ ∧ _))) by (first [by apply Hno'|by apply Hno])].
  all: repeat case_decide; try lia; by destruct k.
Qed.

Lemma kdes_over_cons pos x l k :
  kdes_over pos (x :: l) k = kdes_over (pos + 6 + length x.2) l (kde_step pos x.1 x.2 k).
Proof.
  rewrite kde_step_eq. unfold kdes_over. cbn zeta. cbn [kde_last].
  cbn [k_wpa_ie k_rsn_ie k_pmkid k_gtk k_mac_addr k_smk k_nonce k_lifetime k_error k_igtk k_osen].
  f_equal; (destruct (kde_last _ _ _ _) as [r|]; [done|]; by case_decide).
Qed.

(** Padding: nothing, or 0xdd and zeros *)
Definition padding_ok (p : bytes) : Prop := p = [] ∨ ∃ n, p = 0xdd :: replicate n 0.

Lemma add_kde_shape s d :
  zlen d ≤ 251 → wpa_add_kde s d None = [WLAN_EID_VENDOR_SPECIFIC; 4 + zlen d] ++ RSN_SELECTOR_PUT s ++ d.
Proof.
  intros Hd. unfold wpa_add_kde. cbn [default]. rewrite app_nil_r. unfold RSN_SELECTOR_LEN.
  rewrite u8_small; [|pose proof (zlen_nonneg d); unfold is_u8, zlen; cbn; unfold zlen in *; lia].
  change (zlen (@nil Z)) with 0. by rewrite Z.add_0_r.
Qed.

(** One KDE in the key data *)
Lemma generic_kde pre s d r k :
  kde_ok (s, d) →
  wpa_parse_generic (pre ++ wpa_add_kde s d None ++ r) (length pre) (length (pre ++ wpa_add_kde s d None ++ r)) k =
    Ok (0, kde_step (length pre) s d k).
Proof.
  intros (Hr & H1 & H2 & Hd). cbn [fst snd] in *. rewrite add_kde_shape by lia.
  set (buf := pre ++ _). unfold wpa_parse_generic. pose proof (zlen_nonneg d) as Hd0.
  assert (rd buf (length pre + 1) = Ok (4 + zlen d)) as ->.
  { unfold buf. rewrite rd_app_r. done. }
  rewrite bind_Ok, decide_False by lia.
  assert (selector_at buf (length pre + 2) = Ok s) as Hsel.
  { unfold selector_at, RSN_SELECTOR_GET, buf. rewrite <- drop_drop, drop_app_length.
    change (drop 2 (([WLAN_EID_VENDOR_SPECIFIC; ?x] ++ ?y) ++ r)) with (y ++ r). rewrite <- app_assoc.
    by apply get_put_be32. }
  assert (∀ b x, x ≠ s → selector_is buf (length pre) b x = Ok false) as Hno.
  { intros b x Hx. unfold selector_is. destruct b; [|done]. rewrite Hsel, bind_Ok.
    by rewrite bool_decide_eq_false_2 by congruence. }
  unfold is_wpa_ie. rewrite (Hno _ WPA_OUI_TYPE) by done. rewrite !bind_Ok. cbv iota beta.
  rewrite (Hno _ OSEN_IE_VENDOR_TYPE) by done. rewrite bind_Ok. cbv iota beta.
  assert (Z.of_nat (length buf) - Z.of_nat (length pre) = 6 + zlen d + zlen r) as Hend.
  { unfold buf, zlen. rewrite !length_app. change (length (RSN_SELECTOR_PUT s)) with 4%nat. cbn [length]. lia. }
  pose proof (zlen_nonneg r). unfold selector_is, RSN_SELECTOR_LEN, PMKID_LEN, kde_step. rewrite Hend.
  rewrite (bool_decide_eq_true_2 (1 + 4 < _)) by lia. cbn [andb]. rewrite Hsel.
  replace (4 + zlen d - 4) with (zlen d) by lia.
  assert ((if bool_decide (4 + 16 ≤ 4 + zlen d) then
             s' ← Ok s; Ok (bool_decide (s' = RSN_KEY_DATA_PMKID)) else Ok false) =
          Ok (bool_decide (s = RSN_KEY_DATA_PMKID ∧ 16 ≤ zlen d))) as ->.
  { rewrite bind_Ok. destruct (decide (16 ≤ zlen d)) as [Hl|Hl].
    - rewrite bool_decide_eq_true_2 by lia. f_equal. apply bool_decide_ext.
      split; [by split|by intros [? _]].
    - rewrite !bool_decide_eq_false_2 by lia. done. }
  rewrite bind_Ok. destruct (decide (s = RSN_KEY_DATA_PMKID ∧ 16 ≤ zlen d)) as [Hp|Hp];
    [by rewrite bool_decide_eq_true_2|rewrite bool_decide_eq_false_2 by done].
  destruct (decide (4 + 2 < 4 + zlen d)) as [Hl|Hl].
  - by rewrite bind_Ok, decide_True by lia.
  - by rewrite decide_False by lia.
Qed.

Lemma padding_end pre p k fuel :
  padding_ok p → kde_loop (S fuel) (pre ++ p) (length pre) k = Ok (0, k).
Proof.
  intros Hp. cbn [kde_loop]. destruct (decide _) as [Hl|]; [|done]. destruct Hp as [-> | [n ->]].
  - exfalso. rewrite app_nil_r in Hl. unfold zlen in Hl. lia.
  - replace (length pre) with (length pre + 0)%nat at 1 by lia. rewrite !rd_app_r.
    destruct n as [|n]; [exfalso; rewrite zlen_app in Hl; unfold zlen in Hl; cbn in Hl; lia|].
    cbn [replicate]. change (rd (?a :: ?b :: ?r) 0) with (Ok a). change (rd (?a :: ?b :: ?r) 1) with (Ok b).
    rewrite !bind_Ok. rewrite decide_True by (split; [done|by right]). done.
Qed.

Lemma kdes_loop l pre p k fuel :
  Forall kde_ok l → padding_ok p → (length l < fuel)%nat →
  kde_loop fuel (pre ++ kdes_octets l ++ p) (length pre) k = Ok (0, kdes_over (length pre) l k).
Proof.
  intros Hl Hp. revert pre k fuel. induction Hl as [|[s d] l Hs Hl IH]; intros pre k fuel Hf.
  - destruct fuel; [lia|]. cbn [kdes_octets map concat app]. rewrite padding_end by done. by destruct k.
  - destruct fuel as [|fuel]; [cbn in Hf; lia|].
    pose proof Hs as (_ & _ & _ & Hd). cbn [snd] in Hd. pose proof (zlen_nonneg d) as Hd0. unfold kdes_octets. cbn [map concat fst snd]. fold (kdes_octets l).
    rewrite <- app_assoc. set (r := kdes_octets l ++ p). cbn [kde_loop].
    pose proof (generic_kde pre s d r k Hs) as Hg.
    assert (zlen (wpa_add_kde s d None) = 6 + zlen d) as Hlen.
    { rewrite add_kde_shape by lia. rewrite !zlen_app. change (zlen (RSN_SELECTOR_PUT s)) with 4. change (zlen [_; _]) with 2. lia. }
    set (buf := pre ++ wpa_add_kde s d None ++ r) in *.
    assert (zlen buf = zlen pre + (6 + zlen d) + zlen r) as Hbuf by (unfold buf; rewrite !zlen_app; lia).
    pose proof (zlen_nonneg r) as Hr0. assert (Z.of_nat (length pre) = zlen pre) as Hpre by done.
    rewrite decide_True by lia.
    assert (rd buf (length pre) = Ok WLAN_EID_VENDOR_SPECIFIC ∧ rd buf (length pre + 1) = Ok (4 + zlen d)) as [-> ->].
    { unfold buf. rewrite add_kde_shape by lia. replace (length pre) with (length pre + 0)%nat at 1 by lia.
      by rewrite !rd_app_r. }
    rewrite !bind_Ok. destruct (decide (_ ∧ _)) as [Hend|_]; [lia|]. destruct (decide (2 + _ > _)) as [Hend|_]; [lia|].
    destruct (decide (WLAN_EID_VENDOR_SPECIFIC = WLAN_EID_RSN)) as [Hend|_]; [done|].
    destruct (decide (WLAN_EID_VENDOR_SPECIFIC = WLAN_EID_VENDOR_SPECIFIC)) as [_|?]; [|done].
    rewrite Hg, bind_Ok. cbn [fst snd]. rewrite !decide_False by lia.
    assert (length (pre ++ wpa_add_kde s d None) = (length pre + Z.to_nat (2 + (4 + zlen d)))%nat) as Hn.
    { rewrite length_app. unfold zlen in Hlen |- *. lia. }
    rewrite <- Hn. unfold buf, r. rewrite (app_assoc pre). rewrite IH by (cbn in Hf; lia).
    rewrite kdes_over_cons. cbn [fst snd]. do 3 f_equal. rewrite Hn. unfold zlen. lia.
Qed.

(** The data of a KDE is where the parser says. *)
Lemma kde_last_data t min l pre r pos d :
  Forall kde_ok l → kde_last t min (length pre) l = Some (pos, d) →
  slice (pre ++ kdes_octets l ++ r) pos (length d) = Ok d ∧ In (0x000fac00 + t, d) l ∧ min ≤ zlen d.
Proof.
  intros Hl. revert pre. induction Hl as [|[s e] l (_ & _ & _ & He) Hl IH]; intros pre; [done|].
  cbn [fst snd] in He. unfold kdes_octets. cbn [kde_last map concat fst snd]. fold (kdes_octets l).
  rewrite add_kde_shape by lia. set (k := _ ++ RSN_SELECTOR_PUT s ++ e).
  assert (length (pre ++ k) = (length pre + 6 + length e)%nat) as Hk.
  { unfold k. rewrite !length_app. change (length (RSN_SELECTOR_PUT s)) with 4%nat. cbn [length]. lia. }
  rewrite <- Hk. destruct (kde_last t min (length (pre ++ k)) l) as [[p' d']|] eqn:Hrest.
  - intros [= <- <-]. destruct (IH _ Hrest) as (H1 & H2 & H3).
    rewrite <- !app_assoc in H1. rewrite <- app_assoc. split; [done|]. split; [by right|done].
  - case_decide as Hc; [|done]. intros [= <- <-]. destruct Hc as [-> Hmin].
    split; [|split; [by left|done]].
    replace ((pre ++ (k ++ kdes_octets l) ++ r)) with
      ((pre ++ [WLAN_EID_VENDOR_SPECIFIC; 4 + zlen e] ++ RSN_SELECTOR_PUT (0x000fac00 + t)) ++ e ++ kdes_octets l ++ r)
      by (unfold k; by rewrite <- !app_assoc).
    replace (length pre + 6)%nat with (length (pre ++ [WLAN_EID_VENDOR_SPECIFIC; 4 + zlen e] ++
      RSN_SELECTOR_PUT (0x000fac00 + t))) by (rewrite !length_app; change (length (RSN_SELECTOR_PUT _)) with 4%nat; cbn [length]; lia).
    apply slice_mid.
Qed.

(** ** Negotiation *)

Lemma has_flag_land_inv a b f : has_flag (Z.land a b) f = true → has_flag a f = true ∧ has_flag b f = true.
Proof.
  unfold has_flag. rewrite !negb_true_iff, !Z.eqb_neq. intros Hn. split; intros H0; apply Hn.
  - by rewrite (Z.land_comm a), <- Z.land_assoc, H0, Z.land_0_r.
  - by rewrite <- Z.land_assoc, H0, Z.land_0_r.
Qed.

Lemma has_flag_false c f : has_flag c f = false → Z.land c f = 0.
Proof. unfold has_flag. by rewrite negb_false_iff, Z.eqb_eq. Qed.

Lemma pick_key_mgmt_spec k : k ≠ 0 → Z.land k RSN_ALLOWED_AKMS = k → has_flag k (pick_key_mgmt k) = true.
Proof.
  intros Hk Hall. unfold pick_key_mgmt. cbn [map first_flag].
  repeat match goal with |- context [if has_flag k ?f then _ else _] => destruct (has_flag k f) eqn:?; [done|] end.
  destruct (has_flag k WPA_KEY_MGMT_PSK) eqn:Hp; [done|]. exfalso. apply Hk. rewrite <- Hall.
  unfold RSN_ALLOWED_AKMS. rewrite !Z.land_lor_distr_r. by rewrite !has_flag_false.
Qed.

Lemma pick_pairwise_spec c :
  0 ≤ wpa_pick_pairwise_cipher c false → has_flag c (wpa_pick_pairwise_cipher c false) = true.
Proof.
  unfold wpa_pick_pairwise_cipher. cbn [andb].
  repeat match goal with |- context [if has_flag c ?f then _ else _] => destruct (has_flag c f) eqn:?; [done|] end. lia.
Qed.

(** What a station and the access point agreed on: both know the group cipher, and
    the key management and the pairwise cipher chosen are among those of both. A
    network that requires protected management frames gets them, with its cipher
    and without TKIP. *)
Record agreed (rsn : bool) (c : wpa_auth_config) (d : wpa_ie_data) (sm : wpa_sm) : Prop := {
  ag_group : group_cipher d = wpa_group c;
  ag_akm : has_flag (key_mgmt d) (sm_key_mgmt sm) = true ∧ has_flag (conf_key_mgmt c) (sm_key_mgmt sm) = true;
  ag_pairwise : has_flag (pairwise_cipher d) (sm_pairwise sm) = true ∧
    has_flag (if rsn then rsn_pairwise c else wpa_pairwise c) (sm_pairwise sm) = true;
  ag_mfp : mgmt_frame_prot sm = uses_mfp c d;
  ag_required : ieee80211w c = MGMT_FRAME_PROTECTION_REQUIRED →
    mgmt_frame_prot sm = true ∧ sm_pairwise sm ≠ WPA_CIPHER_TKIP ∧ mgmt_group_cipher d = group_mgmt_cipher c;
  ag_version : sm_wpa sm = if rsn then WPA_VERSION_WPA2 else WPA_VERSION_WPA }.

Lemma negotiate_spec rsn c d sm r sm' :
  Z.land (conf_key_mgmt c) RSN_ALLOWED_AKMS = conf_key_mgmt c → negotiate rsn c d sm = (r, sm') →
  sm_addr sm' = sm_addr sm ∧ sm_wpa_ie sm' = sm_wpa_ie sm ∧ sm_wpa_ie_len sm' = sm_wpa_ie_len sm ∧
  (r = WPA_IE_OK → agreed rsn c d sm').
Proof.
  intros Hc. unfold negotiate. destruct (decide (_ ≠ _)) as [|Hg]; [by intros [= <- <-]|]. cbv zeta.
  set (k := Z.land (key_mgmt d) (conf_key_mgmt c)). destruct (decide (k = 0)) as [|Hk]; [by intros [= <- <-]|].
  set (ciphers := Z.land (pairwise_cipher d) _). destruct (decide (ciphers = 0)); [by intros [= <- <-]|].
  assert (has_flag k (pick_key_mgmt k) = true) as Hpk.
  { apply pick_key_mgmt_spec; [done|]. unfold k. by rewrite <- Z.land_assoc, Hc. }
  destruct (check_mfp c d ciphers) as [e|] eqn:Hm; [intros [= <- <-]; split_and!; [done..|]|].
  { intros ->. exfalso. revert Hm. unfold check_mfp. by repeat case_match. }
  destruct (decide (_ < 0)) as [|Hp]; [by intros [= <- <-]|]. intros [= <- <-]. cbn [sm_pairwise setter] in Hp.
  split_and!; [done..|]. intros _. apply Z.nlt_ge in Hp. pose proof (pick_pairwise_spec _ Hp) as Hpp.
  split; cbn [sm_key_mgmt sm_pairwise mgmt_frame_prot sm_wpa setter]; [by destruct (decide (group_cipher d = wpa_group c))| | |done| |done].
  - by apply has_flag_land_inv.
  - by apply has_flag_land_inv.
  - intros Hr. unfold check_mfp in Hm. rewrite decide_True in Hm by done. unfold uses_mfp.
    rewrite Hr, bool_decide_eq_true_2 by done. destruct (has_flag (capabilities d) _); [|done].
    destruct (has_flag ciphers WPA_CIPHER_TKIP) eqn:Ht; [done|]. split; [done|]. split.
    + intros Heq. rewrite Heq in Hpp. congruence.
    + destruct (decide (mgmt_group_cipher d ≠ _)); [done|].
      by destruct (decide (mgmt_group_cipher d = group_mgmt_cipher c)).
Qed.

(** ** The copy of the element *)

(** The length is that of the element, or of a part of the memory. *)
Definition sm_ie_ok (sm : wpa_sm) : Prop := from_option (λ b, sm_wpa_ie_len sm ≤ zlen b) True (sm_wpa_ie sm).

Definition holds_ie (ie : bytes) (sm : wpa_sm) : Prop :=
  ∃ b, sm_wpa_ie sm = Some b ∧ take (length ie) b = ie ∧ sm_wpa_ie_len sm = zlen ie.

Lemma keep_ie_spec mem ie sm :
  sm_ie_ok sm →
  ∃ r sm', keep_ie mem ie sm = Ok (r, sm') ∧ sm_ie_ok sm' ∧ (r = WPA_IE_OK → holds_ie ie sm') ∧
    (mem = true → r = WPA_IE_OK) ∧
    sm_pmksa sm' = sm_pmksa sm ∧ (∀ rsn c d, agreed rsn c d sm → agreed rsn c d sm').
Proof.
  intros Hok. unfold keep_ie. destruct (match sm_wpa_ie sm with None => _ | _ => _ end) eqn:Hn.
  - destruct mem; (do 2 eexists; split; [done|]).
    + split; [cbn; lia|]. split; [intros _; exists ie; by rewrite firstn_all|]. split; [done|]. split; [done|].
      intros rsn c d []. by split.
    + split; [done|]. split; [done|]. split; [done|]. split; [done|]. intros rsn c d []. by split.
  - destruct (sm_wpa_ie sm) as [b|] eqn:Hb; [|done]. apply bool_decide_eq_false, Z.nlt_ge in Hn.
    unfold sm_ie_ok in Hok. rewrite Hb in Hok. cbn in Hok. unfold zlen in *.
    assert (write b 0 ie = Ok (ie ++ drop (length ie) b)) as -> by (unfold write; by rewrite decide_True by lia).
    rewrite bind_Ok. do 2 eexists. split; [done|].
    split; [unfold sm_ie_ok; cbn [sm_wpa_ie setter from_option sm_wpa_ie_len]; rewrite zlen_app; unfold zlen; lia|].
    split; [intros _; eexists; split; [done|]; split; [by rewrite take_app_length|done]|].
    split; [done|]. split; [done|]. intros rsn c d []. by split.
Qed.

Section validation.
Context {C : Crypto} {HC : CryptoOk C} (expire_handler cache_ptr : Z).

Lemma nth_pmkid_ok ids i : (i * 16 + 16 ≤ length ids)%nat → ∃ p, nth_pmkid ids i = Ok p ∧ length p = 16%nat.
Proof.
  intros Hl. unfold nth_pmkid. rewrite slice_ok by done. eexists. split; [done|].
  rewrite length_take, length_drop. lia.
Qed.

Lemma search_pmkids_ok {A} (found : bytes → option A) ids i n :
  ((i + n) * 16 ≤ length ids)%nat →
  ∃ r, search_pmkids found ids i n = Ok r ∧ ∀ x p, r = Some (x, p) → found p = Some x ∧ length p = 16%nat.
Proof.
  revert i. induction n as [|n IH]; intros i Hl; [by exists None|]. cbn [search_pmkids].
  destruct (nth_pmkid_ok ids i) as (p & -> & Hp); [lia|]. rewrite bind_Ok.
  destruct (found p) eqn:Hf; [|apply IH; lia]. eexists. split; [done|]. by intros x q [= <- <-].
Qed.

(** What holds around the call: the clock, a fresh address for a new entry, and no entry
    in the caches of the interfaces whose copy would make the timeout overflow *)
Definition val_env_ok (v : val_env) (a : wpa_authenticator) : Prop :=
  env_ok (v_env v) ∧ from_option (λ p, p ∉ ptrs (entries (auth_pmksa a))) True (v_entry v) ∧
  Forall (λ c, Forall (λ e, ¬ too_late (v_env v) e) (entries c)) (v_before v ++ auth_pmksa a :: v_after v).

Lemma okc_iter_spec caches aa sp p e :
  okc_iter caches aa sp p = Some e → spa e = sp ∧ ∃ c, c ∈ caches ∧ e ∈ entries c.
Proof.
  induction caches as [|c caches IH]; [done|]. cbn. destruct (pmksa_cache_get_okc c aa sp p) eqn:Hg.
  - intros [= <-]. apply find_in in Hg as [Hx Hm]. rewrite andb_true_iff, !bool_decide_eq_true in Hm.
    split; [apply Hm|]. exists c. split; [by left|done].
  - intros He. destruct (IH He) as (Hs & c' & Hc' & Hin). split; [done|]. exists c'. split; [by right|done].
Qed.

Lemma find_pmksa_spec v a sm ids n :
  reaches expire_handler cache_ptr (auth_pmksa a) → val_env_ok v a → (n * 16 ≤ length ids)%nat →
  ∃ e used a', find_pmksa expire_handler cache_ptr v a sm ids n = Ok (e, used, a') ∧
    reaches expire_handler cache_ptr (auth_pmksa a') ∧
    ∀ x, e = Some x → x ∈ entries (auth_pmksa a') ∧ spa x = sm_addr sm.
Proof.
  intros Hr (Hw & Hf & Hl) Hn. unfold find_pmksa.
  destruct (search_pmkids_ok (λ p, pmksa_cache_auth_get (auth_pmksa a) (Some (sm_addr sm)) (Some p)) ids 0 n)
    as (r & -> & Hr1); [lia|]. rewrite bind_Ok. pose proof (reaches_ok _ _ _ Hr) as Hc.
  destruct r as [[e p]|].
  { do 3 eexists. split; [done|]. split; [done|]. intros x [= <-]. destruct (Hr1 e p eq_refl) as [Hg _].
    pose proof (chain_get (auth_pmksa a) (Some (sm_addr sm)) p Hc) as Hx. rewrite Hg in Hx. by destruct Hx as (? & ? & _). }
  destruct (okc (conf a)); [|by do 3 eexists].
  destruct (search_pmkids_ok (okc_iter (v_before v ++ auth_pmksa a :: v_after v) (auth_addr a) (sm_addr sm)) ids 0 n)
    as (r & -> & Hr2); [lia|]. rewrite bind_Ok. destruct r as [[old p]|]; [|by do 3 eexists].
  destruct (Hr2 old p eq_refl) as [Hit Hp]. apply okc_iter_spec in Hit as (Hs & c & Hcin & Hold).
  assert (¬ too_late (v_env v) old) as Hlate.
  { pose proof (proj1 (Forall_forall _ _) Hl c Hcin) as Hlc. exact (proj1 (Forall_forall _ _) Hlc old Hold). }
  destruct (add_okc_spec expire_handler cache_ptr (v_env v) (v_copies v) (v_entry v) old (auth_addr a) p
              (auth_pmksa a) Hr) as (e & c' & -> & Hrc & He); [by split_and!|exact Hlate|].
  rewrite bind_Ok. do 3 eexists. split; [done|]. split; [done|]. cbn [fst snd]. intros x Hx.
  destruct (He x Hx) as (Hin & Hsp & _). split; [done|congruence].
Qed.

Lemma parse_ie_spec (rsn : bool) ie a :
  bytes_ok ie →
  ∃ res d a', parse_ie rsn ie a = Ok (res, d, a') ∧ reported_inside d ∧ conf a' = conf a ∧
    auth_pmksa a' = auth_pmksa a ∧
    (if rsn then wpa_parse_wpa_ie_rsn ie (zlen ie) else wpa_parse_wpa_ie_wpa ie (zlen ie)) = Ok (res, d).
Proof.
  intros Hb. destruct (parsers_inside ie Hb) as [(r1 & d1 & H1 & I1) (r2 & d2 & H2 & I2)].
  unfold parse_ie. destruct rsn.
  - rewrite H1, bind_Ok. do 3 eexists. split; [done|]. done.
  - rewrite H2, bind_Ok. do 3 eexists. split; [done|]. done.
Qed.

Lemma val_env_ok_ext v a a' : val_env_ok v a → auth_pmksa a' = auth_pmksa a → val_env_ok v a'.
Proof. unfold val_env_ok. by intros Hv ->. Qed.

Lemma validate_ie_spec v a sm ie :
  reaches expire_handler cache_ptr (auth_pmksa a) → val_env_ok v a → sm_ie_ok sm → bytes_ok ie → ie ≠ [] →
  Z.land (conf_key_mgmt (conf a)) RSN_ALLOWED_AKMS = conf_key_mgmt (conf a) →
  ∃ r a' sm', validate_ie expire_handler cache_ptr v a sm ie = Ok (r, a', sm') ∧
    reaches expire_handler cache_ptr (auth_pmksa a') ∧ sm_ie_ok sm' ∧
    (r = WPA_IE_OK → ∃ (rsn : bool) d,
       (if rsn then wpa_parse_wpa_ie_rsn ie (zlen ie) else wpa_parse_wpa_ie_wpa ie (zlen ie)) = Ok (0, d) ∧
       has_flag (conf_wpa (conf a)) (if rsn then WPA_PROTO_RSN else WPA_PROTO_WPA) = true ∧
       agreed rsn (conf a) d sm' ∧ holds_ie ie sm' ∧
       ∀ e, sm_pmksa sm' = Some e → e ∈ entries (auth_pmksa a') ∧ spa e = sm_addr sm).
Proof.
  intros Hr Hv Hok Hb Hne Hk. unfold validate_ie. destruct ie as [|id ie]; [done|].
  change (rd (id :: ie) 0) with (Ok id). rewrite bind_Ok. cbv zeta. set (rsn := bool_decide (id = WLAN_EID_RSN)).
  destruct (has_flag (conf_wpa (conf a)) _) eqn:Hproto; [|do 3 eexists; split; [done|]; by split_and!].
  destruct (parse_ie_spec rsn (id :: ie) a Hb) as (res & d & a1 & -> & Hins & Hconf & Hpm & Hparse). rewrite bind_Ok.
  destruct (decide (res ≠ 0)) as [|Hres]; [do 3 eexists; split; [done|]; rewrite Hpm; by split_and!|].
  rewrite Hconf. destruct (negotiate rsn (conf a) d sm) as [r sm1] eqn:Hneg.
  destruct (negotiate_spec _ _ _ _ _ _ Hk Hneg) as (Haddr & Hie & Hielen & Hag).
  assert (sm_ie_ok sm1) as Hok1 by (unfold sm_ie_ok; by rewrite Hie, Hielen).
  destruct r; try (do 3 eexists; split; [done|]; rewrite Hpm; by split_and!).
  destruct (find_pmksa_spec v a1 sm1 (default [] (pmkid d)) (Z.to_nat (num_pmkid d))) as (e & used & a2 & -> & Hr2 & He).
  { by rewrite Hpm. } { by eapply val_env_ok_ext. }
  { unfold reported_inside, pmkids_inside, PMKID_LEN in Hins. destruct (pmkid d) as [p|]; cbn; [unfold zlen in Hins; lia|].
    destruct Hins as [-> | ->]; cbn; lia. }
  rewrite bind_Ok. cbv zeta. set (a3 := note_pmkid e used a2).
  assert (auth_pmksa a3 = auth_pmksa a2) as Hpm3 by (unfold a3, note_pmkid; by destruct e, used).
  match goal with |- context [keep_ie _ _ ?s] => set (sm1' := s) end.
  destruct (keep_ie_spec (v_mem v) (id :: ie) sm1' Hok1) as (r & sm2 & -> & Hok2 & Hh & _ & Hp2 & Hag2).
  rewrite bind_Ok. do 3 eexists. split; [done|]. cbn [fst snd]. rewrite Hpm3. split_and!; [done|done|]. intros ->.
  exists rsn, d. assert (res = 0) as -> by lia. split_and!; [done|done| |by apply Hh|].
  - apply Hag2. destruct (Hag eq_refl). by split.
  - intros x Hx. rewrite Hp2 in Hx. cbn [sm_pmksa setter sm1'] in Hx. rewrite <- Haddr. by apply He.
Qed.

End validation.

(** ** Properties *)

(** C35. The element the access point writes is read back by the parsers of [WpaCommon]
    as what was configured: the group cipher, the pairwise ciphers and key management
    suites that have a selector, the capabilities, the PMKID and the cipher of
    management frames. When there is no element for the configuration, the writer
    reports an error. *)
Theorem wpa_ie_roundtrip (conf : wpa_auth_config) (len : Z) (pmkid_ : option bytes)
    (Hlen : 86 ≤ len) (Hp : from_option (λ p, zlen p = 16) True pmkid_) (Hg : group_ok conf) :
  match wpa_write_rsn_ie conf len pmkid_ with
  | Ok (Some ie) => ∃ ids,
      wpa_parse_wpa_ie_rsn ie (zlen ie) = Ok (0, rsn_found conf (if pmkid_ is None then 0 else 1) ids) ∧
      from_option (λ p, ∃ r, ids = Some (p ++ r)) True pmkid_
  | Ok None => rsn_valid conf = false
  | _ => False
  end ∧
  match wpa_write_wpa_ie conf len with
  | Ok (Some ie) => wpa_group conf = WPA_CIPHER_CCMP ∨ wpa_group conf = WPA_CIPHER_TKIP →
      wpa_parse_wpa_ie_wpa ie (zlen ie) = Ok (0, wpa_found conf)
  | Ok None => wpa_valid conf = false
  | _ => False
  end.
Proof.
  split.
  - rewrite write_rsn_eq by done. destruct (rsn_valid conf) eqn:Hv; [|done].
    destruct (mgmt_part_ok conf pmkid_ Hg) as [m Hm]. rewrite Hm. cbn [mbind option_bind]. cbv zeta.
    by apply rsn_parse_written.
  - rewrite write_wpa_eq by lia. destruct (wpa_valid conf) eqn:Hv; [|done]. intros Hw. by apply wpa_parse_written.
Qed.

(** C36. The element or elements of the access point are written to a buffer of 128
    octets on the stack without a check of the room in it; they take at most 104
    octets, whatever the configuration. They are the RSN and the WPA element one after
    the other, and an earlier element is kept when there is none to write. *)
Theorem wpa_auth_gen_wpa_ie_fits (mem : bool) (conf : wpa_auth_config) (o : own_ie) :
  wpa_auth_gen_wpa_ie mem conf o =
    Ok (match own_octets conf with
        | None => (-1, o)
        | Some ie => if mem then (0, mk_own_ie (Some ie) (zlen ie)) else (-1, mk_own_ie None (wpa_ie_len o))
        end) ∧
  from_option (λ ie, zlen ie ≤ 104) True (own_octets conf).
Proof.
  destruct (gen_buf_eq conf) as [Hg Hl]. split; [|done]. unfold wpa_auth_gen_wpa_ie. rewrite Hg, bind_Ok.
  destruct (own_octets conf); [|done]. by destruct mem.
Qed.

(** C37. The parser of the key data of EAPOL-Key frames stays inside any key data,
    whatever it contains, ends, and every pointer and length it reports is inside. *)
Theorem wpa_parse_kde_ies_inside (buf : bytes) (Hb : bytes_ok buf) :
  ∃ r k, wpa_parse_kde_ies buf = Ok (r, k) ∧ (r = 0 ∨ r = -1) ∧ kdes_inside (zlen buf) k.
Proof. apply kde_loop_inside; [done|lia|]. by split. Qed.

(** C38. KDEs written one after the other, with or without padding behind them, are
    found again: each field of the parser's result is the last KDE of its type of the
    OUI 00-0F-AC with enough data (1 GTK, 3 MAC address, 4 PMKID with 16 octets, 5 SMK,
    6 nonce, 7 lifetime, 8 error and 9 IGTK), KDEs of other types and short ones are passed over,
    and the octets at the reported place are the data that was written. *)
Theorem wpa_kdes_roundtrip (l : list (Z * bytes)) (p : bytes) (Hl : Forall kde_ok l) (Hp : padding_ok p) :
  wpa_parse_kde_ies (kdes_octets l ++ p) =
    Ok (0, {| k_wpa_ie := None; k_rsn_ie := None; k_osen := None;
              k_pmkid := fst <$> kde_last 4 16 0 l;
              k_gtk := kde_field (kde_last 1 3 0 l);
              k_mac_addr := kde_field (kde_last 3 3 0 l);
              k_smk := kde_field (kde_last 5 3 0 l);
              k_nonce := kde_field (kde_last 6 3 0 l);
              k_lifetime := kde_field (kde_last 7 3 0 l);
              k_error := kde_field (kde_last 8 3 0 l);
              k_igtk := kde_field (kde_last 9 3 0 l) |}) ∧
  ∀ t min pos d, kde_last t min 0 l = Some (pos, d) →
    slice (kdes_octets l ++ p) pos (length d) = Ok d ∧ In (0x000fac00 + t, d) l ∧ min ≤ zlen d.
Proof.
  split; [|intros t min pos d; apply (kde_last_data t min l [] p pos d Hl)].
  unfold wpa_parse_kde_ies. change (kde_loop ?f ?b 0 ?k) with (kde_loop f ([] ++ b) (length (@nil Z)) k).
  rewrite kdes_loop; [|done|done|].
  - unfold kdes_over, no_kdes. cbn. do 2 f_equal; f_equal; by destruct (kde_last _ _ _ _).
  - rewrite length_app. assert (length l ≤ length (kdes_octets l))%nat as Hle; [|lia].
    clear. unfold kdes_octets. induction l as [|x l IH]; [done|]. cbn [map concat length]. rewrite length_app.
    assert (1 ≤ length (wpa_add_kde x.1 x.2 None))%nat by (unfold wpa_add_kde; cbn [app length]; lia). lia.
Qed.

(** C39. The check of the element of an associating station is carried out within the
    element, whatever it contains. When it is accepted, the element is that of an
    enabled protocol, the ciphers and the key management chosen are among those of
    both sides, a required protection of management frames is in force, a copy of the
    element is kept, and a PMKSA entry that is chosen is one of the cache, for the
    address of the station. The cache stays consistent. (No entry may expire exactly
    [2 ^ 31 - 1] seconds ahead: copying it could overflow.) *)
Theorem wpa_validate_wpa_ie_sound {C : Crypto} {HC : CryptoOk C} (expire_handler cache_ptr : Z) (v : val_env)
    (a : wpa_authenticator) (sm : wpa_sm) (ie : bytes)
    (Hr : reaches expire_handler cache_ptr (auth_pmksa a)) (Hv : val_env_ok v a) (Hok : sm_ie_ok sm)
    (Hb : bytes_ok ie)
    (Hk : Z.land (conf_key_mgmt (conf a)) RSN_ALLOWED_AKMS = conf_key_mgmt (conf a)) :
  ∃ r a' sm', wpa_validate_wpa_ie expire_handler cache_ptr v (Some a) (Some sm) (Some ie) =
      Ok (r, Some a', Some sm') ∧
    reaches expire_handler cache_ptr (auth_pmksa a') ∧ sm_ie_ok sm' ∧
    (r = WPA_IE_OK → ∃ (rsn : bool) d,
       (if rsn then wpa_parse_wpa_ie_rsn ie (zlen ie) else wpa_parse_wpa_ie_wpa ie (zlen ie)) = Ok (0, d) ∧
       has_flag (conf_wpa (conf a)) (if rsn then WPA_PROTO_RSN else WPA_PROTO_WPA) = true ∧
       agreed rsn (conf a) d sm' ∧ holds_ie ie sm' ∧
       ∀ e, sm_pmksa sm' = Some e → e ∈ entries (auth_pmksa a') ∧ spa e = sm_addr sm).
Proof.
  destruct ie as [|x l]; [exists WPA_INVALID_IE, a, sm; split_and!; done|].
  destruct (validate_ie_spec expire_handler cache_ptr v a sm (x :: l)) as (r & a' & sm' & Hval & Hspec);
    [done..|]. exists r, a', sm'. split; [|exact Hspec]. cbn [wpa_validate_wpa_ie]. by rewrite Hval.
Qed.

(** ** A network with both protocols *)

Section example.

#[local] Existing Instances toy_crypto toy_crypto_ok.

Definition ex_conf : wpa_auth_config :=
  mk_conf 3 (Z.lor WPA_KEY_MGMT_PSK WPA_KEY_MGMT_PSK_SHA256) (Z.lor WPA_CIPHER_CCMP WPA_CIPHER_TKIP) WPA_CIPHER_TKIP
    600 false 86400 0 WPA_CIPHER_CCMP true 2 false true false true true
    MGMT_FRAME_PROTECTION_OPTIONAL WPA_CIPHER_BIP_GMAC_128 false.

Definition ex_ie : bytes := Eval vm_compute in
  match wpa_write_rsn_ie ex_conf 128 (Some (replicate 16 198)) with
  | Ok (Some ie) => ie
  | _ => []
  end.

Lemma wpa_ie_roundtrip_witness :
  ∃ ids, wpa_parse_wpa_ie_rsn ex_ie (zlen ex_ie) = Ok (0, rsn_found ex_conf 1 ids).
Proof.
  assert (from_option (λ p : bytes, zlen p = 16) True (Some (replicate 16 198))) as Hp by done.
  assert (group_ok ex_conf) as Hg by (split; [|intros _]; vm_compute; reflexivity).
  destruct (wpa_ie_roundtrip ex_conf 128 _ ltac:(lia) Hp Hg) as [Hr _].
  match type of Hr with match ?w with _ => _ end => assert (w = Ok (Some ex_ie)) as Hw by (vm_compute; reflexivity) end.
  rewrite Hw in Hr. destruct Hr as (ids & Hr & _). exists ids. exact Hr.
Defined.

Lemma wpa_parse_kde_ies_inside_witness :
  ∃ r k, wpa_parse_kde_ies [221; 8; 0; 15; 172; 1; 1; 0; 7] = Ok (r, k) ∧ (r = 0 ∨ r = -1) ∧ kdes_inside 9 k.
Proof.
  apply (wpa_parse_kde_ies_inside [221; 8; 0; 15; 172; 1; 1; 0; 7]).
  repeat (constructor; [split; [discriminate|reflexivity]|]). constructor.
Defined.

Lemma wpa_kdes_roundtrip_witness :
  wpa_parse_kde_ies (kdes_octets [(0x000fac01, [1; 0; 7; 8]); (0x000fac0a, [5]); (0x000fac09, [4; 0; 1])] ++ [221; 0]) =
    Ok (0, no_kdes <| k_gtk := Some (6%nat, 4) |> <| k_igtk := Some (23%nat, 3) |>).
Proof.
  apply (wpa_kdes_roundtrip [(0x000fac01, [1; 0; 7; 8]); (0x000fac0a, [5]); (0x000fac09, [4; 0; 1])] [221; 0]);
    [|right; by exists 1%nat].
  constructor; [|constructor; [|constructor; [|constructor]]]; vm_compute; repeat split; discriminate.
Defined.

Definition ex_auth : wpa_authenticator := mk_auth ex_conf [1; 2; 3; 4; 5; 6] ex_cache2 0 0 0 [].
Definition ex_sm : wpa_sm := mk_sm [2; 0; 0; 0; 0; 1] 0 0 false WPA_VERSION_NO_WPA None None 0.
Definition ex_val : val_env := mk_val_env (mk_pm_env (170, 0) None true) ex_copies (Some 48) [] [] true.

Lemma wpa_validate_wpa_ie_sound_witness :
  ∃ a' sm', wpa_validate_wpa_ie 1 2 ex_val (Some ex_auth) (Some ex_sm) (Some ex_ie) = Ok (WPA_IE_OK, Some a', Some sm') ∧
    sm_key_mgmt sm' = WPA_KEY_MGMT_PSK_SHA256 ∧ sm_pairwise sm' = WPA_CIPHER_CCMP ∧ mgmt_frame_prot sm' = true ∧
    (∃ e, sm_pmksa sm' = Some e ∧ spa e = [2; 0; 0; 0; 0; 1]) ∧ holds_ie ex_ie sm'.
Proof.
  destruct (wpa_validate_wpa_ie_sound 1 2 ex_val ex_auth ex_sm ex_ie ex_reaches2)
    as (r & a' & sm' & Hv & _ & _ & Hs).
  - split; [done|]. split.
    + cbn. by intros [?|[?|?%elem_of_nil]%elem_of_cons]%elem_of_cons.
    + repeat (constructor; [repeat (constructor; [by vm_compute|]); constructor|]). constructor.
  - exact I.
  - repeat (constructor; [split; [discriminate|reflexivity]|]). constructor.
  - reflexivity.
  - assert (wpa_validate_wpa_ie 1 2 ex_val (Some ex_auth) (Some ex_sm) (Some ex_ie) = Ok (r, Some a', Some sm')) as Hc by exact Hv.
    vm_compute in Hc. injection Hc as Hr Ha Hsm. assert (r = WPA_IE_OK) as -> by (symmetry; exact Hr).
    destruct (Hs eq_refl) as (rsn & d & _ & _ & _ & Hh & He). exists a', sm'. split; [exact Hv|].
    rewrite <- Hsm in He |- *. split; [reflexivity|]. split; [reflexivity|]. split; [reflexivity|].
    split; [eexists; split; [reflexivity|reflexivity]|]. rewrite Hsm. exact Hh.
Defined.

End example.
