(* ===== verification/WpaSm.v ===== *)
(** * WPA authenticator: the state machines of a station

    [src/ap/wpa_auth.c] and [wpa_auth_i.h], the part that works on one station and
    its group: the EAPOL-Key frames sent and checked, the keys, and the states and
    steps of the machines [WPA_PTK] and [WPA_PTK_GROUP]. [WpaAuth] has the rest:
    reception, the group machine and what goes from one station to others.

    An operation is a function of the state that can be undefined ([S_M]); the
    callbacks and the system answer through [Wpa_env], and what is sent, installed,
    reported and registered is the log [out], newest first. The debug log is left
    out. Fast transition, P2P, WNM, mesh and the testing options are compiled out. *)

From Stdlib Require Import ZArith Lia Strings.String.
From stdpp Require Import base option list numbers decidable.
From S2P Require Import Prelude CLib Common Ieee8021x WpaCommon WpaKeys Pmksa WpaIe.
Local Open Scope Z_scope.

(** ** Constants *)

Definition WPA_REPLAY_COUNTER_LEN : nat := 8.
Definition WPA_NONCE_LEN : nat := 32.
Definition WPA_KEY_RSC_LEN : nat := 8.
Definition WPA_GMK_LEN : nat := 32.
Definition WPA_GTK_MAX_LEN : nat := 32.
Definition WPA_IGTK_MAX_LEN : nat := 32.
Definition WPA_IGTK_KDE_PREFIX_LEN : Z := 8.
Definition RSNA_MAX_EAPOL_RETRIES : nat := 4.
Definition PMK_LEN : nat := 32.
Definition PMK_LEN_SUITE_B_192 : nat := 48.

Definition dot11RSNAConfigGroupUpdateCount : Z := 4.
Definition dot11RSNAConfigPairwiseUpdateCount : Z := 4.
Definition eapol_key_timeout_first : Z := 100.
Definition eapol_key_timeout_subseq : Z := 1000.
Definition eapol_key_timeout_first_group : Z := 500.

Definition WPA_KEY_INFO_TYPE_MASK : Z := 7.
Definition WPA_KEY_INFO_KEY_TYPE := BIT 3.
Definition WPA_KEY_INFO_KEY_INDEX_SHIFT : Z := 4.
Definition WPA_KEY_INFO_INSTALL := BIT 6.
Definition WPA_KEY_INFO_ACK := BIT 7.
Definition WPA_KEY_INFO_MIC := BIT 8.
Definition WPA_KEY_INFO_SECURE := BIT 9.
Definition WPA_KEY_INFO_ERROR := BIT 10.
Definition WPA_KEY_INFO_REQUEST := BIT 11.
Definition WPA_KEY_INFO_ENCR_KEY_DATA := BIT 12.
Definition WPA_KEY_INFO_SMK_MESSAGE := BIT 13.

Definition wpa_key_mgmt_wpa_ieee8021x (akm : Z) : bool :=
  has_flag akm (Z.lor (Z.lor (Z.lor (Z.lor (Z.lor (Z.lor WPA_KEY_MGMT_IEEE8021X WPA_KEY_MGMT_FT_IEEE8021X)
    WPA_KEY_MGMT_CCKM) WPA_KEY_MGMT_OSEN) WPA_KEY_MGMT_IEEE8021X_SHA256)
    WPA_KEY_MGMT_IEEE8021X_SUITE_B) WPA_KEY_MGMT_IEEE8021X_SUITE_B_192).

Definition wpa_key_mgmt_wpa_psk (akm : Z) : bool :=
  has_flag akm (Z.lor (Z.lor (Z.lor (Z.lor WPA_KEY_MGMT_PSK WPA_KEY_MGMT_FT_PSK) WPA_KEY_MGMT_PSK_SHA256)
    WPA_KEY_MGMT_SAE) WPA_KEY_MGMT_FT_SAE).

(** ** State *)

Inductive ptk_state : Set :=
| WPA_PTK_INITIALIZE | WPA_PTK_DISCONNECT | WPA_PTK_DISCONNECTED | WPA_PTK_AUTHENTICATION
| WPA_PTK_AUTHENTICATION2 | WPA_PTK_INITPMK | WPA_PTK_INITPSK | WPA_PTK_PTKSTART
| WPA_PTK_PTKCALCNEGOTIATING | WPA_PTK_PTKCALCNEGOTIATING2 | WPA_PTK_PTKINITNEGOTIATING | WPA_PTK_PTKINITDONE.

Inductive ptk_group_state : Set :=
| WPA_PTK_GROUP_IDLE | WPA_PTK_GROUP_REKEYNEGOTIATING | WPA_PTK_GROUP_REKEYESTABLISHED | WPA_PTK_GROUP_KEYERROR.

Inductive group_state : Set :=
| WPA_GROUP_GTK_INIT | WPA_GROUP_SETKEYS | WPA_GROUP_SETKEYSDONE | WPA_GROUP_FATAL_FAILURE.

#[export] Instance ptk_state_eq_dec : EqDecision ptk_state.
Proof. solve_decision. Defined.
#[export] Instance ptk_group_state_eq_dec : EqDecision ptk_group_state.
Proof. solve_decision. Defined.
#[export] Instance group_state_eq_dec : EqDecision group_state.
Proof. solve_decision. Defined.
#[export] Instance wpa_version_eq_dec : EqDecision wpa_version.
Proof. solve_decision. Defined.

Record wpa_key_replay_counter := mk_replay { counter : bytes; valid : bool }.

(** [struct wpa_state_machine]: [assoc] has the fields that [WpaIe] negotiates,
    [group] is the address of the group, [sm_ptr] that of the machine. The arrays
    have their full size; [last_rx_eapol_key] has its length. *)
Record wpa_state_machine := mk_wpa_state_machine {
  sm_ptr : Z;
  assoc : wpa_sm;
  group : Z;
  wpa_ptk_state : ptk_state;
  wpa_ptk_group_state : ptk_group_state;
  Init : bool;
  DeauthenticationRequest : bool;
  AuthenticationRequest : bool;
  ReAuthenticationRequest : bool;
  Disconnect : bool;
  TimeoutCtr : Z;
  GTimeoutCtr : Z;
  TimeoutEvt : bool;
  EAPOLKeyReceived : bool;
  EAPOLKeyPairwise : bool;
  EAPOLKeyRequest : bool;
  MICVerified : bool;
  GUpdateStationKeys : bool;
  ANonce : bytes;
  SNonce : bytes;
  alt_SNonce : bytes;
  alt_replay_counter : bytes;
  PMK : bytes;
  pmk_len : Z;
  PTK : wpa_ptk;
  PTK_valid : bool;
  pairwise_set : bool;
  keycount : Z;
  Pair : bool;
  key_replay : list wpa_key_replay_counter;
  prev_key_replay : list wpa_key_replay_counter;
  PInitAKeys : bool;
  PTKRequest : bool;
  has_GTK : bool;
  PtkGroupInit : bool;
  last_rx_eapol_key : option bytes;
  sm_changed : bool;
  in_step_loop : bool;
  pending_deinit : bool;
  started : bool;
  rx_eapol_key_secure : bool;
  update_snonce : bool;
  alt_snonce_valid : bool;
  req_replay_counter : bytes;
  req_replay_counter_used : bool;
  dot11RSNAStatsTKIPRemoteMICFailures : Z;
  pending_1_of_4_timeout : bool }.

#[export] Instance wpa_state_machine_eta : Eta wpa_state_machine := λ m, mk_wpa_state_machine
  (sm_ptr m) (assoc m) (group m) (wpa_ptk_state m) (wpa_ptk_group_state m) (Init m) (DeauthenticationRequest m)
  (AuthenticationRequest m) (ReAuthenticationRequest m) (Disconnect m) (TimeoutCtr m) (GTimeoutCtr m)
  (TimeoutEvt m) (EAPOLKeyReceived m) (EAPOLKeyPairwise m) (EAPOLKeyRequest m) (MICVerified m)
  (GUpdateStationKeys m) (ANonce m) (SNonce m) (alt_SNonce m) (alt_replay_counter m) (PMK m) (pmk_len m) (PTK m)
  (PTK_valid m) (pairwise_set m) (keycount m) (Pair m) (key_replay m) (prev_key_replay m) (PInitAKeys m)
  (PTKRequest m) (has_GTK m) (PtkGroupInit m) (last_rx_eapol_key m) (sm_changed m) (in_step_loop m)
  (pending_deinit m) (started m) (rx_eapol_key_secure m) (update_snonce m) (alt_snonce_valid m)
  (req_replay_counter m) (req_replay_counter_used m) (dot11RSNAStatsTKIPRemoteMICFailures m)
  (pending_1_of_4_timeout m).

(** [struct wpa_group]; [g_ptr] is its address. *)
Record wpa_group := mk_wpa_group {
  g_ptr : Z;
  vlan_id : Z;
  GInit : bool;
  GKeyDoneStations : Z;
  GTKReKey : bool;
  GTK_len : Z;
  GN : Z;
  GM : Z;
  GTKAuthenticator : bool;
  Counter : bytes;
  wpa_group_state : group_state;
  GMK : bytes;
  GTK : list bytes;
  GNonce : bytes;
  g_changed : bool;
  first_sta_seen : bool;
  reject_4way_hs_for_entropy : bool;
  IGTK : list bytes;
  GN_igtk : Z;
  GM_igtk : Z;
  references : Z;
  num_setup_iface : Z }.

#[export] Instance wpa_group_eta : Eta wpa_group := λ g, mk_wpa_group (g_ptr g) (vlan_id g) (GInit g)
  (GKeyDoneStations g) (GTKReKey g) (GTK_len g) (GN g) (GM g) (GTKAuthenticator g) (Counter g) (wpa_group_state g)
  (GMK g) (GTK g) (GNonce g) (g_changed g) (first_sta_seen g) (reject_4way_hs_for_entropy g) (IGTK g) (GN_igtk g)
  (GM_igtk g) (references g) (num_setup_iface g).

(** ** The outside *)

(** The timeouts of a station and of the authenticator *)
Inductive wpa_timer : Set :=
| wpa_send_eapol_timeout (sm : Z)
| wpa_sm_call_step (sm : Z)
| wpa_rekey_ptk (sm : Z)
| wpa_rekey_gtk
| wpa_rekey_gmk.

Inductive wpa_event : Set :=
| WPA_AUTH | WPA_ASSOC | WPA_DISASSOC | WPA_DEAUTH | WPA_REAUTH | WPA_REAUTH_EAPOL | WPA_ASSOC_FT.

#[export] Instance wpa_event_eq_dec : EqDecision wpa_event.
Proof. solve_decision. Defined.

(** What is done to the outside, with the address of the station or group;
    [Set_authorized] is [set_eapol] with [WPA_EAPOL_authorized]. *)
Inductive wpa_effect : Type :=
| Set_eapol (addr : bytes) (var : wpa_eapol_variable) (value : bool)
| Set_authorized (addr : bytes) (value : bool)
| Set_key (vlan_id : Z) (alg : wpa_alg) (addr : bytes) (idx : Z) (key : bytes)
| Send_eapol (addr : bytes) (data : bytes) (encrypt : bool)
| Disconnect_sta (addr : bytes)
| Psk_failure_report (addr : bytes)
| Mic_failure_report (addr : bytes)
| Register_timeout (t : wpa_timer) (secs usecs : Z)
| Cancel_timeout (t : wpa_timer)
| Mark_pool_ready
| Free_sm (sm : Z)
| Free_group (g : Z).

(** What the outside answers; the first argument numbers the questions. A buffer
    comes with the result. The MSK and the PSKs of a station go by its address; the
    PSKs are the list that [get_psk] goes through, which does not change while it is
    gone through. *)
Class Wpa_env : Type := {
  env_random : nat → nat → Z * bytes;
  env_pool_ready : nat → Z;
  env_ntp_timestamp : nat → bytes;
  env_seqnum : nat → Z → Z * bytes;
  env_eapol : nat → wpa_eapol_variable → Z;
  env_psks : nat → bytes → list bytes;
  env_msk : nat → bytes → option bytes;
  env_set_key : nat → Z;
  env_mic_failure : nat → Z;
  env_mem : nat → bool }.

(** Buffers are filled to their length, also when the call fails. *)
Class Wpa_envOk (E : Wpa_env) : Prop := {
  env_random_len : ∀ i n, length (env_random i n).2 = n;
  env_ntp_len : ∀ i, length (env_ntp_timestamp i) = 8%nat;
  env_seqnum_len : ∀ i x, length (env_seqnum i x).2 = WPA_KEY_RSC_LEN;
  env_psks_len : ∀ i addr, Forall (λ p, length p = PMK_LEN) (env_psks i addr);
  env_msk_len : ∀ i addr m, env_msk i addr = Some m → (length m ≤ 2 * PMK_LEN)%nat }.

(** ** Operations on a state *)

Definition S_M (S A : Type) : Type := S → outcome (A * S).

#[export] Instance sm_ret {S} : MRet (S_M S) := λ A a s, Ok (a, s).
#[export] Instance sm_bind {S} : MBind (S_M S) := λ A B f m s, r ← m s; f r.1 r.2.

(** A group *)
Record grp := mk_grp { gsm : wpa_group; g_calls : nat; g_out : list wpa_effect }.
#[export] Instance grp_eta : Eta grp := λ s, mk_grp (gsm s) (g_calls s) (g_out s).

(** A station, its group and [dot11RSNA4WayHandshakeFailures] of the authenticator *)
Record sta := mk_sta { sm : wpa_state_machine; grp_of : grp; failures : Z }.
#[export] Instance sta_eta : Eta sta := λ s, mk_sta (sm s) (grp_of s) (failures s).

Abbreviation G := (S_M grp).
Abbreviation M := (S_M sta).

Definition lift_outcome {S A} (o : outcome A) : S_M S A := λ s, a ← o; Ok (a, s).

Definition g_get {A} (f : wpa_group → A) : G A := λ s, Ok (f (gsm s), s).
Definition g_upd (f : wpa_group → wpa_group) : G unit := λ s, Ok (tt, s <| gsm := f (gsm s) |>).
Definition g_emit (e : wpa_effect) : G unit := λ s, Ok (tt, s <| g_out := e :: g_out s |>).
Definition g_ask {A} (f : nat → A) : G A := λ s, Ok (f (g_calls s), s <| g_calls := S (g_calls s) |>).

Definition on_group {A} (m : G A) : M A := λ s, r ← m (grp_of s); Ok (r.1, s <| grp_of := r.2 |>).
Definition get {A} (f : wpa_state_machine → A) : M A := λ s, Ok (f (sm s), s).
Definition upd (f : wpa_state_machine → wpa_state_machine) : M unit := λ s, Ok (tt, s <| sm := f (sm s) |>).
Definition emit (e : wpa_effect) : M unit := on_group (g_emit e).
Definition ask {A} (f : nat → A) : M A := on_group (g_ask f).
Definition gget {A} (f : wpa_group → A) : M A := on_group (g_get f).

Definition when {S} (b : bool) (m : S_M S unit) : S_M S unit := if b then m else mret tt.

(** An element of an array *)
Definition elem {A} (l : list A) (i : Z) : outcome A :=
  if decide (0 ≤ i) then match l !! Z.to_nat i with Some x => Ok x | None => Undef OutOfBounds end
  else Undef OutOfBounds.

(** Signed counters *)
Definition inc_int (z : Z) : outcome Z := if decide (z < 2 ^ 31 - 1) then Ok (z + 1) else Undef Overflow.
Definition dec_int (z : Z) : outcome Z := if decide (- 2 ^ 31 < z) then Ok (z - 1) else Undef Overflow.

Section wpa.
Context {C : Crypto} {E : Wpa_env} (a : wpa_authenticator) (own : own_ie).

(** ** Calling the outside *)

Definition wpa_auth_set_key (vlan : Z) (alg : wpa_alg) (addr : bytes) (idx : Z) (key : bytes) : G Z :=
  g_emit (Set_key vlan alg addr idx key);; g_ask env_set_key.

Definition wpa_auth_set_eapol (var : wpa_eapol_variable) (value : bool) : M unit :=
  addr ← get (sm_addr ∘ assoc); emit (Set_eapol addr var value).

Definition wpa_auth_set_authorized (value : bool) : M unit :=
  addr ← get (sm_addr ∘ assoc); emit (Set_authorized addr value).

Definition wpa_auth_get_eapol (var : wpa_eapol_variable) : M Z := ask (λ i, env_eapol i var).

Definition register_timeout (t : wpa_timer) (secs usecs : Z) : M unit := emit (Register_timeout t secs usecs).
Definition cancel_timeout (t : wpa_timer) : M unit := emit (Cancel_timeout t).
Definition this_timer (t : Z → wpa_timer) : M wpa_timer := p ← get sm_ptr; mret (t p).

(** ** The keys of a group *)

Definition ptr_octets (p : Z) : bytes := WPA_PUT_LE32 p ++ WPA_PUT_LE32 (Z.shiftr p 32).

Definition wpa_group_init_gmk_and_counter : G Z :=
  r ← g_ask (λ i, env_random i WPA_GMK_LEN);
  g_upd (λ g, g <| GMK := snd r |>);;
  if decide (fst r < 0) then mret (-1) else
  time ← g_ask env_ntp_timestamp;
  p ← g_get g_ptr;
  rkey ← g_ask (λ i, env_random i 32);
  if decide (fst rkey < 0) then mret (-1) else
  old ← g_get Counter;
  let prf := sha1_prf (snd rkey) (lit "Init Counter") (auth_addr a ++ time ++ ptr_octets p) (Z.of_nat WPA_NONCE_LEN) in
  new ← lift_outcome (write old 0 prf.2);
  g_upd (λ g, g <| Counter := new |>);;
  mret (if decide (prf.1 < 0) then -1 else 0).

(** The result and the array that held the key *)
Definition wpa_gmk_to_gtk (label gtk : bytes) (gtk_len : Z) : G (Z * bytes) :=
  gmk ← g_get GMK;
  gnonce ← g_get GNonce;
  time ← g_ask env_ntp_timestamp;
  r ← g_ask (λ i, env_random i 16);
  let out := (sha256_prf gmk label (auth_addr a ++ gnonce ++ time ++ r.2) gtk_len).2 in
  gtk ← lift_outcome (write gtk 0 out);
  mret (if decide (r.1 < 0) then -1 else 0, gtk).

(** A new nonce for the group *)
Definition next_gnonce : G unit :=
  c ← g_get Counter;
  g_upd (λ g, g <| GNonce := c |> <| Counter := inc_byte_array c |>).

Definition wpa_gtk_update : G Z :=
  next_gnonce;;
  gn ← g_get GN;
  keys ← g_get GTK;
  gtk ← lift_outcome (elem keys (gn - 1));
  len ← g_get GTK_len;
  r ← wpa_gmk_to_gtk (lit "Group key expansion") gtk len;
  g_upd (λ g, g <| GTK := <[Z.to_nat (gn - 1) := r.2]> keys |>);;
  if decide (ieee80211w (conf a) = NO_MGMT_FRAME_PROTECTION) then mret r.1 else
  next_gnonce;;
  gn ← g_get GN_igtk;
  keys ← g_get IGTK;
  igtk ← lift_outcome (elem keys (gn - 4));
  r' ← wpa_gmk_to_gtk (lit "IGTK key expansion") igtk (wpa_cipher_key_len (group_mgmt_cipher (conf a)));
  g_upd (λ g, g <| IGTK := <[Z.to_nat (gn - 4) := r'.2]> keys |>);;
  mret (if decide (r'.1 < 0) then -1 else r.1).

Definition broadcast_ether_addr : bytes := replicate ETH_ALEN 255.

(** One of the two keys of an array, with its length *)
Definition group_key (keys : list bytes) (i len : Z) : outcome bytes :=
  key ← elem keys i; slice key 0 (Z.to_nat len).

Definition wpa_group_config_group_keys : G Z :=
  g ← g_get id;
  key ← lift_outcome (group_key (GTK g) (GN g - 1) (GTK_len g));
  r ← wpa_auth_set_key (vlan_id g) (wpa_cipher_to_alg (WpaIe.wpa_group (conf a))) broadcast_ether_addr (GN g) key;
  if decide (r < 0) then mret (-1) else
  if decide (ieee80211w (conf a) = NO_MGMT_FRAME_PROTECTION) then mret 0 else
  let cipher := group_mgmt_cipher (conf a) in
  key ← lift_outcome (group_key (IGTK g) (GN_igtk g - 4) (wpa_cipher_key_len cipher));
  r ← wpa_auth_set_key (vlan_id g) (wpa_cipher_to_alg cipher) broadcast_ether_addr (GN_igtk g) key;
  mret (if decide (r < 0) then -1 else 0).

Definition wpa_group_ensure_init : G unit :=
  seen ← g_get first_sta_seen;
  if (seen : bool) then mret tt else
  ready ← g_ask env_pool_ready;
  (if decide (ready = 1) then g_upd (λ g, g <| first_sta_seen := true |> <| reject_4way_hs_for_entropy := false |>)
   else g_upd (λ g, g <| reject_4way_hs_for_entropy := true |>));;
  r ← wpa_group_init_gmk_and_counter;
  r ← (if decide (r < 0) then mret r else wpa_gtk_update);
  r ← (if decide (r < 0) then mret r else wpa_group_config_group_keys);
  when (bool_decide (r < 0))
    (g_upd (λ g, g <| first_sta_seen := false |> <| reject_4way_hs_for_entropy := true |>)).

(** ** Replay counters *)

Definition wpa_replay_counter_valid (ctr : list wpa_key_replay_counter) (replay_counter : bytes) : bool :=
  (fix go (l : list wpa_key_replay_counter) : bool :=
     match l with
     | [] => false
     | c :: l => if valid c then bool_decide (replay_counter = counter c) || go l else false
     end) ctr.

(** [None] is the null pointer, which marks all of them. *)
Definition wpa_replay_counter_mark_invalid (ctr : list wpa_key_replay_counter) (replay_counter : option bytes) :
    list wpa_key_replay_counter :=
  map (λ c, if valid c && from_option (λ r, bool_decide (r = counter c)) true replay_counter
            then mk_replay (counter c) false else c) ctr.

(** The counter of the next frame: the others move up. *)
Definition next_replay (l : list wpa_key_replay_counter) : list wpa_key_replay_counter :=
  match l with
  | c :: _ => mk_replay (inc_byte_array (counter c)) true :: take (RSNA_MAX_EAPOL_RETRIES - 1) l
  | [] => []
  end.

(** ** EAPOL-Key frames *)

Definition wpa_use_aes_cmac (m : wpa_state_machine) : bool :=
  let akm := sm_key_mgmt (assoc m) in
  wpa_key_mgmt_sha256 akm || bool_decide (akm = WPA_KEY_MGMT_OSEN).

Definition EAPOL_KEY_TYPE_RSN : Z := 2.
Definition EAPOL_KEY_TYPE_WPA : Z := 254.
Definition IEEE802_1X_TYPE_EAPOL_KEY : Z := 3.
Definition sizeof_ieee802_1x_hdr : Z := 4.
Definition sizeof_wpa_eapol_key : Z := 95.
Definition sizeof_wpa_eapol_key_192 : Z := 103.
(** Where the fields are, from the start of the frame *)
Definition key_info_at : nat := 5.
Definition replay_counter_at : nat := 9.
Definition key_nonce_at : nat := 17.
Definition key_mic_at : nat := 81.

Definition keyhdrlen (akmp : Z) : Z :=
  if decide (wpa_mic_len akmp = 24) then sizeof_wpa_eapol_key_192 else sizeof_wpa_eapol_key.

(** The result is 0 or -1; the frame is as before when it returns. *)
Definition wpa_verify_key_mic (akmp : Z) (ptk : wpa_ptk) (data : bytes) : outcome Z :=
  let mic_len := Z.to_nat (wpa_mic_len akmp) in
  if decide (zlen data < sizeof_ieee802_1x_hdr + sizeof_wpa_eapol_key) then Ok (-1) else
  key_info ← WPA_GET_BE16 (drop key_info_at data);
  mic ← slice data key_mic_at mic_len;
  zeroed ← write data key_mic_at (replicate mic_len 0);
  match wpa_eapol_key_mic (kck ptk) (kck_len ptk) (Z.land key_info WPA_KEY_INFO_TYPE_MASK) zeroed with
  | None => Ok (-1)
  | Some h => if decide (mic = overlay h (replicate mic_len 0)) then Ok 0 else Ok (-1)
  end.

(** The version of the descriptor *)
Definition key_version (m : wpa_state_machine) (force_version : Z) : Z :=
  let akm := sm_key_mgmt (assoc m) in
  if decide (force_version ≠ 0) then force_version
  else if bool_decide (akm = WPA_KEY_MGMT_OSEN) || wpa_key_mgmt_suite_b akm then WPA_KEY_INFO_TYPE_AKM_DEFINED
  else if wpa_use_aes_cmac m then WPA_KEY_INFO_TYPE_AES_128_CMAC
  else if decide (sm_pairwise (assoc m) ≠ WPA_CIPHER_TKIP) then WPA_KEY_INFO_TYPE_HMAC_SHA1_AES
  else WPA_KEY_INFO_TYPE_HMAC_MD5_RC4.

(** Whether key data is encrypted with AES key wrap *)
Definition wraps_keys (m : wpa_state_machine) (version : Z) : bool :=
  let akm := sm_key_mgmt (assoc m) in
  bool_decide (version = WPA_KEY_INFO_TYPE_HMAC_SHA1_AES) || bool_decide (akm = WPA_KEY_MGMT_OSEN) ||
  wpa_key_mgmt_suite_b akm || bool_decide (version = WPA_KEY_INFO_TYPE_AES_128_CMAC).

Definition pad_len (kde_len : Z) : Z := if decide (kde_len mod 8 = 0) then 0 else 8 - kde_len mod 8.

Definition eapol_key_info (m : wpa_state_machine) (key_info version keyidx : Z) (encr : bool) : Z :=
  let key_info := Z.lor key_info version in
  if decide (sm_wpa (assoc m) = WPA_VERSION_WPA2) then
    if encr then Z.lor key_info WPA_KEY_INFO_ENCR_KEY_DATA else key_info
  else Z.lor key_info (Z.shiftl keyidx WPA_KEY_INFO_KEY_INDEX_SHIFT).

(** The frame up to the MIC *)
Definition eapol_key_head (m : wpa_state_machine) (len key_info key_length : Z) (replay nonce iv rsc : bytes) : bytes :=
  [u8 (eapol_version (conf a)); IEEE802_1X_TYPE_EAPOL_KEY] ++ WPA_PUT_BE16 (len - sizeof_ieee802_1x_hdr) ++
  [if decide (sm_wpa (assoc m) = WPA_VERSION_WPA2) then EAPOL_KEY_TYPE_RSN else EAPOL_KEY_TYPE_WPA] ++
  WPA_PUT_BE16 key_info ++ WPA_PUT_BE16 key_length ++ replay ++ nonce ++ iv ++ rsc ++ replicate 8 0.

(** The key data: what is in the frame's IV field, the octets and their length
    field; [None] when no frame is sent. [len] is the space there is. *)
Definition eapol_key_data (m : wpa_state_machine) (version : Z) (kde : option bytes) (kde_len len : Z) (encr : bool) :
    M (option (bytes * bytes * Z)) :=
  match kde with
  | None => mret (Some (replicate 16 0, replicate (Z.to_nat len) 0, 0))
  | Some k =>
    k ← lift_outcome (slice k 0 (Z.to_nat kde_len));
    if encr then
      mem ← ask env_mem;
      if negb mem then mret None
      else if wraps_keys m version then
        let p := pad_len kde_len in
        let buf := k ++ (if decide (p = 0) then [] else 0xdd :: replicate (Z.to_nat (p - 1)) 0) in
        match aes_wrap (take (Z.to_nat (kek_len (PTK m))) (kek (PTK m))) buf with
        | None => mret None
        | Some c => mret (Some (replicate 16 0, c, len))
        end
      else if decide (kek_len (PTK m) = 16) then
        c ← gget Counter;
        on_group (g_upd (λ g, g <| Counter := inc_byte_array c |>));;
        let iv := drop (WPA_NONCE_LEN - 16) c in
        mret (Some (iv, rc4_skip (iv ++ take 16 (kek (PTK m))) 256 k, len))
      else mret None
    else mret (Some (replicate 16 0, k, kde_len))
  end.

Definition __wpa_send_eapol (key_info : Z) (key_rsc nonce kde : option bytes) (kde_len keyidx : Z) (encr : bool)
    (force_version : Z) : M unit :=
  m ← get id;
  let akm := sm_key_mgmt (assoc m) in
  let mic_len := wpa_mic_len akm in
  let version := key_version m force_version in
  let pairwise := has_flag key_info WPA_KEY_INFO_KEY_TYPE in
  let data_len := if wraps_keys m version && encr then kde_len + pad_len kde_len + 8 else kde_len in
  let len := sizeof_ieee802_1x_hdr + keyhdrlen akm + data_len in
  mem ← ask env_mem;
  if negb mem then mret tt else
  let key_info := eapol_key_info m key_info version keyidx encr in
  let alg := if pairwise then sm_pairwise (assoc m) else WpaIe.wpa_group (conf a) in
  let key_length := if has_flag key_info WPA_KEY_INFO_SMK_MESSAGE then 0 else wpa_cipher_key_len alg in
  upd (λ m, m <| key_replay := next_replay (key_replay m) |>);;
  replay ← get (λ m, from_option counter [] (head (key_replay m)));
  data ← eapol_key_data m version kde kde_len data_len encr;
  match data with
  | None => mret tt
  | Some (iv, key_data, length_field) =>
    let head := eapol_key_head m len key_info key_length replay (default (replicate WPA_NONCE_LEN 0) nonce) iv
                  (default (replicate WPA_KEY_RSC_LEN 0) key_rsc) in
    let rest := WPA_PUT_BE16 length_field ++ key_data in
    let frame := head ++ replicate (Z.to_nat mic_len) 0 ++ rest in
    if has_flag key_info WPA_KEY_INFO_MIC && negb (PTK_valid m) then mret tt else
    let mic := if has_flag key_info WPA_KEY_INFO_MIC
               then wpa_eapol_key_mic (kck (PTK m)) (kck_len (PTK m)) version frame else None in
    frame ← lift_outcome (write frame key_mic_at (default [] mic));
    wpa_auth_set_eapol WPA_EAPOL_inc_EapolFramesTx true;;
    emit (Send_eapol (sm_addr (assoc m)) frame (pairwise_set m))
  end.

(** The timeout that follows *)
Definition wpa_send_eapol (key_info : Z) (key_rsc nonce kde : option bytes) (kde_len keyidx : Z) (encr : bool) : M unit :=
  __wpa_send_eapol key_info key_rsc nonce kde kde_len keyidx encr 0;;
  let pairwise := has_flag key_info WPA_KEY_INFO_KEY_TYPE in
  ctr ← get (if pairwise then TimeoutCtr else GTimeoutCtr);
  let timeout_ms := if decide (ctr = 1 ∧ tx_status (conf a) = true)
                    then (if pairwise then eapol_key_timeout_first else eapol_key_timeout_first_group)
                    else eapol_key_timeout_subseq in
  when (pairwise && bool_decide (ctr = 1) && negb (has_flag key_info WPA_KEY_INFO_MIC))
    (upd (λ m, m <| pending_1_of_4_timeout := true |>));;
  t ← this_timer wpa_send_eapol_timeout;
  register_timeout t (timeout_ms / 1000) (timeout_ms mod 1000 * 1000).

(** ** The pairwise key *)

Definition wpa_remove_ptk : M unit :=
  upd (λ m, m <| PTK_valid := false |> <| PTK := zero_ptk |>);;
  addr ← get (sm_addr ∘ assoc);
  _ ← on_group (wpa_auth_set_key 0 WPA_ALG_NONE addr 0 []);
  upd (λ m, m <| pairwise_set := false |>);;
  t ← this_timer wpa_rekey_ptk;
  cancel_timeout t.

Definition wpa_request_new_ptk : M unit := upd (λ m, m <| PTKRequest := true |> <| PTK_valid := false |>).

(** The end of [wpa_auth_sm_event] but for the step: the key is forgotten. *)
Definition event_remove_ptk (event : wpa_event) : M unit :=
  mfp ← get (mgmt_frame_prot ∘ assoc);
  if mfp && bool_decide (event = WPA_AUTH) then mret tt else
  upd (λ m, m <| PTK_valid := false |> <| PTK := zero_ptk |>);;
  when (negb (bool_decide (event = WPA_REAUTH_EAPOL))) wpa_remove_ptk.

(** [wpa_auth_sm_event] with [WPA_DEAUTH] while [wpa_sm_step] runs: the loop that
    runs goes on. *)
Definition deauth_in_step_loop : M unit :=
  upd (λ m, m <| DeauthenticationRequest := true |>);;
  event_remove_ptk WPA_DEAUTH;;
  upd (λ m, m <| sm_changed := true |>).

(** [ap_sta_disconnect]; what it does to the rest of the access point is one effect. *)
Definition wpa_sta_disconnect : M unit :=
  addr ← get (sm_addr ∘ assoc);
  emit (Disconnect_sta addr);;
  deauth_in_step_loop.

Definition wpa_derive_ptk (m : wpa_state_machine) (snonce pmk : bytes) : wpa_ptk :=
  wpa_pmk_to_ptk pmk (lit "Pairwise key expansion") (auth_addr a) (sm_addr (assoc m)) (ANonce m) snonce
    (sm_key_mgmt (assoc m)) (sm_pairwise (assoc m)).

(** The first of the keys for which the MIC of the frame is right *)
Fixpoint try_pmks (m : wpa_state_machine) (snonce data : bytes) (pmks : list bytes) : outcome (option (bytes * wpa_ptk)) :=
  match pmks with
  | [] => Ok None
  | pmk :: pmks =>
    let ptk := wpa_derive_ptk m snonce pmk in
    r ← wpa_verify_key_mic (sm_key_mgmt (assoc m)) ptk data;
    if decide (r = 0) then Ok (Some (pmk, ptk)) else try_pmks m snonce data pmks
  end.

(** The keys a station may have *)
Definition pmk_candidates : M (list bytes) :=
  m ← get id;
  if wpa_key_mgmt_wpa_psk (sm_key_mgmt (assoc m)) then ask (λ i, env_psks i (sm_addr (assoc m)))
  else mret [take (Z.to_nat (pmk_len m)) (PMK m)].

(** The result is 0 or -1. *)
Definition wpa_try_alt_snonce (data : bytes) : M Z :=
  pmks ← pmk_candidates;
  m ← get id;
  found ← lift_outcome (try_pmks m (alt_SNonce m) data pmks);
  match found with
  | None => mret (-1)
  | Some (_, ptk) =>
    upd (λ m, m <| alt_snonce_valid := false |> <| SNonce := alt_SNonce m |> <| PTK := ptk |> <| PTK_valid := true |>);;
    mret 0
  end.

(** ** The states of [WPA_PTK] *)

(** [SM_ENTRY_MA]; [SM_ENTER] is never global. *)
Definition enter (s : ptk_state) : M unit := upd (λ m, m <| sm_changed := true |> <| wpa_ptk_state := s |>).
Definition enter_group (s : ptk_group_state) : M unit :=
  upd (λ m, m <| sm_changed := true |> <| wpa_ptk_group_state := s |>).

Definition set_GKeyDoneStations (f : Z → outcome Z) : M unit :=
  n ← gget GKeyDoneStations;
  n ← lift_outcome (f n);
  on_group (g_upd (λ g, g <| GKeyDoneStations := n |>)).

(** The station no longer has to be given the new group key. *)
Definition group_key_done : M unit :=
  pending ← get GUpdateStationKeys;
  when pending (set_GKeyDoneStations dec_int);;
  upd (λ m, m <| GUpdateStationKeys := false |>).

Definition PTK_INITIALIZE : M unit :=
  enter WPA_PTK_INITIALIZE;;
  upd (λ m, m <| sm_changed := if Init m then false else sm_changed m |>);;
  upd (λ m, m <| keycount := 0 |>);;
  group_key_done;;
  upd (λ m, m <| PInitAKeys := if decide (sm_wpa (assoc m) = WPA_VERSION_WPA) then false else PInitAKeys m |>);;
  upd (λ m, m <| Pair := true |>);;
  wpa_auth_set_eapol WPA_EAPOL_portEnabled false;;
  wpa_remove_ptk;;
  wpa_auth_set_eapol WPA_EAPOL_portValid false;;
  upd (λ m, m <| TimeoutCtr := 0 |>);;
  psk ← get (wpa_key_mgmt_wpa_psk ∘ sm_key_mgmt ∘ assoc);
  when psk (wpa_auth_set_authorized false).

Definition PTK_DISCONNECT : M unit :=
  enter WPA_PTK_DISCONNECT;;
  upd (λ m, m <| Disconnect := false |>);;
  wpa_sta_disconnect.

Definition PTK_DISCONNECTED : M unit :=
  enter WPA_PTK_DISCONNECTED;;
  upd (λ m, m <| DeauthenticationRequest := false |>).

Definition PTK_AUTHENTICATION : M unit :=
  enter WPA_PTK_AUTHENTICATION;;
  upd (λ m, m <| PTK := zero_ptk |> <| PTK_valid := false |>);;
  wpa_auth_set_eapol WPA_EAPOL_portControl_Auto true;;
  wpa_auth_set_eapol WPA_EAPOL_portEnabled true;;
  upd (λ m, m <| AuthenticationRequest := false |>).

Definition PTK_AUTHENTICATION2 : M unit :=
  enter WPA_PTK_AUTHENTICATION2;;
  on_group wpa_group_ensure_init;;
  upd (λ m, m <| ReAuthenticationRequest := false |>);;
  r ← ask (λ i, env_random i WPA_NONCE_LEN);
  upd (λ m, m <| ANonce := r.2 |>);;
  if decide (r.1 ≠ 0) then upd (λ m, m <| Disconnect := true |>)
  else upd (λ m, m <| TimeoutCtr := 0 |>).

(** [os_memcpy(sm->PMK, key, len)] *)
Definition put_pmk (key : bytes) (len : Z) : M unit :=
  old ← get PMK;
  key ← lift_outcome (slice key 0 (Z.to_nat len));
  new ← lift_outcome (write old 0 key);
  upd (λ m, m <| PMK := new |> <| pmk_len := len |>).

Definition PTK_INITPMK : M unit :=
  enter WPA_PTK_INITPMK;;
  m ← get id;
  let ready :=
    upd (λ m, m <| req_replay_counter_used := false |>);;
    wpa_auth_set_eapol WPA_EAPOL_keyRun false in
  match sm_pmksa (assoc m) with
  | Some e => put_pmk (pmk e) (zlen (pmk e));; ready
  | None =>
    msk ← ask (λ i, env_msk i (sm_addr (assoc m)));
    match msk with
    | Some msk =>
      let len := if has_flag (sm_key_mgmt (assoc m)) WPA_KEY_MGMT_IEEE8021X_SUITE_B_192
                 then Z.of_nat PMK_LEN_SUITE_B_192 else Z.of_nat PMK_LEN in
      if decide (zlen msk < len) then upd (λ m, m <| Disconnect := true |>)
      else put_pmk msk len;; ready
    | None => upd (λ m, m <| Disconnect := true |>)
    end
  end.

Definition PTK_INITPSK : M unit :=
  enter WPA_PTK_INITPSK;;
  m ← get id;
  psks ← ask (λ i, env_psks i (sm_addr (assoc m)));
  match psks with
  | psk :: _ => put_pmk psk (Z.of_nat PMK_LEN)
  | [] => mret tt
  end;;
  upd (λ m, m <| req_replay_counter_used := false |>).

(** The PMKID of message 1: the pointer and the length given for it *)
Definition message_1_kde (m : wpa_state_machine) : option bytes * Z :=
  let akm := sm_key_mgmt (assoc m) in
  if decide (sm_wpa (assoc m) = WPA_VERSION_WPA2 ∧ wpa_key_mgmt_wpa_ieee8021x akm = true ∧ akm ≠ WPA_KEY_MGMT_OSEN)
  then
    let kde id := [WLAN_EID_VENDOR_SPECIFIC; RSN_SELECTOR_LEN + PMKID_LEN] ++
                  RSN_SELECTOR_PUT RSN_KEY_DATA_PMKID ++ id in
    (match sm_pmksa (assoc m) with
     | Some e => Some (kde (e_pmkid e))
     | None =>
       if wpa_key_mgmt_suite_b akm then None
       else Some (kde (rsn_pmkid (take (Z.to_nat (pmk_len m)) (PMK m)) (auth_addr a) (sm_addr (assoc m))
                         (wpa_key_mgmt_sha256 akm)))
     end, 2 + RSN_SELECTOR_LEN + PMKID_LEN)
  else (None, 0).

Definition inc_TimeoutCtr : M Z :=
  n ← get TimeoutCtr;
  n ← lift_outcome (inc_int n);
  upd (λ m, m <| TimeoutCtr := n |>);;
  mret n.

Definition PTK_PTKSTART : M unit :=
  enter WPA_PTK_PTKSTART;;
  upd (λ m, m <| PTKRequest := false |> <| TimeoutEvt := false |> <| alt_snonce_valid := false |>);;
  n ← inc_TimeoutCtr;
  if decide (dot11RSNAConfigPairwiseUpdateCount < n) then mret tt else
  m ← get id;
  let k := message_1_kde m in
  wpa_send_eapol (Z.lor WPA_KEY_INFO_ACK WPA_KEY_INFO_KEY_TYPE) None (Some (ANonce m)) k.1 k.2 0 false.

Definition PTK_PTKCALCNEGOTIATING : M unit :=
  enter WPA_PTK_PTKCALCNEGOTIATING;;
  upd (λ m, m <| EAPOLKeyReceived := false |> <| update_snonce := false |>);;
  pmks ← pmk_candidates;
  m ← get id;
  let psk := wpa_key_mgmt_wpa_psk (sm_key_mgmt (assoc m)) in
  found ← lift_outcome (try_pmks m (SNonce m) (default [] (last_rx_eapol_key m)) pmks);
  match found with
  | None => when (psk && negb (bool_decide (pmks = []))) (emit (Psk_failure_report (sm_addr (assoc m))))
  | Some (pmk, ptk) =>
    upd (λ m, m <| pending_1_of_4_timeout := false |>);;
    t ← this_timer wpa_send_eapol_timeout;
    cancel_timeout t;;
    when psk (put_pmk pmk (Z.of_nat PMK_LEN));;
    upd (λ m, m <| MICVerified := true |> <| PTK := ptk |> <| PTK_valid := true |>)
  end.

Definition PTK_PTKCALCNEGOTIATING2 : M unit :=
  enter WPA_PTK_PTKCALCNEGOTIATING2;;
  upd (λ m, m <| TimeoutCtr := 0 |>).

(** The element that message 3 carries *)
Definition own_ie_octets : outcome bytes :=
  match wpa_ie own with
  | Some b => slice b 0 (Z.to_nat (wpa_ie_len own))
  | None => if decide (wpa_ie_len own = 0) then Ok [] else Undef NullDeref
  end.

(** A station without RSN is not sent the RSN element and what belongs to it. *)
Definition message_3_ie (m : wpa_state_machine) : outcome bytes :=
  if decide (sm_wpa (assoc m) = WPA_VERSION_WPA ∧ has_flag (conf_wpa (conf a)) WPA_PROTO_RSN = true) then
    ie ← match wpa_ie own with Some b => Ok b | None => Undef NullDeref end;
    len ← rd ie 1;
    id ← rd ie 0;
    if decide (len + 2 < wpa_ie_len own ∧ id = WLAN_EID_RSN) then
      let ie := drop (Z.to_nat (len + 2)) ie in
      id ← rd ie 0;
      len ← rd ie 1;
      let ie := if decide (id = WLAN_EID_MOBILITY_DOMAIN) then drop (Z.to_nat (len + 2)) ie else ie in
      len ← rd ie 1;
      slice ie 0 (Z.to_nat (len + 2))
    else own_ie_octets
  else own_ie_octets.

Definition ieee80211w_kde_len (m : wpa_state_machine) : Z :=
  if mgmt_frame_prot (assoc m) then
    2 + RSN_SELECTOR_LEN + WPA_IGTK_KDE_PREFIX_LEN + wpa_cipher_key_len (group_mgmt_cipher (conf a))
  else 0.

(** The octets added *)
Definition ieee80211w_kde_add : M bytes :=
  m ← get id;
  if negb (mgmt_frame_prot (assoc m)) then mret [] else
  g ← gget id;
  let len := wpa_cipher_key_len (group_mgmt_cipher (conf a)) in
  pn ← (if decide (wpa_group_state g = WPA_GROUP_SETKEYSDONE) then
          r ← ask (λ i, env_seqnum i (GN_igtk g));
          mret (if decide (r.1 < 0) then replicate 6 0 else take 6 r.2)
        else mret (replicate 6 0));
  igtk ← lift_outcome (group_key (IGTK g) (GN_igtk g - 4) len);
  let kde igtk := wpa_add_kde RSN_KEY_DATA_IGTK ([u8 (GN_igtk g); 0] ++ pn ++ igtk) None in
  if disable_gtk (conf a) then
    r ← ask (λ i, env_random i (Z.to_nat len));
    mret (if decide (r.1 < 0) then [] else kde r.2)
  else mret (kde igtk).

(** The group key that is sent: with [disable_gtk], a random one *)
Definition gtk_to_send : M (option bytes) :=
  g ← gget id;
  if disable_gtk (conf a) then
    r ← ask (λ i, env_random i (Z.to_nat (GTK_len g)));
    mret (if decide (r.1 < 0) then None else Some r.2)
  else
    key ← lift_outcome (group_key (GTK g) (GN g - 1) (GTK_len g));
    mret (Some key).

Definition gtk_kde (gn : Z) (gtk : bytes) : bytes :=
  wpa_add_kde RSN_KEY_DATA_GROUPKEY [Z.land gn 3; 0] (Some gtk).

Definition PTK_PTKINITNEGOTIATING : M unit :=
  enter WPA_PTK_PTKINITNEGOTIATING;;
  upd (λ m, m <| TimeoutEvt := false |>);;
  n ← inc_TimeoutCtr;
  if decide (dot11RSNAConfigPairwiseUpdateCount < n) then mret tt else
  g ← gget id;
  rsc ← ask (λ i, env_seqnum i (GN g));
  m ← get id;
  ie ← lift_outcome (message_3_ie m);
  let rsn := bool_decide (sm_wpa (assoc m) = WPA_VERSION_WPA2) in
  gtk ← (if rsn then gtk_to_send else mret None);
  if rsn && bool_decide (gtk = None) then mret tt else
  let kde_len := zlen ie + ieee80211w_kde_len m + (if rsn then 2 + RSN_SELECTOR_LEN + 2 + GTK_len g else 0) in
  mem ← ask env_mem;
  if negb mem then mret tt else
  kde ← lift_outcome (put_octets kde_len ie []);
  kde ← lift_outcome (match gtk with Some gtk => put_octets kde_len (gtk_kde (GN g) gtk) kde | None => Ok kde end);
  igtk ← ieee80211w_kde_add;
  kde ← lift_outcome (put_octets kde_len igtk kde);
  let secure := if rsn || rx_eapol_key_secure m then WPA_KEY_INFO_SECURE else 0 in
  wpa_send_eapol (Z.lor (Z.lor (Z.lor (Z.lor secure WPA_KEY_INFO_MIC) WPA_KEY_INFO_ACK) WPA_KEY_INFO_INSTALL)
                    WPA_KEY_INFO_KEY_TYPE)
    (if rsn then Some rsc.2 else None) (Some (ANonce m)) (Some kde) (zlen kde) (if rsn then GN g else 0) rsn.

(** What follows the key that is installed, if there is one *)
Definition handshake_completed : M unit :=
  wpa_auth_set_eapol WPA_EAPOL_portValid true;;
  wpa_auth_set_eapol WPA_EAPOL_keyAvailable false;;
  wpa_auth_set_eapol WPA_EAPOL_keyDone true;;
  upd (λ m, m <| PInitAKeys := if decide (sm_wpa (assoc m) = WPA_VERSION_WPA) then true else PInitAKeys m |>
              <| has_GTK := if decide (sm_wpa (assoc m) = WPA_VERSION_WPA) then has_GTK m else true |>).

Definition PTK_PTKINITDONE : M unit :=
  enter WPA_PTK_PTKINITDONE;;
  upd (λ m, m <| EAPOLKeyReceived := false |>);;
  m ← get id;
  if Pair m then
    let cipher := sm_pairwise (assoc m) in
    key ← lift_outcome (slice (tk (PTK m)) 0 (Z.to_nat (wpa_cipher_key_len cipher)));
    r ← on_group (wpa_auth_set_key 0 (wpa_cipher_to_alg cipher) (sm_addr (assoc m)) 0 key);
    if decide (r ≠ 0) then wpa_sta_disconnect else
    upd (λ m, m <| pairwise_set := true |>);;
    when (negb (bool_decide (wpa_ptk_rekey (conf a) = 0)))
      (t ← this_timer wpa_rekey_ptk;
       cancel_timeout t;;
       register_timeout t (wpa_ptk_rekey (conf a)) 0);;
    when (wpa_key_mgmt_wpa_psk (sm_key_mgmt (assoc m))) (wpa_auth_set_authorized true);;
    handshake_completed
  else handshake_completed.

(** [wpa_auth->dot11RSNA4WayHandshakeFailures++] *)
Definition handshake_failed : M unit := λ s, Ok (tt, s <| failures := u32 (failures s + 1) |>).

(** A frame of the supplicant for the pairwise machine, not a request *)
Definition pairwise_frame (m : wpa_state_machine) : bool :=
  EAPOLKeyReceived m && negb (EAPOLKeyRequest m) && EAPOLKeyPairwise m.

Definition step_from (m : wpa_state_machine) : M unit :=
  match wpa_ptk_state m with
  | WPA_PTK_INITIALIZE => mret tt
  | WPA_PTK_DISCONNECT => PTK_DISCONNECTED
  | WPA_PTK_DISCONNECTED => PTK_INITIALIZE
  | WPA_PTK_AUTHENTICATION => PTK_AUTHENTICATION2
  | WPA_PTK_AUTHENTICATION2 =>
    let akm := sm_key_mgmt (assoc m) in
    run ← (if wpa_key_mgmt_wpa_ieee8021x akm then wpa_auth_get_eapol WPA_EAPOL_keyRun else mret 0);
    if decide (0 < run) then PTK_INITPMK
    else if wpa_key_mgmt_wpa_psk akm then PTK_INITPSK else mret tt
  | WPA_PTK_INITPMK =>
    available ← wpa_auth_get_eapol WPA_EAPOL_keyAvailable;
    if decide (0 < available) then PTK_PTKSTART else handshake_failed;; PTK_DISCONNECT
  | WPA_PTK_INITPSK =>
    psks ← ask (λ i, env_psks i (sm_addr (assoc m)));
    if decide (psks = []) then handshake_failed;; PTK_DISCONNECT else PTK_PTKSTART
  | WPA_PTK_PTKSTART =>
    if pairwise_frame m then PTK_PTKCALCNEGOTIATING
    else if decide (dot11RSNAConfigPairwiseUpdateCount < TimeoutCtr m) then handshake_failed;; PTK_DISCONNECT
    else if TimeoutEvt m then PTK_PTKSTART else mret tt
  | WPA_PTK_PTKCALCNEGOTIATING =>
    if MICVerified m then PTK_PTKCALCNEGOTIATING2
    else if pairwise_frame m then PTK_PTKCALCNEGOTIATING
    else if TimeoutEvt m then PTK_PTKSTART else mret tt
  | WPA_PTK_PTKCALCNEGOTIATING2 => PTK_PTKINITNEGOTIATING
  | WPA_PTK_PTKINITNEGOTIATING =>
    if update_snonce m then PTK_PTKCALCNEGOTIATING
    else if pairwise_frame m && MICVerified m then PTK_PTKINITDONE
    else if decide (dot11RSNAConfigPairwiseUpdateCount < TimeoutCtr m) then handshake_failed;; PTK_DISCONNECT
    else if TimeoutEvt m then PTK_PTKINITNEGOTIATING else mret tt
  | WPA_PTK_PTKINITDONE => mret tt
  end.

(** [SM_STEP(WPA_PTK)] *)
Definition WPA_PTK_Step : M unit :=
  m ← get id;
  if Init m then PTK_INITIALIZE
  else if Disconnect m then PTK_DISCONNECT
  else if DeauthenticationRequest m then PTK_DISCONNECTED
  else if AuthenticationRequest m then PTK_AUTHENTICATION
  else if ReAuthenticationRequest m then PTK_AUTHENTICATION2
  else if PTKRequest m then PTK_PTKSTART
  else step_from m.

(** ** The states of [WPA_PTK_GROUP] *)

Definition GROUP_IDLE : M unit :=
  enter_group WPA_PTK_GROUP_IDLE;;
  upd (λ m, m <| sm_changed := if Init m then false else sm_changed m |>);;
  upd (λ m, m <| GTimeoutCtr := 0 |>).

Definition GROUP_REKEYNEGOTIATING : M unit :=
  enter_group WPA_PTK_GROUP_REKEYNEGOTIATING;;
  n ← get GTimeoutCtr;
  n ← lift_outcome (inc_int n);
  upd (λ m, m <| GTimeoutCtr := n |>);;
  if decide (dot11RSNAConfigGroupUpdateCount < n) then mret tt else
  upd (λ m, m <| PInitAKeys := if decide (sm_wpa (assoc m) = WPA_VERSION_WPA) then false else PInitAKeys m |>);;
  upd (λ m, m <| TimeoutEvt := false |>);;
  g ← gget id;
  rsc ← (if decide (wpa_group_state g = WPA_GROUP_SETKEYSDONE) then
           r ← ask (λ i, env_seqnum i (GN g)); mret r.2
         else mret (replicate WPA_KEY_RSC_LEN 0));
  gtk ← gtk_to_send;
  match gtk with
  | None => mret tt
  | Some gtk =>
    m ← get id;
    let info := Z.lor (Z.lor (Z.lor WPA_KEY_INFO_SECURE WPA_KEY_INFO_MIC) WPA_KEY_INFO_ACK)
                  (if Pair m then 0 else WPA_KEY_INFO_INSTALL) in
    let send kde := wpa_send_eapol info (Some rsc) (Some (GNonce g)) (Some kde) (zlen kde) (GN g) true in
    if decide (sm_wpa (assoc m) = WPA_VERSION_WPA2) then
      let kde_len := 2 + RSN_SELECTOR_LEN + 2 + GTK_len g + ieee80211w_kde_len m in
      mem ← ask env_mem;
      if negb mem then mret tt else
      kde ← lift_outcome (put_octets kde_len (gtk_kde (GN g) gtk) []);
      igtk ← ieee80211w_kde_add;
      kde ← lift_outcome (put_octets kde_len igtk kde);
      send kde
    else send gtk
  end.

Definition GROUP_REKEYESTABLISHED : M unit :=
  enter_group WPA_PTK_GROUP_REKEYESTABLISHED;;
  upd (λ m, m <| EAPOLKeyReceived := false |>);;
  group_key_done;;
  upd (λ m, m <| GTimeoutCtr := 0 |> <| has_GTK := true |>).

Definition GROUP_KEYERROR : M unit :=
  enter_group WPA_PTK_GROUP_KEYERROR;;
  group_key_done;;
  upd (λ m, m <| Disconnect := true |>).

(** [SM_STEP(WPA_PTK_GROUP)] *)
Definition WPA_PTK_GROUP_Step : M unit :=
  m ← get id;
  if Init m || PtkGroupInit m then GROUP_IDLE;; upd (λ m, m <| PtkGroupInit := false |>)
  else match wpa_ptk_group_state m with
  | WPA_PTK_GROUP_IDLE =>
    if GUpdateStationKeys m || (bool_decide (sm_wpa (assoc m) = WPA_VERSION_WPA) && PInitAKeys m)
    then GROUP_REKEYNEGOTIATING else mret tt
  | WPA_PTK_GROUP_REKEYNEGOTIATING =>
    if EAPOLKeyReceived m && negb (EAPOLKeyRequest m) && negb (EAPOLKeyPairwise m) && MICVerified m
    then GROUP_REKEYESTABLISHED
    else if decide (dot11RSNAConfigGroupUpdateCount < GTimeoutCtr m) then GROUP_KEYERROR
    else if TimeoutEvt m then GROUP_REKEYNEGOTIATING else mret tt
  | WPA_PTK_GROUP_KEYERROR => GROUP_IDLE
  | WPA_PTK_GROUP_REKEYESTABLISHED => GROUP_IDLE
  end.

(** A turn of the loop of [wpa_sm_step] up to the step of the group; whether the
    machine is to be freed. *)
Definition station_steps : M bool :=
  WPA_PTK_Step;;
  gone ← get pending_deinit;
  if (gone : bool) then mret true else WPA_PTK_GROUP_Step;; get pending_deinit.

End wpa.
