(* ===== verification/WpaAuth.v ===== *)
(** * WPA authenticator: stations, groups and reception

    The rest of [src/ap/wpa_auth.c], and [src/ap/peerkey_auth.c]: the machine of a
    group, the loop that steps a station and its group, reception of EAPOL-Key
    frames, the timeouts, and the functions the access point calls. [WpaSm] has the
    part that works on one station and its group.

    Stations and groups are found by address; going to one that was freed is
    undefined. The list of stations is the order in which [for_each_sta] calls back,
    and the first group is the special one of the authenticator. The steps of
    stations nest: the step of a group makes other stations step, which step their
    group. A station that is already stepping is left alone, so that the nesting is
    no deeper than the number of stations. *)

From Stdlib Require Import ZArith Lia Strings.String.
From stdpp Require Import base option list numbers decidable.
From S2P Require Import Prelude CLib Common Ieee8021x WpaCommon WpaKeys Pmksa WpaIe WpaSm.
Local Open Scope Z_scope.

(** The authenticator with its stations and groups; what is freed is in the log. *)
Record world := mk_world {
  auth : wpa_authenticator;
  own : own_ie;
  groups : list WpaSm.wpa_group;
  stations : list wpa_state_machine;
  remote_mic_failures : Z;
  handshake_failures : Z;
  countermeasures : Z;
  calls : nat;
  out : list wpa_effect }.

#[export] Instance world_eta : Eta world := λ w, mk_world (auth w) (own w) (groups w) (stations w)
  (remote_mic_failures w) (handshake_failures w) (countermeasures w) (calls w) (out w).

Abbreviation W := (S_M world).

Section auth.
Context {C : Crypto} {E : Wpa_env}.

(** ** Access *)

Definition w_get {A} (f : world → A) : W A := λ w, Ok (f w, w).
Definition w_upd (f : world → world) : W unit := λ w, Ok (tt, f w).
Definition w_emit (e : wpa_effect) : W unit := w_upd (λ w, w <| out := e :: out w |>).
Definition w_ask {A} (f : nat → A) : W A := λ w, Ok (f (calls w), w <| calls := S (calls w) |>).
Definition w_conf {A} (f : wpa_auth_config → A) : W A := w_get (f ∘ conf ∘ auth).

Definition find_group (p : Z) (w : world) : outcome WpaSm.wpa_group :=
  match List.find (λ g, bool_decide (g_ptr g = p)) (groups w) with Some g => Ok g | None => Undef OutOfBounds end.
Definition find_station (p : Z) (w : world) : outcome wpa_state_machine :=
  match List.find (λ m, bool_decide (sm_ptr m = p)) (stations w) with Some m => Ok m | None => Undef OutOfBounds end.

(** The first group of the list *)
Definition first_group (w : world) : outcome WpaSm.wpa_group :=
  match groups w with g :: _ => Ok g | [] => Undef NullDeref end.

Definition put_group (g : WpaSm.wpa_group) (w : world) : world :=
  w <| groups := map (λ g', if decide (g_ptr g' = g_ptr g) then g else g') (groups w) |>.
Definition put_station (m : wpa_state_machine) (w : world) : world :=
  w <| stations := map (λ m', if decide (sm_ptr m' = sm_ptr m) then m else m') (stations w) |>.

(** An operation on the group at [p], and one on the station at [p] *)
Definition at_group {A} (p : Z) (m : wpa_authenticator → S_M grp A) : W A := λ w,
  g ← find_group p w;
  r ← m (auth w) (mk_grp g (calls w) (out w));
  Ok (r.1, put_group (gsm r.2) (w <| calls := g_calls r.2 |> <| out := g_out r.2 |>)).

Definition at_station {A} (p : Z) (m : wpa_authenticator → own_ie → S_M sta A) : W A := λ w,
  s ← find_station p w;
  g ← find_group (group s) w;
  r ← m (auth w) (own w) (mk_sta s (mk_grp g (calls w) (out w)) (handshake_failures w));
  let g' := grp_of r.2 in
  Ok (r.1, put_station (sm r.2) (put_group (gsm g')
    (w <| calls := g_calls g' |> <| out := g_out g' |> <| handshake_failures := failures r.2 |>))).

Definition s_get {A} (p : Z) (f : wpa_state_machine → A) : W A := λ w, m ← find_station p w; Ok (f m, w).
Definition s_upd (p : Z) (f : wpa_state_machine → wpa_state_machine) : W unit := λ w,
  m ← find_station p w; Ok (tt, put_station (f m) w).
Definition gr_get {A} (p : Z) (f : WpaSm.wpa_group → A) : W A := λ w, g ← find_group p w; Ok (f g, w).
Definition gr_upd (p : Z) (f : WpaSm.wpa_group → WpaSm.wpa_group) : W unit := λ w,
  g ← find_group p w; Ok (tt, put_group (f g) w).

Definition first_ptr : W Z := λ w, g ← first_group w; Ok (g_ptr g, w).

(** [wpa_auth_for_each_sta] with a callback that returns 0 *)
Fixpoint for_each (cb : Z → W unit) (l : list Z) : W unit :=
  match l with
  | [] => mret tt
  | p :: l => cb p;; for_each cb l
  end.

Definition for_each_sta (cb : Z → W unit) : W unit :=
  l ← w_get (map sm_ptr ∘ stations); for_each cb l.

(** ** References to groups *)

Definition wpa_group_get (p : Z) : W unit :=
  f ← first_ptr;
  if decide (p = f) then mret tt else gr_upd p (λ g, g <| references := u32 (references g + 1) |>).

(** The first group is never removed. *)
Definition wpa_group_free (p : Z) : W unit :=
  w_upd (λ w, match groups w with
              | f :: l => w <| groups := f :: filter (λ g, g_ptr g ≠ p) l |>
              | [] => w
              end);;
  w_emit (Free_group p).

Definition wpa_group_put (p : Z) : W unit :=
  f ← first_ptr;
  if decide (p = f) then mret tt else
  gr_upd p (λ g, g <| references := u32 (references g - 1) |>);;
  n ← gr_get p references;
  if decide (n ≠ 0) then mret tt else wpa_group_free p.

Definition wpa_free_sta_sm (p : Z) : W unit :=
  m ← s_get p id;
  when (GUpdateStationKeys m) (at_station p (λ _ _, group_key_done));;
  wpa_group_put (group m);;
  w_upd (λ w, w <| stations := filter (λ m, sm_ptr m ≠ p) (stations w) |>);;
  w_emit (Free_sm p).

(** ** The machine of a group *)

Section steps.
(** The step of a station, for the stations a group makes step *)
Context (step : Z → W unit).

(** The states; [changed] is cleared in the first since [GInit] stays set. *)
Definition wpa_group_gtk_init (p : Z) : W unit :=
  gr_upd p (λ g, g <| g_changed := false |> <| wpa_group_state := WPA_GROUP_GTK_INIT |>
                   <| GTK := replicate 2 (replicate WPA_GTK_MAX_LEN 0) |> <| GN := 1 |> <| GM := 2 |>
                   <| GN_igtk := 4 |> <| GM_igtk := 5 |>);;
  _ ← at_group p wpa_gtk_update;
  mret tt.

Definition wpa_group_update_sta (ctx : Z) (p : Z) : W unit :=
  m ← s_get p id;
  if decide (group m ≠ ctx) then mret tt
  else if decide (wpa_ptk_state m ≠ WPA_PTK_PTKINITDONE) then s_upd p (λ m, m <| GUpdateStationKeys := false |>)
  else
    at_station p (λ _ _, set_GKeyDoneStations inc_int);;
    s_upd p (λ m, m <| GUpdateStationKeys := true |>);;
    step p.

Definition swap_keys (g : WpaSm.wpa_group) : WpaSm.wpa_group :=
  g <| GM := GN g |> <| GN := GM g |> <| GM_igtk := GN_igtk g |> <| GN_igtk := GM_igtk g |>.

Definition wpa_group_setkeys (p : Z) : W unit :=
  gr_upd p (λ g, swap_keys (g <| g_changed := true |> <| wpa_group_state := WPA_GROUP_SETKEYS |> <| GTKReKey := false |>));;
  _ ← at_group p wpa_gtk_update;
  gr_upd p (λ g, g <| GKeyDoneStations := 0 |>);;
  for_each_sta (wpa_group_update_sta p).

Definition wpa_group_disconnect_cb (ctx : Z) (p : Z) : W unit :=
  s_upd p (λ m, if decide (group m = ctx) then m <| Disconnect := true |> else m).

Definition wpa_group_fatal_failure (p : Z) : W unit :=
  gr_upd p (λ g, g <| g_changed := true |> <| wpa_group_state := WPA_GROUP_FATAL_FAILURE |>);;
  for_each_sta (wpa_group_disconnect_cb p).

Definition wpa_group_setkeysdone (p : Z) : W unit :=
  gr_upd p (λ g, g <| g_changed := true |> <| wpa_group_state := WPA_GROUP_SETKEYSDONE |>);;
  r ← at_group p wpa_group_config_group_keys;
  when (bool_decide (r < 0)) (wpa_group_fatal_failure p).

Definition wpa_group_sm_step (p : Z) : W unit :=
  g ← gr_get p id;
  if GInit g then wpa_group_gtk_init p
  else match wpa_group_state g with
  | WPA_GROUP_FATAL_FAILURE => mret tt
  | WPA_GROUP_GTK_INIT => when (GTKAuthenticator g) (wpa_group_setkeysdone p)
  | WPA_GROUP_SETKEYSDONE => when (GTKReKey g) (wpa_group_setkeys p)
  | WPA_GROUP_SETKEYS =>
    if decide (GKeyDoneStations g = 0) then wpa_group_setkeysdone p
    else when (GTKReKey g) (wpa_group_setkeys p)
  end.

(** ** The steps of a station *)

(** The turns of the loop the model allows; [wpa_sm_step_ends] has the reason why
    they are enough. *)
Definition step_fuel : nat := 200.

(** The loop of [wpa_sm_step] *)
Fixpoint step_loop (fuel : nat) (p : Z) : W unit :=
  match fuel with
  | O => λ _, Stuck
  | S fuel =>
    gone ← s_get p pending_deinit;
    if (gone : bool) then mret tt else
    s_upd p (λ m, m <| sm_changed := false |>);;
    f ← first_ptr;
    gr_upd f (λ g, g <| g_changed := false |>);;
    gone ← at_station p station_steps;
    if (gone : bool) then mret tt else
    g ← s_get p group;
    wpa_group_sm_step g;;
    again ← s_get p sm_changed;
    f ← first_ptr;
    group_again ← gr_get f g_changed;
    if again || group_again then step_loop fuel p else mret tt
  end.

(** The result is 1 when the station was freed. *)
Definition step_station (p : Z) : W Z :=
  recursive ← s_get p in_step_loop;
  if (recursive : bool) then mret 0 else
  s_upd p (λ m, m <| in_step_loop := true |>);;
  step_loop step_fuel p;;
  s_upd p (λ m, m <| in_step_loop := false |>);;
  gone ← s_get p pending_deinit;
  if (gone : bool) then wpa_free_sta_sm p;; mret 1 else mret 0.

End steps.

(** The nesting of steps, to a depth *)
Fixpoint nested_step (depth : nat) (p : Z) : W Z :=
  match depth with
  | O => λ _, Stuck
  | S depth => step_station (λ q, _ ← nested_step depth q; mret tt) p
  end.

Definition wpa_sm_step (p : Z) : W Z := λ w, nested_step (S (length (stations w))) p w.

(** The step of a group that no station is stepping *)
Definition group_step (p : Z) : W unit := wpa_group_sm_step (λ q, _ ← wpa_sm_step q; mret tt) p.

(** ** Events *)

Definition sm_event_rest (event : wpa_event) (p : Z) : W Z :=
  at_station p (λ _ _, event_remove_ptk event);;
  stepping ← s_get p in_step_loop;
  if (stepping : bool) then s_upd p (λ m, m <| sm_changed := true |>);; mret 0
  else wpa_sm_step p.

Definition wpa_auth_sm_event (event : wpa_event) (p : Z) : W Z :=
  match event with
  | WPA_AUTH | WPA_ASSOC | WPA_ASSOC_FT => sm_event_rest event p
  | WPA_DEAUTH | WPA_DISASSOC =>
    s_upd p (λ m, m <| DeauthenticationRequest := true |>);;
    sm_event_rest event p
  | WPA_REAUTH | WPA_REAUTH_EAPOL =>
    m ← s_get p id;
    if started m then
      when (GUpdateStationKeys m)
        (at_station p (λ _ _, set_GKeyDoneStations dec_int);;
         s_upd p (λ m, m <| GUpdateStationKeys := false |> <| PtkGroupInit := true |>));;
      s_upd p (λ m, m <| ReAuthenticationRequest := true |>);;
      sm_event_rest event p
    else
      s_upd p (λ m, m <| started := true |> <| Init := true |>);;
      r ← wpa_sm_step p;
      if decide (r = 1) then mret 1 else
      s_upd p (λ m, m <| Init := false |> <| AuthenticationRequest := true |>);;
      sm_event_rest event p
  end.

(** [ap_sta_disconnect] while the station is not stepping *)
Definition disconnect_now (p : Z) : W unit :=
  addr ← s_get p (sm_addr ∘ assoc);
  w_emit (Disconnect_sta addr);;
  _ ← wpa_auth_sm_event WPA_DEAUTH p;
  mret tt.

Definition wpa_auth_sta_associated (p : Z) : W Z :=
  wpa ← w_conf conf_wpa;
  if decide (wpa = 0) then mret (-1) else
  m ← s_get p id;
  if started m then
    s_upd p (λ m, m <| key_replay := replicate RSNA_MAX_EAPOL_RETRIES (mk_replay (replicate WPA_REPLAY_COUNTER_LEN 0) false) |>
                    <| ReAuthenticationRequest := true |>);;
    wpa_sm_step p
  else
    s_upd p (λ m, m <| started := true |> <| Init := true |>);;
    r ← wpa_sm_step p;
    if decide (r = 1) then mret 1 else
    s_upd p (λ m, m <| Init := false |> <| AuthenticationRequest := true |>);;
    wpa_sm_step p.

Definition wpa_auth_sta_no_wpa (p : Z) : W unit := s_upd p (λ m, m <| assoc := (assoc m) <| sm_key_mgmt := 0 |> |>).

(** [os_zalloc(sizeof(struct wpa_state_machine))], with its address and the fields
    that are set at once *)
Definition zero_station (p : Z) (addr : bytes) (g : Z) : wpa_state_machine :=
  let counters := replicate RSNA_MAX_EAPOL_RETRIES (mk_replay (replicate WPA_REPLAY_COUNTER_LEN 0) false) in
  let nonce := replicate WPA_NONCE_LEN 0 in
  mk_wpa_state_machine p (mk_sm addr 0 0 false WPA_VERSION_NO_WPA None None 0) g WPA_PTK_INITIALIZE
    WPA_PTK_GROUP_IDLE false false false false false 0 0 false false false false false false nonce nonce nonce
    (replicate WPA_REPLAY_COUNTER_LEN 0) (replicate (Z.to_nat PMK_LEN_MAX) 0) 0 zero_ptk false false 0 false
    counters counters false false false false None false false false false false false false
    (replicate WPA_REPLAY_COUNTER_LEN 0) false 0 false.

(** [None] is a failed allocation; [pos] is where the station stands in the list of
    the access point. *)
Definition wpa_auth_sta_init (ptr : option Z) (pos : nat) (addr : bytes) : W (option Z) :=
  f ← first_ptr;
  s ← gr_get f wpa_group_state;
  if decide (s = WPA_GROUP_FATAL_FAILURE) then mret None else
  match ptr with
  | None => mret None
  | Some p =>
    w_upd (λ w, w <| stations := take pos (stations w) ++ zero_station p addr f :: drop pos (stations w) |>);;
    wpa_group_get f;;
    mret (Some p)
  end.

Definition wpa_auth_sta_deinit (p : Z) : W unit :=
  m ← s_get p id;
  strict ← w_conf wpa_strict_rekey;
  when (strict && has_GTK m)
    (w_emit (Cancel_timeout wpa_rekey_gtk);; w_emit (Register_timeout wpa_rekey_gtk 0 500000));;
  w_emit (Cancel_timeout (wpa_send_eapol_timeout p));;
  s_upd p (λ m, m <| pending_1_of_4_timeout := false |>);;
  w_emit (Cancel_timeout (wpa_sm_call_step p));;
  w_emit (Cancel_timeout (wpa_rekey_ptk p));;
  if in_step_loop m then s_upd p (λ m, m <| pending_deinit := true |>) else wpa_free_sta_sm p.

(** ** Requests and timeouts *)

Definition wpa_rekey_gmk_timeout : W unit :=
  f ← first_ptr;
  r ← w_ask (λ i, env_random i WPA_GMK_LEN);
  gr_upd f (λ g, g <| GMK := r.2 |>);;
  secs ← w_conf wpa_gmk_rekey;
  when (negb (bool_decide (secs = 0))) (w_emit (Register_timeout wpa_rekey_gmk secs 0)).

(** The turns of the loop over a group that no station is stepping *)
Definition group_fuel : nat := 10.

Fixpoint group_loop (fuel : nat) (p : Z) : W unit :=
  match fuel with
  | O => λ _, Stuck
  | S fuel =>
    gr_upd p (λ g, g <| g_changed := false |>);;
    group_step p;;
    again ← gr_get p g_changed;
    if (again : bool) then group_loop fuel p else mret tt
  end.

(** [group->next] *)
Fixpoint next_in (p : Z) (l : list WpaSm.wpa_group) : option Z :=
  match l with
  | [] => None
  | g :: l => if decide (g_ptr g = p) then g_ptr <$> head l else next_in p l
  end.

Fixpoint rekey_groups (fuel : nat) (p : option Z) : W unit :=
  match p with
  | None => mret tt
  | Some p =>
    match fuel with
    | O => λ _, Stuck
    | S fuel =>
      wpa_group_get p;;
      gr_upd p (λ g, g <| GTKReKey := true |>);;
      group_loop group_fuel p;;
      next ← w_get (next_in p ∘ groups);
      wpa_group_put p;;
      rekey_groups fuel next
    end
  end.

Definition wpa_rekey_gtk_timeout : W unit :=
  w ← w_get id;
  rekey_groups (length (groups w)) (g_ptr <$> head (groups w));;
  secs ← w_conf wpa_group_rekey;
  when (negb (bool_decide (secs = 0))) (w_emit (Register_timeout wpa_rekey_gtk secs 0)).

Definition request_new_ptk (p : Z) : W unit := at_station p (λ _ _, wpa_request_new_ptk).

Definition wpa_rekey_ptk_timeout (p : Z) : W unit :=
  request_new_ptk p;;
  _ ← wpa_sm_step p;
  mret tt.

Definition wpa_send_eapol_timeout_handler (p : Z) : W unit :=
  s_upd p (λ m, m <| pending_1_of_4_timeout := false |> <| TimeoutEvt := true |>);;
  _ ← wpa_sm_step p;
  mret tt.

Definition wpa_sm_call_step_timeout (p : Z) : W unit := _ ← wpa_sm_step p; mret tt.

Definition wpa_auth_sm_notify (p : Z) : W unit := w_emit (Register_timeout (wpa_sm_call_step p) 0 0).

(** The result is 1 when the station was removed. *)
Definition wpa_receive_error_report (p : Z) (group_key : bool) : W Z :=
  m ← s_get p id;
  cipher ← w_conf WpaIe.wpa_group;
  if (if group_key then negb (bool_decide (cipher = WPA_CIPHER_TKIP))
      else negb (bool_decide (sm_pairwise (assoc m) = WPA_CIPHER_TKIP)))
  then request_new_ptk p;; mret 0
  else
    w_emit (Mic_failure_report (sm_addr (assoc m)));;
    r ← w_ask env_mic_failure;
    if decide (0 < r) then mret 1 else
    s_upd p (λ m, m <| dot11RSNAStatsTKIPRemoteMICFailures := u32 (dot11RSNAStatsTKIPRemoteMICFailures m + 1) |>);;
    w_upd (λ w, w <| remote_mic_failures := u32 (remote_mic_failures w + 1) |>);;
    request_new_ptk p;; mret 0.

(** ** Direct links *)

Definition STK_MUI_SMK : Z := 4.
Definition STK_ERR_STA_NR : Z := 1.
Definition sizeof_rsn_error_kde : Z := 4.

(** [wpa_stsl_select_sta]: the first station with the address *)
Definition select_sta (addr : bytes) : W (option Z) :=
  w_get (λ w, sm_ptr <$> List.find (λ m, bool_decide (sm_addr (assoc m) = addr)) (stations w)).

Definition smk_info (more : Z) : Z :=
  Z.lor (Z.lor (Z.lor WPA_KEY_INFO_SECURE WPA_KEY_INFO_MIC) WPA_KEY_INFO_SMK_MESSAGE) more.

(** A frame without a timeout *)
Definition smk_send (p : Z) (info : Z) (nonce : option bytes) (kde : bytes) (encr : bool) : W unit :=
  at_station p (λ a _, __wpa_send_eapol a info None nonce (Some kde) (zlen kde) 0 encr 0).

Definition wpa_smk_send_error (p : Z) (peer : option bytes) (mui error_type : Z) : W unit :=
  smk_send p (smk_info WPA_KEY_INFO_ERROR) None
    (from_option (λ addr, wpa_add_kde RSN_KEY_DATA_MAC_ADDR addr None) [] peer ++
     wpa_add_kde RSN_KEY_DATA_ERROR (WPA_PUT_BE16 mui ++ WPA_PUT_BE16 error_type) None) false.

(** The octets of a KDE that is at least [n] long *)
Definition kde_octets (data : bytes) (f : field) (n : Z) : outcome (option bytes) :=
  match f with
  | Some (pos, len) => if decide (len < n) then Ok None else b ← slice data pos (Z.to_nat n); Ok (Some b)
  | None => Ok None
  end.

(** All octets of an element *)
Definition ie_octets (data : bytes) (f : field) : outcome (option bytes) :=
  match f with Some (pos, len) => b ← slice data pos (Z.to_nat len); Ok (Some b) | None => Ok None end.

Definition wpa_smk_m1 (p : Z) (key_nonce key_data : bytes) : W unit :=
  r ← lift_outcome (wpa_parse_kde_ies key_data);
  if decide (r.1 < 0) then mret tt else
  rsn ← lift_outcome (ie_octets key_data (k_rsn_ie r.2));
  mac ← lift_outcome (kde_octets key_data (k_mac_addr r.2) (Z.of_nat ETH_ALEN));
  match rsn, mac with
  | Some rsn, Some mac =>
    peer ← select_sta mac;
    match peer with
    | None => wpa_smk_send_error p (Some mac) STK_MUI_SMK STK_ERR_STA_NR
    | Some q =>
      mem ← w_ask env_mem;
      if negb mem then mret tt else
      addr ← s_get p (sm_addr ∘ assoc);
      smk_send q (smk_info WPA_KEY_INFO_ACK) (Some key_nonce) (rsn ++ wpa_add_kde RSN_KEY_DATA_MAC_ADDR addr None) false
    end
  | _, _ => mret tt
  end.

Definition lifetime_kde : bytes := wpa_add_kde RSN_KEY_DATA_LIFETIME (WPA_PUT_BE32 43200) None.

Definition wpa_send_smk_m4 (p : Z) (key_nonce mac nonce smk : bytes) : W unit :=
  mem ← w_ask env_mem;
  if negb mem then mret tt else
  smk_send p (smk_info WPA_KEY_INFO_INSTALL) (Some key_nonce)
    (wpa_add_kde RSN_KEY_DATA_MAC_ADDR mac None ++ wpa_add_kde RSN_KEY_DATA_NONCE nonce None ++
     wpa_add_kde RSN_KEY_DATA_SMK smk (Some key_nonce) ++ lifetime_kde) true.

Definition wpa_send_smk_m5 (p : Z) (key_nonce rsn nonce smk peer : bytes) : W unit :=
  mem ← w_ask env_mem;
  if negb mem then mret tt else
  smk_send p (smk_info 0) (Some nonce)
    (rsn ++ wpa_add_kde RSN_KEY_DATA_MAC_ADDR peer None ++ wpa_add_kde RSN_KEY_DATA_NONCE key_nonce None ++
     wpa_add_kde RSN_KEY_DATA_SMK smk (Some nonce) ++ lifetime_kde) true.

Definition wpa_smk_m3 (p : Z) (key_nonce key_data : bytes) : W unit :=
  r ← lift_outcome (wpa_parse_kde_ies key_data);
  if decide (r.1 < 0) then mret tt else
  rsn ← lift_outcome (ie_octets key_data (k_rsn_ie r.2));
  mac ← lift_outcome (kde_octets key_data (k_mac_addr r.2) (Z.of_nat ETH_ALEN));
  nonce ← lift_outcome (kde_octets key_data (k_nonce r.2) (Z.of_nat WPA_NONCE_LEN));
  match rsn, mac, nonce with
  | Some rsn, Some mac, Some nonce =>
    peer ← select_sta mac;
    match peer with
    | None => wpa_smk_send_error p (Some mac) STK_MUI_SMK STK_ERR_STA_NR
    | Some q =>
      rand ← w_ask (λ i, env_random i PMK_LEN);
      if decide (rand.1 ≠ 0) then mret tt else
      time ← w_ask env_ntp_timestamp;
      aa ← w_get (auth_addr ∘ auth);
      let smk := overlay (sha256_prf rand.2 (lit "SMK Derivation") (aa ++ time ++ nonce ++ key_nonce)
                            (Z.of_nat PMK_LEN)).2 rand.2 in
      addr ← s_get p (sm_addr ∘ assoc);
      wpa_send_smk_m4 p key_nonce mac nonce smk;;
      wpa_send_smk_m5 q key_nonce rsn nonce smk addr
    end
  | _, _, _ => mret tt
  end.

Definition wpa_smk_error (p : Z) (key_data : bytes) : W unit :=
  r ← lift_outcome (wpa_parse_kde_ies key_data);
  if decide (r.1 < 0) then mret tt else
  mac ← lift_outcome (kde_octets key_data (k_mac_addr r.2) (Z.of_nat ETH_ALEN));
  error ← lift_outcome (kde_octets key_data (k_error r.2) sizeof_rsn_error_kde);
  match mac, error with
  | Some mac, Some error =>
    peer ← select_sta mac;
    match peer with
    | None => mret tt
    | Some q =>
      mui ← lift_outcome (WPA_GET_BE16 error);
      error_type ← lift_outcome (WPA_GET_BE16 (drop 2 error));
      addr ← s_get p (sm_addr ∘ assoc);
      wpa_smk_send_error q (Some addr) mui error_type
    end
  | _, _ => mret tt
  end.

(** ** Reception *)

Inductive rx_msg : Set := PAIRWISE_2 | PAIRWISE_4 | GROUP_2 | REQUEST | SMK_M1 | SMK_M3 | SMK_ERROR.
#[export] Instance rx_msg_eq_dec : EqDecision rx_msg.
Proof. solve_decision. Defined.

(** What is read of a frame *)
Record rx_key := mk_rx_key {
  rx_info : Z;
  rx_replay : bytes;
  rx_nonce : bytes;
  rx_data : bytes }.

(** The lengths and the type are checked; [None] is a frame that is ignored. *)
Definition parse_eapol_key (m : wpa_state_machine) (data : bytes) : outcome (option rx_key) :=
  let hdr := Z.to_nat (sizeof_ieee802_1x_hdr + keyhdrlen (sm_key_mgmt (assoc m))) in
  if decide (zlen data < Z.of_nat hdr) then Ok None else
  info ← WPA_GET_BE16 (drop key_info_at data);
  len ← WPA_GET_BE16 (drop (hdr - 2) data);
  if decide (zlen data - Z.of_nat hdr < len) then Ok None else
  type ← rd data (Z.to_nat sizeof_ieee802_1x_hdr);
  if decide (type ≠ EAPOL_KEY_TYPE_WPA ∧ ¬ (sm_wpa (assoc m) = WPA_VERSION_WPA2 ∧ type = EAPOL_KEY_TYPE_RSN))
  then Ok None else
  replay ← slice data replay_counter_at WPA_REPLAY_COUNTER_LEN;
  nonce ← slice data key_nonce_at WPA_NONCE_LEN;
  key_data ← slice data hdr (Z.to_nat len);
  Ok (Some (mk_rx_key info replay nonce key_data)).

Definition classify (k : rx_key) : rx_msg :=
  let flag f := has_flag (rx_info k) f in
  if flag WPA_KEY_INFO_SMK_MESSAGE && flag WPA_KEY_INFO_REQUEST then
    if flag WPA_KEY_INFO_ERROR then SMK_ERROR else SMK_M1
  else if flag WPA_KEY_INFO_SMK_MESSAGE then SMK_M3
  else if flag WPA_KEY_INFO_REQUEST then REQUEST
  else if negb (flag WPA_KEY_INFO_KEY_TYPE) then GROUP_2
  else if decide (rx_data k = []) then PAIRWISE_4
  else PAIRWISE_2.

(** Whether the version of the descriptor is the one for the suites *)
Definition version_ok (m : wpa_state_machine) (k : rx_key) (msg : rx_msg) : bool :=
  if decide (msg ∈ [REQUEST; PAIRWISE_2; PAIRWISE_4; GROUP_2]) then
    let ver := Z.land (rx_info k) WPA_KEY_INFO_TYPE_MASK in
    let akm := sm_key_mgmt (assoc m) in
    let aes := bool_decide (sm_pairwise (assoc m) = WPA_CIPHER_CCMP ∨ sm_pairwise (assoc m) = WPA_CIPHER_GCMP) in
    negb (aes && wpa_use_aes_cmac m && negb (bool_decide (akm = WPA_KEY_MGMT_OSEN)) &&
          negb (wpa_key_mgmt_suite_b akm) && negb (bool_decide (ver = WPA_KEY_INFO_TYPE_AES_128_CMAC))) &&
    negb (aes && negb (wpa_use_aes_cmac m) && negb (bool_decide (ver = WPA_KEY_INFO_TYPE_HMAC_SHA1_AES))) &&
    negb (wpa_key_mgmt_suite_b akm && negb (bool_decide (ver = WPA_KEY_INFO_TYPE_AKM_DEFINED)))
  else true.

(** The replay counter: what the station is after the check, when the frame is not
    dropped *)
Definition check_replay (m : wpa_state_machine) (k : rx_key) (msg : rx_msg) : option wpa_state_machine :=
  if has_flag (rx_info k) WPA_KEY_INFO_REQUEST then
    if req_replay_counter_used m && negb (bool_decide (memcmp (rx_replay k) (req_replay_counter m) = Gt))
    then None else Some m
  else if wpa_replay_counter_valid (key_replay m) (rx_replay k) then Some m
  else if decide (msg = PAIRWISE_2 ∧ wpa_replay_counter_valid (prev_key_replay m) (rx_replay k) = true ∧
                  wpa_ptk_state m = WPA_PTK_PTKINITNEGOTIATING ∧ SNonce m ≠ rx_nonce k) then
    Some (m <| update_snonce := true |> <| alt_SNonce := SNonce m |> <| alt_snonce_valid := true |>
            <| alt_replay_counter := from_option counter [] (head (key_replay m)) |>)
  else if decide (msg = PAIRWISE_4 ∧ alt_snonce_valid m = true ∧ wpa_ptk_state m = WPA_PTK_PTKINITNEGOTIATING ∧
                  rx_replay k = alt_replay_counter m) then Some m
  else None.

(** The element message 2 repeats *)
Definition repeated_ie (k : rx_key) (kde : wpa_eapol_ie_parse) : outcome (option bytes) :=
  match k_rsn_ie kde, k_osen kde with
  | Some f, _ => ie_octets (rx_data k) (Some f)
  | None, Some f => ie_octets (rx_data k) (Some f)
  | None, None => ie_octets (rx_data k) (k_wpa_ie kde)
  end.

(** Message 2: whether to go on *)
Definition check_message_2 (p : Z) (k : rx_key) : W bool :=
  m ← s_get p id;
  if negb (bool_decide (wpa_ptk_state m = WPA_PTK_PTKSTART ∨ wpa_ptk_state m = WPA_PTK_PTKCALCNEGOTIATING ∨
                        (update_snonce m = true ∧ wpa_ptk_state m = WPA_PTK_PTKINITNEGOTIATING)))
  then mret false else
  reject ← gr_get (group m) reject_4way_hs_for_entropy;
  if (reject : bool) then w_emit Mark_pool_ready;; disconnect_now p;; mret false else
  r ← lift_outcome (wpa_parse_kde_ies (rx_data k));
  if decide (r.1 < 0) then mret false else
  ie ← lift_outcome (repeated_ie k r.2);
  let own := take (Z.to_nat (sm_wpa_ie_len (assoc m))) <$> sm_wpa_ie (assoc m) in
  if decide (wpa_compare_rsn_ie own ie ≠ 0) then disconnect_now p;; mret false else mret true.

(** The switch over the messages: whether to go on *)
Definition check_message (p : Z) (k : rx_key) (msg : rx_msg) : W bool :=
  m ← s_get p id;
  match msg with
  | PAIRWISE_2 => check_message_2 p k
  | PAIRWISE_4 => mret (bool_decide (wpa_ptk_state m = WPA_PTK_PTKINITNEGOTIATING) && PTK_valid m)
  | GROUP_2 => mret (bool_decide (wpa_ptk_group_state m = WPA_PTK_GROUP_REKEYNEGOTIATING) && PTK_valid m)
  | SMK_M1 | SMK_M3 | SMK_ERROR => on ← w_conf peerkey; mret (on && PTK_valid m)
  | REQUEST => mret true
  end.

(** The MIC: whether to go on *)
Definition check_mic (p : Z) (data : bytes) (msg : rx_msg) : W bool :=
  s_upd p (λ m, m <| MICVerified := false |>);;
  m ← s_get p id;
  if negb (PTK_valid m && negb (update_snonce m)) then mret true else
  r ← lift_outcome (wpa_verify_key_mic (sm_key_mgmt (assoc m)) (PTK m) data);
  r ← (if decide (r ≠ 0 ∧ msg = PAIRWISE_4 ∧ alt_snonce_valid m = true)
       then at_station p (λ a _, wpa_try_alt_snonce a data) else mret r);
  if decide (r ≠ 0) then mret false else
  s_upd p (λ m, m <| MICVerified := true |>);;
  w_emit (Cancel_timeout (wpa_send_eapol_timeout p));;
  s_upd p (λ m, m <| pending_1_of_4_timeout := false |>);;
  mret true.

(** A request: whether to go on *)
Definition receive_request (p : Z) (k : rx_key) (msg : rx_msg) : W bool :=
  verified ← s_get p MICVerified;
  if negb verified then mret false else
  s_upd p (λ m, m <| req_replay_counter_used := true |> <| req_replay_counter := rx_replay k |>);;
  let key_type := has_flag (rx_info k) WPA_KEY_INFO_KEY_TYPE in
  if decide (msg = SMK_ERROR) then wpa_smk_error p (rx_data k);; mret false
  else if has_flag (rx_info k) WPA_KEY_INFO_ERROR then
    r ← wpa_receive_error_report p (negb key_type);
    mret (bool_decide (r ≤ 0))
  else if key_type then request_new_ptk p;; mret true
  else if decide (msg = SMK_M1) then wpa_smk_m1 p (rx_nonce k) (rx_data k);; mret true
  else
    r ← (if decide (rx_data k = []) then mret (-1, no_kdes) else lift_outcome (wpa_parse_kde_ies (rx_data k)));
    if decide (r.1 = 0 ∧ k_mac_addr r.2 ≠ None) then mret true
    else w_emit (Cancel_timeout wpa_rekey_gtk);; wpa_rekey_gtk_timeout;; mret true.

(** The counters after a frame was accepted *)
Definition use_replay (k : rx_key) (msg : rx_msg) (m : wpa_state_machine) : wpa_state_machine :=
  let used := wpa_replay_counter_mark_invalid (key_replay m) (Some (rx_replay k)) in
  m <| prev_key_replay := if decide (msg = PAIRWISE_2) then used
         else replicate RSNA_MAX_EAPOL_RETRIES (mk_replay (replicate WPA_REPLAY_COUNTER_LEN 0) false) |>
    <| key_replay := wpa_replay_counter_mark_invalid used None |>.

(** The frame is kept and the machine told. *)
Definition keep_frame (p : Z) (k : rx_key) (data : bytes) : W unit :=
  mem ← w_ask env_mem;
  if negb mem then s_upd p (λ m, m <| last_rx_eapol_key := None |>) else
  let flag f := has_flag (rx_info k) f in
  s_upd p (λ m, m <| last_rx_eapol_key := Some data |> <| rx_eapol_key_secure := flag WPA_KEY_INFO_SECURE |>
                  <| EAPOLKeyReceived := true |> <| EAPOLKeyPairwise := flag WPA_KEY_INFO_KEY_TYPE |>
                  <| EAPOLKeyRequest := flag WPA_KEY_INFO_REQUEST |> <| SNonce := rx_nonce k |>);;
  _ ← wpa_sm_step p;
  mret tt.

(** A frame that passed the checks of its header *)
Definition receive_key (p : Z) (k : rx_key) (data : bytes) : W unit :=
  let msg := classify k in
  m ← s_get p id;
  if negb (version_ok m k msg) then mret tt else
  match check_replay m k msg with
  | None => mret tt
  | Some m' =>
    s_upd p (λ _, m');;
    go ← check_message p k msg;
    if negb go then mret tt
    else if has_flag (rx_info k) WPA_KEY_INFO_ACK || negb (has_flag (rx_info k) WPA_KEY_INFO_MIC) then mret tt else
    go ← check_mic p data msg;
    if negb go then mret tt else
    go ← (if has_flag (rx_info k) WPA_KEY_INFO_REQUEST then receive_request p k msg
          else s_upd p (use_replay k msg);; mret true);
    if negb go then mret tt
    else if decide (msg = SMK_M3) then wpa_smk_m3 p (rx_nonce k) (rx_data k)
    else keep_frame p k data
  end.

Definition wpa_receive (p : Z) (data : bytes) : W unit :=
  wpa ← w_conf conf_wpa;
  if decide (wpa = 0) then mret tt else
  m ← s_get p id;
  k ← lift_outcome (parse_eapol_key m data);
  match k with None => mret tt | Some k => receive_key p k data end.

(** ** The authenticator *)

(** [os_zalloc(sizeof(struct wpa_group))] *)
Definition zero_group (p : Z) : WpaSm.wpa_group :=
  let keys n := replicate 2 (replicate n 0) in
  WpaSm.mk_wpa_group p 0 false 0 false 0 0 0 false (replicate WPA_NONCE_LEN 0) WPA_GROUP_GTK_INIT
    (replicate WPA_GMK_LEN 0) (keys WPA_GTK_MAX_LEN) (replicate WPA_NONCE_LEN 0) false false false
    (keys WPA_IGTK_MAX_LEN) 0 0 0 0.

(** A new group after the first, or the first. The code links it into the list when
    it is returned; nothing looks for it before. The result is whether there is one. *)
Definition wpa_group_init (ptr : option Z) (vlan : Z) (delay_init : bool) : W bool :=
  match ptr with
  | None => mret false
  | Some p =>
    cipher ← w_conf WpaIe.wpa_group;
    let new := (zero_group p) <| GTKAuthenticator := true |> <| WpaSm.vlan_id := vlan |>
                 <| GTK_len := wpa_cipher_key_len cipher |> in
    w_upd (λ w, w <| groups := match groups w with [] => [new] | f :: l => f :: new :: l end |>);;
    _ ← w_ask env_pool_ready;
    r ← at_group p wpa_group_init_gmk_and_counter;
    if decide (r < 0) then w_upd (λ w, w <| groups := filter (λ g, g_ptr g ≠ p) (groups w) |>);; mret false else
    gr_upd p (λ g, g <| GInit := true |>);;
    if delay_init then mret true else
    group_step p;;
    gr_upd p (λ g, g <| GInit := false |>);;
    group_step p;;
    mret true
  end.

(** The start of [wpa_init] and [wpa_reconfig] *)
Definition gen_wpa_ie : W Z :=
  mem ← w_ask env_mem;
  w ← w_get id;
  r ← lift_outcome (wpa_auth_gen_wpa_ie mem (conf (auth w)) (own w));
  w_upd (λ w, w <| own := r.2 |>);;
  mret r.1.

Definition register_rekeying : W unit :=
  gmk ← w_conf wpa_gmk_rekey;
  when (negb (bool_decide (gmk = 0))) (w_emit (Register_timeout wpa_rekey_gmk gmk 0));;
  gtk ← w_conf wpa_group_rekey;
  when (negb (bool_decide (gtk = 0))) (w_emit (Register_timeout wpa_rekey_gtk gtk 0)).

(** An authenticator in place of what is there; [pmksa] is the event loop of the
    cache when the cache can be allocated. The result is whether there is one. *)
Definition wpa_init (ptr : option Z) (pmksa : option Eloop.eloop_data) (addr : bytes) (c : wpa_auth_config) : W bool :=
  mem ← w_ask env_mem;
  if negb mem then mret false else
  w_upd (λ w, w <| auth := mk_auth c addr (pmksa_cache_auth_init Eloop.eloop_init) 0 0 0
                             (replicate (Z.to_nat PMKID_LEN) 0) |>
                <| own := mk_own_ie None 0 |> <| groups := [] |> <| stations := [] |>
                <| remote_mic_failures := 0 |> <| handshake_failures := 0 |> <| countermeasures := 0 |>);;
  r ← gen_wpa_ie;
  if decide (r ≠ 0) then mret false else
  ok ← wpa_group_init ptr 0 true;
  if negb ok then mret false else
  match pmksa with
  | None => mret false
  | Some ev =>
    w_upd (λ w, w <| auth := (auth w) <| auth_pmksa := pmksa_cache_auth_init ev |> |>);;
    register_rekeying;;
    mret true
  end.

Definition wpa_init_keys : W Z :=
  p ← first_ptr;
  group_step p;;
  gr_upd p (λ g, g <| GInit := false |>);;
  group_step p;;
  s ← gr_get p wpa_group_state;
  mret (if decide (s = WPA_GROUP_FATAL_FAILURE) then -1 else 0).

Definition wpa_deinit : W unit :=
  w_emit (Cancel_timeout wpa_rekey_gmk);;
  w_emit (Cancel_timeout wpa_rekey_gtk);;
  w_upd (λ w, w <| own := mk_own_ie None (wpa_ie_len (own w)) |>
                <| out := rev (map (Free_group ∘ g_ptr) (groups w)) ++ out w |> <| groups := [] |>).

Definition wpa_reconfig (c : wpa_auth_config) : W Z :=
  w_upd (λ w, w <| auth := (auth w) <| conf := c |> |>);;
  r ← gen_wpa_ie;
  if decide (r ≠ 0) then mret (-1) else
  p ← first_ptr;
  gr_upd p (λ g, g <| GTK_len := wpa_cipher_key_len (WpaIe.wpa_group c) |> <| GInit := true |>);;
  group_step p;;
  gr_upd p (λ g, g <| GInit := false |>);;
  group_step p;;
  mret 0.

Definition wpa_gtk_rekey : W unit :=
  p ← first_ptr;
  let once := gr_upd p swap_keys;; _ ← at_group p wpa_gtk_update; _ ← at_group p wpa_group_config_group_keys; mret tt in
  once;; once.

Definition wpa_auth_reconfig_group_keys : W unit :=
  l ← w_get (map g_ptr ∘ groups);
  for_each (λ p, _ ← at_group p wpa_group_config_group_keys; mret tt) l.

Definition wpa_auth_countermeasures_start : W unit :=
  w_upd (λ w, w <| countermeasures := u32 (countermeasures w + 1) |>).

(** ** Groups of VLANs *)

Definition group_of_vlan (vlan : Z) : W (option Z) :=
  w_get (λ w, g_ptr <$> List.find (λ g, bool_decide (WpaSm.vlan_id g = vlan)) (groups w)).

Definition wpa_auth_add_group (ptr : option Z) (vlan : Z) : W (option Z) :=
  ok ← wpa_group_init ptr vlan false;
  mret (if (ok : bool) then ptr else None).

(** The group of the VLAN, added when there is none *)
Definition get_group (ptr : option Z) (vlan : Z) : W (option Z) :=
  p ← group_of_vlan vlan;
  match p with Some p => mret (Some p) | None => wpa_auth_add_group ptr vlan end.

Definition wpa_auth_ensure_group (ptr : option Z) (vlan : Z) : W Z :=
  p ← get_group ptr vlan;
  match p with
  | None => mret (-1)
  | Some p =>
    wpa_group_get p;;
    gr_upd p (λ g, g <| num_setup_iface := u32 (num_setup_iface g + 1) |>);;
    s ← gr_get p wpa_group_state;
    mret (if decide (s = WPA_GROUP_FATAL_FAILURE) then -1 else 0)
  end.

Definition wpa_auth_release_group (vlan : Z) : W Z :=
  p ← group_of_vlan vlan;
  match p with
  | None => mret (-1)
  | Some p =>
    g ← gr_get p id;
    if decide (num_setup_iface g ≤ 0) then mret (-1) else
    gr_upd p (λ g, g <| num_setup_iface := u32 (num_setup_iface g - 1) |>);;
    wpa_group_put p;;
    mret (if decide (1 < references g) then -2
          else if decide (wpa_group_state g = WPA_GROUP_FATAL_FAILURE) then -1 else 0)
  end.

(** [ptr] is a new group's, when one is needed. *)
Definition wpa_auth_sta_set_vlan (ptr : option Z) (p : Z) (vlan : Z) : W Z :=
  q ← get_group ptr vlan;
  match q with
  | None => mret (-1)
  | Some q =>
    old ← s_get p group;
    if decide (old = q) then mret 0 else
    s ← gr_get q wpa_group_state;
    if decide (s = WPA_GROUP_FATAL_FAILURE) then mret (-1) else
    wpa_group_get q;;
    wpa_group_put old;;
    s_upd p (λ m, m <| group := q |>);;
    mret 0
  end.

Definition wpa_auth_eapol_key_tx_status (p : Z) (ack : bool) : W unit :=
  m ← s_get p id;
  when (pending_1_of_4_timeout m && ack)
    (w_emit (Cancel_timeout (wpa_send_eapol_timeout p));;
     w_emit (Register_timeout (wpa_send_eapol_timeout p) (eapol_key_timeout_subseq / 1000)
               (eapol_key_timeout_subseq mod 1000 * 1000))).

(** ** The PMKSA cache *)

Section pmksa.
(** How the event loop knows the cache's timeout *)
Context (expire_handler cache_ptr : Z).

(** [wpa_auth_pmksa_clear_cb] *)
Definition clear_pmksa (e : rsn_pmksa_cache_entry) (m : wpa_state_machine) : wpa_state_machine :=
  match sm_pmksa (assoc m) with
  | Some e' => if decide (e_ptr e' = e_ptr e) then m <| assoc := (assoc m) <| sm_pmksa := None |> |> else m
  | None => m
  end.

(** [wpa_auth_pmksa_free_cb], which the cache calls when it frees an entry *)
Definition wpa_auth_pmksa_free_cb (e : rsn_pmksa_cache_entry) : W unit :=
  w_upd (λ w, w <| stations := map (clear_pmksa e) (stations w) |>).

(** An operation on the cache, and the callback for each entry it freed *)
Definition on_cache {A} (f : rsn_pmksa_cache → outcome (A * rsn_pmksa_cache)) : W A :=
  c ← w_get (auth_pmksa ∘ auth);
  r ← lift_outcome (f c);
  w_upd (λ w, w <| auth := (auth w) <| auth_pmksa := r.2 |> |>);;
  let new := take (length (freed r.2) - length (freed c)) (freed r.2) in
  w_upd (λ w, w <| stations := map (λ m, foldr clear_pmksa m new) (stations w) |>);;
  mret r.1.

(** What an entry is made from *)
Record pmksa_arg := mk_pmksa_arg {
  p_env : pm_env;
  p_copies : copies;
  p_entry : option Z;
  p_eapol : option eapol_data }.

Definition cache_add (x : pmksa_arg) (key : bytes) (pmkid kck_ : option bytes) (addr : bytes) (timeout akm : Z) : W Z :=
  aa ← w_get (auth_addr ∘ auth);
  r ← on_cache (pmksa_cache_auth_add expire_handler cache_ptr (p_env x) (p_copies x) (p_entry x) key pmkid kck_
                  aa addr timeout (p_eapol x) akm);
  mret (match r with Some _ => 0 | None => -1 end).

Definition wpa_auth_pmksa_add (x : pmksa_arg) (p : Z) (key : bytes) (session_timeout : Z) : W Z :=
  m ← s_get p id;
  off ← w_conf disable_pmksa_caching;
  if decide (sm_wpa (assoc m) ≠ WPA_VERSION_WPA2 ∨ off = true) then mret (-1) else
  let max := if has_flag (sm_key_mgmt (assoc m)) WPA_KEY_MGMT_IEEE8021X_SUITE_B_192
             then PMK_LEN_SUITE_B_192 else PMK_LEN in
  cache_add x (take max key) None (Some (take (Z.to_nat (kck_len (PTK m))) (kck (PTK m))))
    (sm_addr (assoc m)) session_timeout (sm_key_mgmt (assoc m)).

Definition wpa_auth_pmksa_add_preauth (x : pmksa_arg) (key addr : bytes) (session_timeout : Z) : W Z :=
  cache_add x key None None addr session_timeout WPA_KEY_MGMT_IEEE8021X.

Definition wpa_auth_pmksa_add_sae (x : pmksa_arg) (addr key pmkid : bytes) : W Z :=
  off ← w_conf disable_pmksa_caching;
  if (off : bool) then mret (-1) else
  cache_add x (take PMK_LEN key) (Some pmkid) None addr 0 WPA_KEY_MGMT_SAE.

Definition wpa_auth_pmksa_get (addr : bytes) : W (option rsn_pmksa_cache_entry) :=
  w_get (λ w, pmksa_cache_auth_get (auth_pmksa (auth w)) (Some addr) None).

Definition wpa_auth_pmksa_remove (addr : bytes) : W unit :=
  on_cache (λ c, Ok (tt, match pmksa_cache_auth_get c (Some addr) None with
                         | Some e => pmksa_cache_free_entry e c
                         | None => c
                         end)).

Definition wpa_auth_pmksa_flush : W unit := on_cache (λ c, Ok (tt, pmksa_cache_auth_flush c)).

Definition wpa_auth_radius_das_disconnect_pmksa (attr : radius_das_attrs) : W Z :=
  on_cache (λ c, Ok (pmksa_cache_auth_radius_das_disconnect attr c)).

(** The timeout of the cache *)
Definition pmksa_timeout (env : pm_env) : W unit :=
  on_cache (λ c, c ← pmksa_cache_expire expire_handler cache_ptr env c; Ok (tt, c)).

Definition wpa_auth_sta_clear_pmksa (p : Z) (entry : Z) : W Z :=
  m ← s_get p id;
  if decide (e_ptr <$> sm_pmksa (assoc m) = Some entry) then
    s_upd p (λ m, m <| assoc := (assoc m) <| sm_pmksa := None |> |>);; mret 0
  else mret (-1).

(** The result is the PMK and the PMKID that are copied out. *)
Definition wpa_auth_pmksa_set_to_sm (e : rsn_pmksa_cache_entry) (p : Z) : W (bytes * bytes) :=
  s_upd p (λ m, m <| assoc := (assoc m) <| sm_pmksa := Some e |> |>);;
  key ← lift_outcome (slice (pmk e) 0 PMK_LEN);
  w_upd (λ w, w <| auth := (auth w) <| dot11RSNAPMKIDUsed := e_pmkid e |> |>);;
  mret (key, e_pmkid e).

(** [wpa_validate_wpa_ie] for a station *)
Definition validate_wpa_ie (v : val_env) (p : Z) (ie : option bytes) : W wpa_validate_result :=
  w ← w_get id;
  m ← s_get p id;
  r ← lift_outcome (wpa_validate_wpa_ie expire_handler cache_ptr v (Some (auth w)) (Some (assoc m)) ie);
  w_upd (λ w, w <| auth := default (auth w) r.1.2 |>);;
  s_upd p (λ m, m <| assoc := default (assoc m) r.2 |>);;
  mret r.1.1.

End pmksa.

(** ** Queries *)

Definition wpa_auth_pairwise_set (p : Z) : W bool := s_get p pairwise_set.
Definition wpa_auth_get_pairwise (p : Z) : W Z := s_get p (sm_pairwise ∘ assoc).
Definition wpa_auth_sta_key_mgmt (p : Z) : W Z := s_get p (sm_key_mgmt ∘ assoc).
Definition wpa_auth_sta_wpa_version (p : Z) : W wpa_version := s_get p (sm_wpa ∘ assoc).
Definition wpa_auth_sta_get_pmksa (p : Z) : W (option rsn_pmksa_cache_entry) := s_get p (sm_pmksa ∘ assoc).
Definition wpa_auth_get_wpa_ie : W (option bytes * Z) := w_get (λ w, (wpa_ie (own w), wpa_ie_len (own w))).
Definition wpa_auth_uses_sae (p : Z) : W bool :=
  s_get p (λ m, has_flag (sm_key_mgmt (assoc m)) (Z.lor WPA_KEY_MGMT_SAE WPA_KEY_MGMT_FT_SAE)).
Definition wpa_auth_uses_ft_sae (p : Z) : W bool := s_get p (λ m, bool_decide (sm_key_mgmt (assoc m) = WPA_KEY_MGMT_FT_SAE)).

End auth.
