(* ===== verification/WpaSteps.v ===== *)
(** * WPA authenticator: what the operations on a station do

    The station after each state of [WPA_PTK] and [WPA_PTK_GROUP], and after each
    operation they are made of: its fields, the count of the group, and the effects,
    which grant nothing but in [PTK_PTKINITDONE]. The theorems about the machines
    ([WpaSafety]) work with these instead of the operations. *)

From Stdlib Require Import ZArith Lia Strings.String.
From stdpp Require Import base option list numbers decidable.
From S2P Require Import Prelude CLib Common Ieee8021x WpaCommon WpaKeys Pmksa WpaIe WpaSm.
Local Open Scope Z_scope.

(** ** Running operations *)

Section running.
Context {C : Crypto} {E : Wpa_env}.

Lemma bind_inv {S A B} (m : S_M S A) (f : A → S_M S B) s b s' :
  (m ≫= f) s = Ok (b, s') → ∃ x s1, m s = Ok (x, s1) ∧ f x s1 = Ok (b, s').
Proof.
  unfold mbind, sm_bind. destruct (m s) as [[x s1]| |] eqn:Hm; try done. intros Hf. by exists x, s1.
Qed.

Lemma ret_inv {S A} (x y : A) (s s' : S) : (mret x : S_M S A) s = Ok (y, s') → y = x ∧ s' = s.
Proof. unfold mret, sm_ret. intros H. by simplify_eq. Qed.

Lemma lift_inv {S A} (o : outcome A) (x : A) (s s' : S) : lift_outcome o s = Ok (x, s') → o = Ok x ∧ s' = s.
Proof. unfold lift_outcome. destruct o; cbn; try done. intros H. by simplify_eq. Qed.

Lemma inc_int_inv z r : inc_int z = Ok r → r = z + 1 ∧ z < 2 ^ 31 - 1.
Proof. unfold inc_int. case_decide; intros Hr; by simplify_eq. Qed.

(** The operations on a state that is written out *)
Lemma get_run {A} (f : wpa_state_machine → A) m g F x s' :
  get f (mk_sta m g F) = Ok (x, s') → x = f m ∧ s' = mk_sta m g F.
Proof. unfold get. intros H. by simplify_eq/=. Qed.

Lemma upd_run f m g F x s' : upd f (mk_sta m g F) = Ok (x, s') → s' = mk_sta (f m) g F.
Proof. unfold upd. intros H. by simplify_eq/=. Qed.

Lemma emit_run e m g n o F x s' :
  emit e (mk_sta m (mk_grp g n o) F) = Ok (x, s') → s' = mk_sta m (mk_grp g n (e :: o)) F.
Proof. unfold emit, on_group, g_emit. cbn. intros H. by simplify_eq/=. Qed.

Lemma ask_run {A} (f : nat → A) m g n o F x s' :
  ask f (mk_sta m (mk_grp g n o) F) = Ok (x, s') → x = f n ∧ s' = mk_sta m (mk_grp g (S n) o) F.
Proof. unfold ask, on_group, g_ask. cbn. intros H. by simplify_eq/=. Qed.

Lemma gget_run {A} (f : wpa_group → A) m g n o F x s' :
  gget f (mk_sta m (mk_grp g n o) F) = Ok (x, s') → x = f g ∧ s' = mk_sta m (mk_grp g n o) F.
Proof. unfold gget, on_group, g_get. cbn. intros H. by simplify_eq/=. Qed.

Lemma gupd_run f m g n o F x s' :
  on_group (g_upd f) (mk_sta m (mk_grp g n o) F) = Ok (x, s') → s' = mk_sta m (mk_grp (f g) n o) F.
Proof. unfold on_group, g_upd. cbn. intros H. by simplify_eq/=. Qed.

Lemma set_key_run v alg addr i k m g n o F x s' :
  on_group (wpa_auth_set_key v alg addr i k) (mk_sta m (mk_grp g n o) F) = Ok (x, s') →
  x = env_set_key n ∧ s' = mk_sta m (mk_grp g (S n) (Set_key v alg addr i k :: o)) F.
Proof. unfold on_group, wpa_auth_set_key, g_emit, g_ask. cbn. intros H. by simplify_eq/=. Qed.

End running.

(** The fields of a station that is written out *)
Ltac fields_in H :=
  cbn [setter compose id fst snd sm grp_of gsm g_calls g_out failures
    sm_ptr assoc group wpa_ptk_state wpa_ptk_group_state Init DeauthenticationRequest
    AuthenticationRequest ReAuthenticationRequest Disconnect TimeoutCtr GTimeoutCtr TimeoutEvt
    EAPOLKeyReceived EAPOLKeyPairwise EAPOLKeyRequest MICVerified GUpdateStationKeys ANonce SNonce
    alt_SNonce alt_replay_counter PMK pmk_len PTK PTK_valid pairwise_set keycount Pair key_replay
    prev_key_replay PInitAKeys PTKRequest has_GTK PtkGroupInit last_rx_eapol_key sm_changed in_step_loop
    pending_deinit started rx_eapol_key_secure update_snonce alt_snonce_valid req_replay_counter
    req_replay_counter_used dot11RSNAStatsTKIPRemoteMICFailures pending_1_of_4_timeout] in H.

(** A station field by field *)
Ltac fields m :=
  destruct m as [sm_ptr0 assoc0 group0 wpa_ptk_state0 wpa_ptk_group_state0 Init0 DeauthenticationRequest0
   AuthenticationRequest0 ReAuthenticationRequest0 Disconnect0 TimeoutCtr0 GTimeoutCtr0 TimeoutEvt0
   EAPOLKeyReceived0 EAPOLKeyPairwise0 EAPOLKeyRequest0 MICVerified0 GUpdateStationKeys0 ANonce0
   SNonce0 alt_SNonce0 alt_replay_counter0 PMK0 pmk_len0 PTK0 PTK_valid0 pairwise_set0 keycount0
   Pair0 key_replay0 prev_key_replay0 PInitAKeys0 PTKRequest0 has_GTK0 PtkGroupInit0
   last_rx_eapol_key0 sm_changed0 in_step_loop0 pending_deinit0 started0 rx_eapol_key_secure0
   update_snonce0 alt_snonce_valid0 req_replay_counter0 req_replay_counter_used0
   dot11RSNAStatsTKIPRemoteMICFailures0 pending_1_of_4_timeout0].

(** Unfolds the operation that [H] runs, by an equation *)
Ltac head_of t := lazymatch t with ?f _ => head_of f | _ => t end.
Ltac open H :=
  lazymatch type of H with ?op _ = _ =>
    let h := head_of op in
    let b := eval unfold h, enter, enter_group, inc_TimeoutCtr, set_GKeyDoneStations in op in
    let E := fresh in assert (E : op = b) by reflexivity; rewrite E in H; clear E
  end.

(** Runs the operation in [H]: what it binds and the small operations it is made of *)
Ltac run H :=
  cbv beta in H; fields_in H;
  lazymatch type of H with
  | (_ ≫= _) _ = Ok _ =>
    let x := fresh "x" in let s1 := fresh "s" in let H1 := fresh "Hrun" in
    apply bind_inv in H as (x & s1 & H1 & H); run H1;
    lazymatch type of H with _ (mk_sta _ _ _) = _ => run H | _ => idtac end
  | mret _ _ = Ok _ => apply ret_inv in H as [? ?]; subst
  | lift_outcome _ _ = Ok _ => apply lift_inv in H as [? ?]; subst
  | get _ _ = Ok _ => apply get_run in H as [? ?]; subst
  | upd _ _ = Ok _ => apply upd_run in H; subst
  | emit _ _ = Ok _ => apply emit_run in H; subst
  | ask _ _ = Ok _ => apply ask_run in H as [? ?]; subst
  | gget _ _ = Ok _ => apply gget_run in H as [? ?]; subst
  | on_group (g_upd _) _ = Ok _ => apply gupd_run in H; subst
  | on_group (wpa_auth_set_key _ _ _ _ _) _ = Ok _ => apply set_key_run in H as [? ?]; subst
  | wpa_auth_set_eapol _ _ _ = Ok _ => unfold wpa_auth_set_eapol in H; run H
  | wpa_auth_set_authorized _ _ = Ok _ => unfold wpa_auth_set_authorized in H; run H
  | wpa_auth_get_eapol _ _ = Ok _ => unfold wpa_auth_get_eapol in H; run H
  | this_timer _ _ = Ok _ => unfold this_timer in H; run H
  | register_timeout _ _ _ _ = Ok _ => unfold register_timeout in H; run H
  | cancel_timeout _ _ = Ok _ => unfold cancel_timeout in H; run H
  | when ?b _ _ = Ok _ => unfold when in H; destruct b eqn:?; run H
  | _ => idtac
  end.

(** What an operation does outside that grants nothing: no pairwise key is installed
    and no port opened. Timeouts are those of the station at [p]. *)
Definition quiet (p : Z) (e : wpa_effect) : Prop :=
  match e with
  | Set_key _ alg addr _ _ => alg = WPA_ALG_NONE ∨ addr = broadcast_ether_addr
  | Set_authorized _ v => v = false
  | Set_eapol _ WPA_EAPOL_portValid v => v = false
  | Register_timeout t _ _ => t = wpa_send_eapol_timeout p
  | Cancel_timeout t => t = wpa_send_eapol_timeout p ∨ t = wpa_rekey_ptk p
  | Free_sm _ | Free_group _ => False
  | _ => True
  end.

(** A log to which effects that satisfy [Q] were added *)
Inductive extends (Q : wpa_effect → Prop) (o : list wpa_effect) : list wpa_effect → Prop :=
| ext_refl : extends Q o o
| ext_cons e o' : Q e → extends Q o o' → extends Q o (e :: o').
Abbreviation ext p := (extends (quiet p)).

Lemma ext_trans Q o1 o2 o3 : extends Q o1 o2 → extends Q o2 o3 → extends Q o1 o3.
Proof. intros H1 H2. induction H2; [done|]. by constructor. Qed.

Lemma ext_weaken (Q R : wpa_effect → Prop) o1 o2 : (∀ e, Q e → R e) → extends Q o1 o2 → extends R o1 o2.
Proof. intros HQR H. induction H; constructor; auto. Qed.

(** A group without the fields that any operation on one of its stations may change *)
Definition g_core (g : wpa_group) : wpa_group :=
  g <| Counter := [] |> <| GMK := [] |> <| GTK := [] |> <| GNonce := [] |> <| IGTK := [] |>
    <| first_sta_seen := false |> <| reject_4way_hs_for_entropy := false |>.

(** The state after an operation: [m'] is the station, [k] the number of stations that
    have the new group key to get. *)
Record ran (p : Z) (g : wpa_group) (o : list wpa_effect) (F : Z) (m' : wpa_state_machine) (k : Z) (s' : sta) : Prop := {
  ran_sm : sm s' = m';
  ran_core : g_core (gsm (grp_of s')) = g_core (g <| GKeyDoneStations := k |>);
  ran_out : ext p o (g_out (grp_of s'));
  ran_failures : failures s' = F }.

(** The address of a station *)
Definition at_ptr (m : wpa_state_machine) (p : Z) : Prop := sm_ptr m = p.

(** [H] runs an operation that [lem] describes; its result is written out. *)
Ltac ran_in H lem :=
  match type of H with _ ?s0 = Ok (_, ?s) =>
    match goal with Hp : at_ptr _ ?p |- _ =>
      apply (lem p) in H; [|first [exact Hp|unfold at_ptr in *; cbn; repeat case_match; done]];
      destruct H as [?Hm ?Hg ?Ho ?HF]; destruct s as [?m1 [?g1 ?n1 ?o1] ?F1]; cbn [sm grp_of gsm g_out failures] in *; subst
    end end.

Lemma core_keep g g1 g2 k :
  g_core g2 = g_core (g1 <| GKeyDoneStations := GKeyDoneStations g1 |>) →
  g_core g1 = g_core (g <| GKeyDoneStations := k |>) → g_core g2 = g_core (g <| GKeyDoneStations := k |>).
Proof. intros H1 H2. etransitivity; [exact H1|exact H2]. Qed.

Lemma core_set g g1 g2 k k' :
  g_core g2 = g_core (g1 <| GKeyDoneStations := k |>) →
  g_core g1 = g_core (g <| GKeyDoneStations := k' |>) → g_core g2 = g_core (g <| GKeyDoneStations := k |>).
Proof. intros -> H. by apply (f_equal (λ x, x <| GKeyDoneStations := k |>)) in H. Qed.

(** The core of a group through the operations that were run *)
Ltac core_chain :=
  first [eassumption | reflexivity | eapply core_keep; [eassumption|core_chain] | eapply core_set; [eassumption|core_chain]].

Create HintDb wpa.
#[export] Hint Constructors extends : wpa.
#[export] Hint Extern 1 (quiet _ _) => (unfold at_ptr in *; cbn; first [tauto | subst; tauto | f_equal; congruence]) : wpa.

Lemma core_GKeyDone g g' k : g_core g' = g_core (g <| GKeyDoneStations := k |>) → GKeyDoneStations g' = k.
Proof. intros H. by apply (f_equal GKeyDoneStations) in H. Qed.

Ltac ext_chain :=
  match goal with
  | |- extends _ ?o ?o => apply ext_refl
  | |- extends _ _ (_ :: _) => apply ext_cons; [auto with wpa|ext_chain]
  | H : extends _ _ ?o2 |- extends _ _ ?o2 => first [exact H | eapply ext_trans; [|exact H]; ext_chain]
  end.

(** The end of a run *)
Ltac ran_done := split; cbn [sm grp_of gsm g_out failures]; [reflexivity|core_chain|ext_chain|reflexivity].

Section shapes.
Context {C : Crypto} {E : Wpa_env} (a : wpa_authenticator) (own : own_ie).

(** ** Sending *)

Lemma eapol_key_data_run m0 v kde l len enc m g n o F x s' :
  eapol_key_data m0 v kde l len enc (mk_sta m (mk_grp g n o) F) = Ok (x, s') →
  ∃ g' n', s' = mk_sta m (mk_grp g' n' o) F ∧ g_core g' = g_core g.
Proof.
  intros H. open H. destruct kde as [k|]; [|run H; eauto].
  run H. destruct enc; [|run H; eauto].
  run H. destruct (env_mem n); cbn [negb] in H; [|run H; eauto].
  destruct (wraps_keys m0 v); [destruct (aes_wrap _ _); run H; eauto|].
  case_decide; run H; eexists _, _; (split; [reflexivity|]); done.
Qed.

(** The key data and the counter do not matter to the rest. *)
Lemma send_frame_run info rsc nonce kde l idx enc fv p m g n o F x s' :
  at_ptr m p →
  __wpa_send_eapol a info rsc nonce kde l idx enc fv (mk_sta m (mk_grp g n o) F) = Ok (x, s') →
  ∃ kr, (kr = key_replay m ∨ kr = next_replay (key_replay m)) ∧
    ran p g o F (m <| key_replay := kr |>) (GKeyDoneStations g) s'.
Proof.
  intros Hp H. open H. run H. destruct (env_mem n); cbn [negb] in H.
  2:{ run H. exists (key_replay m). split; [by left|]. split; cbn; [by destruct m|by destruct g|constructor|done]. }
  run H. apply eapol_key_data_run in Hrun as (g' & n' & -> & Hg).
  exists (next_replay (key_replay m)). split; [by right|].
  match type of H with (match ?d with _ => _ end) _ = _ => destruct d as [[[iv kd] lf]|] end.
  2:{ run H. by split; cbn; auto with wpa. }
  match type of H with (if ?b then _ else _) _ = _ => destruct b end; run H; split; cbn; auto with wpa.
Qed.

(** A station that was sent a frame *)
Definition sent (m m' : wpa_state_machine) : Prop :=
  ∃ kr p, (kr = key_replay m ∨ kr = next_replay (key_replay m)) ∧
    m' = m <| key_replay := kr |> <| pending_1_of_4_timeout := p |>.

Lemma sent_refl m : sent m m.
Proof. exists (key_replay m), (pending_1_of_4_timeout m). split; [by left|by destruct m]. Qed.

Lemma send_run info rsc nonce kde l idx enc p m g n o F x s' :
  at_ptr m p →
  wpa_send_eapol a info rsc nonce kde l idx enc (mk_sta m (mk_grp g n o) F) = Ok (x, s') →
  ∃ m', sent m m' ∧ ran p g o F m' (GKeyDoneStations g) s'.
Proof.
  intros Hp H. open H. run H.
  apply (send_frame_run _ _ _ _ _ _ _ _ p) in Hrun as (kr & Hkr & [Hm Hg Ho HF]); [|done].
  destruct s as [m1 [g1 n1 o1] F1]. cbn in Hm, Hg, Ho, HF. subst m1 F1. run H.
  - eexists. split; [by exists kr, true|]. split; cbn; auto with wpa.
  - exists (m <| key_replay := kr |>). split; [exists kr, (pending_1_of_4_timeout m); split; [done|by destruct m]|].
    split; cbn; auto with wpa.
Qed.

(** ** The keys of the group *)

Lemma g_get_run {A} (f : wpa_group → A) g n o x gr :
  g_get f (mk_grp g n o) = Ok (x, gr) → x = f g ∧ gr = mk_grp g n o.
Proof. unfold g_get. intros H. by simplify_eq/=. Qed.
Lemma g_upd_run f g n o x gr : g_upd f (mk_grp g n o) = Ok (x, gr) → gr = mk_grp (f g) n o.
Proof. unfold g_upd. intros H. by simplify_eq/=. Qed.
Lemma g_emit_run e g n o x gr : g_emit e (mk_grp g n o) = Ok (x, gr) → gr = mk_grp g n (e :: o).
Proof. unfold g_emit. intros H. by simplify_eq/=. Qed.
Lemma g_ask_run {A} (f : nat → A) g n o x gr :
  g_ask f (mk_grp g n o) = Ok (x, gr) → x = f n ∧ gr = mk_grp g (S n) o.
Proof. unfold g_ask. intros H. by simplify_eq/=. Qed.

End shapes.

(** [run] for the operations on a group *)
Ltac grun H :=
  cbv beta in H;
  lazymatch type of H with
  | (_ ≫= _) _ = Ok _ =>
    let x := fresh "x" in let s1 := fresh "s" in let H1 := fresh "Hrun" in
    apply bind_inv in H as (x & s1 & H1 & H); grun H1;
    lazymatch type of H with _ (mk_grp _ _ _) = _ => grun H | _ => idtac end
  | mret _ _ = Ok _ => apply ret_inv in H as [? ?]; subst
  | lift_outcome _ _ = Ok _ => apply lift_inv in H as [? ?]; subst
  | g_get _ _ = Ok _ => apply g_get_run in H as [? ?]; subst
  | g_upd _ _ = Ok _ => apply g_upd_run in H; subst
  | g_emit _ _ = Ok _ => apply g_emit_run in H; subst
  | g_ask _ _ = Ok _ => apply g_ask_run in H as [? ?]; subst
  | wpa_auth_set_key _ _ _ _ _ _ = Ok _ => unfold wpa_auth_set_key in H; grun H
  | next_gnonce _ = Ok _ => unfold next_gnonce in H; grun H
  | when ?b _ _ = Ok _ => unfold when in H; destruct b eqn:?; grun H
  | _ => idtac
  end.

Section groups.
Context {C : Crypto} {E : Wpa_env} (a : wpa_authenticator) (own : own_ie).

(** What an operation on the keys of a group leaves of it *)
Record gran (p : Z) (g : wpa_group) (o : list wpa_effect) (gr : grp) : Prop := {
  gran_core : g_core (gsm gr) = g_core g;
  gran_out : ext p o (g_out gr) }.

Lemma gran_trans p g o gr1 gr2 : gran p g o gr1 → gran p (gsm gr1) (g_out gr1) gr2 → gran p g o gr2.
Proof. intros [H1 H2] [H3 H4]. split; [congruence|by eapply ext_trans]. Qed.

Lemma gmk_to_gtk_run p label gtk len g n o x gr :
  wpa_gmk_to_gtk a label gtk len (mk_grp g n o) = Ok (x, gr) → gran p g o gr.
Proof. intros H. open H. grun H. split; cbn; [done|constructor]. Qed.

Lemma init_gmk_run p g n o x gr :
  wpa_group_init_gmk_and_counter a (mk_grp g n o) = Ok (x, gr) → gran p g o gr.
Proof.
  intros H. open H. grun H. cbn [fst snd] in *.
  case_decide; [grun H; split; cbn; [done|constructor]|]. grun H.
  case_decide; grun H; split; cbn; (done || constructor || done).
Qed.

Lemma gtk_update_run p g n o x gr : wpa_gtk_update a (mk_grp g n o) = Ok (x, gr) → gran p g o gr.
Proof.
  intros H. open H. grun H.
  apply (gmk_to_gtk_run p) in Hrun as [Hc Ho]. destruct s as [g1 n1 o1]. cbn in Hc, Ho. grun H.
  case_decide; [grun H; split; cbn; [exact Hc|done]|]. grun H.
  apply (gmk_to_gtk_run p) in Hrun as [Hc' Ho']. destruct s as [g2 n2 o2]. cbn in Hc', Ho'. grun H.
  split; cbn; [|by eapply ext_trans]. etransitivity; [exact Hc'|exact Hc].
Qed.

Lemma config_keys_run p g n o x gr : wpa_group_config_group_keys a (mk_grp g n o) = Ok (x, gr) → gran p g o gr.
Proof.
  intros H. open H. grun H.
  case_decide; [grun H; split; cbn; auto with wpa|]. grun H.
  case_decide; grun H; split; cbn; auto with wpa.
Qed.

Lemma ensure_init_run p g n o x gr : wpa_group_ensure_init a (mk_grp g n o) = Ok (x, gr) → gran p g o gr.
Proof.
  intros H. open H. grun H. destruct (first_sta_seen g); [grun H; split; [done|constructor]|].
  grun H. assert (gran p g o s) as Hs.
  { case_decide; grun Hrun; split; cbn; (done) || constructor. }
  clear Hrun. destruct s as [g1 n1 o1]. grun H.
  apply (init_gmk_run p) in Hrun. pose proof (gran_trans _ _ _ _ _ Hs Hrun) as H1. clear Hs Hrun.
  destruct s as [g2 n2 o2]. apply bind_inv in H as (r & s & Hr & H).
  assert (gran p g2 o2 s) as H2.
  { clear H. case_decide; [grun Hr; split; [done|constructor]|by apply (gtk_update_run p) in Hr]. }
  pose proof (gran_trans _ _ _ _ _ H1 H2) as H3. clear H1 H2 Hr. destruct s as [g3 n3 o3].
  apply bind_inv in H as (r' & s & Hr & H).
  assert (gran p g3 o3 s) as H4.
  { clear H. case_decide; [grun Hr; split; [done|constructor]|by apply (config_keys_run p) in Hr]. }
  pose proof (gran_trans _ _ _ _ _ H3 H4) as [H5 H6]. clear H3 H4 Hr. destruct s as [g4 n4 o4]. cbn in H5, H6.
  grun H; split; cbn; done || exact H5.
Qed.

Lemma on_group_run {A} (op : G A) m g n o F x s' :
  on_group op (mk_sta m (mk_grp g n o) F) = Ok (x, s') →
  ∃ gr, op (mk_grp g n o) = Ok (x, gr) ∧ s' = mk_sta m gr F.
Proof.
  unfold on_group. cbn. destruct (op _) as [[y gr]| |]; cbn; try done. intros H. simplify_eq/=. by exists gr.
Qed.

Lemma ran_gran p m g o F gr :
  gran p g o gr → ran p g o F m (GKeyDoneStations g) (mk_sta m gr F).
Proof. intros [H1 H2]. by split. Qed.

(** ** The states of [WPA_PTK] *)

(** A station without its pairwise key *)
Definition forget (m : wpa_state_machine) : wpa_state_machine :=
  m <| PTK_valid := false |> <| PTK := zero_ptk |> <| pairwise_set := false |>.

Lemma remove_ptk_run p m g n o F x s' :
  at_ptr m p → wpa_remove_ptk (mk_sta m (mk_grp g n o) F) = Ok (x, s') →
  ran p g o F (forget m) (GKeyDoneStations g) s'.
Proof. intros Hp H. open H. fields m. run H. ran_done. Qed.

Lemma event_remove_run e p m g n o F x s' :
  at_ptr m p → event_remove_ptk e (mk_sta m (mk_grp g n o) F) = Ok (x, s') →
  ∃ m', ran p g o F m' (GKeyDoneStations g) s' ∧
    (m' = m ∧ e = WPA_AUTH ∨ m' = m <| PTK_valid := false |> <| PTK := zero_ptk |> ∨ m' = forget m).
Proof.
  intros Hp H. open H. run H.
  match type of H with (if ?b then _ else _) _ = _ => destruct b eqn:Hb end.
  { run H. eexists. split; [by split; cbn; auto with wpa|left]. split; [done|].
    apply andb_prop in Hb as [_ Hb]. by apply bool_decide_eq_true in Hb. }
  run H.
  - apply (remove_ptk_run p) in H; [|done]. eexists. split; [exact H|]. by right; right.
  - eexists. split; [by split; cbn; auto with wpa|]. by right; left.
Qed.

(** A station the access point disconnects *)
Definition deauthed (m : wpa_state_machine) : wpa_state_machine :=
  forget (m <| DeauthenticationRequest := true |>) <| sm_changed := true |>.

Lemma deauth_run p m g n o F x s' :
  at_ptr m p → deauth_in_step_loop (mk_sta m (mk_grp g n o) F) = Ok (x, s') →
  ran p g o F (deauthed m) (GKeyDoneStations g) s'.
Proof.
  intros Hp H. open H. run H. unfold event_remove_ptk in Hrun.
  rewrite (bool_decide_eq_false_2 (WPA_DEAUTH = WPA_AUTH)), (bool_decide_eq_false_2 (WPA_DEAUTH = WPA_REAUTH_EAPOL))
    in Hrun by done.
  run Hrun. rewrite andb_false_r in Hrun. cbn [negb when] in Hrun. run Hrun. ran_in Hrun (@remove_ptk_run). run H. by split.
Qed.

Lemma disconnect_run p m g n o F x s' :
  at_ptr m p → wpa_sta_disconnect (mk_sta m (mk_grp g n o) F) = Ok (x, s') →
  ran p g o F (deauthed m) (GKeyDoneStations g) s'.
Proof.
  intros Hp H. open H. run H. apply (deauth_run p) in H as [? ? ? ?]; [|done]. split; try done.
  eapply ext_trans; [|done]. auto with wpa.
Qed.

(** One less to give the new group key, when the station had to get it *)
Definition done_count (m : wpa_state_machine) (g : wpa_group) : Z :=
  if GUpdateStationKeys m then GKeyDoneStations g - 1 else GKeyDoneStations g.

Lemma group_key_done_run p m g n o F x s' :
  at_ptr m p → group_key_done (mk_sta m (mk_grp g n o) F) = Ok (x, s') →
  ran p g o F (m <| GUpdateStationKeys := false |>) (done_count m g) s'.
Proof.
  intros Hp H. open H. unfold done_count. run H.
  - unfold dec_int in *. case_decide; simplify_eq/=. destruct (GUpdateStationKeys m); [|done]. by split; cbn; auto with wpa.
  - destruct (GUpdateStationKeys m); [done|]. by split; cbn; auto with wpa.
Qed.

Definition initialized (m : wpa_state_machine) : wpa_state_machine :=
  forget (m <| wpa_ptk_state := WPA_PTK_INITIALIZE |> <| sm_changed := if Init m then false else true |> <| keycount := 0 |>
            <| GUpdateStationKeys := false |>
            <| PInitAKeys := if decide (sm_wpa (assoc m) = WPA_VERSION_WPA) then false else PInitAKeys m |>
            <| Pair := true |>) <| TimeoutCtr := 0 |>.

Lemma INITIALIZE_run p m g n o F x s' :
  at_ptr m p → PTK_INITIALIZE (mk_sta m (mk_grp g n o) F) = Ok (x, s') →
  ran p g o F (initialized m) (done_count m g) s'.
Proof.
  intros Hp H. open H. fields m. run H.
  ran_in Hrun (@group_key_done_run). run H. ran_in Hrun (@remove_ptk_run). unfold forget in H. run H; ran_done.
Qed.

Definition entered (s : ptk_state) (m : wpa_state_machine) : wpa_state_machine :=
  m <| sm_changed := true |> <| wpa_ptk_state := s |>.
Definition entered_group (s : ptk_group_state) (m : wpa_state_machine) : wpa_state_machine :=
  m <| sm_changed := true |> <| wpa_ptk_group_state := s |>.

Lemma DISCONNECT_run p m g n o F x s' :
  at_ptr m p → PTK_DISCONNECT (mk_sta m (mk_grp g n o) F) = Ok (x, s') →
  ran p g o F (deauthed (entered WPA_PTK_DISCONNECT m <| Disconnect := false |>)) (GKeyDoneStations g) s'.
Proof.
  intros Hp H. open H. fields m. run H. apply (disconnect_run p) in H; [|done]. exact H.
Qed.

Lemma DISCONNECTED_run p m g n o F x s' :
  at_ptr m p → PTK_DISCONNECTED (mk_sta m (mk_grp g n o) F) = Ok (x, s') →
  ran p g o F (entered WPA_PTK_DISCONNECTED m <| DeauthenticationRequest := false |>) (GKeyDoneStations g) s'.
Proof. intros Hp H. open H. fields m. run H. ran_done. Qed.

Lemma AUTHENTICATION_run p m g n o F x s' :
  at_ptr m p → PTK_AUTHENTICATION (mk_sta m (mk_grp g n o) F) = Ok (x, s') →
  ran p g o F (entered WPA_PTK_AUTHENTICATION m <| PTK := zero_ptk |> <| PTK_valid := false |>
                 <| AuthenticationRequest := false |>) (GKeyDoneStations g) s'.
Proof. intros Hp H. open H. fields m. run H. ran_done. Qed.

(** [i] is the number of the question that gave the nonce. *)
Lemma AUTHENTICATION2_run p m g n o F x s' :
  at_ptr m p → PTK_AUTHENTICATION2 a (mk_sta m (mk_grp g n o) F) = Ok (x, s') →
  ∃ i (ok : bool),
    ran p g o F (entered WPA_PTK_AUTHENTICATION2 m <| ReAuthenticationRequest := false |>
                   <| ANonce := (env_random i WPA_NONCE_LEN).2 |> <| Disconnect := if ok then Disconnect m else true |>
                   <| TimeoutCtr := if ok then 0 else TimeoutCtr m |>) (GKeyDoneStations g) s'.
Proof.
  intros Hp H. open H. fields m. run H.
  apply on_group_run in Hrun as (gr & Hgr & ->). apply (ensure_init_run p) in Hgr as [Hg Ho].
  destruct gr as [g1 n1 o1]. cbn in Hg, Ho. run H.
  case_decide; run H.
  - exists n1, false. split; cbn [sm grp_of gsm g_out failures]; [reflexivity|exact Hg|ext_chain|reflexivity].
  - exists n1, true. split; cbn [sm grp_of gsm g_out failures]; [reflexivity|exact Hg|ext_chain|reflexivity].
Qed.

(** The PMK is the first [len] octets of [key]. *)
Definition pmk_put (key : bytes) (len : Z) (m m' : wpa_state_machine) : Prop :=
  ∃ new, slice key 0 (Z.to_nat len) = Ok (take (Z.to_nat len) new) ∧ length new = length (PMK m) ∧
    (Z.to_nat len ≤ length new)%nat ∧ m' = m <| PMK := new |> <| pmk_len := len |>.

Lemma put_pmk_run p key len m g n o F x s' :
  at_ptr m p → put_pmk key len (mk_sta m (mk_grp g n o) F) = Ok (x, s') →
  ∃ m', pmk_put key len m m' ∧ ran p g o F m' (GKeyDoneStations g) s'.
Proof.
  intros Hp H. open H. fields m. run H.
  rename H0 into Hk, H1 into Hw. pose proof (slice_length _ _ _ _ Hk) as Hl.
  unfold write in Hw. cbn [Nat.add take app] in Hw. case_decide as Hd; [|done]. simplify_eq.
  eexists. split; [|ran_done].
  exists (x0 ++ drop (length x0) PMK0). split; [|split; [|split; [|reflexivity]]].
  - rewrite Hk. f_equal. rewrite <- Hl. by rewrite take_app_length.
  - rewrite length_app, length_drop. cbn. lia.
  - rewrite length_app, length_drop. cbn. lia.
Qed.

Definition initpmk (m m' : wpa_state_machine) : Prop :=
  m' = entered WPA_PTK_INITPMK m <| Disconnect := true |> ∨
  ∃ key len, pmk_put key len (entered WPA_PTK_INITPMK m <| req_replay_counter_used := false |>) m' ∧
    match sm_pmksa (assoc m) with
    | Some e => key = pmk e ∧ len = zlen (pmk e)
    | None => ∃ i, env_msk i (sm_addr (assoc m)) = Some key ∧ len ≤ zlen key ∧ (len = Z.of_nat PMK_LEN ∨ len = Z.of_nat PMK_LEN_SUITE_B_192)
    end.

Lemma INITPMK_run p m g n o F x s' :
  at_ptr m p → PTK_INITPMK (mk_sta m (mk_grp g n o) F) = Ok (x, s') →
  ∃ m', ran p g o F m' (GKeyDoneStations g) s' ∧ initpmk m m'.
Proof.
  unfold initpmk.
  intros Hp H. open H. fields m. run H.
  destruct (sm_pmksa assoc0) as [e|] eqn:Hs.
  - run H. apply (put_pmk_run p) in Hrun as (m' & (new & Hk & Hl & Hn & ->) & [Hm Hg Ho HF]); [|done].
    destruct s as [m1 [g1 n1 o1] F1]; cbn [sm grp_of gsm g_out failures] in *; subst. run H.
    eexists. split; [ran_done|right]. exists (pmk e), (zlen (pmk e)). split; [|cbn [assoc]; by rewrite Hs].
    exists new. by split_and!.
  - run H. destruct (env_msk n _) as [msk|] eqn:He; [|run H; eexists; split; [ran_done|by left]].
    case_decide; [run H; eexists; split; [ran_done|by left]|]. run H.
    apply (put_pmk_run p) in Hrun as (m' & (new & Hk & Hl & Hn & ->) & [Hm Hg Ho HF]); [|done].
    destruct s as [m1 [g1 n1 o1] F1]; cbn [sm grp_of gsm g_out failures] in *; subst. run H.
    eexists. split; [ran_done|right]. eexists msk, _. split; [exists new; by split_and!|]. cbn [assoc]. rewrite Hs.
    exists n. split; [done|]. split; [lia|]. case_match; auto.
Qed.

Definition initpsk (m m' : wpa_state_machine) : Prop :=
  ∃ i, let m1 := entered WPA_PTK_INITPSK m <| req_replay_counter_used := false |> in
    match env_psks i (sm_addr (assoc m)) with
    | psk :: _ => pmk_put psk (Z.of_nat PMK_LEN) m1 m'
    | [] => m' = m1
    end.

Lemma INITPSK_run p m g n o F x s' :
  at_ptr m p → PTK_INITPSK (mk_sta m (mk_grp g n o) F) = Ok (x, s') →
  ∃ m', ran p g o F m' (GKeyDoneStations g) s' ∧ initpsk m m'.
Proof.
  intros Hp H. open H. fields m. run H.
  destruct (env_psks n _) as [|psk l] eqn:He.
  - run Hrun. run H. eexists. split; [ran_done|]. exists n. cbn [assoc]. by rewrite He.
  - apply (put_pmk_run p) in Hrun as (m' & (new & Hk & Hl & Hn & ->) & [Hm Hg Ho HF]); [|done].
    destruct s as [m1 [g1 n1 o1] F1]; cbn [sm grp_of gsm g_out failures] in *; subst. run H.
    eexists. split; [ran_done|]. exists n. cbn [assoc]. rewrite He. exists new. by split_and!.
Qed.

Definition starting (m : wpa_state_machine) : wpa_state_machine :=
  entered WPA_PTK_PTKSTART m <| PTKRequest := false |> <| TimeoutEvt := false |> <| alt_snonce_valid := false |>
    <| TimeoutCtr := TimeoutCtr m + 1 |>.

Lemma PTKSTART_run p m g n o F x s' :
  at_ptr m p → PTK_PTKSTART a (mk_sta m (mk_grp g n o) F) = Ok (x, s') →
  ∃ m', ran p g o F m' (GKeyDoneStations g) s' ∧
    sent (starting m) m'.
Proof.
  intros Hp H. open H. fields m. run H.
  apply inc_int_inv in H0 as [-> _]. case_decide.
  - run H. eexists. split; [ran_done|]. apply sent_refl.
  - run H. apply (send_run a _ _ _ _ _ _ _ p) in H as (m' & Hs & Hr); [|done]. by exists m'.
Qed.

(** The keys that are tried, and the one that fits *)
Definition candidates (m : wpa_state_machine) (i : nat) : list bytes :=
  if wpa_key_mgmt_wpa_psk (sm_key_mgmt (assoc m)) then env_psks i (sm_addr (assoc m)) else [take (Z.to_nat (pmk_len m)) (PMK m)].

Lemma candidates_run m g n o F x s' :
  pmk_candidates (mk_sta m (mk_grp g n o) F) = Ok (x, s') →
  ∃ n', x = candidates m n ∧ s' = mk_sta m (mk_grp g n' o) F.
Proof.
  intros H. unfold pmk_candidates, candidates in *. run H. destruct (wpa_key_mgmt_wpa_psk _); run H; eauto.
Qed.

Lemma try_pmks_some m sn data pmks pmk ptk :
  try_pmks a m sn data pmks = Ok (Some (pmk, ptk)) →
  pmk ∈ pmks ∧ ptk = wpa_derive_ptk a m sn pmk ∧ wpa_verify_key_mic (sm_key_mgmt (assoc m)) ptk data = Ok 0.
Proof.
  induction pmks as [|k pmks IH]; cbn [try_pmks]; [done|]. intros H.
  apply bind_Ok_inv in H as (r & Hv & H). case_decide.
  - simplify_eq. split; [by constructor|]. by split.
  - destruct (IH H) as (? & ? & ?). split; [by constructor|]. by split.
Qed.

Definition calculating (m : wpa_state_machine) : wpa_state_machine :=
  entered WPA_PTK_PTKCALCNEGOTIATING m <| EAPOLKeyReceived := false |> <| update_snonce := false |>.

(** The key is taken from the first of the candidates that fits the frame. *)
Definition calculated (m m' : wpa_state_machine) : Prop :=
  m' = calculating m ∨
  ∃ i pmk key len, pmk ∈ candidates m i ∧
    let ptk := wpa_derive_ptk a m (SNonce m) pmk in
    wpa_verify_key_mic (sm_key_mgmt (assoc m)) ptk (default [] (last_rx_eapol_key m)) = Ok 0 ∧
    (if wpa_key_mgmt_wpa_psk (sm_key_mgmt (assoc m))
     then slice pmk 0 PMK_LEN = Ok (take PMK_LEN key) ∧ len = Z.of_nat PMK_LEN
     else key = PMK m ∧ len = pmk_len m) ∧ length key = length (PMK m) ∧
    m' = calculating m <| pending_1_of_4_timeout := false |> <| PMK := key |> <| pmk_len := len |>
           <| MICVerified := true |> <| PTK := ptk |> <| PTK_valid := true |>.

Lemma PTKCALCNEGOTIATING_run p m g n o F x s' :
  at_ptr m p → PTK_PTKCALCNEGOTIATING a (mk_sta m (mk_grp g n o) F) = Ok (x, s') →
  ∃ m', ran p g o F m' (GKeyDoneStations g) s' ∧ calculated m m'.
Proof.
  unfold calculated.
  intros Hp H. open H. fields m. run H.
  apply candidates_run in Hrun as (n' & -> & ->). run H. rename H0 into Ht.
  destruct x2 as [[pmk ptk]|]; [|run H; (eexists; split; [ran_done|by left])].
  apply try_pmks_some in Ht as (Hin & -> & Hv). run H.
  - apply (put_pmk_run p) in Hrun as (m' & (new & Hk & Hl & Hn & ->) & [Hm Hg Ho HF]); [|done].
    destruct s as [m1 [g1 n1 o1] F1]; cbn [sm grp_of gsm g_out failures] in *; subst. run H.
    eexists. split; [ran_done|right]. exists n, pmk, new, (Z.of_nat PMK_LEN). split; [done|]. split; [done|].
    fields_in Heqb. cbn [assoc]. rewrite Heqb. split; [|by split]. split; [exact Hk|done].
  - eexists. split; [ran_done|right]. exists n, pmk, PMK0, pmk_len0. split; [done|]. split; [done|].
    fields_in Heqb. cbn [assoc]. by rewrite Heqb.
Qed.

Lemma PTKCALCNEGOTIATING2_run p m g n o F x s' :
  at_ptr m p → PTK_PTKCALCNEGOTIATING2 (mk_sta m (mk_grp g n o) F) = Ok (x, s') →
  ran p g o F (entered WPA_PTK_PTKCALCNEGOTIATING2 m <| TimeoutCtr := 0 |>) (GKeyDoneStations g) s'.
Proof. intros Hp H. open H. fields m. run H. ran_done. Qed.

Lemma kde_add_run m g n o F x s' :
  ieee80211w_kde_add a (mk_sta m (mk_grp g n o) F) = Ok (x, s') → ∃ n', s' = mk_sta m (mk_grp g n' o) F.
Proof.
  intros H. open H. run H. destruct (mgmt_frame_prot (assoc m)); cbn [negb] in H; [|run H; eauto]. run H.
  assert (∃ n', s = mk_sta m (mk_grp g n' o) F) as [n' ->] by (case_decide; run Hrun; eauto).
  run H. destruct (disable_gtk (conf a)); run H; eauto.
Qed.

Lemma gtk_to_send_run m g n o F x s' :
  gtk_to_send a (mk_sta m (mk_grp g n o) F) = Ok (x, s') → ∃ n', s' = mk_sta m (mk_grp g n' o) F.
Proof. intros H. open H. run H. destruct (disable_gtk (conf a)); run H; eauto. Qed.

Definition negotiating (m : wpa_state_machine) : wpa_state_machine :=
  entered WPA_PTK_PTKINITNEGOTIATING m <| TimeoutEvt := false |> <| TimeoutCtr := TimeoutCtr m + 1 |>.

Lemma PTKINITNEGOTIATING_run p m g n o F x s' :
  at_ptr m p → PTK_PTKINITNEGOTIATING a own (mk_sta m (mk_grp g n o) F) = Ok (x, s') →
  ∃ m', ran p g o F m' (GKeyDoneStations g) s' ∧ sent (negotiating m) m'.
Proof.
  intros Hp H. open H. fields m. run H. apply inc_int_inv in H0 as [-> _].
  case_decide; [run H; eexists; split; [ran_done|apply sent_refl]|].
  run H. match type of Hrun with _ (mk_sta ?m0 _ _) = _ =>
    assert (∃ n', s = mk_sta m0 (mk_grp g n' o) F) as [n' ->] end.
  { clear H. match type of Hrun with (if ?b then _ else _) _ = _ => destruct b end;
      [by apply gtk_to_send_run in Hrun|run Hrun; eauto]. }
  match type of H with (if ?b then _ else _) _ = _ => destruct b end;
    [run H; eexists; split; [ran_done|apply sent_refl]|].
  run H. destruct (env_mem n'); cbn [negb] in H; [|run H; eexists; split; [ran_done|apply sent_refl]].
  run H. apply kde_add_run in Hrun0 as [n2 ->]. run H.
  apply (send_run a _ _ _ _ _ _ _ p) in H as (m' & Hs & Hr); [|done]. by exists m'.
Qed.

(** What [PTK_PTKINITDONE] may do besides: installing the key, opening the ports,
    registering the next rekeying *)
Inductive grants (p : Z) (m : wpa_state_machine) : wpa_effect → Prop :=
| grants_key alg key :
    slice (tk (PTK m)) 0 (Z.to_nat (wpa_cipher_key_len (sm_pairwise (assoc m)))) = Ok key →
    grants p m (Set_key 0 alg (sm_addr (assoc m)) 0 key)
| grants_authorized : grants p m (Set_authorized (sm_addr (assoc m)) true)
| grants_port : grants p m (Set_eapol (sm_addr (assoc m)) WPA_EAPOL_portValid true)
| grants_rekey secs usecs : grants p m (Register_timeout (wpa_rekey_ptk p) secs usecs)
| grants_nothing e : quiet p e → grants p m e.

Definition completing (m : wpa_state_machine) : wpa_state_machine :=
  entered WPA_PTK_PTKINITDONE m <| EAPOLKeyReceived := false |>.
Definition completed (m : wpa_state_machine) : wpa_state_machine :=
  m <| PInitAKeys := if decide (sm_wpa (assoc m) = WPA_VERSION_WPA) then true else PInitAKeys m |>
    <| has_GTK := if decide (sm_wpa (assoc m) = WPA_VERSION_WPA) then has_GTK m else true |>.

(** Counting the stations of a group *)
Lemma set_count_run f m g n o F x s' :
  set_GKeyDoneStations f (mk_sta m (mk_grp g n o) F) = Ok (x, s') →
  ∃ k, f (GKeyDoneStations g) = Ok k ∧ s' = mk_sta m (mk_grp (g <| GKeyDoneStations := k |>) n o) F.
Proof. intros H. unfold set_GKeyDoneStations in H. run H. eauto. Qed.

Lemma handshake_completed_run m g n o F x s' :
  handshake_completed (mk_sta m (mk_grp g n o) F) = Ok (x, s') →
  sm s' = completed m ∧ failures s' = F ∧ grp_of s' = mk_grp g n
    (Set_eapol (sm_addr (assoc m)) WPA_EAPOL_keyDone true :: Set_eapol (sm_addr (assoc m)) WPA_EAPOL_keyAvailable false ::
     Set_eapol (sm_addr (assoc m)) WPA_EAPOL_portValid true :: o).
Proof. intros H. open H. fields m. run H. done. Qed.

Ltac grants_chain :=
  cbn [assoc PTK sm_addr]; repeat (apply ext_cons; [first [apply grants_authorized | apply grants_port | apply grants_rekey |
    by apply grants_key | apply grants_nothing; solve [auto with wpa]]|]); apply ext_refl.

(** The key cannot be set, is set, or there is none to set. *)
Definition initdone (m m' : wpa_state_machine) : Prop :=
  m' = deauthed (completing m) ∨ m' = completed (completing m <| pairwise_set := true |>) ∨ m' = completed (completing m).

Lemma PTKINITDONE_run p m g n o F x s' :
  at_ptr m p → PTK_PTKINITDONE a (mk_sta m (mk_grp g n o) F) = Ok (x, s') →
  initdone m (sm s') ∧
  g_core (gsm (grp_of s')) = g_core g ∧ extends (grants p m) o (g_out (grp_of s')) ∧ failures s' = F.
Proof.
  unfold initdone. intros Hp H. open H. fields m. assert (sm_ptr0 = p) as <- by exact Hp. run H.
  destruct Pair0.
  2:{ apply handshake_completed_run in H as (-> & ? & ->). split_and!; cbn [sm grp_of gsm g_out failures]; auto. grants_chain. }
  run H. rename H0 into Hk. case_decide.
  - apply (disconnect_run sm_ptr0) in H as [Hs Hg Ho HF]; [|done]. split_and!; auto.
    eapply ext_trans; [|eapply ext_weaken; [|exact Ho]; intros; by apply grants_nothing]. grants_chain.
  - run H; apply handshake_completed_run in H as (-> & ? & ->); split_and!; cbn [sm grp_of gsm g_out failures]; auto; grants_chain.
Qed.

(** ** The states of [WPA_PTK_GROUP] *)

Definition idle (m : wpa_state_machine) : wpa_state_machine :=
  m <| sm_changed := if Init m then false else true |> <| wpa_ptk_group_state := WPA_PTK_GROUP_IDLE |> <| GTimeoutCtr := 0 |>.

Lemma GROUP_IDLE_run p m g n o F x s' :
  at_ptr m p → GROUP_IDLE (mk_sta m (mk_grp g n o) F) = Ok (x, s') → ran p g o F (idle m) (GKeyDoneStations g) s'.
Proof. intros Hp H. open H. fields m. run H. ran_done. Qed.

Definition rekeying (m : wpa_state_machine) : wpa_state_machine :=
  entered_group WPA_PTK_GROUP_REKEYNEGOTIATING m <| GTimeoutCtr := GTimeoutCtr m + 1 |>.
Definition rekeying_sent (m : wpa_state_machine) : wpa_state_machine :=
  rekeying m <| PInitAKeys := if decide (sm_wpa (assoc m) = WPA_VERSION_WPA) then false else PInitAKeys m |>
    <| TimeoutEvt := false |>.

Lemma GROUP_REKEYNEGOTIATING_run p m g n o F x s' :
  at_ptr m p → GROUP_REKEYNEGOTIATING a (mk_sta m (mk_grp g n o) F) = Ok (x, s') →
  ∃ m', ran p g o F m' (GKeyDoneStations g) s' ∧
    ((dot11RSNAConfigGroupUpdateCount < GTimeoutCtr m + 1 ∧ m' = rekeying m) ∨
     (GTimeoutCtr m + 1 ≤ dot11RSNAConfigGroupUpdateCount ∧ sent (rekeying_sent m) m')).
Proof.
  intros Hp H. open H. fields m. run H. apply inc_int_inv in H0 as [-> _].
  case_decide; [run H; eexists; split; [ran_done|left; split; [done|reflexivity]]|].
  run H. match type of Hrun with _ (mk_sta ?m0 _ _) = _ =>
    assert (∃ n', s = mk_sta m0 (mk_grp g n' o) F) as [n' ->] end.
  { clear H. case_decide; run Hrun; eauto. }
  run H. apply gtk_to_send_run in Hrun0 as [n2 ->].
  match type of H with (match ?d with _ => _ end) _ = _ => destruct d end.
  2:{ run H. eexists. split; [ran_done|right]. split; [cbn [GTimeoutCtr]; lia|apply sent_refl]. }
  run H. match type of H with (if ?d then _ else _) _ = _ => destruct d end.
  - run H. destruct (env_mem n2); cbn [negb] in H.
    2:{ run H. eexists. split; [ran_done|right]. split; [cbn [GTimeoutCtr]; lia|apply sent_refl]. }
    run H. apply kde_add_run in Hrun0 as [n3 ->]. run H.
    apply (send_run a _ _ _ _ _ _ _ p) in H as (m' & Hs & Hr); [|done]. exists m'. split; [done|right]. by split; [cbn [GTimeoutCtr]; lia|].
  - apply (send_run a _ _ _ _ _ _ _ p) in H as (m' & Hs & Hr); [|done]. exists m'. split; [done|right]. by split; [cbn [GTimeoutCtr]; lia|].
Qed.

Definition established (m : wpa_state_machine) : wpa_state_machine :=
  entered_group WPA_PTK_GROUP_REKEYESTABLISHED m <| EAPOLKeyReceived := false |> <| GUpdateStationKeys := false |>
    <| GTimeoutCtr := 0 |> <| has_GTK := true |>.

Lemma GROUP_REKEYESTABLISHED_run p m g n o F x s' :
  at_ptr m p → GROUP_REKEYESTABLISHED (mk_sta m (mk_grp g n o) F) = Ok (x, s') →
  ran p g o F (established m) (done_count m g) s'.
Proof. intros Hp H. open H. fields m. run H. ran_in Hrun (@group_key_done_run). run H. ran_done. Qed.

Definition key_error (m : wpa_state_machine) : wpa_state_machine :=
  entered_group WPA_PTK_GROUP_KEYERROR m <| GUpdateStationKeys := false |> <| Disconnect := true |>.

Lemma GROUP_KEYERROR_run p m g n o F x s' :
  at_ptr m p → GROUP_KEYERROR (mk_sta m (mk_grp g n o) F) = Ok (x, s') →
  ran p g o F (key_error m) (done_count m g) s'.
Proof. intros Hp H. open H. fields m. run H. ran_in Hrun (@group_key_done_run). run H. ran_done. Qed.

(** ** The machines of a station as step relations *)

(** The requests that come before the transitions between states *)
Definition requested (m : wpa_state_machine) : bool :=
  Init m || Disconnect m || DeauthenticationRequest m || AuthenticationRequest m || ReAuthenticationRequest m ||
  PTKRequest m.

(** The handshake is given up. *)
Definition gives_up (m : wpa_state_machine) : Prop :=
  wpa_ptk_state m = WPA_PTK_INITPMK ∨ (wpa_ptk_state m = WPA_PTK_INITPSK ∧ ∃ i, env_psks i (sm_addr (assoc m)) = []) ∨
  ((wpa_ptk_state m = WPA_PTK_PTKSTART ∨ wpa_ptk_state m = WPA_PTK_PTKINITNEGOTIATING) ∧
   dot11RSNAConfigPairwiseUpdateCount < TimeoutCtr m).

(** Message 1 is sent, again or for the first time. *)
Definition starts (m : wpa_state_machine) : Prop :=
  wpa_ptk_state m = WPA_PTK_INITPMK ∨ (wpa_ptk_state m = WPA_PTK_INITPSK ∧ ∃ i, env_psks i (sm_addr (assoc m)) ≠ []) ∨
  (wpa_ptk_state m = WPA_PTK_PTKSTART ∧ pairwise_frame m = false ∧ TimeoutEvt m = true) ∨
  (wpa_ptk_state m = WPA_PTK_PTKCALCNEGOTIATING ∧ pairwise_frame m = false ∧ MICVerified m = false ∧ TimeoutEvt m = true).

(** A frame is tried for message 2. *)
Definition calculates (m : wpa_state_machine) : Prop :=
  (wpa_ptk_state m = WPA_PTK_PTKSTART ∧ pairwise_frame m = true) ∨
  (wpa_ptk_state m = WPA_PTK_PTKCALCNEGOTIATING ∧ MICVerified m = false ∧ pairwise_frame m = true) ∨
  (wpa_ptk_state m = WPA_PTK_PTKINITNEGOTIATING ∧ update_snonce m = true).

(** Message 4 was received. *)
Definition completes (m : wpa_state_machine) : Prop :=
  requested m = false ∧ wpa_ptk_state m = WPA_PTK_PTKINITNEGOTIATING ∧ update_snonce m = false ∧
  pairwise_frame m = true ∧ MICVerified m = true.

(** Nothing to do in a state *)
Definition waits (m : wpa_state_machine) : Prop :=
  match wpa_ptk_state m with
  | WPA_PTK_INITIALIZE | WPA_PTK_AUTHENTICATION2 | WPA_PTK_PTKINITDONE => True
  | WPA_PTK_PTKSTART => pairwise_frame m = false ∧ TimeoutEvt m = false ∧ TimeoutCtr m ≤ dot11RSNAConfigPairwiseUpdateCount
  | WPA_PTK_PTKCALCNEGOTIATING => MICVerified m = false ∧ pairwise_frame m = false ∧ TimeoutEvt m = false
  | WPA_PTK_PTKINITNEGOTIATING =>
    update_snonce m = false ∧ (pairwise_frame m = true → MICVerified m = false) ∧ TimeoutEvt m = false ∧
    TimeoutCtr m ≤ dot11RSNAConfigPairwiseUpdateCount
  | _ => False
  end.

Inductive ptk_step (m : wpa_state_machine) : wpa_state_machine → Prop :=
| step_initialize :
    Init m = true ∨ requested m = false ∧ wpa_ptk_state m = WPA_PTK_DISCONNECTED → ptk_step m (initialized m)
| step_disconnect :
    Init m = false → Disconnect m = true ∨ requested m = false ∧ gives_up m →
    ptk_step m (deauthed (entered WPA_PTK_DISCONNECT m <| Disconnect := false |>))
| step_disconnected :
    Init m = false → Disconnect m = false →
    DeauthenticationRequest m = true ∨ requested m = false ∧ wpa_ptk_state m = WPA_PTK_DISCONNECT →
    ptk_step m (entered WPA_PTK_DISCONNECTED m <| DeauthenticationRequest := false |>)
| step_authentication :
    Init m = false → Disconnect m = false → DeauthenticationRequest m = false → AuthenticationRequest m = true →
    ptk_step m (entered WPA_PTK_AUTHENTICATION m <| PTK := zero_ptk |> <| PTK_valid := false |>
                  <| AuthenticationRequest := false |>)
| step_authentication2 i (ok : bool) :
    Init m = false → Disconnect m = false → DeauthenticationRequest m = false → AuthenticationRequest m = false →
    ReAuthenticationRequest m = true ∨ requested m = false ∧ wpa_ptk_state m = WPA_PTK_AUTHENTICATION →
    ptk_step m (entered WPA_PTK_AUTHENTICATION2 m <| ReAuthenticationRequest := false |>
                  <| ANonce := (env_random i WPA_NONCE_LEN).2 |> <| Disconnect := if ok then Disconnect m else true |>
                  <| TimeoutCtr := if ok then 0 else TimeoutCtr m |>)
| step_initpmk m' :
    requested m = false → wpa_ptk_state m = WPA_PTK_AUTHENTICATION2 → initpmk m m' → ptk_step m m'
| step_initpsk m' :
    requested m = false → wpa_ptk_state m = WPA_PTK_AUTHENTICATION2 → initpsk m m' → ptk_step m m'
| step_ptkstart m' :
    Init m = false → Disconnect m = false → DeauthenticationRequest m = false → AuthenticationRequest m = false →
    ReAuthenticationRequest m = false →
    PTKRequest m = true ∨ requested m = false ∧ starts m → sent (starting m) m' → ptk_step m m'
| step_calculate m' : requested m = false → calculates m → calculated m m' → ptk_step m m'
| step_calculate2 :
    requested m = false → wpa_ptk_state m = WPA_PTK_PTKCALCNEGOTIATING → MICVerified m = true →
    ptk_step m (entered WPA_PTK_PTKCALCNEGOTIATING2 m <| TimeoutCtr := 0 |>)
| step_negotiate m' :
    requested m = false →
    wpa_ptk_state m = WPA_PTK_PTKCALCNEGOTIATING2 ∨
      (wpa_ptk_state m = WPA_PTK_PTKINITNEGOTIATING ∧ update_snonce m = false ∧ TimeoutEvt m = true) →
    sent (negotiating m) m' → ptk_step m m'
| step_complete m' : completes m → initdone m m' → ptk_step m m'
| step_wait : requested m = false → waits m → ptk_step m m.

(** The key of a station that gets [key] is not counted twice: what the group counts
    and what the station has to get change together. *)
Definition counted (m : wpa_state_machine) (g : wpa_group) (m' : wpa_state_machine) (g' : wpa_group) : Prop :=
  GKeyDoneStations g' - Z.b2z (GUpdateStationKeys m') = GKeyDoneStations g - Z.b2z (GUpdateStationKeys m).

Definition g_rest (g : wpa_group) : wpa_group := g_core g <| GKeyDoneStations := 0 |>.

(** A station at [p] and its group after a step with effects in [Q] *)
Record moved (p : Z) (m : wpa_state_machine) (g : wpa_group) (o : list wpa_effect) (Q : wpa_effect → Prop)
    (s' : sta) : Prop := {
  moved_ptr : at_ptr (sm s') p;
  moved_group : g_rest (gsm (grp_of s')) = g_rest g;
  moved_count : counted m g (sm s') (gsm (grp_of s'));
  moved_out : extends Q o (g_out (grp_of s')) }.

Lemma ran_moved p m g o F m' k s' :
  ran p g o F m' k s' → at_ptr m' p → k - Z.b2z (GUpdateStationKeys m') = GKeyDoneStations g - Z.b2z (GUpdateStationKeys m) →
  sm s' = m' ∧ moved p m g o (quiet p) s'.
Proof.
  intros [Hm Hg Ho _] Hp Hk. split; [done|]. split; rewrite ?Hm; try done.
  - apply (f_equal (λ x, x <| GKeyDoneStations := 0 |>)) in Hg. exact Hg.
  - unfold counted. by rewrite (core_GKeyDone _ _ _ Hg).
Qed.

(** The address, the request for the group key: untouched by most operations *)
Lemma sent_ptr m m' p : sent m m' → at_ptr m p → at_ptr m' p.
Proof. intros (? & ? & ? & ->). done. Qed.
Lemma sent_keys m m' : sent m m' → GUpdateStationKeys m' = GUpdateStationKeys m.
Proof. intros (? & ? & ? & ->). done. Qed.

Lemma done_count_ok m g : done_count m g - Z.b2z false = GKeyDoneStations g - Z.b2z (GUpdateStationKeys m).
Proof. unfold done_count. destruct (GUpdateStationKeys m); cbn; lia. Qed.

Lemma moved_weaken p m g o (Q R : wpa_effect → Prop) s' :
  (∀ e, Q e → R e) → moved p m g o Q s' → moved p m g o R s'.
Proof. intros HQR [? ? ? ?]. split; try done. by eapply ext_weaken. Qed.

Lemma ptk_stay p m g n o F : at_ptr m p → moved p m g o (quiet p) (mk_sta m (mk_grp g n o) F).
Proof. intros Hp. split; try done. constructor. Qed.

Definition ptk_effect (p : Z) (m : wpa_state_machine) (e : wpa_effect) : Prop := quiet p e ∨ completes m ∧ grants p m e.

Definition ptk_moved (p : Z) (m : wpa_state_machine) (g : wpa_group) (o : list wpa_effect) (s' : sta) : Prop :=
  ptk_step m (sm s') ∧ moved p m g o (ptk_effect p m) s'.

Lemma ran_step p m g o F m' k s' :
  ran p g o F m' k s' → at_ptr m' p → k - Z.b2z (GUpdateStationKeys m') = GKeyDoneStations g - Z.b2z (GUpdateStationKeys m) →
  ptk_step m m' → ptk_moved p m g o s'.
Proof.
  intros Hr Hp Hk Hs. destruct (ran_moved _ m _ _ _ _ _ _ Hr Hp Hk) as [Hm Hmv]. rewrite <- Hm in Hs.
  split; [done|]. eapply moved_weaken; [|done]. by left.
Qed.

Ltac step_with H lem :=
  apply lem in H; [|done]; eapply ran_step; [exact H|done|done|].

Lemma failed_run m g n o F x s' : handshake_failed (mk_sta m (mk_grp g n o) F) = Ok (x, s') →
  s' = mk_sta m (mk_grp g n o) (u32 (F + 1)).
Proof. unfold handshake_failed. cbn. intros H. by simplify_eq. Qed.

Lemma gives_up_run p m g n o F x s' :
  at_ptr m p → Init m = false → requested m = false → gives_up m →
  (handshake_failed;; PTK_DISCONNECT) (mk_sta m (mk_grp g n o) F) = Ok (x, s') → ptk_moved p m g o s'.
Proof.
  intros Hp Hi Hr Hg H. apply bind_inv in H as (u & s1 & H1 & H). apply failed_run in H1 as ->.
  step_with H (DISCONNECT_run p). apply step_disconnect; auto.
Qed.

Lemma starts_run p m g n o F x s' :
  at_ptr m p → requested m = false → starts m →
  PTK_PTKSTART a (mk_sta m (mk_grp g n o) F) = Ok (x, s') → ptk_moved p m g o s'.
Proof.
  intros Hp Hr Hst H. apply (PTKSTART_run p) in H as (m' & Hran & Hs); [|done].
  eapply ran_step; [exact Hran|by eapply sent_ptr|by rewrite (sent_keys _ _ Hs)|].
  pose proof Hr as Hr'. unfold requested in Hr'. repeat (apply orb_false_elim in Hr' as [Hr' ?]).
  apply step_ptkstart; auto.
Qed.

Lemma pmk_put_fields key len m m' : pmk_put key len m m' → sm_ptr m' = sm_ptr m ∧ GUpdateStationKeys m' = GUpdateStationKeys m.
Proof. intros (? & ? & ? & ? & ->). done. Qed.

Lemma initpmk_fields m m' : initpmk m m' → sm_ptr m' = sm_ptr m ∧ GUpdateStationKeys m' = GUpdateStationKeys m.
Proof. intros [->|(? & ? & H & _)]; [done|]. apply pmk_put_fields in H as [-> ->]. done. Qed.

Lemma initpsk_fields m m' : initpsk m m' → sm_ptr m' = sm_ptr m ∧ GUpdateStationKeys m' = GUpdateStationKeys m.
Proof. intros (i & H). cbn zeta in H. destruct (env_psks i); [by subst|]. apply pmk_put_fields in H as [-> ->]. done. Qed.

Lemma calculated_fields m m' : calculated m m' → sm_ptr m' = sm_ptr m ∧ GUpdateStationKeys m' = GUpdateStationKeys m.
Proof. intros [->|(? & ? & ? & ? & ? & ? & ? & ? & ->)]; done. Qed.

Lemma initdone_fields m m' : initdone m m' → sm_ptr m' = sm_ptr m ∧ GUpdateStationKeys m' = GUpdateStationKeys m.
Proof. intros [->|[->| ->]]; done. Qed.


Lemma stay_run p m g n o F : at_ptr m p → requested m = false → waits m → ptk_moved p m g o (mk_sta m (mk_grp g n o) F).
Proof. intros Hp Hr Hw. split; [by apply step_wait|]. split; try done. constructor. Qed.

Lemma calculates_run p m g n o F x s' :
  at_ptr m p → requested m = false → calculates m →
  PTK_PTKCALCNEGOTIATING a (mk_sta m (mk_grp g n o) F) = Ok (x, s') → ptk_moved p m g o s'.
Proof.
  intros Hp Hr Hc H. apply (PTKCALCNEGOTIATING_run p) in H as (m' & Hran & Hs); [|done].
  destruct (calculated_fields _ _ Hs) as [H1 H2].
  eapply ran_step; [exact Hran|unfold at_ptr in *; congruence|by rewrite H2|by apply step_calculate].
Qed.

Lemma negotiates_run p m g n o F x s' :
  at_ptr m p → requested m = false →
  wpa_ptk_state m = WPA_PTK_PTKCALCNEGOTIATING2 ∨
    (wpa_ptk_state m = WPA_PTK_PTKINITNEGOTIATING ∧ update_snonce m = false ∧ TimeoutEvt m = true) →
  PTK_PTKINITNEGOTIATING a own (mk_sta m (mk_grp g n o) F) = Ok (x, s') → ptk_moved p m g o s'.
Proof.
  intros Hp Hr Hc H. apply (PTKINITNEGOTIATING_run p) in H as (m' & Hran & Hs); [|done].
  eapply ran_step; [exact Hran|by eapply sent_ptr|by rewrite (sent_keys _ _ Hs)|by apply step_negotiate].
Qed.

Lemma completes_run p m g n o F x s' :
  at_ptr m p → completes m →
  PTK_PTKINITDONE a (mk_sta m (mk_grp g n o) F) = Ok (x, s') → ptk_moved p m g o s'.
Proof.
  intros Hp Hc H. apply (PTKINITDONE_run p) in H as (Hs & Hg & Ho & _); [|done].
  destruct (initdone_fields _ _ Hs) as [H1 H2]. split; [by apply step_complete|]. split.
  - unfold at_ptr in *. congruence.
  - apply (f_equal (λ x, x <| GKeyDoneStations := 0 |>)) in Hg. exact Hg.
  - unfold counted. rewrite H2. apply (f_equal GKeyDoneStations) in Hg. cbn in Hg. by rewrite Hg.
  - eapply ext_weaken; [|exact Ho]. intros e He. by right.
Qed.

Lemma authentication2_moves p m g n o F x s' :
  at_ptr m p → requested m = false → wpa_ptk_state m = WPA_PTK_AUTHENTICATION2 →
  step_from a own m (mk_sta m (mk_grp g n o) F) = Ok (x, s') → ptk_moved p m g o s'.
Proof.
  intros Hp Hr Hst H. unfold step_from in H. rewrite Hst in H.
  apply bind_inv in H as (run & s & H1 & H).
  assert (∃ n', s = mk_sta m (mk_grp g n' o) F) as [n' ->].
  { destruct (wpa_key_mgmt_wpa_ieee8021x _); run H1; eauto. }
  clear H1. case_decide.
  - apply (INITPMK_run p) in H as (m' & Hran & Hs); [|done]. destruct (initpmk_fields _ _ Hs) as [H1 H2].
    eapply ran_step; [exact Hran|unfold at_ptr in *; congruence|by rewrite H2|by apply step_initpmk].
  - destruct (wpa_key_mgmt_wpa_psk _).
    + apply (INITPSK_run p) in H as (m' & Hran & Hs); [|done]. destruct (initpsk_fields _ _ Hs) as [H1 H2].
      eapply ran_step; [exact Hran|unfold at_ptr in *; congruence|by rewrite H2|by apply step_initpsk].
    + apply ret_inv in H as [_ ->]. apply stay_run; [done|done|]. unfold waits. by rewrite Hst.
Qed.

(** The transitions between states *)
Lemma step_from_run p m g n o F x s' :
  at_ptr m p → requested m = false →
  step_from a own m (mk_sta m (mk_grp g n o) F) = Ok (x, s') → ptk_moved p m g o s'.
Proof.
  intros Hp Hr H. pose proof Hr as Hr'. unfold requested in Hr'. repeat (apply orb_false_elim in Hr' as [Hr' ?]).
  destruct (wpa_ptk_state m) eqn:Hst; unfold step_from in H; rewrite Hst in H.
  - apply ret_inv in H as [_ ->]. apply stay_run; [done|done|]. unfold waits. by rewrite Hst.
  - step_with H (DISCONNECTED_run p). apply step_disconnected; auto.
  - apply (INITIALIZE_run p) in H; [|done]. eapply ran_step; [exact H|done|apply done_count_ok|]. apply step_initialize; auto.
  - apply (AUTHENTICATION2_run p) in H as (i & ok & H); [|done].
    eapply ran_step; [exact H|done|done|]. apply step_authentication2; auto.
  - apply (authentication2_moves p m g n o F x); [done..|]. unfold step_from. by rewrite Hst.
  - run H. case_decide.
    + apply (starts_run p) in H; auto. by left.
    + apply (gives_up_run p) in H; auto. by left.
  - run H. case_decide as Hd.
    + apply (gives_up_run p) in H; auto. right; left. eauto.
    + apply (starts_run p) in H; auto. right; left. eauto.
  - destruct (pairwise_frame m) eqn:Hf; [|case_decide; [|destruct (TimeoutEvt m) eqn:Ht]].
    + apply (calculates_run p) in H; auto. by left.
    + apply (gives_up_run p) in H; auto. by right; right; split; [left|].
    + apply (starts_run p) in H; auto. by right; right; left.
    + apply ret_inv in H as [_ ->]. apply stay_run; [done..|]. unfold waits. rewrite Hst. split_and!; auto. lia.
  - destruct (MICVerified m) eqn:Hv; [|destruct (pairwise_frame m) eqn:Hf; [|destruct (TimeoutEvt m) eqn:Ht]].
    + step_with H (PTKCALCNEGOTIATING2_run p). by apply step_calculate2.
    + apply (calculates_run p) in H; auto. by right; left.
    + apply (starts_run p) in H; auto. by right; right; right.
    + apply ret_inv in H as [_ ->]. apply stay_run; [done..|]. unfold waits. by rewrite Hst.
  - apply (negotiates_run p) in H; auto.
  - destruct (update_snonce m) eqn:Hu.
    { apply (calculates_run p) in H; auto. by right; right. }
    destruct (pairwise_frame m && MICVerified m) eqn:Hf.
    { apply andb_prop in Hf as [Hf Hv]. by apply (completes_run p) in H. }
    case_decide; [|destruct (TimeoutEvt m) eqn:Ht].
    + apply (gives_up_run p) in H; auto. by right; right; split; [right|].
    + apply (negotiates_run p) in H; auto.
    + apply ret_inv in H as [_ ->]. apply stay_run; [done..|]. unfold waits. rewrite Hst. split_and!; auto; [|lia].
      intros Hf'. by rewrite Hf' in Hf.
  - apply ret_inv in H as [_ ->]. apply stay_run; [done|done|]. unfold waits. by rewrite Hst.
Qed.

Lemma WPA_PTK_Step_run p m g n o F x s' :
  at_ptr m p → WPA_PTK_Step a own (mk_sta m (mk_grp g n o) F) = Ok (x, s') → ptk_moved p m g o s'.
Proof.
  intros Hp H. unfold WPA_PTK_Step in H. apply bind_inv in H as (? & ? & H1 & H). apply get_run in H1 as [-> ->].
  cbn [id] in H.
  destruct (Init m) eqn:Hi.
  { apply (INITIALIZE_run p) in H; [|done]. eapply ran_step; [exact H|done|apply done_count_ok|]. apply step_initialize; auto. }
  destruct (Disconnect m) eqn:Hd; [step_with H (DISCONNECT_run p); apply step_disconnect; auto|].
  destruct (DeauthenticationRequest m) eqn:Hda; [step_with H (DISCONNECTED_run p); apply step_disconnected; auto|].
  destruct (AuthenticationRequest m) eqn:Hau; [step_with H (AUTHENTICATION_run p); by apply step_authentication|].
  destruct (ReAuthenticationRequest m) eqn:Hre.
  { apply (AUTHENTICATION2_run p) in H as (i & ok & H); [|done].
    eapply ran_step; [exact H|done|done|]. apply step_authentication2; auto. }
  destruct (PTKRequest m) eqn:Hpt.
  { apply (PTKSTART_run p) in H as (m' & Hran & Hs); [|done].
    eapply ran_step; [exact Hran|by eapply sent_ptr|by rewrite (sent_keys _ _ Hs)|]. apply step_ptkstart; auto. }
  apply (step_from_run p m g n o F x); [done| |done]. unfold requested. by rewrite Hi, Hd, Hda, Hau, Hre, Hpt.
Qed.

(** The second message of the group key handshake was received. *)
Definition answered (m : wpa_state_machine) : bool :=
  EAPOLKeyReceived m && negb (EAPOLKeyRequest m) && negb (EAPOLKeyPairwise m) && MICVerified m.

Definition wants_group_key (m : wpa_state_machine) : bool :=
  GUpdateStationKeys m || (bool_decide (sm_wpa (assoc m) = WPA_VERSION_WPA) && PInitAKeys m).

Definition rekeyed (m m' : wpa_state_machine) : Prop :=
  (dot11RSNAConfigGroupUpdateCount < GTimeoutCtr m + 1 ∧ m' = rekeying m) ∨
  (GTimeoutCtr m + 1 ≤ dot11RSNAConfigGroupUpdateCount ∧ sent (rekeying_sent m) m').

Inductive group_key_step (m : wpa_state_machine) : wpa_state_machine → Prop :=
| gk_init : Init m || PtkGroupInit m = true → group_key_step m (idle m <| PtkGroupInit := false |>)
| gk_rekey m' :
    Init m || PtkGroupInit m = false →
    (wpa_ptk_group_state m = WPA_PTK_GROUP_IDLE ∧ wants_group_key m = true) ∨
      (wpa_ptk_group_state m = WPA_PTK_GROUP_REKEYNEGOTIATING ∧ answered m = false ∧
       GTimeoutCtr m ≤ dot11RSNAConfigGroupUpdateCount ∧ TimeoutEvt m = true) →
    rekeyed m m' → group_key_step m m'
| gk_established :
    Init m || PtkGroupInit m = false → wpa_ptk_group_state m = WPA_PTK_GROUP_REKEYNEGOTIATING → answered m = true →
    group_key_step m (established m)
| gk_error :
    Init m || PtkGroupInit m = false → wpa_ptk_group_state m = WPA_PTK_GROUP_REKEYNEGOTIATING → answered m = false →
    dot11RSNAConfigGroupUpdateCount < GTimeoutCtr m → group_key_step m (key_error m)
| gk_idle :
    Init m || PtkGroupInit m = false →
    wpa_ptk_group_state m = WPA_PTK_GROUP_REKEYESTABLISHED ∨ wpa_ptk_group_state m = WPA_PTK_GROUP_KEYERROR →
    group_key_step m (idle m)
| gk_wait :
    Init m || PtkGroupInit m = false →
    (wpa_ptk_group_state m = WPA_PTK_GROUP_IDLE ∧ wants_group_key m = false) ∨
      (wpa_ptk_group_state m = WPA_PTK_GROUP_REKEYNEGOTIATING ∧ answered m = false ∧
       GTimeoutCtr m ≤ dot11RSNAConfigGroupUpdateCount ∧ TimeoutEvt m = false) →
    group_key_step m m.

Definition group_key_moved (p : Z) (m : wpa_state_machine) (g : wpa_group) (o : list wpa_effect) (s' : sta) : Prop :=
  group_key_step m (sm s') ∧ moved p m g o (quiet p) s'.

Lemma ran_gk p m g o F m' k s' :
  ran p g o F m' k s' → at_ptr m' p → k - Z.b2z (GUpdateStationKeys m') = GKeyDoneStations g - Z.b2z (GUpdateStationKeys m) →
  group_key_step m m' → group_key_moved p m g o s'.
Proof. intros Hr Hp Hk Hs. destruct (ran_moved _ m _ _ _ _ _ _ Hr Hp Hk) as [Hm Hmv]. by rewrite <- Hm in Hs. Qed.

Lemma rekeyed_fields m m' p : rekeyed m m' → at_ptr m p → at_ptr m' p ∧ GUpdateStationKeys m' = GUpdateStationKeys m.
Proof. intros [[_ ->]|[_ Hs]] Hp; [done|]. split; [by eapply sent_ptr|]. by rewrite (sent_keys _ _ Hs). Qed.

Lemma rekeys_run p m g n o F x s' :
  at_ptr m p → Init m || PtkGroupInit m = false →
  (wpa_ptk_group_state m = WPA_PTK_GROUP_IDLE ∧ wants_group_key m = true) ∨
    (wpa_ptk_group_state m = WPA_PTK_GROUP_REKEYNEGOTIATING ∧ answered m = false ∧
     GTimeoutCtr m ≤ dot11RSNAConfigGroupUpdateCount ∧ TimeoutEvt m = true) →
  GROUP_REKEYNEGOTIATING a (mk_sta m (mk_grp g n o) F) = Ok (x, s') → group_key_moved p m g o s'.
Proof.
  intros Hp Hi Hc H. apply (GROUP_REKEYNEGOTIATING_run p) in H as (m' & Hran & Hs); [|done].
  destruct (rekeyed_fields _ _ p Hs Hp) as [H1 H2].
  eapply ran_gk; [exact Hran|done|by rewrite H2|by apply gk_rekey].
Qed.

Lemma gk_stay p m g n o F : at_ptr m p → group_key_step m m → group_key_moved p m g o (mk_sta m (mk_grp g n o) F).
Proof. intros Hp Hs. split; [done|]. split; try done. constructor. Qed.

Lemma idle_run p m g n o F x s' :
  at_ptr m p → Init m || PtkGroupInit m = true →
  (GROUP_IDLE;; upd (λ m, m <| PtkGroupInit := false |>)) (mk_sta m (mk_grp g n o) F) = Ok (x, s') →
  group_key_moved p m g o s'.
Proof.
  intros Hp Hi H. apply bind_inv in H as (u & s & H1 & H). apply (GROUP_IDLE_run p) in H1 as [Hm Hg Ho HF]; [|done].
  destruct s as [m1 [g1 n1 o1] F1]. cbn [sm grp_of gsm g_out failures] in *. subst. apply upd_run in H as ->.
  eapply (ran_gk p m g o _ (idle m <| PtkGroupInit := false |>) (GKeyDoneStations g)); [by split|done|done|by apply gk_init].
Qed.

Lemma WPA_PTK_GROUP_Step_run p m g n o F x s' :
  at_ptr m p → WPA_PTK_GROUP_Step a (mk_sta m (mk_grp g n o) F) = Ok (x, s') → group_key_moved p m g o s'.
Proof.
  intros Hp H. unfold WPA_PTK_GROUP_Step in H. apply bind_inv in H as (? & ? & H1 & H). apply get_run in H1 as [-> ->].
  cbn [id] in H.
  destruct (Init m || PtkGroupInit m) eqn:Hi; [by apply (idle_run p) in H|].
  destruct (wpa_ptk_group_state m) eqn:Hst.
  - destruct (GUpdateStationKeys m || _) eqn:Hw.
    + apply (rekeys_run p) in H; auto.
    + apply ret_inv in H as [_ ->]. apply gk_stay; [done|]. apply gk_wait; auto.
  - destruct (EAPOLKeyReceived m && _ && _ && _) eqn:Ha.
    { apply (GROUP_REKEYESTABLISHED_run p) in H; [|done].
      eapply ran_gk; [exact H|done|apply done_count_ok|]. by apply gk_established. }
    case_decide as Hc; [|destruct (TimeoutEvt m) eqn:Ht].
    + apply (GROUP_KEYERROR_run p) in H; [|done]. eapply ran_gk; [exact H|done|apply done_count_ok|]. by apply gk_error.
    + apply (rekeys_run p) in H; auto. right. split_and!; auto. lia.
    + apply ret_inv in H as [_ ->]. apply gk_stay; [done|]. apply gk_wait; [done|right]. split_and!; auto. lia.
  - apply (GROUP_IDLE_run p) in H; [|done]. eapply ran_gk; [exact H|done|done|]. apply gk_idle; auto.
  - apply (GROUP_IDLE_run p) in H; [|done]. eapply ran_gk; [exact H|done|done|]. apply gk_idle; auto.
Qed.

(** A turn: one step of each machine *)
Lemma station_steps_run p m g n o F (x : bool) s' :
  at_ptr m p → station_steps a own (mk_sta m (mk_grp g n o) F) = Ok (x, s') →
  ∃ m1, ptk_step m m1 ∧ (pending_deinit m1 = false → group_key_step m1 (sm s')) ∧ (pending_deinit m1 = true → sm s' = m1) ∧
    x = pending_deinit (sm s') ∧ moved p m g o (ptk_effect p m) s'.
Proof.
  intros Hp H. unfold station_steps in H. apply bind_inv in H as (? & s1 & H1 & H).
  apply (WPA_PTK_Step_run p) in H1 as [Hs Hmv]; [|done]. destruct s1 as [m1 [g1 n1 o1] F1].
  apply bind_inv in H as (? & ? & H1 & H). apply get_run in H1 as [-> ->].
  cbn [sm] in *. exists m1. destruct (pending_deinit m1) eqn:Hpd.
  { apply ret_inv in H as [-> ->]. by split_and!. }
  apply bind_inv in H as (? & s2 & H1 & H). destruct Hmv as [Hp1 Hg1 Hc1 Ho1]. cbn [sm grp_of gsm g_out] in *.
  apply (WPA_PTK_GROUP_Step_run p) in H1 as [Hk Hmv2]; [|done].
  destruct s2 as [m2 [g2 n2 o2] F2]. apply get_run in H as [-> ->]. destruct Hmv2 as [Hp2 Hg2 Hc2 Ho2].
  cbn [sm grp_of gsm g_out] in *. split_and!; try done. split; try done; cbn [sm grp_of gsm g_out].
  - by rewrite Hg2.
  - unfold counted in *. lia.
  - eapply ext_trans; [exact Ho1|]. eapply ext_weaken; [|exact Ho2]. intros e He. by left.
Qed.

End groups.
