(* ===== verification/WpaTriples.v ===== *)
(** * WPA authenticator: reasoning about its operations

    What the proofs about [WpaAuth] share: finding a station or a group that was put,
    what the accesses do, and triples of operations with the tactic [keeps] for
    what an operation leaves true. *)

From Stdlib Require Import ZArith Lia.
From stdpp Require Import base option list numbers decidable.
From S2P Require Import Prelude CLib Pmksa WpaIe WpaSm WpaSteps WpaAuth.
Local Open Scope Z_scope.

(** ** Stations and groups by address *)

Section find.
Context {A : Type} (key : A → Z).

Lemma find_put x q l :
  List.find (λ y, bool_decide (key y = q)) (map (λ y, if decide (key y = key x) then x else y) l) =
  if decide (key x = q) then option_map (λ _, x) (List.find (λ y, bool_decide (key y = q)) l)
  else List.find (λ y, bool_decide (key y = q)) l.
Proof.
  induction l as [|y l IH]; cbn [map List.find]; [by case_decide|]. destruct (decide (key y = key x)) as [Hy|Hy].
  - rewrite Hy. destruct (decide (key x = q)) as [Hq|Hq].
    + by rewrite bool_decide_true.
    + by rewrite bool_decide_false.
  - rewrite IH. destruct (decide (key x = q)) as [Hq|Hq]; [|done].
    rewrite bool_decide_false by congruence. done.
Qed.
End find.

Lemma find_station_ptr p w m : find_station p w = Ok m → sm_ptr m = p.
Proof.
  unfold find_station. destruct (List.find _ _) eqn:Hf; [|done]. intros [= <-]. apply find_some in Hf as [_ Hp].
  by apply bool_decide_eq_true in Hp.
Qed.

Lemma find_group_ptr p w g : find_group p w = Ok g → g_ptr g = p.
Proof.
  unfold find_group. destruct (List.find _ _) eqn:Hf; [|done]. intros [= <-]. apply find_some in Hf as [_ Hp].
  by apply bool_decide_eq_true in Hp.
Qed.

Lemma find_put_station p m m0 w : find_station p w = Ok m0 → sm_ptr m = p → find_station p (put_station m w) = Ok m.
Proof.
  unfold find_station, put_station. intros H <-. cbn [stations setter].
  rewrite find_put, decide_True by done. by destruct (List.find _ _).
Qed.

Lemma find_put_other p m w : sm_ptr m ≠ p → find_station p (put_station m w) = find_station p w.
Proof. unfold find_station, put_station. intros H. cbn [stations setter]. by rewrite find_put, decide_False. Qed.

Lemma find_put_group p g g0 w : find_group p w = Ok g0 → g_ptr g = p → find_group p (put_group g w) = Ok g.
Proof.
  unfold find_group, put_group. intros H <-. cbn [groups setter].
  rewrite find_put, decide_True by done. by destruct (List.find _ _).
Qed.

Lemma find_put_other_group p g w : g_ptr g ≠ p → find_group p (put_group g w) = find_group p w.
Proof. unfold find_group, put_group. intros H. cbn [groups setter]. by rewrite find_put, decide_False. Qed.

(** ** Accesses *)

(** Reading a field of a station *)
Lemma s_get_inv {A} p (f : wpa_state_machine → A) w x w' :
  s_get p f w = Ok (x, w') → ∃ m, find_station p w = Ok m ∧ x = f m ∧ w' = w.
Proof. unfold s_get. intros H. apply bind_Ok_inv in H as (m & Hm & H). simplify_eq. eauto. Qed.

Lemma first_ptr_inv w x w' : first_ptr w = Ok (x, w') → w' = w.
Proof. unfold first_ptr. intros H. apply bind_Ok_inv in H as (? & _ & H). by simplify_eq. Qed.
Lemma gr_get_inv {A} p (f : WpaSm.wpa_group → A) w x w' : gr_get p f w = Ok (x, w') → w' = w.
Proof. unfold gr_get. intros H. apply bind_Ok_inv in H as (? & _ & H). by simplify_eq. Qed.

Lemma w_upd_inv f w x w' : w_upd f w = Ok (x, w') → w' = f w.
Proof. unfold w_upd. by intros [= _ <-]. Qed.

(** A world with the stations and groups of another *)
Definition same_parts (w w' : world) : Prop := stations w' = stations w ∧ groups w' = groups w.

Lemma s_upd_inv p f w x w' : s_upd p f w = Ok (x, w') → ∃ m, find_station p w = Ok m ∧ w' = put_station (f m) w.
Proof. unfold s_upd. intros H. apply bind_Ok_inv in H as (m & Hm & H). simplify_eq. eauto. Qed.
Lemma gr_upd_inv p f w x w' : gr_upd p f w = Ok (x, w') → ∃ g, find_group p w = Ok g ∧ w' = put_group (f g) w.
Proof. unfold gr_upd. intros H. apply bind_Ok_inv in H as (m & Hm & H). simplify_eq. eauto. Qed.
Lemma group_get_inv {A} p (f : WpaSm.wpa_group → A) w x w' :
  gr_get p f w = Ok (x, w') → ∃ g, find_group p w = Ok g ∧ x = f g ∧ w' = w.
Proof. unfold gr_get. intros H. apply bind_Ok_inv in H as (m & Hm & H). simplify_eq. eauto. Qed.

(** The stations and groups of a world in which an operation on a group was run *)
Lemma at_group_inv {A} p (op : wpa_authenticator → S_M grp A) w x w' :
  at_group p op w = Ok (x, w') →
  ∃ g gr, find_group p w = Ok g ∧ op (auth w) (mk_grp g (calls w) (out w)) = Ok (x, gr) ∧
    same_parts (put_group (gsm gr) w) w'.
Proof.
  unfold at_group. intros H. apply bind_Ok_inv in H as (g & Hg & H). apply bind_Ok_inv in H as ([y gr] & Hr & H).
  simplify_eq/=. exists g, gr. by split_and!.
Qed.

Lemma at_station_inv {A} p (op : wpa_authenticator → own_ie → S_M sta A) w x w' :
  at_station p op w = Ok (x, w') →
  ∃ m g s', find_station p w = Ok m ∧ find_group (group m) w = Ok g ∧
    op (auth w) (own w) (mk_sta m (mk_grp g (calls w) (out w)) (handshake_failures w)) = Ok (x, s') ∧
    same_parts (put_station (sm s') (put_group (gsm (grp_of s')) w)) w'.
Proof.
  unfold at_station. intros H. apply bind_Ok_inv in H as (m & Hm & H). apply bind_Ok_inv in H as (g & Hg & H).
  apply bind_Ok_inv in H as ([y s'] & Hr & H). simplify_eq/=. exists m, g, s'. by split_and!.
Qed.

(** ** Triples *)

Definition triple {A} (P : world → Prop) (m : W A) (Q : A → world → Prop) : Prop :=
  ∀ w x w', P w → m w = Ok (x, w') → Q x w'.
Abbreviation keeps P m := (triple P m (λ _, P)).

Lemma triple_bind {A B} P (m : W A) R (f : A → W B) Q :
  triple P m R → (∀ x, triple (R x) (f x) Q) → triple P (m ≫= f) Q.
Proof. intros Hm Hf w x w' Hp H. apply bind_inv in H as (y & w1 & H1 & H2). eapply Hf; eauto. Qed.

Lemma triple_ret {A} (P : A → world → Prop) (x : A) : triple (P x) (mret x) P.
Proof. intros w y w' Hp H. by apply ret_inv in H as [-> ->]. Qed.

Lemma triple_weaken {A} (P P' : world → Prop) (m : W A) (Q Q' : A → world → Prop) :
  triple P' m Q' → (∀ w, P w → P' w) → (∀ x w, Q' x w → Q x w) → triple P m Q.
Proof. intros H HP HQ w x w' Hp Hm. eauto. Qed.

Lemma triple_lift {A} (P : world → Prop) (o : outcome A) : triple P (lift_outcome o) (λ x w, P w ∧ o = Ok x).
Proof. intros w x w' Hp H. by apply lift_inv in H as [? ->]. Qed.

Lemma keeps_lift {A} (P : world → Prop) (o : outcome A) : keeps P (lift_outcome o).
Proof. intros w x w' Hp H. by apply lift_inv in H as [? ->]. Qed.

Lemma keeps_ret {A} (P : world → Prop) (x : A) : keeps P (mret x).
Proof. intros w y w' Hp H. by apply ret_inv in H as [-> ->]. Qed.

Lemma keeps_bind {A B} P (m : W A) (f : A → W B) : keeps P m → (∀ x, keeps P (f x)) → keeps P (m ≫= f).
Proof. intros Hm Hf. by eapply triple_bind. Qed.

Lemma keeps_when P b (m : W unit) : keeps P m → keeps P (when b m).
Proof. intros Hm. destruct b; [done|apply keeps_ret]. Qed.

Lemma keeps_w_get {A} P (f : world → A) : keeps P (w_get f).
Proof. intros w x w' Hp H. unfold w_get in H. by simplify_eq. Qed.

Lemma keeps_w_conf {A} P (f : wpa_auth_config → A) : keeps P (w_conf f).
Proof. apply keeps_w_get. Qed.

Lemma keeps_s_get {A} P p (f : wpa_state_machine → A) : keeps P (s_get p f).
Proof.
  intros w x w' Hp H. unfold s_get in H. destruct (find_station p w); cbn in H; by simplify_eq.
Qed.

Lemma keeps_gr_get {A} P p (f : WpaSm.wpa_group → A) : keeps P (gr_get p f).
Proof. intros w x w' Hp H. unfold gr_get in H. destruct (find_group p w); cbn in H; by simplify_eq. Qed.

Lemma keeps_first_ptr P : keeps P first_ptr.
Proof. intros w x w' Hp H. unfold first_ptr in H. destruct (first_group w); cbn in H; by simplify_eq. Qed.

Lemma keeps_and {A} (P Q : world → Prop) (m : W A) : keeps P m → keeps Q m → keeps (λ w, P w ∧ Q w) m.
Proof. intros HP HQ w x w' [Hp Hq] Hm. eauto. Qed.

Lemma keeps_for_each P (cb : Z → W unit) l : (∀ q, keeps P (cb q)) → keeps P (for_each cb l).
Proof. intros Hcb. induction l as [|q l IH]; [apply keeps_ret|]. by apply keeps_bind. Qed.

Lemma keeps_for_each_sta P (cb : Z → W unit) : (∀ q, keeps P (cb q)) → keeps P (for_each_sta cb).
Proof. intros Hcb. apply keeps_bind; [apply keeps_w_get|]. intros l. by apply keeps_for_each. Qed.

Create HintDb keeps.
#[export] Hint Resolve keeps_ret keeps_when keeps_w_get keeps_w_conf keeps_s_get keeps_gr_get keeps_first_ptr
  keeps_for_each_sta keeps_lift : keeps.

Ltac keeps :=
  repeat first
    [ solve [auto with keeps nocore]
    | apply keeps_bind; [|intros ?]
    | apply keeps_when
    | match goal with |- triple _ (if ?b then _ else _) _ => destruct b end
    | match goal with |- triple _ (match ?x with _ => _ end) _ => destruct x end ].
