(* ===== verification/WpaSafety.v ===== *)
(** * WPA authenticator: what a station must have shown before a port opens

    The runs of the authenticator are sequences of its operations ([wpa_op]), with
    the frames received and the keys the PMKSA cache gave to stations as history.
    In every state a run reaches, each pairwise key that was installed, and each
    port that was opened, is justified by a received frame: its MIC is right under a
    key derived from a PMK the access point has.

    The proof is by the invariant [world_ok], which has to hold in the middle of the
    loop of [wpa_sm_step] too, where stations that are stepping wait for others. *)

From Stdlib Require Import ZArith Lia Strings.String.
From stdpp Require Import base option list numbers decidable.
From S2P Require Import Prelude CLib Common Ieee8021x WpaCommon WpaKeys Pmksa WpaIe WpaSm WpaSteps WpaAuth WpaTriples.
Local Open Scope Z_scope.

(** What the authenticator was given: frames, with the address of the station they
    came for, and PMKs that the PMKSA cache gave for stations; and the stations there
    are: the addresses of the machine and of the station *)
Record history := mk_history { frames : list (bytes * bytes); handed : list bytes; present : list (Z * bytes) }.
#[export] Instance history_eta : Eta history := λ h, mk_history (frames h) (handed h) (present h).

Definition older (h h' : history) : Prop := frames h ⊆ frames h' ∧ handed h ⊆ handed h'.

(** Whether the timeout that renews the key of the station at [p] is registered *)
Fixpoint registered (p : Z) (o : list wpa_effect) : bool :=
  match o with
  | [] => false
  | Register_timeout (wpa_rekey_ptk q) _ _ :: o => if decide (q = p) then true else registered p o
  | Cancel_timeout (wpa_rekey_ptk q) :: o => if decide (q = p) then false else registered p o
  | _ :: o => registered p o
  end.

Section safety.
Context {C : Crypto}.
(** The surroundings of the operations of a run, each of which may have its own: the
    configuration changes between them. *)
Context (Env : Wpa_env → Prop).
(** The address of the access point *)
Context (aa : bytes).

(** A PMK the access point has for a station: one configured for its address, one
    from EAP, or a cached one *)
Definition known (h : history) (addr key : bytes) : Prop :=
  (∃ E i, Env E ∧ key ∈ @env_psks E i addr) ∨
  (∃ E i msk len, Env E ∧ @env_msk E i addr = Some msk ∧ key = take len msk ∧ (PMK_LEN ≤ length key)%nat) ∨
  key ∈ handed h.

(** A PTK for which a frame with a right MIC was received from [addr] *)
Definition proved (h : history) (addr : bytes) (ptk : wpa_ptk) : Prop :=
  ∃ E i pmk snonce akm cipher data,
    Env E ∧ known h addr pmk ∧ (addr, data) ∈ frames h ∧
    ptk = wpa_pmk_to_ptk pmk (lit "Pairwise key expansion") aa addr (@env_random E i WPA_NONCE_LEN).2 snonce akm cipher ∧
    wpa_verify_key_mic akm ptk data = Ok 0.

(** An effect that is allowed *)
Definition justified (h : history) (e : wpa_effect) : Prop :=
  match e with
  | Set_key _ alg addr _ key =>
    alg = WPA_ALG_NONE ∨ addr = broadcast_ether_addr ∨
    ∃ ptk len, proved h addr ptk ∧ slice (tk ptk) 0 len = Ok key
  | Set_authorized addr true => ∃ ptk, proved h addr ptk
  | Set_eapol addr WPA_EAPOL_portValid true => ∃ ptk, proved h addr ptk
  | _ => True
  end.

(** ** The invariant of a station *)

Definition fresh (m : wpa_state_machine) : Prop := ∃ E i, Env E ∧ ANonce m = (@env_random E i WPA_NONCE_LEN).2.
Definition has_pmk (h : history) (m : wpa_state_machine) : Prop :=
  known h (sm_addr (assoc m)) (take (Z.to_nat (pmk_len m)) (PMK m)).
Definition keyed (h : history) (m : wpa_state_machine) : Prop := fresh m ∧ has_pmk h m.

(** The surroundings of the operation that is going on *)
Context {E : Wpa_env}.

(** The configuration does not change during an operation: a station that has no
    PSK does not get one. *)
Definition psks_stable : Prop := ∀ i j addr, env_psks i addr = [] → env_psks j addr = [].

Definition stage (h : history) (m : wpa_state_machine) : Prop :=
  match wpa_ptk_state m with
  | WPA_PTK_INITIALIZE | WPA_PTK_DISCONNECT | WPA_PTK_DISCONNECTED | WPA_PTK_AUTHENTICATION => True
  | WPA_PTK_AUTHENTICATION2 => fresh m
  | WPA_PTK_INITPMK => fresh m ∧ (has_pmk h m ∨ Disconnect m = true)
  | WPA_PTK_INITPSK => fresh m ∧ (has_pmk h m ∨ (∀ i, env_psks i (sm_addr (assoc m)) = []) ∨ requested m = true)
  | _ => keyed h m
  end.

(** The states in which a frame completes the handshake or leads there *)
Definition exchanging (m : wpa_state_machine) : Prop :=
  wpa_ptk_state m = WPA_PTK_PTKCALCNEGOTIATING ∨ wpa_ptk_state m = WPA_PTK_PTKCALCNEGOTIATING2 ∨
  wpa_ptk_state m = WPA_PTK_PTKINITNEGOTIATING.

Record station_ok (h : history) (m : wpa_state_machine) : Prop := {
  so_ptk : PTK_valid m = true → proved h (sm_addr (assoc m)) (PTK m) ∧ keyed h m;
  so_stage : stage h m;
  so_request : PTKRequest m = true → keyed h m;
  so_mic : exchanging m → pairwise_frame m = true → MICVerified m = true → PTK_valid m = true ∨ requested m = true;
  so_verified : exchanging m → wpa_ptk_state m ≠ WPA_PTK_PTKCALCNEGOTIATING → pairwise_frame m = true →
    MICVerified m = true ∨ requested m = true ∨ update_snonce m = true;
  so_frame : ∀ d, last_rx_eapol_key m = Some d → (sm_addr (assoc m), d) ∈ frames h;
  so_pmksa : ∀ e, sm_pmksa (assoc m) = Some e → pmk e ∈ handed h;
  so_alive : pending_deinit m = false }.

(** No frame is left to be used, and [PTK_INITPSK] is left. *)
Definition calm (m : wpa_state_machine) : Prop :=
  (exchanging m → pairwise_frame m = false ∨ requested m = true) ∧
  (wpa_ptk_state m = WPA_PTK_INITPSK → requested m = true).
(** ... or there is another turn. *)
Definition settled (m : wpa_state_machine) : Prop := sm_changed m = true ∨ calm m.

(** What a station keeps *)
Record evolves (h : history) (m m' : wpa_state_machine) : Prop := {
  ev_ptr : sm_ptr m' = sm_ptr m;
  ev_addr : sm_addr (assoc m') = sm_addr (assoc m);
  ev_loop : in_step_loop m' = in_step_loop m;
  ev_keyed : keyed h m → keyed h m' }.

Lemma known_older h h' addr key : older h h' → known h addr key → known h' addr key.
Proof. intros [_ Hk] [?|[?|?]]; [by left|by right; left|right; right; by apply Hk]. Qed.

Lemma proved_older h h' addr ptk : older h h' → proved h addr ptk → proved h' addr ptk.
Proof.
  intros Ho (E' & i & pmk & sn & akm & ci & d & HE' & Hk & Hf & Hr). exists E', i, pmk, sn, akm, ci, d.
  split; [done|]. split; [by eapply known_older|]. split; [by apply Ho|done].
Qed.

Lemma justified_older h h' e : older h h' → justified h e → justified h' e.
Proof.
  intros Ho. destruct e as [addr [] []|addr []|? ? ? ? ?| | | | | | | | |]; cbn; try done.
  - intros [ptk H]. exists ptk. eauto using proved_older.
  - intros [ptk H]. exists ptk. eauto using proved_older.
  - intros [?|[?|(ptk & len & H & ?)]]; [by left|by right; left|right; right]. exists ptk, len. eauto using proved_older.
Qed.

Lemma keyed_older h h' m : older h h' → keyed h m → keyed h' m.
Proof. intros Ho [? ?]. split; [done|]. by eapply known_older. Qed.

Lemma stage_older h h' m : older h h' → stage h m → stage h' m.
Proof.
  intros Ho. unfold stage. destruct (wpa_ptk_state m); try done; try (by apply keyed_older).
  - intros [? [?|?]]; (split; [done|]); [left; by eapply known_older|by right].
  - intros [? [?|?]]; (split; [done|]); [left; by eapply known_older|by right].
Qed.

Lemma station_older h h' m : older h h' → station_ok h m → station_ok h' m.
Proof.
  intros Ho [H1 H2 H3 H4 H5 H6 H7 H8]. split; try done.
  - intros Hv. destruct (H1 Hv). split; [by eapply proved_older|by eapply keyed_older].
  - by eapply stage_older.
  - intros Hr. eapply keyed_older; eauto.
  - intros d Hd. by apply Ho, H6.
  - intros e He. by apply Ho, H7.
Qed.

Lemma evolves_refl h m : evolves h m m.
Proof. by split. Qed.

Lemma evolves_trans h m1 m2 m3 : evolves h m1 m2 → evolves h m2 m3 → evolves h m1 m3.
Proof. intros [? ? ? ?] [? ? ? ?]. split; try congruence. auto. Qed.

(** ** Steps of a station *)

(** What a transition leaves *)
Record same_keys (m m' : wpa_state_machine) : Prop := {
  sk_ptr : sm_ptr m' = sm_ptr m;
  sk_assoc : assoc m' = assoc m;
  sk_loop : in_step_loop m' = in_step_loop m;
  sk_pending : pending_deinit m' = pending_deinit m;
  sk_frame : last_rx_eapol_key m' = last_rx_eapol_key m }.
Definition same_pmk (m m' : wpa_state_machine) : Prop :=
  ANonce m' = ANonce m ∧ PMK m' = PMK m ∧ pmk_len m' = pmk_len m ∧ sm_addr (assoc m') = sm_addr (assoc m).

Lemma same_keyed h m m' : same_pmk m m' → keyed h m → keyed h m'.
Proof.
  intros (Ha & Hp & Hl & Had) [(E' & i & HE' & Hf) Hk]. split; [exists E', i; split; [done|congruence]|].
  unfold has_pmk in *. by rewrite Hp, Hl, Had.
Qed.

Lemma same_evolves h m m' : same_keys m m' → (keyed h m → keyed h m') → evolves h m m'.
Proof. intros [? Ha ? ? ?] Hk. split; try done. by rewrite Ha. Qed.

(** A station that is not exchanging frames *)
Lemma leave_ok h m m' :
  station_ok h m → same_keys m m' → (keyed h m → keyed h m') →
  (PTK_valid m' = true → PTK_valid m = true ∧ PTK m' = PTK m) →
  (PTKRequest m' = true → PTKRequest m = true) → stage h m' → ¬ exchanging m' → station_ok h m'.
Proof.
  intros [H1 H2 H3 H4 H5 H6 H7 H8] [K1 K2 K3 K4 K5] Hk Hv Hr Hs He. split; try done.
  - intros Hv'. destruct (Hv Hv') as [Hv1 ->]. rewrite K2. destruct (H1 Hv1). auto.
  - auto.
  - rewrite K5, K2. done.
  - rewrite K2. done.
  - congruence.
Qed.

Lemma leave_settled m : ¬ exchanging m → wpa_ptk_state m ≠ WPA_PTK_INITPSK → settled m.
Proof. intros He Hn. right. split; [intros Hx; by destruct He|intros Hx; by destruct Hn]. Qed.

(** A station that keeps its keys and what it received *)
Lemma keep_ok h m m' :
  station_ok h m → same_keys m m' → same_pmk m m' →
  PTK_valid m' = PTK_valid m → PTK m' = PTK m → (PTKRequest m' = true → PTKRequest m = true) →
  wpa_ptk_state m' = wpa_ptk_state m → (Disconnect m = true → Disconnect m' = true) →
  (pairwise_frame m' = true → pairwise_frame m = true) → MICVerified m' = MICVerified m →
  (requested m = true → requested m' = true) → update_snonce m' = update_snonce m → station_ok h m'.
Proof.
  intros [H1 H2 H3 H4 H5 H6 H7 H8] [K1 K2 K3 K4 K5] Hk Ev Ep Er Es Ed Ef Em Eq Eu.
  pose proof (same_keyed h _ _ Hk) as Hk'. split.
  - rewrite Ev, Ep, K2. intros Hv. destruct (H1 Hv). auto.
  - unfold stage in *. rewrite Es. destruct Hk as (Ea & Ep' & El & Ead). unfold has_pmk, fresh in *. rewrite Ea, Ep', El, Ead.
    destruct (wpa_ptk_state m); auto; destruct H2 as [? [?|Hnone]]; auto.
    split; [done|]. destruct Hnone as [?|?]; auto.
  - auto.
  - unfold exchanging in *. rewrite Es, Em, Ev. intros Hx Hf Hm. destruct (H4 Hx (Ef Hf) Hm); auto.
  - unfold exchanging in *. rewrite Es, Em, Eu. intros Hx Hn Hf. destruct (H5 Hx Hn (Ef Hf)) as [?|[?|?]]; auto.
  - rewrite K5, K2. done.
  - rewrite K2. done.
  - congruence.
Qed.

Lemma keep_settled m m' :
  settled m → wpa_ptk_state m' = wpa_ptk_state m → (pairwise_frame m' = true → pairwise_frame m = true) →
  (requested m = true → requested m' = true) → (sm_changed m = true → sm_changed m' = true ∨ requested m' = true) → settled m'.
Proof.
  intros Hs Es Ef Eq Ec. assert (calm m → calm m') as Hc.
  { intros [Hc Hn]. split; [|rewrite Es; auto]. intros Hx. unfold exchanging in *. rewrite Es in Hx.
    destruct (Hc Hx) as [Hf|Hf]; [left|right; auto].
    destruct (pairwise_frame m'); [|done]. by rewrite Ef in Hf. }
  destruct Hs as [Hs|Hs]; [|right; auto].
  destruct (Ec Hs); [by left|right]. split; intros _; auto.
Qed.

Lemma slice_start b n s : slice b 0 n = Ok s → s = take n b ∧ length s = n.
Proof.
  intros H. pose proof (slice_length _ _ _ _ H) as Hl. split; [|done]. unfold slice in H. case_decide; [|done].
  by simplify_eq.
Qed.

Context {HE : Wpa_envOk E} (HEnv : Env E).

Lemma psk_known h i addr psk : psk ∈ env_psks i addr → known h addr psk.
Proof. left. by exists E, i. Qed.

Lemma psk_length i addr psk : psk ∈ env_psks i addr → length psk = PMK_LEN.
Proof. pose proof (env_psks_len i addr) as H. rewrite list.Forall_forall in H. apply H. Qed.

(** The PMK of a station to which [key] was copied *)
Lemma pmk_put_pmk key len m m' :
  pmk_put key len m m' → take (Z.to_nat (pmk_len m')) (PMK m') = take (Z.to_nat len) key ∧ (Z.to_nat len ≤ length key)%nat.
Proof.
  intros (new & Hs & Hl & Hn & ->). apply slice_start in Hs as [Hs Hlen]. cbn [PMK pmk_len setter]. split; [done|].
  rewrite length_take in Hlen. apply (f_equal length) in Hs. rewrite !length_take in Hs. lia.
Qed.

Lemma pmk_put_same key len m m' : pmk_put key len m m' → same_keys m m' ∧ ANonce m' = ANonce m ∧
  PTK_valid m' = PTK_valid m ∧ PTK m' = PTK m ∧ PTKRequest m' = PTKRequest m ∧ wpa_ptk_state m' = wpa_ptk_state m ∧
  sm_changed m' = sm_changed m.
Proof. intros (new & _ & _ & _ & ->). split; [by split|]. done. Qed.

Lemma psk_put h i psk m m' :
  psk ∈ env_psks i (sm_addr (assoc m)) → pmk_put psk (Z.of_nat PMK_LEN) m m' → has_pmk h m'.
Proof.
  intros Hi Hp. assert (sm_addr (assoc m') = sm_addr (assoc m)) as Ha by (by destruct Hp as (? & _ & _ & _ & ->)).
  apply pmk_put_pmk in Hp as [Hp _]. unfold has_pmk. rewrite Hp, Ha, Nat2Z.id.
  pose proof (psk_length _ _ _ Hi) as Hl. rewrite take_ge by lia. by eapply psk_known.
Qed.

Lemma initpmk_ok h m m' :
  station_ok h m → wpa_ptk_state m = WPA_PTK_AUTHENTICATION2 → initpmk m m' →
  station_ok h m' ∧ evolves h m m' ∧ settled m'.
Proof.
  intros Hok Hst Hi. assert (fresh m) as Hf by (pose proof (so_stage _ _ Hok) as Hs; unfold stage in Hs; by rewrite Hst in Hs).
  destruct Hi as [->|(key & len & Hput & Hkey)].
  - assert (same_keys m (entered WPA_PTK_INITPMK m <| Disconnect := true |>)) as Hsk by done.
    split_and!; [eapply leave_ok; try done| |by left].
    + split; [done|by right].
    + by intros [|[|]].
    + apply same_evolves; [done|]. by apply same_keyed.
  - destruct (pmk_put_same _ _ _ _ Hput) as (Hsk & Ha & Hv & Hp & Hr & Hs & Hch).
    apply pmk_put_pmk in Hput as [Hput Hlen].
    assert (has_pmk h m') as Hm.
    { unfold has_pmk. rewrite Hput, (sk_assoc _ _ Hsk). destruct (sm_pmksa (assoc m)) as [e|] eqn:He.
      - destruct Hkey as [-> ->]. rewrite take_ge by (unfold zlen; lia). right; right. by eapply so_pmksa.
      - destruct Hkey as (i & Hi & Hle & Hl). right; left. exists E, i, key, (Z.to_nat len). split_and!; try done.
        rewrite length_take. unfold PMK_LEN, PMK_LEN_SUITE_B_192 in *. lia. }
    assert (fresh m') as Hf' by (destruct Hf as (E' & i & HE' & Hi); exists E', i; rewrite Ha; done).
    assert (same_keys m m') as Hsk' by (destruct Hsk; by split).
    assert (¬ exchanging m') as He by (unfold exchanging; rewrite Hs; by intros [|[|]]).
    split_and!; [eapply leave_ok; try done| |by left].
    + rewrite Hv, Hp. done.
    + rewrite Hr. done.
    + unfold stage. rewrite Hs. cbn. auto.
    + apply same_evolves; [done|]. done.
Qed.

Lemma initpsk_ok h m m' :
  psks_stable → station_ok h m → wpa_ptk_state m = WPA_PTK_AUTHENTICATION2 → initpsk m m' →
  station_ok h m' ∧ evolves h m m' ∧ settled m'.
Proof.
  intros Hstable Hok Hst (i & Hi).
  assert (fresh m) as Hf by (pose proof (so_stage _ _ Hok) as Hs; unfold stage in Hs; by rewrite Hst in Hs).
  cbn zeta in Hi. destruct (env_psks i _) as [|psk l] eqn:He.
  - subst. assert (same_keys m (entered WPA_PTK_INITPSK m <| req_replay_counter_used := false |>)) as Hsk by done.
    split_and!; [eapply leave_ok; try done| |by left].
    + split; [done|right; left]. intros j. by apply (Hstable i).
    + by intros [|[|]].
    + apply same_evolves; [done|]. by apply same_keyed.
  - destruct (pmk_put_same _ _ _ _ Hi) as (Hsk & Ha & Hv & Hp & Hr & Hs & Hch).
    assert (has_pmk h m') as Hm by (eapply (psk_put h i psk); [|exact Hi]; change (psk ∈ env_psks i (sm_addr (assoc m))); rewrite He; by constructor).
    assert (fresh m') as Hf' by (destruct Hf as (E' & j & HE' & Hj); exists E', j; rewrite Ha; done).
    assert (same_keys m m') as Hsk' by (destruct Hsk; by split).
    assert (¬ exchanging m') as Hx by (unfold exchanging; rewrite Hs; by intros [|[|]]).
    split_and!; [eapply leave_ok; try done| |by left].
    + rewrite Hv, Hp. done.
    + rewrite Hr. done.
    + unfold stage. rewrite Hs. cbn. auto.
    + apply same_evolves; [done|]. done.
Qed.

(** The candidates of a station that has a PMK *)
Lemma candidates_known h m i pmk : has_pmk h m → pmk ∈ candidates m i → known h (sm_addr (assoc m)) pmk.
Proof.
  intros Hm. unfold candidates. destruct (wpa_key_mgmt_wpa_psk _); [apply psk_known|].
  intros Hin%list_elem_of_singleton. by subst.
Qed.

Lemma verify_empty akm ptk : wpa_verify_key_mic akm ptk [] = Ok (-1).
Proof. reflexivity. Qed.

(** A key that fits a frame that was received *)
Lemma derived_proved h a m snonce pmk data :
  auth_addr a = aa → keyed h m → known h (sm_addr (assoc m)) pmk → (sm_addr (assoc m), data) ∈ frames h →
  wpa_verify_key_mic (sm_key_mgmt (assoc m)) (wpa_derive_ptk a m snonce pmk) data = Ok 0 →
  proved h (sm_addr (assoc m)) (wpa_derive_ptk a m snonce pmk).
Proof.
  intros Ha [(E' & i & HE' & Hi) _] Hk Hf Hv. unfold wpa_derive_ptk in *. rewrite Ha, Hi in *.
  exists E', i, pmk, snonce, (sm_key_mgmt (assoc m)), (sm_pairwise (assoc m)), data. done.
Qed.

Lemma calculated_ok h a m m' :
  auth_addr a = aa → station_ok h m → keyed h m → calculated a m m' → station_ok h m' ∧ evolves h m m' ∧ settled m'.
Proof.
  intros Ha Hok Hkeyed Hc.
  assert (pairwise_frame m' = false ∧ wpa_ptk_state m' = WPA_PTK_PTKCALCNEGOTIATING ∧ same_keys m m' ∧
    PTKRequest m' = PTKRequest m ∧ ANonce m' = ANonce m) as (Hf & Hs & Hsk & Hr & Hn).
  { destruct Hc as [->|(? & ? & ? & ? & _ & _ & _ & _ & ->)]; split_and!; try done; by split. }
  assert (keyed h m' ∧ (PTK_valid m' = true → proved h (sm_addr (assoc m)) (PTK m'))) as [Hk' Hv'].
  { destruct Hc as [->|(i & pmk & key & len & Hin & Hv & Hkey & Hl & ->)].
    { split; [by eapply same_keyed|]. apply (so_ptk _ _ Hok). }
    pose proof (candidates_known _ _ _ _ (proj2 Hkeyed) Hin) as Hk. split.
    - split; [exact (proj1 Hkeyed)|]. change (known h (sm_addr (assoc m)) (take (Z.to_nat len) key)).
      unfold candidates in Hin. destruct (wpa_key_mgmt_wpa_psk _).
      + destruct Hkey as [Hkey ->]. apply slice_start in Hkey as [Hkey _]. rewrite Nat2Z.id, Hkey.
        rewrite take_ge; [done|]. by rewrite (psk_length _ _ _ Hin).
      + destruct Hkey as [-> ->]. exact (proj2 Hkeyed).
    - intros _. change (proved h (sm_addr (assoc m)) (wpa_derive_ptk a m (SNonce m) pmk)). destruct (last_rx_eapol_key m) as [d|] eqn:Hd; cbn [default] in Hv.
      + eapply derived_proved; try done. by eapply so_frame.
      + cbn [default from_option id] in Hv. rewrite verify_empty in Hv. done. }
  destruct Hok as [H1 H2 H3 H4 H5 H6 H7 H8]. pose proof Hsk as [K1 K2 K3 K4 K5]. split_and!.
  - split.
    + rewrite K2. auto.
    + unfold stage. by rewrite Hs.
    + done.
    + rewrite Hf. done.
    + rewrite Hf. done.
    + rewrite K5, K2. done.
    + rewrite K2. done.
    + congruence.
  - by apply same_evolves.
  - right. split; [intros _; by left|by rewrite Hs].
Qed.

Lemma sent_same m m' : sent m m' → same_keys m m' ∧ same_pmk m m' ∧ PTK_valid m' = PTK_valid m ∧ PTK m' = PTK m ∧
  PTKRequest m' = PTKRequest m ∧ wpa_ptk_state m' = wpa_ptk_state m ∧ Disconnect m' = Disconnect m ∧
  pairwise_frame m' = pairwise_frame m ∧ MICVerified m' = MICVerified m ∧ requested m' = requested m ∧
  update_snonce m' = update_snonce m ∧ sm_changed m' = sm_changed m.
Proof. intros (? & ? & ? & ->). split; [by split|]. done. Qed.

Lemma sent_ok h m m' : station_ok h m → sent m m' → station_ok h m' ∧ evolves h m m'.
Proof.
  intros Hok Hs. apply sent_same in Hs as (Hsk & Hp & Hv & Hk & Hr & Hst & Hd & Hf & Hm & Hq & Hu & Hc).
  split.
  - eapply keep_ok; try done; congruence.
  - apply same_evolves; [done|]. by apply same_keyed.
Qed.

Lemma sent_settled m m' : settled m → sent m m' → settled m'.
Proof.
  intros Hok Hs. apply sent_same in Hs as (Hsk & Hp & Hv & Hk & Hr & Hst & Hd & Hf & Hm & Hq & Hu & Hc).
  eapply keep_settled; try done; try congruence. intros. left. congruence.
Qed.

(** A transition that leaves the handshake: the PMK is kept or the nonce is new. *)
Lemma leave_step h m m' :
  station_ok h m → same_keys m m' → (keyed h m → keyed h m') →
  (PTK_valid m' = true → PTK_valid m = true ∧ PTK m' = PTK m) →
  (PTKRequest m' = true → PTKRequest m = true) → stage h m' → ¬ exchanging m' → wpa_ptk_state m' ≠ WPA_PTK_INITPSK →
  station_ok h m' ∧ evolves h m m' ∧ settled m'.
Proof.
  intros Hok Hsk Hk Hv Hr Hs He Hc. split_and!; [by eapply leave_ok|by apply same_evolves|by apply leave_settled].
Qed.

Lemma keyed_start h m : station_ok h m → requested m = false → starts m → keyed h m.
Proof.
  intros Hok Hr Hs. pose proof (so_stage _ _ Hok) as Hst. unfold stage in Hst.
  assert (Disconnect m = false) as Hd.
  { unfold requested in Hr. by repeat (apply orb_false_elim in Hr as [Hr ?]). }
  destruct Hs as [Hs|[(Hs & i & Hi)|[(Hs & _)|(Hs & _)]]]; rewrite Hs in Hst.
  - destruct Hst as [? [?|?]]; [by split|congruence].
  - destruct Hst as [? [?|[Hn|?]]]; [by split| |congruence]. by destruct Hi.
  - done.
  - done.
Qed.

Lemma keyed_calculates h m : station_ok h m → calculates m → keyed h m.
Proof.
  intros Hok Hs. pose proof (so_stage _ _ Hok) as Hst. unfold stage in Hst.
  destruct Hs as [(Hs & _)|[(Hs & _)|(Hs & _)]]; by rewrite Hs in Hst.
Qed.

Lemma starting_ok h m m' : station_ok h m → keyed h m → sent (starting m) m' →
  station_ok h m' ∧ evolves h m m' ∧ settled m'.
Proof.
  intros Hok Hk Hs. assert (station_ok h (starting m) ∧ evolves h m (starting m) ∧ settled (starting m)) as (H1 & H2 & H3).
  { apply leave_step; try done. by intros [|[|]]. }
  destruct (sent_ok _ _ _ H1 Hs) as [? ?]. split_and!; [done|by eapply evolves_trans|by eapply sent_settled].
Qed.

(** [exchanging] goes on. *)
Lemma negotiating_ok h m m' :
  station_ok h m → requested m = false →
  wpa_ptk_state m = WPA_PTK_PTKCALCNEGOTIATING2 ∨ wpa_ptk_state m = WPA_PTK_PTKINITNEGOTIATING →
  sent (negotiating m) m' → station_ok h m' ∧ evolves h m m' ∧ settled m'.
Proof.
  intros Hok Hr Hst Hs.
  assert (exchanging m) as Hx by (unfold exchanging; tauto).
  assert (wpa_ptk_state m ≠ WPA_PTK_PTKCALCNEGOTIATING) as Hn by (destruct Hst; congruence).
  assert (keyed h m) as Hk.
  { pose proof (so_stage _ _ Hok) as Hk. unfold stage in Hk. by destruct Hst as [Hst|Hst]; rewrite Hst in Hk. }
  assert (station_ok h (negotiating m)) as H1.
  { destruct Hok as [H1 H2 H3 H4 H5 H6 H7 H8]. split; try done.
    - intros _. by apply H4.
    - intros _ _. by apply H5. }
  assert (evolves h m (negotiating m)) as H2 by (apply same_evolves; [done|by apply same_keyed]).
  destruct (sent_ok _ _ _ H1 Hs) as [? ?]. split_and!; [done|by eapply evolves_trans|].
  eapply sent_settled; [|done]. by left.
Qed.

Lemma calculate2_ok h m : station_ok h m → requested m = false → wpa_ptk_state m = WPA_PTK_PTKCALCNEGOTIATING →
  MICVerified m = true → let m' := entered WPA_PTK_PTKCALCNEGOTIATING2 m <| TimeoutCtr := 0 |> in
  station_ok h m' ∧ evolves h m m' ∧ settled m'.
Proof.
  intros Hok Hr Hst Hm m'.
  assert (exchanging m) as Hx by (unfold exchanging; tauto).
  assert (keyed h m) as Hk by (pose proof (so_stage _ _ Hok) as Hk; unfold stage in Hk; by rewrite Hst in Hk).
  split_and!; [|apply same_evolves; [done|by apply same_keyed]|by left].
  destruct Hok as [H1 H2 H3 H4 H5 H6 H7 H8]. split; try done.
  - intros _. by apply H4.
  - intros _ _ _. by left.
Qed.

Lemma done_ok h m m' : station_ok h m → completes m → initdone m m' → station_ok h m' ∧ evolves h m m' ∧ settled m'.
Proof.
  intros Hok (Hr & Hst & _) Hd.
  assert (keyed h m) as Hk by (pose proof (so_stage _ _ Hok) as Hk; unfold stage in Hk; by rewrite Hst in Hk).
  destruct Hd as [->|[->| ->]]; apply leave_step; try done; try (by intros [|[|]]).
Qed.

Lemma initialized_ok h m : station_ok h m → station_ok h (initialized m) ∧ evolves h m (initialized m) ∧ settled (initialized m).
Proof.
  intros Hok. apply leave_step; try done; try (by intros [|[|]]).
Qed.

Lemma disconnect_ok h m : station_ok h m →
  let m' := deauthed (entered WPA_PTK_DISCONNECT m <| Disconnect := false |>) in
  station_ok h m' ∧ evolves h m m' ∧ settled m'.
Proof. intros Hok m'. apply leave_step; try done; try (by intros [|[|]]). Qed.

Lemma authentication2_ok h m i (ok : bool) : station_ok h m →
  let m' := entered WPA_PTK_AUTHENTICATION2 m <| ReAuthenticationRequest := false |>
    <| ANonce := (env_random i WPA_NONCE_LEN).2 |> <| Disconnect := if ok then Disconnect m else true |>
    <| TimeoutCtr := if ok then 0 else TimeoutCtr m |> in
  station_ok h m' ∧ evolves h m m' ∧ settled m'.
Proof.
  intros Hok m'. apply leave_step; try done; try (by intros [|[|]]).
  - intros [_ Hk]. split; [by exists E, i|exact Hk].
  - by exists E, i.
Qed.

Lemma ptk_step_ok h a m m' :
  psks_stable → auth_addr a = aa → station_ok h m → ptk_step a m m' →
  station_ok h m' ∧ evolves h m m' ∧ settled m'.
Proof.
  intros Hst Ha Hok Hs. inversion Hs; subst.
  - by apply initialized_ok.
  - by apply disconnect_ok.
  - apply leave_step; try done; try (by intros [|[|]]).
  - apply leave_step; try done; try (by intros [|[|]]).
  - by apply authentication2_ok.
  - by apply initpmk_ok.
  - by apply initpsk_ok.
  - apply starting_ok; try done.
    match goal with Hx : PTKRequest m = true ∨ _ |- _ => destruct Hx as [Hx|[Hx ?]] end.
    + by apply (so_request _ _ Hok).
    + by apply keyed_start.
  - apply calculated_ok with a; try done. by apply keyed_calculates.
  - by apply calculate2_ok.
  - apply negotiating_ok; try done. tauto.
  - by apply done_ok.
  - split_and!; [done|apply evolves_refl|]. right. split.
    2:{ intros Hx. match goal with Hw : waits m' |- _ => unfold waits in Hw; by rewrite Hx in Hw end. }
    intros Hx. match goal with Hw : waits m' |- _ => unfold waits in Hw; destruct Hx as [Hx|[Hx|Hx]]; rewrite Hx in Hw end.
    + left. tauto.
    + done.
    + left. destruct (pairwise_frame m') eqn:Hf; [|done].
      pose proof (so_verified _ _ Hok) as Hv. unfold exchanging in Hv. rewrite Hx in Hv.
      match goal with Hw : _ ∧ _ |- _ => destruct Hw as (Hu & Hm & _) end. specialize (Hm eq_refl).
      destruct Hv as [?|[?|?]]; auto; congruence.
Qed.

Lemma group_key_step_ok h m m' :
  station_ok h m → settled m → group_key_step m m' → station_ok h m' ∧ evolves h m m' ∧ settled m'.
Proof.
  intros Hok Hse Hs.
  assert (∀ m'', same_keys m m'' → same_pmk m m'' → PTK_valid m'' = PTK_valid m → PTK m'' = PTK m →
    PTKRequest m'' = PTKRequest m → wpa_ptk_state m'' = wpa_ptk_state m → (Disconnect m = true → Disconnect m'' = true) →
    (pairwise_frame m'' = true → pairwise_frame m = true) → MICVerified m'' = MICVerified m →
    (requested m = true → requested m'' = true) → update_snonce m'' = update_snonce m →
    (sm_changed m = true → sm_changed m'' = true ∨ requested m'' = true) →
    station_ok h m'' ∧ evolves h m m'' ∧ settled m'') as Hkeep.
  { intros m'' Hsk Hp Hv Hk Hr Hst Hd Hf Hm Hq Hu Hc. split_and!.
    - eapply keep_ok; try done. congruence.
    - apply same_evolves; [done|]. by apply same_keyed.
    - by eapply keep_settled. }
  assert (∀ m0, sm_changed (idle m0) = true ∨ Init m0 = true) as Hidle.
  { intros m0. destruct (Init m0) eqn:Hi; [by right|left]. unfold idle. cbn [sm_changed setter]. by rewrite Hi. }
  assert (∀ m0, Init m0 = true → requested m0 = true) as Hini by (intros m0 Hi; unfold requested; by rewrite Hi).
  inversion Hs; subst.
  - apply Hkeep; try done. intros _. destruct (Hidle m) as [Hi|Hi]; [by left|right]. by apply Hini.
  - match goal with Hx : rekeyed m m' |- _ => destruct Hx as [[_ ->]|[_ Hsent]] end.
    + apply Hkeep; try done. intros _. by left.
    + assert (station_ok h (rekeying_sent m) ∧ evolves h m (rekeying_sent m) ∧ settled (rekeying_sent m)) as (A1 & A2 & A3).
      { apply Hkeep; try done. intros _. by left. }
      destruct (sent_ok _ _ _ A1 Hsent) as [? ?]. split_and!; [done|by eapply evolves_trans|by eapply sent_settled].
  - apply Hkeep; try done. intros _. by left.
  - apply Hkeep; try done; try (intros _; by left). intros _. unfold requested. change (Disconnect (key_error m)) with true.
    by rewrite orb_true_r.
  - apply Hkeep; try done. intros _. destruct (Hidle m) as [Hi|Hi]; [by left|right]. by apply Hini.
  - split_and!; [done|apply evolves_refl|done].
Qed.

(** ** Effects *)

(** An effect of the station at [p]; only a station with keys registers its rekeying. *)
Definition effect_ok (h : history) (p : Z) (has_keys : Prop) (e : wpa_effect) : Prop :=
  justified h e ∧ ∀ q secs usecs, e = Register_timeout (wpa_rekey_ptk q) secs usecs → q = p ∧ has_keys.

Lemma quiet_effect_ok h p K e : quiet p e → effect_ok h p K e.
Proof.
  intros Hq. split; [|intros q s u ->; by cbn in Hq].
  destruct e as [addr [] []|addr []|? ? ? ? ?| | | | | | | | |]; cbn in *; try done. tauto.
Qed.

Lemma completes_valid h m : station_ok h m → completes m → PTK_valid m = true.
Proof.
  intros Hok (Hr & Hs & _ & Hf & Hm). destruct (so_mic _ _ Hok) as [?|?]; try done; [|congruence].
  unfold exchanging. tauto.
Qed.

Lemma ptk_effect_ok h p m e : station_ok h m → ptk_effect p m e → effect_ok h p (keyed h m) e.
Proof.
  intros Hok [Hq|[Hc Hg]]; [by apply quiet_effect_ok|].
  destruct (so_ptk _ _ Hok (completes_valid _ _ Hok Hc)) as [Hp Hk].
  destruct Hg; try (by split; [exists (PTK m)|]); try (by apply quiet_effect_ok).
  - split; [|done]. right; right. eauto.
  - split; [done|]. intros q ? ? [= -> _ _]. done.
Qed.

(** ** The invariant of the authenticator

    [S] has the stations that are stepping, which wait until the step of their group
    is done. The station [r] is the one that runs, or is about to. *)

Definition station_inv (h : history) (S : list Z) (r : option Z) (m : wpa_state_machine) : Prop :=
  station_ok h m ∧ (in_step_loop m = true ↔ sm_ptr m ∈ S) ∧ (sm_ptr m ∉ S → r ≠ Some (sm_ptr m) → calm m) ∧
  (sm_ptr m ∈ S → r ≠ Some (sm_ptr m) → settled m).

Lemma inv_intro h S r m :
  station_ok h m → (in_step_loop m = true ↔ sm_ptr m ∈ S) → (sm_ptr m ∉ S → r ≠ Some (sm_ptr m) → calm m) →
  (sm_ptr m ∈ S → r ≠ Some (sm_ptr m) → settled m) → station_inv h S r m.
Proof. done. Qed.

Record world_ok (h : history) (S : list Z) (r : option Z) (w : world) : Prop := {
  wo_addr : auth_addr (auth w) = aa;
  wo_ptrs : NoDup (map sm_ptr (stations w));
  wo_present : map (λ m, (sm_ptr m, sm_addr (assoc m))) (stations w) = present h;
  wo_stations : ∀ m, m ∈ stations w → station_inv h S r m;
  wo_out : ∀ e, e ∈ out w → justified h e;
  wo_rekey : ∀ p, registered p (out w) = true → ∃ m, m ∈ stations w ∧ sm_ptr m = p ∧ keyed h m }.

Lemma find_station_in p w m : find_station p w = Ok m → m ∈ stations w ∧ sm_ptr m = p.
Proof.
  unfold find_station. destruct (List.find _ _) as [m'|] eqn:Hf; [|done]. intros [= <-].
  apply List.find_some in Hf as [Hi Hp]. split; [by apply list_elem_of_In|]. by apply bool_decide_eq_true in Hp.
Qed.

Lemma put_station_ptrs m w : map sm_ptr (stations (put_station m w)) = map sm_ptr (stations w).
Proof.
  cbn. rewrite map_map. apply map_ext. intros m'. by destruct (decide _) as [->|].
Qed.

Lemma in_put_station m m0 w : m0 ∈ stations (put_station m w) → m0 = m ∨ (m0 ∈ stations w ∧ sm_ptr m0 ≠ sm_ptr m).
Proof.
  cbn. intros Hin%list_elem_of_In%in_map_iff. destruct Hin as (m' & Hm & Hin%list_elem_of_In).
  destruct (decide _); subst; [by left|by right].
Qed.

Lemma put_station_in m m0 w : m0 ∈ stations w → sm_ptr m0 ≠ sm_ptr m → m0 ∈ stations (put_station m w).
Proof.
  intros Hin Hne. cbn. apply list_elem_of_In, in_map_iff. exists m0. split; [|by apply list_elem_of_In].
  by rewrite decide_False.
Qed.

Lemma put_station_self m m0 w : m0 ∈ stations w → sm_ptr m0 = sm_ptr m → m ∈ stations (put_station m w).
Proof.
  intros Hin He. cbn. apply list_elem_of_In, in_map_iff. exists m0. split; [|by apply list_elem_of_In].
  by rewrite decide_True.
Qed.

Lemma NoDup_map_inj {A B} (f : A → B) l x y : NoDup (map f l) → x ∈ l → y ∈ l → f x = f y → x = y.
Proof.
  induction l as [|z l IH]; cbn; [by intros _ ?%not_elem_of_nil|]. intros [Hz Hl]%list.NoDup_cons Hx Hy Hxy.
  assert (∀ u, u ∈ l → f u ∈ map f l) as Hin.
  { intros u Hu. apply list_elem_of_In, in_map, list_elem_of_In, Hu. }
  apply elem_of_cons in Hx as [->|Hx], Hy as [->|Hy]; [done| | |by apply IH].
  - destruct Hz. rewrite Hxy. auto.
  - destruct Hz. rewrite <- Hxy. auto.
Qed.

(** The log decides who has the timeout. *)
Lemma registered_extends h p K Q o1 o2 q :
  (∀ e, Q e → effect_ok h p K e) → extends Q o1 o2 → registered q o2 = true → registered q o1 = true ∨ (q = p ∧ K).
Proof.
  intros HQ Ho. induction Ho as [|e o He Ho IH]; [by left|]. intros Hr. destruct (HQ _ He) as [_ Hreg].
  cbn [registered] in Hr. destruct e; try (by apply IH).
  - destruct t; try (by apply IH). case_decide; [|by apply IH]. subst. right. by eapply Hreg.
  - destruct t; try (by apply IH). case_decide; [done|by apply IH].
Qed.

Lemma justified_extends h p K Q o1 o2 :
  (∀ e, Q e → effect_ok h p K e) → extends Q o1 o2 → (∀ e, e ∈ o1 → justified h e) → ∀ e, e ∈ o2 → justified h e.
Proof.
  intros HQ Ho H1. induction Ho as [|e o He Ho IH]; [done|]. intros e' [->|Hin]%elem_of_cons; [by apply HQ|by apply IH].
Qed.

Definition moves (h : history) (m m' : wpa_state_machine) : Prop :=
  sm_ptr m' = sm_ptr m ∧ sm_addr (assoc m') = sm_addr (assoc m) ∧ (keyed h m → keyed h m').

Lemma evolves_moves h m m' : evolves h m m' → moves h m m'.
Proof. by intros [? ? ? ?]. Qed.

(** One station goes on. *)
Lemma world_put h S r S' r' w m m' Q w' :
  world_ok h S r w → m ∈ stations w → moves h m m' →
  station_inv h S' r' m' →
  (∀ m0, m0 ∈ stations w → sm_ptr m0 ≠ sm_ptr m → station_inv h S' r' m0) →
  (∀ e, Q e → effect_ok h (sm_ptr m) (keyed h m') e) → extends Q (out w) (out w') →
  auth w' = auth w → stations w' = stations (put_station m' w) → world_ok h S' r' w'.
Proof.
  intros [W1 W2 W2' W3 W4 W5] Hin (E1 & E2 & E4) Hm' Hrest HQ Ho Ha Hst. split.
  - congruence.
  - by rewrite Hst, put_station_ptrs.
  - rewrite <- W2', Hst. cbn. rewrite map_map. apply map_ext_in. intros m0 Hi%list_elem_of_In.
    case_decide as Hp; [|done]. rewrite E1 in Hp. rewrite (NoDup_map_inj sm_ptr (stations w) m0 m); try done. congruence.
  - intros m0. rewrite Hst. intros [->|[Hi Hn]]%in_put_station; [done|]. rewrite E1 in Hn. auto.
  - by eapply justified_extends.
  - intros q Hq. rewrite Hst. apply (registered_extends h (sm_ptr m) (keyed h m') Q (out w)) in Hq as [Hq|[-> Hk]]; try done.
    + destruct (W5 q Hq) as (m0 & Hi & Hp & Hk). destruct (decide (q = sm_ptr m)) as [->|Hne].
      * exists m'. split; [apply (put_station_self m' m); congruence|]. split; [congruence|]. apply E4.
        assert (m0 = m) as ->; [|done]. apply (NoDup_map_inj sm_ptr (stations w)); [done..|congruence].
      * exists m0. split; [apply put_station_in; congruence|done].
    + exists m'. split; [apply (put_station_self m' m); congruence|]. split; [congruence|done].
Qed.

(** ** Operations that keep the invariant *)

(** Nothing of what the invariant is about *)
Lemma world_same h S r w w' :
  world_ok h S r w → auth_addr (auth w') = auth_addr (auth w) → stations w' = stations w → out w' = out w →
  world_ok h S r w'.
Proof.
  intros [W1 W2 W2' W3 W4 W5] Ha Hs Ho. split; rewrite ?Ha, ?Hs, ?Ho; done.
Qed.

Lemma keeps_same h S r (f : world → world) :
  (∀ w, auth_addr (auth (f w)) = auth_addr (auth w) ∧ stations (f w) = stations w ∧ out (f w) = out w) →
  keeps (world_ok h S r) (w_upd f).
Proof.
  intros Hf w x w' Hw H. unfold w_upd in H. simplify_eq. destruct (Hf w) as (? & ? & ?). by eapply world_same.
Qed.

Lemma keeps_w_ask {A} h S r (f : nat → A) : keeps (world_ok h S r) (w_ask f).
Proof. intros w x w' Hw H. unfold w_ask in H. simplify_eq. by eapply world_same. Qed.

Lemma keeps_gr_upd h S r p f : keeps (world_ok h S r) (gr_upd p f).
Proof.
  intros w x w' Hw H. unfold gr_upd in H. destruct (find_group p w); cbn in H; try done. simplify_eq. by eapply world_same.
Qed.

(** Effects that are no station's *)
Definition plain (e : wpa_effect) : Prop :=
  match e with
  | Set_key _ _ addr _ _ => addr = broadcast_ether_addr
  | Set_authorized _ v => v = false
  | Set_eapol _ WPA_EAPOL_portValid v => v = false
  | Register_timeout (wpa_rekey_ptk _) _ _ => False
  | _ => True
  end.

Lemma plain_ok h p K e : plain e → effect_ok h p K e.
Proof.
  intros Hq. split; [|intros q s u ->; by cbn in Hq].
  destruct e as [addr [] []|addr []|? ? ? ? ?| | | | | | | | |]; cbn in *; try done. tauto.
Qed.

Lemma world_effects h S r w w' p Q :
  world_ok h S r w → auth_addr (auth w') = auth_addr (auth w) → stations w' = stations w →
  (∀ e, Q e → effect_ok h p False e) → extends Q (out w) (out w') → world_ok h S r w'.
Proof.
  intros [W1 W2 W2' W3 W4 W5] Ha Hs HQ Ho. split; rewrite ?Ha, ?Hs; try done.
  - by eapply (justified_extends h p False).
  - intros q Hq. apply (registered_extends h p False Q (out w)) in Hq as [Hq|[_ []]]; try done. by apply W5.
Qed.

Lemma keeps_w_emit h S r e : plain e → keeps (world_ok h S r) (w_emit e).
Proof.
  intros He w x w' Hw H. unfold w_emit, w_upd in H. simplify_eq.
  eapply (world_effects h S r w _ 0 plain); try done; [intros e'; apply plain_ok|].
  cbn. constructor; [done|constructor].
Qed.

Lemma keeps_at_group {A} h S r p (f : wpa_authenticator → S_M grp A) :
  (∀ a g n o x gr, f a (mk_grp g n o) = Ok (x, gr) → gran 0 g o gr) → keeps (world_ok h S r) (at_group p f).
Proof.
  intros Hf w x w' Hw H. unfold at_group in H. apply bind_Ok_inv in H as (g & Hg & H).
  apply bind_Ok_inv in H as ([y gr] & Hr & H). apply Hf in Hr as [_ Ho]. simplify_eq/=.
  eapply (world_effects h S r w _ 0 (quiet 0)); try done. intros e. apply quiet_effect_ok.
Qed.

(** An operation on a station and its group *)
Definition station_op (h : history) (p : Z) (P : wpa_state_machine → Prop) {A} (f : wpa_authenticator → own_ie → S_M sta A)
    (Q : A → wpa_state_machine → Prop) : Prop :=
  ∀ a ow m g n o F x s', auth_addr a = aa → P m → at_ptr m p → f a ow (mk_sta m (mk_grp g n o) F) = Ok (x, s') →
    evolves h m (sm s') ∧ Q x (sm s') ∧ extends (effect_ok h p (keyed h (sm s'))) o (g_out (grp_of s')).

Lemma at_station_ok {A} h S r S' r' p P (f : wpa_authenticator → own_ie → S_M sta A) Q w x w' :
  station_op h p P f Q → (∀ m, station_inv h S r m → sm_ptr m = p → m ∈ stations w → P m) →
  (∀ x m m', station_inv h S r m → sm_ptr m = p → evolves h m m' → Q x m' → station_inv h S' r' m') →
  (∀ m, sm_ptr m ≠ p → station_inv h S r m → station_inv h S' r' m) →
  world_ok h S r w → at_station p f w = Ok (x, w') →
  world_ok h S' r' w' ∧ ∃ m', m' ∈ stations w' ∧ sm_ptr m' = p ∧ Q x m'.
Proof.
  intros Hop HP HQ Hrest Hw H. unfold at_station in H. apply bind_Ok_inv in H as (m & Hm & H).
  apply find_station_in in Hm as [Hin Hp].
  apply bind_Ok_inv in H as (g & Hg & H). apply bind_Ok_inv in H as ([y s'] & Hr & H).
  assert (station_inv h S r m) as Hinv by (eapply wo_stations; eauto).
  apply (Hop _ _ _ _ _ _ _ y s') in Hr as (He & Hq & Ho); [|by eapply wo_addr|by apply HP|done]. simplify_eq/=.
  pose proof (ev_ptr _ _ _ He) as Hp'. split.
  - eapply (world_put h S r S' r' w m (sm s') (effect_ok h (sm_ptr m) (keyed h (sm s')))); try done.
    + by apply evolves_moves.
    + by eapply HQ.
    + intros m0 Hi Hne. apply Hrest; [done|by eapply wo_stations].
  - exists (sm s'). split; [|done]. by apply (put_station_self _ m).
Qed.

(** What other stations are, when one is the same but for its [settled] or [calm] *)
Lemma keeps_at_station {A} h S p P (f : wpa_authenticator → own_ie → S_M sta A) Q :
  station_op h p P f Q → (∀ m, station_inv h S None m → sm_ptr m = p → P m) →
  (∀ x m m', station_inv h S None m → sm_ptr m = p → evolves h m m' → Q x m' → station_inv h S None m') →
  keeps (world_ok h S None) (at_station p f).
Proof. intros Hop HP HQ w x w' Hw H. eapply at_station_ok in H as [? _]; try done. intros m Hm Hp _. auto. Qed.

(** Updates of a station *)
Lemma s_upd_ok h S r S' r' p (f : wpa_state_machine → wpa_state_machine) w x w' :
  (∀ m, station_inv h S r m → sm_ptr m = p → m ∈ stations w → moves h m (f m) ∧ station_inv h S' r' (f m)) →
  (∀ m, sm_ptr m ≠ p → station_inv h S r m → station_inv h S' r' m) →
  world_ok h S r w → s_upd p f w = Ok (x, w') → world_ok h S' r' w'.
Proof.
  intros Hf Hrest Hw H. unfold s_upd in H. apply bind_Ok_inv in H as (m & Hm & H). simplify_eq.
  apply find_station_in in Hm as [Hin Hp]. destruct (Hf m) as [He Hi]; [by eapply wo_stations|done..|].
  eapply (world_put h S r S' r' w m (f m) (λ _, False)); try done.
  - intros m0 Hi0 Hne. apply Hrest; [congruence|by eapply wo_stations].
  - constructor.
Qed.

Lemma keeps_s_upd h S p f :
  (∀ m, station_inv h S None m → sm_ptr m = p → moves h m (f m) ∧ station_inv h S None (f m)) →
  keeps (world_ok h S None) (s_upd p f).
Proof. intros Hf w x w' Hw H. eapply s_upd_ok in H; try done. intros m Hi Hp _. by apply Hf. Qed.

(** A station that keeps what the invariant is about *)
Lemma keep_inv h S m m' :
  station_inv h S None m → same_keys m m' → same_pmk m m' →
  PTK_valid m' = PTK_valid m → PTK m' = PTK m → (PTKRequest m' = true → PTKRequest m = true) →
  wpa_ptk_state m' = wpa_ptk_state m → (Disconnect m = true → Disconnect m' = true) →
  (pairwise_frame m' = true → pairwise_frame m = true) → MICVerified m' = MICVerified m →
  (requested m = true → requested m' = true) → update_snonce m' = update_snonce m →
  (sm_changed m = true → sm_changed m' = true ∨ requested m' = true) →
  moves h m m' ∧ station_inv h S None m'.
Proof.
  intros (Hok & Hl & Hc & Hs) Hsk Hp Hv Hk Hr Hst Hd Hf Hm Hq Hu Hch.
  split; [split; [apply Hsk|split; [by rewrite (sk_assoc _ _ Hsk)|by apply same_keyed]]|]. pose proof Hsk as [K1 K2 K3 K4 K5].
  split_and!; [by eapply keep_ok| | |].
  - by rewrite K1, K3.
  - rewrite K1. intros Hn _. destruct (Hc Hn (λ Hq : None = Some _, ltac:(discriminate Hq))) as [Hc1 Hc2].
    split; [|rewrite Hst; auto]. intros Hx. unfold exchanging in Hx. rewrite Hst in Hx.
    destruct (Hc1 Hx) as [H|H]; [left|right; auto].
    destruct (pairwise_frame m'); [|done]. by rewrite Hf in H.
  - rewrite K1. intros Hn _. eapply keep_settled; eauto.
Qed.

(** ** The machine of a group *)

Hint Resolve keeps_w_ask keeps_gr_upd : keeps.

Lemma gtk_update_keeps h S r p : keeps (world_ok h S r) (at_group p wpa_gtk_update).
Proof. apply keeps_at_group. intros a g n o x gr. apply gtk_update_run. Qed.
Lemma config_keys_keeps h S r p : keeps (world_ok h S r) (at_group p wpa_group_config_group_keys).
Proof. apply keeps_at_group. intros a g n o x gr. apply config_keys_run. Qed.
Lemma init_gmk_keeps h S r p : keeps (world_ok h S r) (at_group p wpa_group_init_gmk_and_counter).
Proof. apply keeps_at_group. intros a g n o x gr. apply init_gmk_run. Qed.

Lemma set_count_keeps h S p f : keeps (world_ok h S None) (at_station p (λ _ _, set_GKeyDoneStations f)).
Proof.
  apply (keeps_at_station h S p (station_inv h S None) _ (λ _ m', station_inv h S None m')); try done.
  intros a ow m g n o F x s' Ha Hm Hp H. apply set_count_run in H as (k & _ & ->).
  split_and!; [apply evolves_refl|done|constructor].
Qed.

Lemma group_key_done_keeps h S p : keeps (world_ok h S None) (at_station p (λ _ _, group_key_done)).
Proof.
  apply (keeps_at_station h S p (station_inv h S None) _ (λ _ m', station_inv h S None m')); try done.
  intros a ow m g n o F x s' Ha Hm Hp H. apply (group_key_done_run p) in H as [Hs _ Ho _]; [|done]. rewrite Hs.
  destruct (keep_inv h S m (m <| GUpdateStationKeys := false |>)) as [(_ & _ & ?) ?]; try done; [intros; by left|].
  split_and!; [by split|done|]. eapply ext_weaken; [|exact Ho]. intros e. apply quiet_effect_ok.
Qed.

Section group_machine.
Context (step : Z → W unit) (Hstep : ∀ h S q, keeps (world_ok h S None) (step q)).

Lemma update_sta_keeps h S ctx p : keeps (world_ok h S None) (wpa_group_update_sta step ctx p).
Proof.
  unfold wpa_group_update_sta. apply keeps_bind; [apply keeps_s_get|]. intros m. do 2 (case_decide; [first [apply keeps_ret|
    apply keeps_s_upd; intros m' Hm' _; apply keep_inv; try done; intros; by left]|]).
  apply keeps_bind; [apply set_count_keeps|]. intros _. apply keeps_bind; [|intros _; apply Hstep].
  apply keeps_s_upd. intros m' Hm' _. apply keep_inv; try done. intros; by left.
Qed.

Lemma disconnect_cb_keeps h S ctx p : keeps (world_ok h S None) (wpa_group_disconnect_cb ctx p).
Proof.
  apply keeps_s_upd. intros m Hm _. case_decide; [|split; [by split|done]].
  apply keep_inv; try done; [|intros; by left]. intros _. unfold requested. cbn. by rewrite orb_true_r.
Qed.

Lemma group_sm_step_keeps h S p : keeps (world_ok h S None) (wpa_group_sm_step step p).
Proof.
  pose proof (update_sta_keeps h S) as H1. pose proof (disconnect_cb_keeps h S) as H2.
  pose proof (gtk_update_keeps h S None) as H3. pose proof (config_keys_keeps h S None) as H4.
  assert (keeps (world_ok h S None) (wpa_group_fatal_failure p)) as Hf by (unfold wpa_group_fatal_failure; keeps).
  assert (keeps (world_ok h S None) (wpa_group_setkeysdone p)) as Hd.
  { unfold wpa_group_setkeysdone. keeps. }
  assert (keeps (world_ok h S None) (wpa_group_setkeys step p)) as Hk by (unfold wpa_group_setkeys; keeps).
  unfold wpa_group_sm_step, wpa_group_gtk_init. keeps.
Qed.

(** ** The loop of [wpa_sm_step] *)

Context (Hstable : psks_stable).

Lemma station_steps_op h p :
  station_op h p (station_ok h) station_steps (λ (x : bool) m', station_ok h m' ∧ settled m' ∧ x = false).
Proof.
  intros a ow m g n o F x s' Ha Hok Hp H.
  apply (station_steps_run _ _ p) in H as (m1 & H1 & H2 & _ & -> & [_ _ _ Ho]); [|done].
  destruct (ptk_step_ok h a m m1) as (A1 & A2 & A3); try done.
  destruct (group_key_step_ok h m1 (sm s')) as (B1 & B2 & B3); try done; [apply H2, A1|].
  assert (evolves h m (sm s')) as He by (by eapply evolves_trans).
  split_and!; try done; [apply B1|].
  eapply ext_weaken; [|exact Ho]. intros e Hpe.
  destruct (ptk_effect_ok h p m e Hok Hpe) as [? Hreg]. split; [done|].
  intros q secs usecs Heq. destruct (Hreg q secs usecs Heq) as [? Hk]. split; [done|]. by apply He.
Qed.

(** The station at [p] waits for nothing of its own. *)
Definition rests (p : Z) (w : world) : Prop := ∀ m, m ∈ stations w → sm_ptr m = p → calm m.

Lemma found h S r w m p : world_ok h S r w → find_station p w = Ok m → station_inv h S r m ∧ sm_ptr m = p ∧ m ∈ stations w.
Proof. intros Hw Hf. apply find_station_in in Hf as [Hin Hp]. split; [by eapply wo_stations|done]. Qed.

Lemma unique h S r w m m' : world_ok h S r w → m ∈ stations w → m' ∈ stations w → sm_ptr m = sm_ptr m' → m = m'.
Proof. intros Hw. apply NoDup_map_inj. by eapply wo_ptrs. Qed.

Lemma world_run h S p w : world_ok h S None w → world_ok h S (Some p) w.
Proof.
  intros [W1 W2 W2' W3 W4 W5]. split; try done. intros m Hm. destruct (W3 m Hm) as (? & ? & Hc & Hs).
  apply inv_intro; try done; intros Hin _; [by apply Hc|by apply Hs].
Qed.

Lemma step_loop_ok h S p fuel :
  p ∈ S → triple (world_ok h S (Some p)) (step_loop step fuel p) (λ _ w, world_ok h S None w ∧ rests p w).
Proof.
  intros HpS. induction fuel as [|fuel IH]; intros w x w' Hw H; [done|]. cbn [step_loop] in H.
  apply bind_inv in H as (gone & w1 & H1 & H). apply s_get_inv in H1 as (m & Hm & -> & ->).
  destruct (found _ _ _ _ _ _ Hw Hm) as ((Hok & _) & _ & _). rewrite (so_alive _ _ Hok) in H.
  apply bind_inv in H as (? & w2 & H1 & H). eapply (s_upd_ok h S (Some p) S (Some p)) in H1; [..|done]; cycle 1.
  { intros m0 (Hok0 & Hl & Hc & Hs) Hp0 _. split; [by split|]. split_and!; try done.
    - eapply keep_ok; try done.
    - cbn. congruence. }
  { done. }
  apply bind_inv in H as (? & w3 & H2 & H). apply first_ptr_inv in H2 as ->.
  apply bind_inv in H as (? & w4 & H3 & H). apply (keeps_gr_upd h S (Some p)) in H3; [|done]. clear H1.
  apply bind_inv in H as (gone & w5 & H4 & H).
  eapply (at_station_ok h S (Some p) S None p (station_ok h) _ (λ (x : bool) m', station_ok h m' ∧ settled m' ∧ x = false))
    in H4 as (H4 & m5 & Hm5 & Hp5 & _ & _ & ->); try done.
  2:{ apply station_steps_op. }
  2:{ by intros m0 (? & _). }
  2:{ intros y0 m0 m' (Hok0 & Hl & Hc & Hs) Hp0 [E1 E2 E3 E4] (Hok' & Hset & _). apply inv_intro; try done.
      - by rewrite E3, E1.
      - rewrite E1, Hp0. done. }
  2:{ intros m0 Hne (Hok0 & Hl & Hc & Hs). apply inv_intro; try done; intros Hin _; [apply Hc|apply Hs]; (done || congruence). }
  cbv beta iota in H. apply bind_inv in H as (g & w6 & H5 & H). apply s_get_inv in H5 as (_ & _ & _ & ->).
  apply bind_inv in H as (? & w7 & H6 & H). apply (group_sm_step_keeps h S) in H6; [|exact H4].
  apply bind_inv in H as (again & w8 & H7 & H). apply s_get_inv in H7 as (m7 & Hm7 & -> & ->).
  apply bind_inv in H as (? & w9 & H8 & H). apply first_ptr_inv in H8 as ->.
  apply bind_inv in H as (ga & w10 & H10 & H). apply gr_get_inv in H10 as ->.
  destruct (sm_changed m7 || ga) eqn:Hag.
  - eapply IH; [|exact H]. by apply world_run.
  - apply ret_inv in H as [_ ->]. split; [done|]. intros m0 Hin Hp0.
    destruct (found _ _ _ _ _ _ H6 Hm7) as ((_ & _ & _ & Hs) & Hp7 & Hin7).
    assert (m0 = m7) as -> by (apply (unique _ _ _ _ _ _ H6); [done|done|congruence]).
    apply orb_false_elim in Hag as [Hc _]. assert (settled m7) as [?|?] by (apply Hs; congruence); [congruence|done].
Qed.

(** The station steps, also when it just received a frame. *)
Lemma step_station_ok h S p :
  p ∉ S → triple (world_ok h S (Some p)) (step_station step p) (λ _, world_ok h S None).
Proof.
  intros HpS w x w' Hw H. unfold step_station in H.
  apply bind_inv in H as (rec & w1 & H1 & H). apply s_get_inv in H1 as (m & Hm & -> & ->).
  destruct (found _ _ _ _ _ _ Hw Hm) as ((_ & Hl & _ & _) & Hp & Hin).
  destruct (in_step_loop m) eqn:Hrec; [rewrite Hp in Hl; by destruct HpS; apply Hl|].
  apply bind_inv in H as (? & w2 & H1 & H).
  eapply (s_upd_ok h S (Some p) (p :: S) (Some p)) in H1; [..|exact Hw]; cycle 1.
  { intros m0 (Hok0 & Hl0 & Hc & Hs) Hp0 _. split; [by split|]. apply inv_intro.
    - by destruct Hok0; split.
    - cbn. rewrite Hp0. split; [by left|done].
    - cbn. rewrite Hp0. intros Hn. destruct Hn. by left.
    - cbn. congruence. }
  { intros m0 Hne (Hok0 & Hl0 & Hc & Hs). apply inv_intro; try done.
    - rewrite Hl0, elem_of_cons. tauto.
    - intros Hn. apply Hc. intros Hx. apply Hn. by right.
    - intros [?|Hx]%elem_of_cons ?; [done|]. by apply Hs. }
  apply bind_inv in H as (? & w3 & H2 & H). eapply (step_loop_ok h (p :: S) p) in H2 as [H2 Hrest]; [|by left|done].
  apply bind_inv in H as (? & w4 & H3 & H).
  eapply (s_upd_ok h (p :: S) None S None) in H3; [..|exact H2]; cycle 1.
  { intros m0 (Hok0 & Hl0 & Hc & Hs) Hp0 Hin0. split; [by split|]. apply inv_intro.
    - by destruct Hok0; split.
    - cbn. rewrite Hp0. done.
    - intros _ _. by apply (Hrest m0).
    - cbn. rewrite Hp0. done. }
  { intros m0 Hne (Hok0 & Hl0 & Hc & Hs). apply inv_intro; try done.
    - rewrite Hl0, elem_of_cons. tauto.
    - intros Hn. apply Hc. intros [?|?]%elem_of_cons; done.
    - intros Hx _. apply Hs; [by right|done]. }
  apply bind_inv in H as (gone & w5 & H4 & H). apply s_get_inv in H4 as (m4 & Hm4 & -> & ->).
  destruct (found _ _ _ _ _ _ H3 Hm4) as ((Hok4 & _) & _ & _). rewrite (so_alive _ _ Hok4) in H.
  by apply ret_inv in H as [_ ->].
Qed.

Lemma step_station_keeps h S p : keeps (world_ok h S None) (step_station step p).
Proof.
  intros w x w' Hw H. destruct (decide (p ∈ S)) as [Hin|Hn]; [|eapply step_station_ok; [done|by apply world_run|done]].
  unfold step_station in H. apply bind_inv in H as (rec & w1 & H1 & H). apply s_get_inv in H1 as (m & Hm & -> & ->).
  destruct (found _ _ _ _ _ _ Hw Hm) as ((_ & Hl & _ & _) & Hp & _). rewrite <- Hp in Hin.
  rewrite (proj2 Hl Hin) in H. by apply ret_inv in H as [_ ->].
Qed.

End group_machine.

Context (Hstable : psks_stable).

Lemma nested_step_keeps depth h S p : keeps (world_ok h S None) (nested_step depth p).
Proof.
  revert h S p. induction depth as [|depth IH]; intros h S p; [by intros w x w' _ H|].
  cbn [nested_step]. apply step_station_keeps; [|done]. intros h' S' q. apply keeps_bind; [apply IH|].
  intros _. apply keeps_ret.
Qed.

Lemma sm_step_keeps h S p : keeps (world_ok h S None) (wpa_sm_step p).
Proof. intros w x w' Hw H. unfold wpa_sm_step in H. by eapply nested_step_keeps. Qed.

Lemma group_step_keeps h S p : keeps (world_ok h S None) (group_step p).
Proof.
  apply group_sm_step_keeps. intros h' S' q. apply keeps_bind; [apply sm_step_keeps|]. intros _. apply keeps_ret.
Qed.

(** The stations are not stepping between the operations. *)
Abbreviation ready h := (world_ok h [] None).

Lemma sm_step_ok h p : triple (world_ok h [] (Some p)) (wpa_sm_step p) (λ _, ready h).
Proof.
  intros w x w' Hw H. unfold wpa_sm_step in H. cbn [nested_step] in H. eapply step_station_ok in H; try done.
  - intros h' S' q. apply keeps_bind; [apply nested_step_keeps|]. intros _. apply keeps_ret.
  - apply not_elem_of_nil.
Qed.

Hint Resolve sm_step_keeps group_step_keeps gtk_update_keeps config_keys_keeps init_gmk_keeps set_count_keeps
  group_key_done_keeps : keeps.

(** ** The operations *)

Lemma ready_calm h m : station_inv h [] None m → calm m.
Proof. intros (_ & _ & Hc & _). apply Hc; [apply not_elem_of_nil|done]. Qed.

Lemma ready_update h m m' :
  station_inv h [] None m → same_keys m m' → same_pmk m m' →
  (PTK_valid m' = true → PTK_valid m = true ∧ PTK m' = PTK m) →
  (PTKRequest m' = true → PTKRequest m = true ∨ keyed h m) →
  wpa_ptk_state m' = wpa_ptk_state m → (Disconnect m = true → Disconnect m' = true) →
  (pairwise_frame m' = true → pairwise_frame m = true) → (requested m = true → requested m' = true) →
  moves h m m' ∧ station_inv h [] None m'.
Proof.
  intros Hinv Hsk Hp Hv Hr Hst Hd Hf Hq. pose proof (ready_calm _ _ Hinv) as Hc. destruct Hinv as (Hok & Hl & _ & _).
  pose proof Hsk as [K1 K2 K3 K4 K5]. pose proof (same_keyed h _ _ Hp) as Hk.
  assert (calm m') as Hc'.
  { destruct Hc as [Hc1 Hc2]. split; [|rewrite Hst; auto]. intros Hx. unfold exchanging in Hx. rewrite Hst in Hx.
    destruct (Hc1 Hx) as [H|H]; [left|right; auto].
    destruct (pairwise_frame m'); [|done]. by rewrite Hf in H. }
  split; [split_and!; [done|by rewrite K2|done]|]. apply inv_intro; [|by rewrite K1, K3|done|by intros ?%not_elem_of_nil].
  destruct Hok as [H1 H2 H3 H4 H5 H6 H7 H8]. split.
  - intros Hv'. destruct (Hv Hv') as [Hv0 ->]. rewrite K2. destruct (H1 Hv0). auto.
  - unfold stage in *. rewrite Hst. destruct Hp as (Ea & Ep & El & Ead). unfold has_pmk, fresh in *. rewrite Ea, Ep, El, Ead.
    destruct (wpa_ptk_state m); auto; destruct H2 as [? [?|Hnone]]; auto.
    split; [done|]. destruct Hnone as [?|?]; auto.
  - intros Hr'. destruct (Hr Hr'); auto.
  - intros Hx Hf' _. right. destruct (proj1 Hc' Hx) as [?|?]; [congruence|done].
  - intros Hx _ Hf'. right. left. destruct (proj1 Hc' Hx) as [?|?]; [congruence|done].
  - rewrite K5, K2. done.
  - rewrite K2. done.
  - congruence.
Qed.

Ltac ready := intros m0 Hm0 Hp0; apply ready_update; try done; try (intros ?; by left).

Lemma ready_s_upd h p f :
  (∀ m, station_inv h [] None m → sm_ptr m = p → moves h m (f m) ∧ station_inv h [] None (f m)) → keeps (ready h) (s_upd p f).
Proof. apply keeps_s_upd. Qed.

(** Operations on a station that keep its keys or drop them *)
Lemma ready_at_station {A} h p (P : wpa_state_machine → Prop) (f : wpa_authenticator → own_ie → S_M sta A) :
  (∀ m, station_inv h [] None m → sm_ptr m = p → P m) →
  (∀ a ow m g n o F x s', auth_addr a = aa → station_inv h [] None m → P m → at_ptr m p →
     f a ow (mk_sta m (mk_grp g n o) F) = Ok (x, s') →
     evolves h m (sm s') ∧ station_inv h [] None (sm s') ∧ extends (quiet p) o (g_out (grp_of s'))) →
  keeps (ready h) (at_station p f).
Proof.
  intros HP Hf. apply (keeps_at_station h [] p (λ m, station_inv h [] None m ∧ P m) _ (λ _ m', station_inv h [] None m')).
  - intros a ow m g n o F x s' Ha [Hm Hpm] Hp H. destruct (Hf _ _ _ _ _ _ _ _ _ Ha Hm Hpm Hp H) as (He & Hi & Ho).
    split_and!; try done. eapply ext_weaken; [|exact Ho]. intros e. apply quiet_effect_ok.
  - intros m Hm Hp. split; auto.
  - done.
Qed.

Lemma ran_ready h p m g o F m' k s' :
  ran p g o F m' k s' → same_keys m m' → (moves h m m' ∧ station_inv h [] None m') →
  evolves h m (sm s') ∧ station_inv h [] None (sm s') ∧ extends (quiet p) o (g_out (grp_of s')).
Proof.
  intros [Hs _ Ho _] Hsk [(_ & _ & Hk) Hi]. rewrite Hs. split_and!; try done. by apply same_evolves.
Qed.

Lemma event_remove_keeps h p e : keeps (ready h) (at_station p (λ _ _, event_remove_ptk e)).
Proof.
  apply (ready_at_station h p (λ _, True)); [done|]. intros a ow m g n o F y s' _ Hm _ Hp H.
  apply (event_remove_run _ p) in H as (m' & Hran & Hm'); [|done].
  destruct Hm' as [[-> _]|[->| ->]]; (eapply ran_ready; [exact Hran|done|]); apply ready_update; try done; intros; by left.
Qed.

Lemma sm_event_rest_keeps h e p : keeps (ready h) (sm_event_rest e p).
Proof.
  unfold sm_event_rest. apply keeps_bind; [apply event_remove_keeps|]. intros _.
  apply keeps_bind; [apply keeps_s_get|]. intros []; [|apply sm_step_keeps].
  apply keeps_bind; [|intros _; apply keeps_ret]. apply ready_s_upd. ready.
Qed.

(** [Init] for a step, then [AuthenticationRequest] *)
Lemma start_keeps {B} h p (k : W B) (y : B) :
  keeps (ready h) k →
  keeps (ready h) (s_upd p (λ m, m <| started := true |> <| Init := true |>);;
    r ← wpa_sm_step p; if decide (r = 1) then mret y else
    s_upd p (λ m, m <| Init := false |> <| AuthenticationRequest := true |>);; k).
Proof.
  intros Hk. apply keeps_bind; [apply ready_s_upd; ready|]. intros _. apply keeps_bind; [apply sm_step_keeps|]. intros r.
  case_decide; [apply keeps_ret|]. apply keeps_bind; [apply ready_s_upd; ready|done].
  intros _. unfold requested. cbn. by rewrite !orb_true_r.
Qed.

Lemma sm_event_keeps h e p : keeps (ready h) (wpa_auth_sm_event e p).
Proof.
  assert (keeps (ready h) (s_upd p (λ m, m <| DeauthenticationRequest := true |>))) as Hd.
  { apply ready_s_upd. ready. intros _. unfold requested. cbn. by rewrite !orb_true_r. }
  pose proof (sm_event_rest_keeps h e p) as Hr.
  assert (keeps (ready h) (m ← s_get p id; if started m then
      when (GUpdateStationKeys m)
        (at_station p (λ _ _, set_GKeyDoneStations dec_int);;
         s_upd p (λ m, m <| GUpdateStationKeys := false |> <| PtkGroupInit := true |>));;
      s_upd p (λ m, m <| ReAuthenticationRequest := true |>);;
      sm_event_rest e p
    else
      s_upd p (λ m, m <| started := true |> <| Init := true |>);;
      r ← wpa_sm_step p;
      if decide (r = 1) then mret 1 else
      s_upd p (λ m, m <| Init := false |> <| AuthenticationRequest := true |>);;
      sm_event_rest e p)) as Hre.
  { apply keeps_bind; [apply keeps_s_get|]. intros m. destruct (started m); [|by apply start_keeps].
    apply keeps_bind; [apply keeps_when, keeps_bind; [apply set_count_keeps|intros _; apply ready_s_upd; ready]|].
    intros _. apply keeps_bind; [apply ready_s_upd; ready|done].
    intros _. unfold requested. cbn. by rewrite !orb_true_r. }
  destruct e; try done; by apply keeps_bind.
Qed.

Lemma disconnect_now_keeps h p : keeps (ready h) (disconnect_now p).
Proof.
  unfold disconnect_now. apply keeps_bind; [apply keeps_s_get|]. intros addr.
  apply keeps_bind; [by apply keeps_w_emit|]. intros _. apply keeps_bind; [apply sm_event_keeps|]. intros _. apply keeps_ret.
Qed.

Lemma sta_associated_keeps h p : keeps (ready h) (wpa_auth_sta_associated p).
Proof.
  unfold wpa_auth_sta_associated. apply keeps_bind; [apply keeps_w_conf|]. intros wpa.
  case_decide; [apply keeps_ret|]. apply keeps_bind; [apply keeps_s_get|]. intros m.
  destruct (started m); [|apply start_keeps, sm_step_keeps].
  apply keeps_bind; [apply ready_s_upd; ready|intros _; apply sm_step_keeps].
  intros _. unfold requested. cbn. by rewrite !orb_true_r.
Qed.

Hint Resolve sm_event_rest_keeps sm_event_keeps disconnect_now_keeps sta_associated_keeps : keeps.
Hint Extern 1 (triple _ (w_emit _) _) => (by apply keeps_w_emit) : keeps.

Lemma ready_assoc h m x :
  station_inv h [] None m → sm_addr x = sm_addr (assoc m) → (∀ e, sm_pmksa x = Some e → pmk e ∈ handed h) →
  moves h m (m <| assoc := x |>) ∧ station_inv h [] None (m <| assoc := x |>).
Proof.
  intros Hm Ha Hp. pose proof (ready_calm _ _ Hm) as Hc. destruct Hm as ([H1 H2 H3 H4 H5 H6 H7 H8] & Hl & _ & _).
  assert (keyed h m → keyed h (m <| assoc := x |>)) as Hk.
  { unfold keyed, has_pmk. cbn [assoc setter]. by rewrite Ha. }
  split; [split_and!; done|]. apply inv_intro; [|done|done|by intros ?%not_elem_of_nil].
  split; try done.
  - cbn [assoc setter]. rewrite Ha. intros Hv. destruct (H1 Hv). auto.
  - unfold stage, has_pmk, keyed, has_pmk in *. cbn [assoc setter] in *. by rewrite Ha.
  - auto.
  - cbn [assoc setter]. rewrite Ha. exact H6.
Qed.

Lemma sta_no_wpa_keeps h p : keeps (ready h) (wpa_auth_sta_no_wpa p).
Proof. apply ready_s_upd. intros m Hm _. apply ready_assoc; [done|done|]. apply Hm. Qed.

(** The rekeying of a station that has keys *)
Definition keyed_at (h : history) (p : Z) (w : world) : Prop := ∀ m, m ∈ stations w → sm_ptr m = p → keyed h m.
Abbreviation ready_keyed h p := (λ w, ready h w ∧ keyed_at h p w).

Lemma request_new_ptk_ok h p : triple (ready_keyed h p) (request_new_ptk p) (λ _, ready h).
Proof.
  intros w x w' [Hw Hk] H. unfold request_new_ptk in H.
  eapply (at_station_ok h [] None [] None p (λ m, station_inv h [] None m ∧ m ∈ stations w) _ (λ _ m', station_inv h [] None m'))
    in H as [? _]; try done.
  - intros a ow m g n o F y s' Ha [Hm Hin] Hp H'. open H'. apply upd_run in H' as ->. cbn [sm grp_of g_out].
    assert (keyed h m) as Hkm by (by apply Hk).
    destruct (ready_update h m (m <| PTKRequest := true |> <| PTK_valid := false |>)) as [? ?]; try done.
    { intros _. by right. }
    { intros _. unfold requested. cbn. by rewrite !orb_true_r. }
    split_and!; [by split; try done|done|constructor].
Qed.

Lemma rekey_ptk_keeps h p : triple (λ w, ready h w ∧ registered p (out w) = true) (wpa_rekey_ptk_timeout p) (λ _, ready h).
Proof.
  unfold wpa_rekey_ptk_timeout. apply (triple_bind _ _ (λ _, ready h)); [|intros _; apply keeps_bind; [apply sm_step_keeps|intros _; apply keeps_ret]].
  eapply triple_weaken; [apply (request_new_ptk_ok h p)| |done]. intros w [Hw Hr]. split; [done|].
  destruct (wo_rekey _ _ _ _ Hw p Hr) as (m & Hin & Hp & Hk). intros m' Hin' Hp'.
  assert (m' = m) as ->; [|done]. apply (unique _ _ _ _ _ _ Hw); [done..|congruence].
Qed.

Lemma eapol_timeout_keeps h p : keeps (ready h) (wpa_send_eapol_timeout_handler p).
Proof. apply keeps_bind; [apply ready_s_upd; ready|intros _]. keeps. Qed.

Lemma rekey_gmk_keeps h : keeps (ready h) wpa_rekey_gmk_timeout.
Proof. unfold wpa_rekey_gmk_timeout. keeps. Qed.

Lemma group_get_keeps h p : keeps (ready h) (wpa_group_get p).
Proof. unfold wpa_group_get. keeps. Qed.

Lemma group_free_keeps h p : keeps (ready h) (wpa_group_free p).
Proof.
  unfold wpa_group_free. apply keeps_bind; [|intros _; by apply keeps_w_emit]. apply keeps_same. intros w. by destruct (groups w).
Qed.

Lemma group_put_keeps h p : keeps (ready h) (wpa_group_put p).
Proof. pose proof (group_free_keeps h p). unfold wpa_group_put. keeps. Qed.
Hint Resolve group_get_keeps group_put_keeps : keeps.

Lemma group_loop_keeps h fuel p : keeps (ready h) (group_loop fuel p).
Proof. induction fuel as [|fuel IH]; [by intros w x w' _ H|]. cbn [group_loop]. keeps. Qed.

Lemma rekey_groups_keeps h fuel p : keeps (ready h) (rekey_groups fuel p).
Proof.
  revert p. induction fuel as [|fuel IH]; intros [p|]; cbn [rekey_groups]; try apply keeps_ret; [by intros w x w' _ H|].
  pose proof (group_loop_keeps h group_fuel p). keeps.
Qed.

Lemma rekey_gtk_keeps h : keeps (ready h) wpa_rekey_gtk_timeout.
Proof. pose proof (rekey_groups_keeps h). unfold wpa_rekey_gtk_timeout. keeps. Qed.
Hint Resolve rekey_gmk_keeps rekey_gtk_keeps eapol_timeout_keeps : keeps.

(** ** Frames that are sent *)

Lemma smk_send_keeps h p info nonce kde encr : keeps (ready h) (smk_send p info nonce kde encr).
Proof.
  apply (ready_at_station h p (λ _, True)); [done|]. intros a ow m g n o F x s' _ Hm _ Hp H.
  apply (send_frame_run _ _ _ _ _ _ _ _ _ p) in H as (kr & _ & Hran); [|done].
  eapply ran_ready; [exact Hran|done|]. apply ready_update; try done. intros ?. by left.
Qed.
Hint Resolve smk_send_keeps : keeps.

Lemma smk_m1_keeps h p nonce data : keeps (ready h) (wpa_smk_m1 p nonce data).
Proof. unfold wpa_smk_m1, wpa_smk_send_error, select_sta. keeps. Qed.
Lemma smk_m3_keeps h p nonce data : keeps (ready h) (wpa_smk_m3 p nonce data).
Proof. unfold wpa_smk_m3, wpa_send_smk_m4, wpa_send_smk_m5, wpa_smk_send_error, select_sta. keeps. Qed.
Lemma smk_error_keeps h p data : keeps (ready h) (wpa_smk_error p data).
Proof. unfold wpa_smk_error, wpa_smk_send_error, select_sta. keeps. Qed.
Hint Resolve smk_m1_keeps smk_m3_keeps smk_error_keeps : keeps.

(** ** Reception *)

(** What holds of the station at [p] *)
Definition at_sta (p : Z) (P : wpa_state_machine → Prop) (w : world) : Prop :=
  ∀ m, m ∈ stations w → sm_ptr m = p → P m.

(** The states that the messages of the handshake are for *)
Definition expected (msg : rx_msg) (m : wpa_state_machine) : Prop :=
  match msg with
  | PAIRWISE_2 => wpa_ptk_state m = WPA_PTK_PTKSTART ∨ wpa_ptk_state m = WPA_PTK_PTKCALCNEGOTIATING ∨
      (update_snonce m = true ∧ wpa_ptk_state m = WPA_PTK_PTKINITNEGOTIATING)
  | PAIRWISE_4 => wpa_ptk_state m = WPA_PTK_PTKINITNEGOTIATING ∧ PTK_valid m = true
  | _ => True
  end.

(** The MIC was checked, or cannot be. *)
Definition checked (msg : rx_msg) (m : wpa_state_machine) : Prop :=
  (MICVerified m = true → PTK_valid m = true) ∧
  (MICVerified m = false → PTK_valid m = false ∨ update_snonce m = true) ∧ expected msg m.

Lemma at_station_put p m f w : NoDup (map sm_ptr (stations w)) → m ∈ stations w → sm_ptr m = p → sm_ptr (f m) = p →
  ∀ P : wpa_state_machine → Prop, P (f m) → at_sta p P (put_station (f m) w).
Proof. intros Hn Hin Hp Hp' P Hf m' [->|[Hin' Hne]]%in_put_station Hm'; [done|congruence]. Qed.

(** An update of the station at [p] whose result is [P] *)
Lemma s_upd_at h p (f : wpa_state_machine → wpa_state_machine) (R P : wpa_state_machine → Prop) :
  (∀ m, station_inv h [] None m → sm_ptr m = p → R m → moves h m (f m) ∧ station_inv h [] None (f m) ∧ P (f m)) →
  triple (λ w, ready h w ∧ at_sta p R w) (s_upd p f) (λ _ w, ready h w ∧ at_sta p P w).
Proof.
  intros Hf w x w' [Hw HR] H. unfold s_upd in H. apply bind_Ok_inv in H as (m & Hm & H). simplify_eq.
  destruct (found _ _ _ _ _ _ Hw Hm) as (Hinv & Hp & Hin).
  destruct (Hf m Hinv Hp (HR m Hin Hp)) as (Hmv & Hi & HP). split.
  - eapply (world_put h [] None [] None w m (f m) (λ _, False)); try done; [|constructor].
    intros m0 Hi0 _. by eapply wo_stations.
  - apply (at_station_put p m f w); try done; [by eapply wo_ptrs|]. by rewrite (proj1 Hmv).
Qed.

Lemma check_message_2_ok h p k : triple (ready h) (check_message_2 p k)
  (λ (go : bool) w, ready h w ∧ (go = true → at_sta p (expected PAIRWISE_2) w)).
Proof.
  intros w x w' Hw H. assert (ready h w') as Hw'.
  { revert w x w' Hw H. change (keeps (ready h) (check_message_2 p k)). unfold check_message_2. keeps. }
  split; [done|]. intros ->. unfold check_message_2 in H.
  apply bind_inv in H as (m & w1 & H1 & H). apply s_get_inv in H1 as (m1 & Hm & -> & ->). cbn [id] in H.
  destruct (negb _) eqn:Hs in H; [by apply ret_inv in H as [? _]|].
  apply bind_inv in H as (rj & w1 & H1 & H). apply gr_get_inv in H1 as ->.
  destruct rj.
  { apply bind_inv in H as (? & ? & _ & H). apply bind_inv in H as (? & ? & _ & H). by apply ret_inv in H as [? _]. }
  apply bind_inv in H as (r & w1 & H1 & H). apply lift_inv in H1 as [_ ->].
  case_decide; [by apply ret_inv in H as [? _]|].
  apply bind_inv in H as (ie & w1 & H1 & H). apply lift_inv in H1 as [_ ->]. cbn zeta in H.
  destruct (decide (wpa_compare_rsn_ie _ _ ≠ 0)).
  { apply bind_inv in H as (? & ? & _ & H). by apply ret_inv in H as [? _]. }
  apply ret_inv in H as [_ ->]. intros m Hin Hp.
  destruct (found _ _ _ _ _ _ Hw Hm) as (_ & Hp1 & Hin1).
  assert (m = m1) as -> by (apply (unique _ _ _ _ _ _ Hw); [done..|congruence]).
  apply negb_false_iff, bool_decide_eq_true in Hs. exact Hs.
Qed.

Lemma check_message_ok h p k msg : triple (ready h) (check_message p k msg)
  (λ (go : bool) w, ready h w ∧ (go = true → at_sta p (expected msg) w)).
Proof.
  intros w x w' Hw H. unfold check_message in H.
  apply bind_inv in H as (m & w1 & H1 & H). apply s_get_inv in H1 as (m1 & Hm & -> & ->). cbn [id] in H.
  destruct (found _ _ _ _ _ _ Hw Hm) as (_ & Hp1 & Hin1).
  assert (keeps (ready h) (on ← w_conf peerkey; mret (on && PTK_valid m1))) as Hk by keeps.
  destruct msg; try (by apply ret_inv in H as [-> ->]); try (by split; [eapply Hk|]).
  - by eapply check_message_2_ok.
  - apply ret_inv in H as [-> ->]. split; [done|]. intros [Hs Hv]%andb_prop m Hin Hp.
    assert (m = m1) as -> by (apply (unique _ _ _ _ _ _ Hw); [done..|congruence]).
    by apply bool_decide_eq_true in Hs.
Qed.

Lemma at_sta_found h p (P : wpa_state_machine → Prop) w m :
  ready h w → find_station p w = Ok m → (at_sta p P w ↔ P m).
Proof.
  intros Hw Hm. destruct (found _ _ _ _ _ _ Hw Hm) as (_ & Hp & Hin). split; [intros H; by apply H|].
  intros H m' Hin' Hp'. assert (m' = m) as ->; [|done]. apply (unique _ _ _ _ _ _ Hw); [done..|congruence].
Qed.

(** The frame came for the station at [p]. *)
Definition came (h : history) (p : Z) (data : bytes) : Prop := ∀ addr, (p, addr) ∈ present h → (addr, data) ∈ frames h.

Lemma came_station h p data w m : ready h w → came h p data → m ∈ stations w → sm_ptr m = p →
  (sm_addr (assoc m), data) ∈ frames h.
Proof.
  intros Hw Hc Hin Hp. apply Hc. rewrite <- (wo_present _ _ _ _ Hw). apply list_elem_of_In, in_map_iff.
  exists m. split; [congruence|by apply list_elem_of_In].
Qed.

Lemma try_alt_run a data p m g n o F x s' :
  at_ptr m p → wpa_try_alt_snonce a data (mk_sta m (mk_grp g n o) F) = Ok (x, s') →
  g_out (grp_of s') = o ∧
  (x = -1 ∧ sm s' = m ∨
   x = 0 ∧ ∃ i pmk, pmk ∈ candidates m i ∧
     let ptk := wpa_derive_ptk a m (alt_SNonce m) pmk in
     wpa_verify_key_mic (sm_key_mgmt (assoc m)) ptk data = Ok 0 ∧
     sm s' = m <| alt_snonce_valid := false |> <| SNonce := alt_SNonce m |> <| PTK := ptk |> <| PTK_valid := true |>).
Proof.
  intros Hp H. open H. apply bind_inv in H as (pmks & s1 & H1 & H). apply candidates_run in H1 as (n' & -> & ->).
  apply bind_inv in H as (? & ? & H1 & H). apply get_run in H1 as [-> ->]. cbn [id] in H.
  apply bind_inv in H as (found' & ? & H1 & H). apply lift_inv in H1 as [Ht ->].
  destruct found' as [[pmk ptk]|].
  - apply bind_inv in H as (? & ? & H1 & H). apply upd_run in H1 as ->. apply ret_inv in H as [-> ->].
    apply try_pmks_some in Ht as (Hin & -> & Hv). split; [done|right]. split; [done|]. exists n, pmk. split; [exact Hin|]. split; [exact Hv|reflexivity].
  - apply ret_inv in H as [-> ->]. split; [done|]. by left.
Qed.

Lemma try_alt_op h p data msg :
  station_op h p (λ m, station_inv h [] None m ∧ PTK_valid m = true ∧ expected msg m ∧ (sm_addr (assoc m), data) ∈ frames h)
    (λ a _, wpa_try_alt_snonce a data)
    (λ r m', station_inv h [] None m' ∧ (r = 0 → PTK_valid m' = true ∧ expected msg m')).
Proof.
  intros a ow m g n o F x s' Ha (Hm & Hv & Hex & Hf) Hp H.
  apply (try_alt_run _ _ p) in H as (Ho & H); [|done]. rewrite Ho. destruct H as [[-> Hs]|(-> & i & pmk & Hin & Hver & Hs)].
  { rewrite Hs. split_and!; [apply evolves_refl|done|done|constructor]. }
  cbn zeta in Hver, Hs. set (m' := m <| alt_snonce_valid := false |> <| SNonce := alt_SNonce m |>
    <| PTK := wpa_derive_ptk a m (alt_SNonce m) pmk |> <| PTK_valid := true |>) in Hs. rewrite Hs.
  pose proof (ready_calm _ _ Hm) as Hc. destruct Hm as (Hok & Hl & _ & _).
  destruct (so_ptk _ _ Hok Hv) as [_ Hk].
  assert (proved h (sm_addr (assoc m)) (wpa_derive_ptk a m (alt_SNonce m) pmk)) as Hpr.
  { eapply derived_proved; try done. eapply candidates_known; [|done]. apply Hk. }
  split_and!; [by apply same_evolves| | |constructor].
  - apply inv_intro; [|done|done|by intros ?%not_elem_of_nil]. destruct Hok as [H1 H2 H3 H4 H5 H6 H7 H8]. split; try done.
    intros Hx Hf' _. left. done.
  - intros _. split; [done|]. destruct msg; try exact Hex. split; [apply Hex|done].
Qed.

Lemma check_mic_ok h p data msg : came h p data →
  triple (λ w, ready h w ∧ at_sta p (expected msg) w) (check_mic p data msg)
    (λ (go : bool) w, ready h w ∧ (go = true → at_sta p (checked msg) w)).
Proof.
  intros Hcame. unfold check_mic. eapply triple_bind.
  { apply (s_upd_at h p _ (expected msg) (λ m, MICVerified m = false ∧ expected msg m)).
    intros m Hm Hp Hex. destruct (ready_update h m (m <| MICVerified := false |>)) as [? ?]; try done.
    intros ?. by left. }
  intros u w x w' [Hw Hat] H. clear u.
  apply bind_inv in H as (m & w1 & H1 & H). apply s_get_inv in H1 as (m1 & Hm & -> & ->). cbn [id] in H.
  pose proof (proj1 (at_sta_found _ _ _ _ _ Hw Hm) Hat) as [Hmic Hex].
  destruct (negb (PTK_valid m1 && negb (update_snonce m1))) eqn:Hv.
  { apply ret_inv in H as [-> ->]. split; [done|]. intros _. apply (at_sta_found h p _ _ m1 Hw Hm). split; [congruence|].
    split; [|done]. intros _. by destruct (PTK_valid m1), (update_snonce m1); auto. }
  apply negb_false_iff, andb_prop in Hv as [Hv Hu].
  apply bind_inv in H as (r & w1 & H1 & H). apply lift_inv in H1 as [_ ->].
  apply bind_inv in H as (r2 & w2 & H1 & H).
  assert (ready h w2 ∧ (r2 = 0 → at_sta p (λ m, PTK_valid m = true ∧ expected msg m) w2)) as [Hw2 H2].
  { clear H. destruct (decide (r ≠ 0 ∧ _)).
    - destruct (at_station_ok h [] None [] None p _ _ _ w r2 w2 (try_alt_op h p data msg))
        as (Hw2 & m2 & Hin2 & Hp2 & _ & HQ); try done.
      { intros m Hmi Hp Hin. assert (m = m1) as ->.
        { destruct (found _ _ _ _ _ _ Hw Hm) as (_ & Hp1 & Hin1). apply (unique _ _ _ _ _ _ Hw); [done..|congruence]. }
        split_and!; try done. by eapply came_station. }
      { intros y m m' _ _ _ [? _]. done. }
      split; [done|]. intros Hr m Hin Hp. assert (m = m2) as -> by (apply (unique _ _ _ _ _ _ Hw2); [done..|congruence]).
      by apply HQ.
    - apply ret_inv in H1 as [-> ->]. split; [done|]. intros _. by apply (at_sta_found h p _ _ m1 Hw Hm). }
  case_decide as Hr2; [apply ret_inv in H as [-> ->]; split; [done|done]|].
  assert (r2 = 0) as Hr0 by lia. specialize (H2 Hr0).
  revert w2 x w' Hw2 H2 H H1. clear. intros w2 x w' Hw2 H2 H _.
  apply bind_inv in H as (? & w3 & H3 & H).
  eapply (s_upd_at h p _ _ (checked msg)) in H3 as [Hw3 H3]; [..|split; [exact Hw2|exact H2]].
  2:{ intros m Hm Hp [Hv Hex]. destruct (ready_update h m (m <| MICVerified := true |>)) as [? ?]; try done.
      intros ?. by left. }
  apply bind_inv in H as (? & w4 & H4 & H).
  assert (ready h w4 ∧ at_sta p (checked msg) w4) as Hw4.
  { pose proof H4 as H4'. eapply (keeps_w_emit h [] None) in H4; [|done|done]. unfold w_emit, w_upd in H4'. simplify_eq. done. }
  apply bind_inv in H as (? & w5 & H5 & H).
  eapply (s_upd_at h p _ _ (checked msg)) in H5 as [Hw5 H5]; [..|exact Hw4].
  2:{ intros m Hm Hp Hc. destruct (ready_update h m (m <| pending_1_of_4_timeout := false |>)) as [? ?]; try done.
      intros ?. by left. }
  by apply ret_inv in H as [-> ->].
Qed.

Lemma at_sta_same p P w w' : stations w' = stations w → at_sta p P w → at_sta p P w'.
Proof. intros Hs H m. rewrite Hs. apply H. Qed.

(** A station that has keys, through an operation that leaves the stations alone *)
Lemma emit_keyed h p e : plain e → keeps (ready_keyed h p) (w_emit e).
Proof.
  intros He w x w' [Hw Hk] H. split; [by eapply (keeps_w_emit h [] None)|].
  unfold w_emit, w_upd in H. simplify_eq. exact Hk.
Qed.
Lemma ask_keyed {A} h p (f : nat → A) : keeps (ready_keyed h p) (w_ask f).
Proof.
  intros w x w' [Hw Hk] H. split; [by eapply (keeps_w_ask h [] None)|]. unfold w_ask in H. simplify_eq. exact Hk.
Qed.
Lemma same_keyed_world h p (f : world → world) :
  (∀ w, auth_addr (auth (f w)) = auth_addr (auth w) ∧ stations (f w) = stations w ∧ out (f w) = out w) →
  keeps (ready_keyed h p) (w_upd f).
Proof.
  intros Hf w x w' [Hw Hk] H. split; [by eapply (keeps_same h [] None)|]. unfold w_upd in H. simplify_eq.
  intros m. rewrite (proj1 (proj2 (Hf w))). apply Hk.
Qed.

Lemma error_report_ok h p g : triple (ready_keyed h p) (wpa_receive_error_report p g) (λ _, ready h).
Proof.
  assert (triple (ready_keyed h p) (request_new_ptk p;; mret 0) (λ _, ready h)) as Hr.
  { eapply (triple_bind _ _ (λ _, ready h)); [apply request_new_ptk_ok|]. intros _. apply (triple_ret (λ _, ready h)). }
  unfold wpa_receive_error_report.
  apply (triple_bind _ _ (λ _, ready_keyed h p)); [apply keeps_s_get|]. intros m.
  apply (triple_bind _ _ (λ _, ready_keyed h p)); [apply keeps_w_conf|]. intros c.
  match goal with |- triple _ (if ?b then _ else _) _ => destruct b; [exact Hr|] end.
  apply (triple_bind _ _ (λ _, ready_keyed h p)); [by apply emit_keyed|]. intros _.
  apply (triple_bind _ _ (λ _, ready_keyed h p)); [apply ask_keyed|]. intros r.
  case_decide; [eapply triple_weaken; [apply (triple_ret (λ _, ready h))|by intros ? [? _]|done]|].
  apply (triple_bind _ _ (λ _, ready_keyed h p)).
  { apply (s_upd_at h p _ (keyed h) (keyed h)). intros m' Hm' Hp' Hk.
    destruct (ready_update h m' (m' <| dot11RSNAStatsTKIPRemoteMICFailures := u32 (dot11RSNAStatsTKIPRemoteMICFailures m' + 1) |>))
      as [Hmv ?]; try done. intros ?. by left. }
  intros _. apply (triple_bind _ _ (λ _, ready_keyed h p)); [by apply same_keyed_world|]. by intros _.
Qed.

Lemma receive_request_ok h p k msg msg' :
  triple (λ w, ready h w ∧ at_sta p (checked msg') w) (receive_request p k msg) (λ _, ready h).
Proof.
  intros w x w' [Hw Hat] H. unfold receive_request in H.
  apply bind_inv in H as (v & w1 & H1 & H). apply s_get_inv in H1 as (m & Hm & -> & ->).
  destruct (MICVerified m) eqn:Hv; cbn [negb] in H; [|by apply ret_inv in H as [-> ->]].
  pose proof (proj1 (at_sta_found _ _ _ _ _ Hw Hm) Hat) as (Hc & _ & _).
  destruct (found _ _ _ _ _ _ Hw Hm) as ((Hok & _) & _ & _).
  destruct (so_ptk _ _ Hok (Hc Hv)) as [_ Hk].
  apply bind_inv in H as (? & w1 & H1 & H).
  eapply (s_upd_at h p _ (keyed h) (keyed h)) in H1 as Hw1.
  3:{ split; [exact Hw|]. by apply (at_sta_found _ _ _ _ _ Hw Hm). }
  2:{ intros m' Hm' Hp' Hk'. destruct (ready_update h m' (m' <| req_replay_counter_used := true |> <| req_replay_counter := rx_replay k |>))
        as [Hmv ?]; try done. intros ?. by left. }
  revert H. generalize w1 x w' Hw1. clear - HE HEnv Hstable. intros w x w' Hw H.
  revert w x w' Hw H. match goal with |- ∀ w x w', _ → ?op w = _ → _ => change (triple (ready_keyed h p) op (λ _, ready h)) end.
  cbn zeta. destruct (decide (msg = SMK_ERROR)).
  { apply (triple_weaken _ (ready h) _ _ (λ _, ready h)); [keeps|by intros ? [? _]|done]. }
  destruct (has_flag _ _).
  { apply (triple_bind _ _ (λ _, ready h)); [apply error_report_ok|]. intros r. apply (triple_ret (λ _, ready h)). }
  destruct (has_flag _ _).
  { apply (triple_bind _ _ (λ _, ready h)); [apply request_new_ptk_ok|]. intros r. apply (triple_ret (λ _, ready h)). }
  apply (triple_weaken _ (ready h) _ _ (λ _, ready h)); [keeps|by intros ? [? _]|done].
Qed.

Lemma keep_frame_ok h p k data msg :
  came h p data → msg = classify k → msg ≠ SMK_M3 →
  triple (λ w, ready h w ∧ (has_flag (rx_info k) WPA_KEY_INFO_REQUEST = false → at_sta p (checked msg) w))
    (keep_frame p k data) (λ _, ready h).
Proof.
  intros Hcame Hmsg Hm3 w x w' [Hw Hat] H. unfold keep_frame in H.
  apply bind_inv in H as (mem & w1 & H1 & H).
  assert (ready h w1 ∧ stations w1 = stations w) as [Hw1 Hs1].
  { split; [by eapply (keeps_w_ask h [] None)|]. unfold w_ask in H1. by simplify_eq. }
  destruct mem; cbn [negb] in H.
  2:{ eapply (keeps_s_upd h [] p); [|exact Hw1|exact H]. intros m Hm _.
      pose proof (ready_calm _ _ Hm) as Hc. destruct Hm as ([A1 A2 A3 A4 A5 A6 A7 A8] & Hl & _ & _).
      split; [done|]. apply inv_intro; [by split|done|done|by intros ?%not_elem_of_nil]. }
  apply bind_inv in H as (? & w2 & H2 & H).
  eapply (s_upd_ok h [] None [] (Some p)) in H2; [..|exact Hw1].
  - apply bind_inv in H as (? & w3 & H3 & H). apply ret_inv in H as [_ ->]. by eapply sm_step_ok.
  - intros m ([A1 A2 A3 A4 A5 A6 A7 A8] & Hl & _ & _) Hp Hin. split; [done|].
    apply inv_intro; [|done|intros _ Hne; change (Some p ≠ Some (sm_ptr m)) in Hne; congruence|by intros ?%not_elem_of_nil].
    assert (has_flag (rx_info k) WPA_KEY_INFO_REQUEST = false → checked msg m) as Hck.
    { intros Hr. apply (Hat Hr); [by rewrite <- Hs1|done]. }
    set (m' := m <| last_rx_eapol_key := _ |> <| rx_eapol_key_secure := _ |> <| EAPOLKeyReceived := _ |>
      <| EAPOLKeyPairwise := _ |> <| EAPOLKeyRequest := _ |> <| SNonce := _ |>).
    assert (pairwise_frame m' = true → has_flag (rx_info k) WPA_KEY_INFO_REQUEST = false ∧
      has_flag (rx_info k) WPA_KEY_INFO_KEY_TYPE = true) as Hpf.
    { change (pairwise_frame m') with (true && negb (has_flag (rx_info k) WPA_KEY_INFO_REQUEST) &&
        has_flag (rx_info k) WPA_KEY_INFO_KEY_TYPE). cbn [andb].
      intros [H3 H4]%andb_prop. by apply negb_true_iff in H3. }
    split; try done.
    + intros Hx Hf Hv. left. apply (Hck (proj1 (Hpf Hf))). exact Hv.
    + intros Hx Hn Hf. destruct (Hpf Hf) as [Hr Ht]. destruct (Hck Hr) as (C1 & C2 & C3).
      change (MICVerified m') with (MICVerified m). change (update_snonce m') with (update_snonce m).
      change (wpa_ptk_state m') with (wpa_ptk_state m) in Hn.
      destruct (MICVerified m); [by left|right; right]. specialize (C2 eq_refl).
      unfold classify in Hmsg. rewrite Hr, Ht, andb_false_r in Hmsg. cbn [negb] in Hmsg.
      destruct (has_flag _ WPA_KEY_INFO_SMK_MESSAGE); [done|].
      unfold exchanging in Hx. change (wpa_ptk_state m') with (wpa_ptk_state m) in Hx.
      case_decide; subst msg; cbn [expected] in C3.
      * destruct C3 as [_ Hv]. destruct C2; congruence.
      * destruct C3 as [C3|[C3|[C3 _]]]; [|congruence|done]. destruct Hx as [?|[?|?]]; congruence.
    + intros d. change (last_rx_eapol_key m') with (Some data). intros [= <-].
      change ((sm_addr (assoc m), data) ∈ frames h). by apply (came_station h p data w1 m).
  - intros m Hne (B1 & B2 & B3 & B4). apply inv_intro; try done; intros Hi _; [by apply B3|by apply B4].
Qed.

Lemma check_replay_ok h m k msg m' :
  station_inv h [] None m → check_replay m k msg = Some m' → moves h m m' ∧ station_inv h [] None m'.
Proof.
  intros Hm H. unfold check_replay in H.
  destruct (has_flag _ _).
  { destruct (_ && _); [done|]. simplify_eq. split; [by split|done]. }
  destruct (wpa_replay_counter_valid _ _); [simplify_eq; split; [by split|done]|].
  case_decide; [simplify_eq; apply ready_update; try done; intros ?; by left|].
  case_decide; [simplify_eq; split; [by split|done]|done].
Qed.

Lemma receive_key_keeps h p k data : came h p data → keeps (ready h) (receive_key p k data).
Proof.
  intros Hcame w x w' Hw H. unfold receive_key in H. cbn zeta in H. remember (classify k) as msg eqn:Hmsg.
  apply bind_inv in H as (m & w1 & H1 & H). apply s_get_inv in H1 as (m1 & Hm & -> & ->). cbn [id] in H.
  destruct (negb _); [by apply ret_inv in H as [_ ->]|].
  destruct (check_replay m1 k msg) as [m'|] eqn:Hr; [|by apply ret_inv in H as [_ ->]].
  apply bind_inv in H as (? & w1 & H1 & H).
  assert (ready h w1) as Hw1.
  { eapply (s_upd_ok h [] None [] None) in H1; [done|..|exact Hw]; [|done].
    intros m Hmi Hp Hin. assert (m = m1) as ->; [|by eapply check_replay_ok].
    destruct (found _ _ _ _ _ _ Hw Hm) as (_ & Hp1 & Hin1). apply (unique _ _ _ _ _ _ Hw); [done..|congruence]. }
  clear Hw Hm Hr H1.
  apply bind_inv in H as (go & w2 & H1 & H). apply check_message_ok with (h := h) in H1 as [Hw2 Hex]; [|done].
  destruct go; cbn [negb] in H; [|by apply ret_inv in H as [_ ->]]. specialize (Hex eq_refl).
  destruct (_ || _); [by apply ret_inv in H as [_ ->]|].
  apply bind_inv in H as (go & w3 & H1 & H). apply (check_mic_ok h p data msg Hcame) in H1 as [Hw3 Hck]; [|done].
  destruct go; cbn [negb] in H; [|by apply ret_inv in H as [_ ->]]. specialize (Hck eq_refl).
  apply bind_inv in H as (go & w4 & H1 & H).
  assert (ready h w4 ∧ (has_flag (rx_info k) WPA_KEY_INFO_REQUEST = false → at_sta p (checked msg) w4)) as [Hw4 Hck4].
  { destruct (has_flag _ WPA_KEY_INFO_REQUEST); [split; [by eapply receive_request_ok in H1|done]|].
    apply bind_inv in H1 as (? & w5 & H2 & H3). apply ret_inv in H3 as [-> ->].
    eapply (s_upd_at h p _ _ (checked msg)) in H2; [by destruct H2| |split; [exact Hw3|exact Hck]].
    intros m Hm Hp Hc. destruct (ready_update h m (use_replay k msg m)) as [? ?]; try done. intros ?. by left. }
  destruct go; cbn [negb] in H; [|by apply ret_inv in H as [_ ->]].
  case_decide as Hm3; [by eapply smk_m3_keeps|].
  by eapply (keep_frame_ok h p k data msg).
Qed.

Lemma receive_keeps h p data : came h p data → keeps (ready h) (wpa_receive p data).
Proof.
  intros Hcame. unfold wpa_receive. apply keeps_bind; [apply keeps_w_conf|]. intros wpa.
  case_decide; [apply keeps_ret|]. apply keeps_bind; [apply keeps_s_get|]. intros m.
  apply keeps_bind; [apply keeps_lift|]. intros [k|]; [by apply receive_key_keeps|apply keeps_ret].
Qed.

(** ** The operations of the access point *)

Lemma group_init_keeps h ptr vlan delay : keeps (ready h) (wpa_group_init ptr vlan delay).
Proof.
  assert (∀ new, keeps (ready h) (w_upd (λ w, w <| groups := match groups w with [] => [new] | f :: l => f :: new :: l end |>))) as H1.
  { intros new. by apply keeps_same. }
  assert (∀ p, keeps (ready h) (w_upd (λ w, w <| groups := filter (λ g, g_ptr g ≠ p) (groups w) |>))) as H2.
  { intros p. by apply keeps_same. }
  unfold wpa_group_init. keeps.
Qed.
Hint Resolve group_init_keeps : keeps.

Lemma gen_wpa_ie_keeps h : keeps (ready h) gen_wpa_ie.
Proof.
  assert (∀ o, keeps (ready h) (w_upd (λ w, w <| own := o |>))) as H1 by (intros o; by apply keeps_same).
  unfold gen_wpa_ie. keeps.
Qed.
Hint Resolve gen_wpa_ie_keeps : keeps.

Lemma init_keys_keeps h : keeps (ready h) wpa_init_keys.
Proof. unfold wpa_init_keys. keeps. Qed.

Lemma reconfig_keeps h c : keeps (ready h) (wpa_reconfig c).
Proof.
  assert (keeps (ready h) (w_upd (λ w, w <| auth := (auth w) <| conf := c |> |>))) as H1 by (by apply keeps_same).
  unfold wpa_reconfig. keeps.
Qed.

Lemma gtk_rekey_keeps h : keeps (ready h) wpa_gtk_rekey.
Proof. unfold wpa_gtk_rekey. keeps. Qed.

Lemma reconfig_group_keys_keeps h : keeps (ready h) wpa_auth_reconfig_group_keys.
Proof.
  unfold wpa_auth_reconfig_group_keys. apply keeps_bind; [apply keeps_w_get|]. intros l. apply keeps_for_each. intros q. keeps.
Qed.

Lemma countermeasures_keeps h : keeps (ready h) wpa_auth_countermeasures_start.
Proof. by apply keeps_same. Qed.

Lemma get_group_keeps h ptr vlan : keeps (ready h) (get_group ptr vlan).
Proof. unfold get_group, group_of_vlan, wpa_auth_add_group. keeps. Qed.
Hint Resolve get_group_keeps : keeps.

Lemma ensure_group_keeps h ptr vlan : keeps (ready h) (wpa_auth_ensure_group ptr vlan).
Proof. unfold wpa_auth_ensure_group. keeps. Qed.

Lemma release_group_keeps h vlan : keeps (ready h) (wpa_auth_release_group vlan).
Proof. unfold wpa_auth_release_group, group_of_vlan. keeps. Qed.

Lemma set_vlan_keeps h ptr p vlan : keeps (ready h) (wpa_auth_sta_set_vlan ptr p vlan).
Proof.
  assert (∀ q, keeps (ready h) (s_upd p (λ m, m <| group := q |>))) as H1.
  { intros q. apply ready_s_upd. ready. }
  unfold wpa_auth_sta_set_vlan. keeps.
Qed.

Lemma tx_status_keeps h p ack : keeps (ready h) (wpa_auth_eapol_key_tx_status p ack).
Proof. unfold wpa_auth_eapol_key_tx_status. keeps. Qed.

(** A change of all stations *)
Lemma world_map h w w' (f : wpa_state_machine → wpa_state_machine) :
  ready h w → (∀ m, station_inv h [] None m → moves h m (f m) ∧ station_inv h [] None (f m)) →
  auth_addr (auth w') = auth_addr (auth w) → stations w' = map f (stations w) → out w' = out w → ready h w'.
Proof.
  intros [W1 W2 W2' W3 W4 W5] Hf Ha Hs Ho.
  assert (map (λ m, (sm_ptr m, sm_addr (assoc m))) (stations w') = map (λ m, (sm_ptr m, sm_addr (assoc m))) (stations w)) as Hp.
  { rewrite Hs, map_map. apply map_ext_in. intros m Hm%list_elem_of_In. destruct (Hf m (W3 _ Hm)) as [(-> & -> & _) _]. done. }
  split.
  - congruence.
  - apply (f_equal (map fst)) in Hp. rewrite !map_map in Hp. cbn in Hp. unfold sm_ptr in *. by rewrite Hp.
  - congruence.
  - intros m. rewrite Hs. intros (m0 & <- & Hm)%list_elem_of_In%in_map_iff. apply Hf, W3. by apply list_elem_of_In.
  - by rewrite Ho.
  - rewrite Ho. intros q Hq. destruct (W5 q Hq) as (m & Hm & Hp' & Hk). exists (f m).
    destruct (Hf m (W3 _ Hm)) as [(-> & _ & Hk') _]. split; [|by auto].
    rewrite Hs. apply list_elem_of_In, in_map, list_elem_of_In, Hm.
Qed.

Lemma moves_trans h m1 m2 m3 : moves h m1 m2 → moves h m2 m3 → moves h m1 m3.
Proof. intros (? & ? & ?) (? & ? & ?). split_and!; [congruence|congruence|auto]. Qed.

Lemma clear_pmksa_ok h e m :
  station_inv h [] None m → moves h m (clear_pmksa e m) ∧ station_inv h [] None (clear_pmksa e m).
Proof.
  intros Hm. unfold clear_pmksa. destruct (sm_pmksa (assoc m)); [|by split; [split|]].
  case_decide; [|by split; [split|]]. by apply ready_assoc.
Qed.

Lemma on_cache_keeps {A} h (f : rsn_pmksa_cache → outcome (A * rsn_pmksa_cache)) : keeps (ready h) (on_cache f).
Proof.
  assert (∀ c, keeps (ready h) (w_upd (λ w, w <| auth := (auth w) <| auth_pmksa := c |> |>))) as H1.
  { intros c. by apply keeps_same. }
  assert (∀ l, keeps (ready h) (w_upd (λ w, w <| stations := map (λ m, foldr clear_pmksa m l) (stations w) |>))) as H2.
  { intros l w x w' Hw H. unfold w_upd in H. simplify_eq. apply (world_map h w _ (λ m, foldr clear_pmksa m l)); try done.
    intros m Hm. induction l as [|e l IH]; [by split; [split|]|]. cbn [foldr]. destruct IH as [IH1 IH2].
    destruct (clear_pmksa_ok h e _ IH2). split; [by eapply moves_trans|done]. }
  unfold on_cache. keeps.
Qed.

Section cache.
Context (expire_handler cache_ptr : Z).

Lemma cache_add_keeps h x key pmkid kck_ addr timeout akm :
  keeps (ready h) (cache_add expire_handler cache_ptr x key pmkid kck_ addr timeout akm).
Proof.
  unfold cache_add. apply keeps_bind; [apply keeps_w_get|]. intros a. apply keeps_bind; [apply on_cache_keeps|]. intros r.
  apply keeps_ret.
Qed.

Lemma pmksa_add_keeps h x p key t : keeps (ready h) (wpa_auth_pmksa_add expire_handler cache_ptr x p key t).
Proof. pose proof (λ a b c d e f, cache_add_keeps h x a b c d e f). unfold wpa_auth_pmksa_add. keeps. Qed.

Lemma pmksa_add_sae_keeps h x addr key id : keeps (ready h) (wpa_auth_pmksa_add_sae expire_handler cache_ptr x addr key id).
Proof. pose proof (λ a b c d e f, cache_add_keeps h x a b c d e f). unfold wpa_auth_pmksa_add_sae. keeps. Qed.
End cache.

Lemma sta_clear_keeps h p e : keeps (ready h) (wpa_auth_sta_clear_pmksa p e).
Proof.
  assert (keeps (ready h) (s_upd p (λ m, m <| assoc := (assoc m) <| sm_pmksa := None |> |>))) as H1.
  { apply ready_s_upd. intros m Hm _. by apply ready_assoc. }
  unfold wpa_auth_sta_clear_pmksa. keeps.
Qed.

(** An entry for a station *)
Lemma set_to_sm_keeps h e p : pmk e ∈ handed h → keeps (ready h) (wpa_auth_pmksa_set_to_sm e p).
Proof.
  intros He. assert (keeps (ready h) (s_upd p (λ m, m <| assoc := (assoc m) <| sm_pmksa := Some e |> |>))) as H1.
  { apply ready_s_upd. intros m Hm _. apply ready_assoc; [done|done|]. by intros e' [= <-]. }
  assert (keeps (ready h) (w_upd (λ w, w <| auth := (auth w) <| dot11RSNAPMKIDUsed := e_pmkid e |> |>))) as H2 by (by apply keeps_same).
  unfold wpa_auth_pmksa_set_to_sm. keeps.
Qed.

(** What the validation of an element keeps *)
Lemma parse_ie_addr rsn ie a r : parse_ie rsn ie a = Ok r → auth_addr r.2 = auth_addr a.
Proof. unfold parse_ie. destruct rsn; intros H; apply bind_Ok_inv in H as (? & _ & H); by simplify_eq. Qed.

Lemma negotiate_addr rsn c d s r s' : negotiate rsn c d s = (r, s') → sm_addr s' = sm_addr s.
Proof.
  unfold negotiate. case_decide; [by intros [= _ <-]|]. cbn zeta. case_decide; [by intros [= _ <-]|].
  case_decide; [by intros [= _ <-]|]. destruct (check_mfp _ _ _); [by intros [= _ <-]|].
  case_decide; by intros [= _ <-].
Qed.

Lemma keep_ie_addr mem ie s r : keep_ie mem ie s = Ok r → sm_addr r.2 = sm_addr s.
Proof.
  unfold keep_ie. intros H. destruct (match sm_wpa_ie s with None => _ | Some _ => _ end).
  - destruct mem; by simplify_eq.
  - destruct (sm_wpa_ie s); [|by simplify_eq]. apply bind_Ok_inv in H as (b & _ & H). by simplify_eq.
Qed.

Section cache2.
Context (expire_handler cache_ptr : Z).

Lemma find_pmksa_addr v a s ids n r :
  find_pmksa expire_handler cache_ptr v a s ids n = Ok r → auth_addr r.2 = auth_addr a.
Proof.
  unfold find_pmksa. intros H. apply bind_Ok_inv in H as (o & _ & H). destruct o as [[]|]; [by simplify_eq|].
  destruct (okc (conf a)); [|by simplify_eq]. apply bind_Ok_inv in H as (o & _ & H). destruct o as [[]|]; [|by simplify_eq].
  apply bind_Ok_inv in H as (o & _ & H). by simplify_eq.
Qed.

Lemma validate_addr v a s ie r :
  wpa_validate_wpa_ie expire_handler cache_ptr v (Some a) (Some s) ie = Ok r →
  auth_addr (default a r.1.2) = auth_addr a ∧ sm_addr (default s r.2) = sm_addr s.
Proof.
  unfold wpa_validate_wpa_ie. destruct ie as [[|x l]|]; [intros; by simplify_eq| |intros; by simplify_eq].
  intros H. apply bind_Ok_inv in H as ([[res a'] s'] & H & H'). simplify_eq. cbn [fst snd default from_option id].
  unfold validate_ie in H. apply bind_Ok_inv in H as (id & _ & H).
  destruct (has_flag _ _); [|by simplify_eq].
  apply bind_Ok_inv in H as ([[pr d] a1] & Hp & H). apply parse_ie_addr in Hp. cbn [snd] in Hp.
  case_decide; [by simplify_eq|]. destruct (negotiate _ _ d s) as [nr s1] eqn:Hn. apply negotiate_addr in Hn.
  destruct nr; try (by simplify_eq). apply bind_Ok_inv in H as ([[e used] a2] & Hf & H).
  apply find_pmksa_addr in Hf. cbn [snd] in Hf. apply bind_Ok_inv in H as ([kr s2] & Hk & H).
  apply keep_ie_addr in Hk. cbn [snd] in Hk. simplify_eq/=. split; [|congruence].
  destruct e, used; cbn; congruence.
Qed.

(** The history goes on. *)
Lemma ready_older h h' w : ready h w → older h h' → present h' = present h → ready h' w.
Proof.
  intros [W1 W2 W2' W3 W4 W5] Ho Hp. split; try done.
  - congruence.
  - intros m Hm. destruct (W3 m Hm) as (? & ? & ? & ?). apply inv_intro; try done. by eapply station_older.
  - intros e He. eapply justified_older; eauto.
  - intros q Hq. destruct (W5 q Hq) as (m & ? & ? & ?). exists m. split_and!; try done. by eapply keyed_older.
Qed.

Lemma validate_keeps h v p ie w r w' :
  ready h w → validate_wpa_ie expire_handler cache_ptr v p ie w = Ok (r, w') →
  (∀ m e, m ∈ stations w' → sm_pmksa (assoc m) = Some e → pmk e ∈ handed h) → ready h w'.
Proof.
  intros Hw H Hh. unfold validate_wpa_ie in H.
  apply bind_inv in H as (w0 & w1 & H1 & H). unfold w_get in H1. simplify_eq. cbn [id] in H.
  apply bind_inv in H as (m & w2 & H1 & H). apply s_get_inv in H1 as (m1 & Hm & -> & ->). cbn [id] in H.
  apply bind_inv in H as (vr & w3 & H1 & H). apply lift_inv in H1 as [Hv ->]. apply validate_addr in Hv as [Ha Hs].
  apply bind_inv in H as (? & w4 & H1 & H). unfold w_upd in H1. simplify_eq.
  apply bind_inv in H as (? & w5 & H1 & H). apply ret_inv in H as [-> ->].
  set (w4 := w1 <| auth := default (auth w1) vr.1.2 |>) in *.
  assert (ready h w4) as Hw4 by (eapply world_same; [exact Hw|exact Ha|done|done]).
  destruct (found _ _ _ _ _ _ Hw Hm) as (_ & Hp1 & Hin1).
  pose proof H1 as H2. eapply (s_upd_ok h [] None [] None) in H1; [exact H1| |done|exact Hw4].
  unfold s_upd in H2. apply bind_Ok_inv in H2 as (m2 & Hm2 & H2). simplify_eq.
  intros m Hmi Hp Hin. assert (m = m1) as -> by (apply (unique _ _ _ _ _ _ Hw); [done..|congruence]).
  assert (m2 = m1) as ->.
  { destruct (found _ _ _ _ _ _ Hw4 Hm2) as (_ & Hp2 & Hin2). apply (unique _ _ _ _ _ _ Hw4); [done..|congruence]. }
  apply ready_assoc; [done|exact Hs|]. intros e He.
  apply (Hh (m1 <| assoc := default (assoc m1) vr.2 |>)); [|exact He]. by apply (put_station_self _ m1).
Qed.

End cache2.

(** *** Stations that come and go *)

Definition present_in (w : world) : list (Z * bytes) := map (λ m, (sm_ptr m, sm_addr (assoc m))) (stations w).

Lemma older_present h l : older h (h <| present := l |>).
Proof. by split. Qed.

Lemma zero_station_ok h p addr g : station_inv h [] None (zero_station p addr g).
Proof.
  apply inv_intro; [|by split; [|intros ?%not_elem_of_nil]|by intros _ _; split; [intros [|[|]]|]|by intros ?%not_elem_of_nil]. split; try done; by intros [|[|]].
Qed.

Lemma group_get_same p w x w' : wpa_group_get p w = Ok (x, w') → auth w' = auth w ∧ stations w' = stations w ∧ out w' = out w.
Proof.
  intros H. unfold wpa_group_get in H. apply bind_inv in H as (f & w1 & H1 & H). apply first_ptr_inv in H1 as ->.
  case_decide; [by apply ret_inv in H as [_ ->]|]. unfold gr_upd in H. apply bind_Ok_inv in H as (g & _ & H). by simplify_eq.
Qed.

Lemma sta_init_ok h p pos addr w r w' :
  ready h w → p ∉ map sm_ptr (stations w) → wpa_auth_sta_init (Some p) pos addr w = Ok (r, w') →
  ready (h <| present := present_in w' |>) w'.
Proof.
  intros Hw Hfresh H. unfold wpa_auth_sta_init in H.
  apply bind_inv in H as (f & w1 & H1 & H). apply first_ptr_inv in H1 as ->.
  apply bind_inv in H as (s & w1 & H1 & H). apply gr_get_inv in H1 as ->.
  case_decide; [apply ret_inv in H as [_ ->]|].
  { eapply ready_older; [exact Hw|apply older_present|]. apply (wo_present _ _ _ _ Hw). }
  apply bind_inv in H as (? & w1 & H1 & H). unfold w_upd in H1. injection H1 as _ Hw1.
  apply bind_inv in H as (? & w2 & H1 & H). apply group_get_same in H1 as (Ha & Hs & Ho).
  apply ret_inv in H as [_ ->].
  assert (stations w2 = take pos (stations w) ++ zero_station p addr f :: drop pos (stations w)) as Hst by (rewrite Hs, <- Hw1; done).
  assert (auth w2 = auth w) as Ha' by (rewrite Ha, <- Hw1; done).
  assert (out w2 = out w) as Ho' by (rewrite Ho, <- Hw1; done). clear Ha Hs Ho Hw1.
  assert (∀ m, m ∈ stations w2 → m = zero_station p addr f ∨ m ∈ stations w) as Hin.
  { intros m. rewrite Hst. rewrite <- (take_drop pos (stations w)) at 3. rewrite !elem_of_app, elem_of_cons. tauto. }
  destruct Hw as [W1 W2 W2' W3 W4 W5]. split; try done.
  - congruence.
  - rewrite <- (take_drop pos (stations w)) in W2, Hfresh. rewrite Hst, map_app in *. cbn [map].
    apply list.NoDup_app in W2 as (N1 & N2 & N3). apply list.NoDup_app. rewrite elem_of_app in Hfresh. split; [done|]. split.
    + intros q Hq. rewrite elem_of_cons. intros [->|?]; [by apply Hfresh; left|by eapply N2].
    + apply list.NoDup_cons. split; [|done]. intros Hq. apply Hfresh. by right.
  - intros m Hm. destruct (Hin m Hm) as [->|Hm0]; [apply zero_station_ok|].
    destruct (W3 m Hm0) as (? & ? & ? & ?). apply inv_intro; try done. eapply station_older; [apply older_present|done].
  - rewrite Ho'. intros e He. eapply justified_older; [apply older_present|by apply W4].
  - rewrite Ho'. intros q Hq. destruct (W5 q Hq) as (m & Hm & Hp & Hk). exists m. split; [|done].
    rewrite Hst. rewrite <- (take_drop pos (stations w)) in Hm. rewrite elem_of_app in *. rewrite elem_of_cons. tauto.
Qed.

(** The timeout of a station that goes is not registered. *)
Definition silent (p : Z) (w : world) : Prop := registered p (out w) = false.

Lemma silent_emit p e : (∀ secs usecs, e ≠ Register_timeout (wpa_rekey_ptk p) secs usecs) → keeps (silent p) (w_emit e).
Proof.
  intros He w x w' Hs H. unfold w_emit, w_upd in H. simplify_eq. unfold silent in *. cbn [out registered].
  destruct e; try done; destruct t; try done; case_decide; try done. subst. by destruct (He secs usecs).
Qed.

Lemma silent_same p w w' : out w' = out w → silent p w → silent p w'.
Proof. unfold silent. by intros ->. Qed.

Lemma silent_s_upd p q f : keeps (silent p) (s_upd q f).
Proof. intros w x w' Hs H. unfold s_upd in H. apply bind_Ok_inv in H as (m & _ & H). by simplify_eq. Qed.

Lemma silent_gr_upd p q f : keeps (silent p) (gr_upd q f).
Proof. intros w x w' Hs H. unfold gr_upd in H. apply bind_Ok_inv in H as (m & _ & H). by simplify_eq. Qed.

Lemma silent_w_upd p f : (∀ w, out (f w) = out w) → keeps (silent p) (w_upd f).
Proof. intros Hf w x w' Hs H. unfold w_upd in H. simplify_eq. eapply silent_same; [apply Hf|done]. Qed.

Lemma silent_group_key_done p q : keeps (silent p) (at_station q (λ _ _, group_key_done)).
Proof.
  intros w x w' Hs H. unfold at_station in H. apply bind_Ok_inv in H as (m & Hm & H). apply bind_Ok_inv in H as (g & _ & H).
  apply bind_Ok_inv in H as ([y s'] & Hr & H). apply (group_key_done_run (sm_ptr m)) in Hr as [_ _ Ho _]; [|done].
  simplify_eq/=. unfold silent in *. destruct (registered p (g_out (grp_of s'))) eqn:Hreg; [|exact Hreg].
  apply (registered_extends (mk_history [] [] []) (sm_ptr m) False (quiet (sm_ptr m)) (out w)) in Hreg; [|intros e; apply quiet_effect_ok|done].
  destruct Hreg as [Hreg|[_ []]]. congruence.
Qed.

Lemma silent_group_put p q : keeps (silent p) (wpa_group_put q).
Proof.
  assert (keeps (silent p) (wpa_group_free q)) as Hf.
  { unfold wpa_group_free. apply keeps_bind; [apply silent_w_upd; intros w; by destruct (groups w)|]. intros _. by apply silent_emit. }
  unfold wpa_group_put. apply keeps_bind; [apply keeps_first_ptr|]. intros f. case_decide; [apply keeps_ret|].
  apply keeps_bind; [apply silent_gr_upd|]. intros _. apply keeps_bind; [apply keeps_gr_get|]. intros n.
  case_decide; [apply keeps_ret|done].
Qed.

(** The stations but the one at [p] *)
Lemma without_ok h p w w' : ready h w → silent p w → auth w' = auth w →
  stations w' = filter (λ m, sm_ptr m ≠ p) (stations w) → out w' = out w → ready (h <| present := present_in w' |>) w'.
Proof.
  intros [W1 W2 W2' W3 W4 W5] Hs Ha Hst Ho. split; try done.
  - congruence.
  - rewrite Hst. revert W2. generalize (stations w). intros l. induction l as [|m l IH]; [done|]. cbn [map].
    intros [N1 N2]%list.NoDup_cons. rewrite filter_cons. case_decide; [|by apply IH]. cbn [map]. apply list.NoDup_cons.
    split; [|by apply IH]. intros (m' & Hm' & Hin)%list_elem_of_In%in_map_iff. apply N1.
    apply list_elem_of_In, list_elem_of_filter in Hin as [_ Hin]. rewrite <- Hm'. apply list_elem_of_In, in_map, list_elem_of_In, Hin.
  - intros m. rewrite Hst. intros [_ Hm]%list_elem_of_filter.
    destruct (W3 m Hm) as (? & ? & ? & ?). apply inv_intro; try done. eapply station_older; [apply older_present|done].
  - rewrite Ho. intros e He. eapply justified_older; [apply older_present|by apply W4].
  - rewrite Ho. intros q Hq. destruct (W5 q Hq) as (m & Hm & Hp & Hk). exists m. split; [|done].
    rewrite Hst. apply list_elem_of_filter. split; [|done]. intros Hpe. unfold silent in Hs. congruence.
Qed.

Lemma ready_not_stepping h w m : ready h w → m ∈ stations w → in_step_loop m = false.
Proof.
  intros Hw Hin. destruct (wo_stations _ _ _ _ Hw m Hin) as (_ & Hl & _). destruct (in_step_loop m); [|done].
  exfalso. eapply not_elem_of_nil. by apply Hl.
Qed.

Lemma free_sm_ok h p w x w' :
  ready h w → silent p w → wpa_free_sta_sm p w = Ok (x, w') → ready (h <| present := present_in w' |>) w'.
Proof.
  intros Hw Hs H. unfold wpa_free_sta_sm in H.
  apply bind_inv in H as (m & w1 & H1 & H). apply s_get_inv in H1 as (m1 & Hm & -> & ->). cbn [id] in H.
  apply bind_inv in H as (? & w1 & H1 & H).
  apply (keeps_when (λ w, ready h w ∧ silent p w)) in H1 as [Hw1 Hs1]; [..|done].
  2:{ apply keeps_and; [apply group_key_done_keeps|apply silent_group_key_done]. }
  apply bind_inv in H as (? & w2 & H1 & H).
  apply (keeps_and (ready h) (silent p)) in H1 as [Hw2 Hs2]; [|apply group_put_keeps|apply silent_group_put|done].
  apply bind_inv in H as (? & w3 & H1 & H). unfold w_upd in H1. injection H1 as _ Hw3.
  assert (ready (h <| present := present_in w3 |>) w3) as Hr.
  { apply (without_ok h p w2); try done; by rewrite <- Hw3. }
  pose proof H as H'. eapply (keeps_w_emit _ [] None) in H; [|done|exact Hr].
  unfold w_emit, w_upd in H'. injection H' as _ Hw'. assert (present_in w' = present_in w3) as -> by (by rewrite <- Hw').
  exact H.
Qed.

Lemma sta_deinit_ok h p w x w' :
  ready h w → wpa_auth_sta_deinit p w = Ok (x, w') → ready (h <| present := present_in w' |>) w'.
Proof.
  intros Hw H. unfold wpa_auth_sta_deinit in H.
  apply bind_inv in H as (m & w1 & H1 & H). apply s_get_inv in H1 as (m1 & Hm & -> & ->). cbn [id] in H.
  destruct (found _ _ _ _ _ _ Hw Hm) as (_ & _ & Hin). rewrite (ready_not_stepping _ _ _ Hw Hin) in H.
  apply bind_inv in H as (c & w1 & H1 & H). eapply (keeps_w_conf (ready h)) in H1; [|done].
  apply bind_inv in H as (? & w2 & H2 & H). eapply (keeps_when (ready h)) in H2; [|keeps|exact H1].
  apply bind_inv in H as (? & w3 & H3 & H). eapply (keeps_w_emit h [] None) in H3; [|done|exact H2].
  apply bind_inv in H as (? & w4 & H4 & H). eapply (ready_s_upd h) in H4; [|ready|exact H3].
  apply bind_inv in H as (? & w5 & H5 & H). eapply (keeps_w_emit h [] None) in H5; [|done|exact H4].
  apply bind_inv in H as (? & w6 & H6 & H). pose proof H6 as H6'. eapply (keeps_w_emit h [] None) in H6; [|done|exact H5].
  eapply free_sm_ok; [exact H6| |exact H].
  unfold w_emit, w_upd in H6'. injection H6' as _ <-. unfold silent. cbn. by rewrite decide_True.
Qed.

Lemma register_rekeying_keeps h : keeps (ready h) register_rekeying.
Proof. unfold register_rekeying. keeps. Qed.

(** An authenticator without stations and without a log *)
Lemma empty_ready w : auth_addr (auth w) = aa → stations w = [] → out w = [] → ready (mk_history [] [] []) w.
Proof.
  intros Ha Hs Ho. split; rewrite ?Hs, ?Ho; try done; [constructor|..]; by intros ? ?%not_elem_of_nil.
Qed.

Lemma wpa_init_ok ptr pmksa c w w' :
  out w = [] → wpa_init ptr pmksa aa c w = Ok (true, w') → ready (mk_history [] [] []) w'.
Proof.
  intros Ho H. open H.
  apply bind_inv in H as (mem & w1 & H1 & H). assert (out w1 = []) as Ho1 by (unfold w_ask in H1; by simplify_eq).
  assert (negb true = false) as Hn by done. destruct mem; [rewrite Hn in H; cbv iota in H|by apply ret_inv in H as [? _]].
  apply bind_inv in H as (? & w2 & H2 & H). apply w_upd_inv in H2.
  assert (ready (mk_history [] [] []) w2) as Hw by (apply empty_ready; by rewrite H2).
  clear H1 H2. apply bind_inv in H as (r & w3 & H3 & H). apply (gen_wpa_ie_keeps _ _ _ _ Hw) in H3.
  case_decide; [by apply ret_inv in H as [? _]|].
  apply bind_inv in H as (ok & w4 & H4 & H). apply (group_init_keeps _ _ _ _ _ _ _ H3) in H4.
  destruct ok; cbn [negb] in H; [|by apply ret_inv in H as [? _]].
  destruct pmksa as [ev|]; [|by apply ret_inv in H as [? _]].
  apply bind_inv in H as (? & w5 & H5 & H). apply (keeps_same (mk_history [] [] []) [] None) in H5; [|done|exact H4].
  apply bind_inv in H as (? & w6 & H6 & H). apply ret_inv in H as [_ ->].
  exact (register_rekeying_keeps _ _ _ _ H5 H6).
Qed.

(** ** Runs *)

(** What the rest of the access point, the event loop and the driver call *)
Inductive wpa_op : Type :=
| Op_receive (p : Z) (data : bytes)
| Op_event (e : wpa_event) (p : Z)
| Op_associated (p : Z)
| Op_no_wpa (p : Z)
| Op_sta_init (p : option Z) (pos : nat) (addr : bytes)
| Op_sta_deinit (p : Z)
| Op_rekey_gmk
| Op_rekey_gtk
| Op_rekey_ptk (p : Z)
| Op_send_eapol_timeout (p : Z)
| Op_call_step (p : Z)
| Op_notify (p : Z)
| Op_init_keys
| Op_reconfig (c : wpa_auth_config)
| Op_gtk_rekey
| Op_reconfig_group_keys
| Op_countermeasures_start
| Op_ensure_group (ptr : option Z) (vlan : Z)
| Op_release_group (vlan : Z)
| Op_set_vlan (ptr : option Z) (p vlan : Z)
| Op_tx_status (p : Z) (ack : bool)
| Op_pmksa_add (x : pmksa_arg) (p : Z) (key : bytes) (session_timeout : Z)
| Op_pmksa_add_preauth (x : pmksa_arg) (key addr : bytes) (session_timeout : Z)
| Op_pmksa_add_sae (x : pmksa_arg) (addr key id : bytes)
| Op_pmksa_remove (addr : bytes)
| Op_pmksa_flush
| Op_pmksa_das (attr : radius_das_attrs)
| Op_pmksa_timeout (env : pm_env)
| Op_pmksa_clear (p entry : Z)
| Op_pmksa_set (e : rsn_pmksa_cache_entry) (p : Z)
| Op_validate (v : val_env) (p : Z) (ie : option bytes).

Section runs.
Context (expire_handler cache_ptr : Z).

Definition ignore {A} (m : W A) : W unit := _ ← m; mret tt.

Definition perform (op : wpa_op) : W unit :=
  match op with
  | Op_receive p data => wpa_receive p data
  | Op_event e p => ignore (wpa_auth_sm_event e p)
  | Op_associated p => ignore (wpa_auth_sta_associated p)
  | Op_no_wpa p => wpa_auth_sta_no_wpa p
  | Op_sta_init ptr pos addr => ignore (wpa_auth_sta_init ptr pos addr)
  | Op_sta_deinit p => wpa_auth_sta_deinit p
  | Op_rekey_gmk => wpa_rekey_gmk_timeout
  | Op_rekey_gtk => wpa_rekey_gtk_timeout
  | Op_rekey_ptk p => wpa_rekey_ptk_timeout p
  | Op_send_eapol_timeout p => wpa_send_eapol_timeout_handler p
  | Op_call_step p => wpa_sm_call_step_timeout p
  | Op_notify p => wpa_auth_sm_notify p
  | Op_init_keys => ignore wpa_init_keys
  | Op_reconfig c => ignore (wpa_reconfig c)
  | Op_gtk_rekey => wpa_gtk_rekey
  | Op_reconfig_group_keys => wpa_auth_reconfig_group_keys
  | Op_countermeasures_start => wpa_auth_countermeasures_start
  | Op_ensure_group ptr vlan => ignore (wpa_auth_ensure_group ptr vlan)
  | Op_release_group vlan => ignore (wpa_auth_release_group vlan)
  | Op_set_vlan ptr p vlan => ignore (wpa_auth_sta_set_vlan ptr p vlan)
  | Op_tx_status p ack => wpa_auth_eapol_key_tx_status p ack
  | Op_pmksa_add x p key t => ignore (wpa_auth_pmksa_add expire_handler cache_ptr x p key t)
  | Op_pmksa_add_preauth x key addr t => ignore (wpa_auth_pmksa_add_preauth expire_handler cache_ptr x key addr t)
  | Op_pmksa_add_sae x addr key id => ignore (wpa_auth_pmksa_add_sae expire_handler cache_ptr x addr key id)
  | Op_pmksa_remove addr => wpa_auth_pmksa_remove addr
  | Op_pmksa_flush => wpa_auth_pmksa_flush
  | Op_pmksa_das attr => ignore (wpa_auth_radius_das_disconnect_pmksa attr)
  | Op_pmksa_timeout env => pmksa_timeout expire_handler cache_ptr env
  | Op_pmksa_clear p entry => ignore (wpa_auth_sta_clear_pmksa p entry)
  | Op_pmksa_set e p => ignore (wpa_auth_pmksa_set_to_sm e p)
  | Op_validate v p ie => ignore (validate_wpa_ie expire_handler cache_ptr v p ie)
  end.

(** A timeout comes only when it is registered, and memory is given out once. *)
Definition allowed (op : wpa_op) (w : world) : Prop :=
  match op with
  | Op_rekey_ptk p => registered p (out w) = true
  | Op_sta_init (Some p) _ _ => p ∉ map sm_ptr (stations w)
  | _ => True
  end.

(** The history after an operation from [w] to [w'] *)
Definition remember (op : wpa_op) (w w' : world) (h : history) : history :=
  mk_history
    (match op with
     | Op_receive p data => map (λ m, (sm_addr (assoc m), data)) (filter (λ m, sm_ptr m = p) (stations w))
     | _ => []
     end ++ frames h)
    (match op with
     | Op_pmksa_set e _ => [pmk e]
     | Op_validate _ _ _ => omap (λ m, pmk <$> sm_pmksa (assoc m)) (stations w')
     | _ => []
     end ++ handed h)
    (present_in w').

Lemma keeps_ignore {A} P (m : W A) : keeps P m → keeps P (ignore m).
Proof. intros Hm. apply keeps_bind; [done|]. intros _. apply keeps_ret. Qed.

Lemma ignore_inv {A} (m : W A) w w' : ignore m w = Ok (tt, w') → ∃ x, m w = Ok (x, w').
Proof. intros H. apply bind_inv in H as (x & w1 & H1 & H). apply ret_inv in H as [_ ->]. eauto. Qed.

(** The operations that keep the list of stations and give no PMK *)
Lemma reaches_keep h w op w' :
  ready h w → keeps (ready h) (perform op) → perform op w = Ok (tt, w') → ready (remember op w w' h) w'.
Proof.
  intros Hw Hk H. pose proof (Hk _ _ _ Hw H) as Hw'. eapply ready_older; [exact Hw'| |].
  - split; intros y Hy; apply elem_of_app; by right.
  - apply (wo_present _ _ _ _ Hw').
Qed.

Lemma remember_older op w w' h : older (h <| present := present_in w' |>) (remember op w w' h).
Proof. split; intros y Hy; apply elem_of_app; by right. Qed.

Lemma step_ready h w op w' :
  ready h w → allowed op w → perform op w = Ok (tt, w') → ready (remember op w w' h) w'.
Proof.
  intros Hw Ha H.
  assert (∀ x : pmksa_arg, ∀ a b c d e f, keeps (ready h) (cache_add expire_handler cache_ptr x a b c d e f)) as Hc
    by (intros; apply cache_add_keeps).
  assert (keeps (ready h) (perform op) → ready (remember op w w' h) w') as Hkeep by (intros Hk; by apply reaches_keep).
  destruct op; cbn [perform allowed] in Ha, H, Hkeep.
  - (* reception: the frame is in the history first *)
    set (h1 := h <| frames := map (λ m, (sm_addr (assoc m), data)) (filter (λ m, sm_ptr m = p) (stations w)) ++ frames h |>).
    assert (older h h1) as Ho by (split; intros y Hy; [apply elem_of_app; by right|done]).
    assert (ready h1 w) as Hw1 by (by eapply ready_older).
    assert (came h1 p data) as Hcame.
    { intros addr Hin. apply elem_of_app. left. change (present h1) with (present h) in Hin.
      rewrite <- (wo_present _ _ _ _ Hw) in Hin. apply list_elem_of_In, in_map_iff in Hin as (m & Hm & Hin).
      simplify_eq. apply list_elem_of_In, in_map_iff. exists m. split; [done|].
      apply list_elem_of_In, list_elem_of_filter. split; [done|by apply list_elem_of_In]. }
    pose proof (receive_keeps _ _ _ Hcame _ _ _ Hw1 H) as Hw'. eapply ready_older; [exact Hw'|by split|].
    apply (wo_present _ _ _ _ Hw').
  - apply Hkeep. apply keeps_ignore, sm_event_keeps.
  - apply Hkeep. apply keeps_ignore, sta_associated_keeps.
  - apply Hkeep. apply sta_no_wpa_keeps.
  - apply ignore_inv in H as [r H]. destruct p as [p|].
    + eapply ready_older; [by eapply sta_init_ok|apply remember_older|done].
    + assert (ready h w') as Hw'.
      { revert H. assert (keeps (ready h) (wpa_auth_sta_init None pos addr)) as Hk by (unfold wpa_auth_sta_init; keeps).
        by apply Hk. }
      eapply ready_older; [exact Hw'|by split|]. apply (wo_present _ _ _ _ Hw').
  - eapply ready_older; [by eapply sta_deinit_ok|apply remember_older|done].
  - apply Hkeep. apply rekey_gmk_keeps.
  - apply Hkeep. apply rekey_gtk_keeps.
  - assert (ready h w') as Hw' by (by eapply rekey_ptk_keeps).
    eapply ready_older; [exact Hw'|by split|]. apply (wo_present _ _ _ _ Hw').
  - apply Hkeep. apply eapol_timeout_keeps.
  - apply Hkeep. unfold wpa_sm_call_step_timeout. keeps.
  - apply Hkeep. by apply keeps_w_emit.
  - apply Hkeep. apply keeps_ignore, init_keys_keeps.
  - apply Hkeep. apply keeps_ignore, reconfig_keeps.
  - apply Hkeep. apply gtk_rekey_keeps.
  - apply Hkeep. apply reconfig_group_keys_keeps.
  - apply Hkeep. apply countermeasures_keeps.
  - apply Hkeep. apply keeps_ignore, ensure_group_keeps.
  - apply Hkeep. apply keeps_ignore, release_group_keeps.
  - apply Hkeep. apply keeps_ignore, set_vlan_keeps.
  - apply Hkeep. apply tx_status_keeps.
  - apply Hkeep. apply keeps_ignore, pmksa_add_keeps.
  - apply Hkeep. apply keeps_ignore, Hc.
  - apply Hkeep. apply keeps_ignore, pmksa_add_sae_keeps.
  - apply Hkeep. unfold wpa_auth_pmksa_remove. apply on_cache_keeps.
  - apply Hkeep. unfold wpa_auth_pmksa_flush. apply on_cache_keeps.
  - apply Hkeep. unfold wpa_auth_radius_das_disconnect_pmksa. apply keeps_ignore, on_cache_keeps.
  - apply Hkeep. unfold pmksa_timeout. apply on_cache_keeps.
  - apply Hkeep. apply keeps_ignore, sta_clear_keeps.
  - assert (ready (h <| handed := pmk e :: handed h |>) w') as Hw'.
    { apply (keeps_ignore (ready (h <| handed := pmk e :: handed h |>)) (wpa_auth_pmksa_set_to_sm e p)) in H;
        [exact H|apply set_to_sm_keeps; by left|].
      eapply ready_older; [exact Hw| |done]. split; [done|]. intros y Hy. by right. }
    eapply ready_older; [exact Hw'|by split|]. apply (wo_present _ _ _ _ Hw').
  - apply ignore_inv in H as [r H].
    set (h1 := h <| handed := omap (λ m, pmk <$> sm_pmksa (assoc m)) (stations w') ++ handed h |>).
    assert (ready h1 w) as Hw1.
    { eapply ready_older; [exact Hw| |done]. split; [done|]. intros y Hy. apply elem_of_app. by right. }
    assert (ready h1 w') as Hw'.
    { eapply validate_keeps; [exact Hw1|exact H|]. intros m e' Hm He. apply elem_of_app. left.
      apply list_elem_of_omap. exists m. split; [done|]. by rewrite He. }
    eapply ready_older; [exact Hw'|by split|]. apply (wo_present _ _ _ _ Hw').
Qed.

Lemma start_ready ptr pmksa c w0 w :
  out w0 = [] → wpa_init ptr pmksa aa c w0 = Ok (true, w) → ready (mk_history [] [] []) w.
Proof. apply wpa_init_ok. Qed.

End runs.
End safety.

Section runs_in_envs.
Context {C : Crypto} (Env : Wpa_env → Prop) (aa : bytes) (expire_handler cache_ptr : Z).

(** A run from the start of an authenticator with the address [aa]; every operation has
    surroundings of its own. *)
Inductive reaches : history → world → Prop :=
| reaches_init E w0 ptr pmksa c w :
    Env E → out w0 = [] → @wpa_init C E ptr pmksa aa c w0 = Ok (true, w) → reaches (mk_history [] [] []) w
| reaches_op E h w op w' :
    Env E → reaches h w → allowed op w → @perform C E expire_handler cache_ptr op w = Ok (tt, w') →
    reaches (remember op w w' h) w'.

(** Between the operations nothing depends on the surroundings. *)
Lemma change_env E E' h w : @world_ok C Env aa E h [] None w → @world_ok C Env aa E' h [] None w.
Proof.
  intros [W1 W2 W3 W4 W5 W6]. split; try done. intros m Hm. destruct (W4 m Hm) as (Hok & Hl & Hc & Hs).
  split_and!; try done. destruct Hok as [H1 H2 H3 H4 H5 H6 H7 H8]. split; try done.
  unfold stage in *. destruct (wpa_ptk_state m) eqn:Hst; try done. destruct H2 as [Hf _]. split; [done|].
  right; right. by apply Hc; [apply not_elem_of_nil| |].
Qed.

Context (HEnv : ∀ E, Env E → Wpa_envOk E ∧ @psks_stable E).

Lemma reaches_ready E h w : reaches h w → @world_ok C Env aa E h [] None w.
Proof.
  intros Hr. revert E. induction Hr as [E' w0 ptr pmksa c w He Ho Hi|E' h w op w' He Hr IH Ha Hp]; intros E;
    destruct (HEnv E' He) as [? ?]; apply (change_env E').
  - by eapply start_ready.
  - by eapply step_ready.
Qed.

(** C16. No key and no port without a handshake: in every run of the authenticator, each
    pairwise key that was installed, each station that was authorized and each port
    that became valid is that of a station from whose address a frame was received
    whose MIC is right under a PTK that the access point derived, with a nonce of its
    own, from one of its PMKs for that station: a PSK configured for the address, a key
    from EAP or a cached one; and the key installed is part of that PTK. The
    configuration may change between the operations of the run; that a station without a
    PSK does not get one in the middle of an operation is assumed, and that
    buffers are filled to their length. *)
Theorem port_needs_handshake h w e :
  reaches h w → e ∈ out w → justified Env aa h e.
Proof.
  intros Hr. assert (∃ E : Wpa_env, True) as [E _] by (inversion Hr; eauto).
  apply (wo_out _ _ _ _ _ _ (reaches_ready E h w Hr)).
Qed.

End runs_in_envs.

(** ** A run *)

Section run_ops.
Context {C : Crypto} {E : Wpa_env} (expire_handler cache_ptr : Z).

Definition allowedb (op : wpa_op) (w : world) : bool :=
  match op with
  | Op_rekey_ptk p => registered p (out w)
  | Op_sta_init (Some p) _ _ => bool_decide (p ∉ map sm_ptr (stations w))
  | _ => true
  end.

(** Operations that are chosen by what there is *)
Fixpoint run_ops (ops : list (world → wpa_op)) (h : history) (w : world) : option (history * world) :=
  match ops with
  | [] => Some (h, w)
  | f :: ops =>
    if allowedb (f w) w then
      match perform expire_handler cache_ptr (f w) w with
      | Ok (_, w') => run_ops ops (remember (f w) w w' h) w'
      | _ => None
      end
    else None
  end.

Lemma run_reaches (Env : Wpa_env → Prop) aa ops h w h' w' :
  Env E → reaches Env aa expire_handler cache_ptr h w → run_ops ops h w = Some (h', w') →
  reaches Env aa expire_handler cache_ptr h' w'.
Proof.
  intros HE. revert h w. induction ops as [|f ops IH]; intros h w Hr H; cbn [run_ops] in H; [by simplify_eq|].
  destruct (allowedb (f w) w) eqn:Ha; [|done].
  destruct (perform _ _ _ _) as [[[] w1]| |] eqn:Hp; try done. eapply IH; [|exact H].
  apply (reaches_op Env aa expire_handler cache_ptr E h w (f w) w1); [done|done| |done].
  unfold allowedb, allowed in *. destruct (f w) as [| | | |[]| | | | | | | | | | | | | | | | | | | | | | | | | |]; try done.
  by apply bool_decide_eq_true in Ha.
Qed.
End run_ops.

#[local] Existing Instance toy_crypto.

(** Random octets that tell which question they answer, and a PSK for one station *)
Definition toy_env : Wpa_env := {|
  env_random i n := (0, replicate n (Z.of_nat (i mod 200)));
  env_pool_ready i := 1;
  env_ntp_timestamp i := replicate 8 (Z.of_nat i);
  env_seqnum i x := (0, replicate 8 0);
  env_eapol i v := 1;
  env_psks i addr := if decide (addr = [2; 0; 0; 0; 0; 1]) then [replicate 32 7] else [];
  env_msk i addr := None;
  env_set_key i := 0;
  env_mic_failure i := 0;
  env_mem i := true |}.
#[local] Existing Instance toy_env.

Lemma toy_env_ok : Wpa_envOk toy_env.
Proof.
  split.
  - intros i n. apply length_replicate.
  - intros i. apply length_replicate.
  - intros i x. apply length_replicate.
  - intros i addr. cbn. case_decide; by repeat constructor.
  - done.
Qed.

Definition ex_world : world := mk_world ex_auth (mk_own_ie None 0) [] [] 0 0 0 0%nat [].
Definition ex_aa : bytes := [2; 0; 0; 0; 0; 9].
Definition ex_sta : bytes := [2; 0; 0; 0; 0; 1].

(** A frame of the supplicant: its key information, counter, nonce and data *)
Definition sup_frame (ptk : wpa_ptk) (info : Z) (replay nonce data : bytes) : bytes :=
  let f mic := [2; 3] ++ WPA_PUT_BE16 (95 + zlen data) ++ [2] ++ WPA_PUT_BE16 info ++ [0; 0] ++ replay ++ nonce ++
    replicate 32 0 ++ mic ++ WPA_PUT_BE16 (zlen data) ++ data in
  f (overlay (default [] (wpa_eapol_key_mic (kck ptk) (kck_len ptk) (Z.land info 7) (f (replicate 16 0)))) (replicate 16 0)).

Definition sup_ptk (anonce : bytes) : wpa_ptk :=
  wpa_pmk_to_ptk (replicate 32 7) (lit "Pairwise key expansion") ex_aa ex_sta anonce (replicate 32 9)
    WPA_KEY_MGMT_PSK_SHA256 WPA_CIPHER_CCMP.

(** Message 2 or 4, for the frame the station was sent last *)
Definition sup_answer (nonce data : bytes) (w : world) : wpa_op :=
  match stations w with
  | m :: _ => Op_receive 2000 (sup_frame (sup_ptk (ANonce m)) (WPA_KEY_INFO_TYPE_AES_128_CMAC + WPA_KEY_INFO_KEY_TYPE + WPA_KEY_INFO_MIC)
                (from_option counter [] (head (key_replay m))) nonce data)
  | [] => Op_init_keys
  end.

Definition ex_ops : list (world → wpa_op) :=
  [λ _, Op_init_keys; λ _, Op_sta_init (Some 2000) 0 ex_sta; λ _, Op_validate ex_val 2000 (Some ex_ie);
   λ _, Op_associated 2000; sup_answer (replicate 32 9) ex_ie; sup_answer (replicate 32 0) []].

Definition ex_start : outcome (bool * world) := wpa_init (Some 1000) (Some Eloop.eloop_init) ex_aa ex_conf ex_world.
Definition ex_run : option (history * world) :=
  match ex_start with Ok (true, w) => run_ops 1 2 ex_ops (mk_history [] [] []) w | _ => None end.

Definition key_installed (e : wpa_effect) : bool :=
  match e with Set_key _ alg addr _ _ => bool_decide (alg = WPA_ALG_CCMP ∧ addr = ex_sta) | _ => false end.
Definition port_opened (e : wpa_effect) : bool :=
  match e with Set_eapol addr WPA_EAPOL_portValid true => bool_decide (addr = ex_sta) | _ => false end.

Definition ex_view (p : history * world) : list ptk_state * bool * bool :=
  (map wpa_ptk_state (stations p.2), existsb key_installed (out p.2), existsb port_opened (out p.2)).

Lemma ex_view_run : option_map ex_view ex_run = Some ([WPA_PTK_PTKINITDONE], true, true).
Proof. vm_compute. reflexivity. Qed.

Strategy expand [ex_start].
Lemma ex_start_reaches w : ex_start = Ok (true, w) → reaches (eq toy_env) ex_aa 1 2 (mk_history [] [] []) w.
Proof. exact (reaches_init (eq toy_env) ex_aa 1 2 toy_env ex_world (Some 1000) (Some Eloop.eloop_init) ex_conf w eq_refl eq_refl). Qed.

Lemma ex_run_reaches h w : ex_run = Some (h, w) → reaches (eq toy_env) ex_aa 1 2 h w.
Proof.
  unfold ex_run. destruct ex_start as [[[] w0]| |] eqn:Hs; try (intros H; discriminate H).
  apply run_reaches; [exact eq_refl|]. exact (ex_start_reaches w0 Hs).
Qed.

(** The handshake of [ex_ops] ends with the key installed and the port open; another
    station has no PSK. *)
Lemma port_needs_handshake_witness :
  (∀ E, toy_env = E → Wpa_envOk E ∧ @psks_stable E) ∧
  ∃ h w, reaches (eq toy_env) ex_aa 1 2 h w ∧ ex_view (h, w) = ([WPA_PTK_PTKINITDONE], true, true) ∧
    ∀ e, e ∈ out w → justified (eq toy_env) ex_aa h e.
Proof.
  assert (∀ E, toy_env = E → Wpa_envOk E ∧ @psks_stable E) as HEnv.
  { intros E <-. split; [exact toy_env_ok|]. intros i j addr Hi. exact Hi. }
  split; [exact HEnv|].
  pose proof ex_view_run as Hv. destruct ex_run as [[h w]|] eqn:Hrun; [|discriminate Hv].
  exists h, w. split; [exact (ex_run_reaches h w Hrun)|]. split; [exact (f_equal (default (ex_view (h, w))) Hv)|].
  intros e He. exact (port_needs_handshake (eq toy_env) ex_aa 1 2 HEnv h w e (ex_run_reaches h w Hrun) He).
Defined.
