(* ===== verification/WpaEnds.v ===== *)
(** * WPA authenticator: the steps of a station end

    The loop of [wpa_sm_step] goes on as long as a machine of the station or its group
    changes; the step of the group makes other stations step. That this ends is shown
    by a measure: requests and events that wait weigh more than what they lead to,
    and a transition of the group weighs more than what it does to its stations. *)

From Stdlib Require Import ZArith Lia Strings.String.
From stdpp Require Import base option list numbers decidable.
From S2P Require Import Prelude CLib Common Ieee8021x WpaCommon WpaKeys Pmksa WpaIe WpaSm WpaSteps WpaAuth WpaTriples WpaSafety.
Local Open Scope Z_scope.

(** ** Operations without loops *)

(** The outcome does not come from a loop that was cut off. *)
Definition ended {A} (o : outcome A) : Prop := o ≠ Stuck.
Definition ends {S A} (m : S_M S A) : Prop := ∀ s, ended (m s).

Lemma ended_ok {A} (x : A) : ended (Ok x).
Proof. done. Qed.
Lemma ended_undef {A} k : ended (Undef k : outcome A).
Proof. done. Qed.
Lemma ended_bind {A B} (o : outcome A) (f : A → outcome B) : ended o → (∀ x, ended (f x)) → ended (o ≫= f).
Proof. intros Ho Hf. destruct o; [apply Hf|done|by destruct Ho]. Qed.

Create HintDb ends.
#[export] Hint Resolve ended_ok ended_undef : ends.

Lemma ended_rd b i : ended (rd b i).
Proof. unfold rd. by destruct (b !! i). Qed.
Lemma ended_slice b i n : ended (slice b i n).
Proof. unfold slice. by case_decide. Qed.
Lemma ended_write b i d : ended (write b i d).
Proof. unfold write. by case_decide. Qed.
Lemma ended_elem {A} (l : list A) i : ended (elem l i).
Proof. unfold elem. case_decide; [|done]. by destruct (_ !! _). Qed.
Lemma ended_inc_int z : ended (inc_int z).
Proof. unfold inc_int. by case_decide. Qed.
Lemma ended_dec_int z : ended (dec_int z).
Proof. unfold dec_int. by case_decide. Qed.
Lemma ended_put_octets len d acc : ended (put_octets len d acc).
Proof. unfold put_octets, guard_ub. by destruct (bool_decide _). Qed.
#[export] Hint Resolve ended_rd ended_slice ended_write ended_elem ended_inc_int ended_dec_int ended_put_octets : ends.

Lemma ends_bind {S A B} (m : S_M S A) (f : A → S_M S B) : ends m → (∀ x, ends (f x)) → ends (m ≫= f).
Proof. intros Hm Hf s. apply ended_bind; [apply Hm|]. intros [x s']. apply Hf. Qed.
Lemma ends_ret {S A} (x : A) : ends (mret x : S_M S A).
Proof. done. Qed.
Lemma ends_lift {S A} (o : outcome A) : ended o → ends (lift_outcome o : S_M S A).
Proof. intros Ho s. by apply ended_bind. Qed.
Lemma ends_when {S} b (m : S_M S unit) : ends m → ends (when b m).
Proof. intros Hm. by destruct b. Qed.
Lemma ends_on_group {A} (m : G A) : ends m → ends (on_group m).
Proof. intros Hm s. apply ended_bind; [apply Hm|done]. Qed.

(** One step of the syntax, or a known operation *)
Ltac ends1 :=
  first
    [ solve [auto with ends nocore]
    | apply ends_bind; [|intros ?]
    | apply ended_bind; [|intros ?]
    | apply ends_lift | apply ends_when | apply ends_on_group
    | match goal with |- ends (if ?b then _ else _) => destruct b end
    | match goal with |- ended (if ?b then _ else _) => destruct b end
    | match goal with |- ends (match ?x with _ => _ end) => destruct x end
    | match goal with |- ended (match ?x with _ => _ end) => destruct x end
    | intros s; exact (ended_ok _) ].
Ltac ends := cbv zeta; repeat ends1.
#[export] Hint Resolve ends_ret : ends.

Section steps.
Context {C : Crypto} {E : Wpa_env} (a : wpa_authenticator) (own : own_ie).

Lemma ends_g_get {A} (f : WpaSm.wpa_group → A) : ends (g_get f).
Proof. done. Qed.
Lemma ends_g_upd f : ends (g_upd f).
Proof. done. Qed.
Lemma ends_g_emit e : ends (g_emit e).
Proof. done. Qed.
Lemma ends_g_ask {A} (f : nat → A) : ends (g_ask f).
Proof. done. Qed.
Lemma ends_get {A} (f : wpa_state_machine → A) : ends (get f).
Proof. done. Qed.
Lemma ends_upd f : ends (upd f).
Proof. done. Qed.
Lemma ends_emit e : ends (emit e).
Proof. done. Qed.
Lemma ends_ask {A} (f : nat → A) : ends (ask f).
Proof. done. Qed.
Lemma ends_gget {A} (f : WpaSm.wpa_group → A) : ends (gget f).
Proof. done. Qed.
Lemma ends_failed : ends handshake_failed.
Proof. done. Qed.
#[local] Hint Resolve ends_g_get ends_g_upd ends_g_emit ends_g_ask ends_get ends_upd ends_emit ends_ask ends_gget ends_failed : ends.

Lemma ends_set_eapol v x : ends (wpa_auth_set_eapol v x).
Proof. unfold wpa_auth_set_eapol. ends. Qed.
Lemma ends_set_authorized x : ends (wpa_auth_set_authorized x).
Proof. unfold wpa_auth_set_authorized. ends. Qed.
Lemma ends_set_key v alg addr i k : ends (wpa_auth_set_key v alg addr i k).
Proof. unfold wpa_auth_set_key. ends. Qed.
Lemma ends_this_timer t : ends (this_timer t).
Proof. unfold this_timer. ends. Qed.
Lemma ends_set_count f : (∀ z, ended (f z)) → ends (set_GKeyDoneStations f).
Proof. intros Hf. unfold set_GKeyDoneStations. ends. Qed.
#[local] Hint Resolve ends_set_eapol ends_set_authorized ends_set_key ends_this_timer : ends.

Lemma ends_init_gmk : ends (wpa_group_init_gmk_and_counter a).
Proof. unfold wpa_group_init_gmk_and_counter. ends. Qed.
Lemma ends_gmk_to_gtk label gtk len : ends (wpa_gmk_to_gtk a label gtk len).
Proof. unfold wpa_gmk_to_gtk. ends. Qed.
Lemma ends_next_gnonce : ends next_gnonce.
Proof. unfold next_gnonce. ends. Qed.
#[local] Hint Resolve ends_init_gmk ends_gmk_to_gtk ends_next_gnonce : ends.
Lemma ends_gtk_update : ends (wpa_gtk_update a).
Proof. unfold wpa_gtk_update. ends. Qed.
Lemma ended_group_key keys i len : ended (group_key keys i len).
Proof. unfold group_key. ends. Qed.
#[local] Hint Resolve ends_gtk_update ended_group_key : ends.
Lemma ends_config_keys : ends (wpa_group_config_group_keys a).
Proof. unfold wpa_group_config_group_keys. ends. Qed.
#[local] Hint Resolve ends_config_keys : ends.
Lemma ends_ensure_init : ends (wpa_group_ensure_init a).
Proof. unfold wpa_group_ensure_init. ends. Qed.

Lemma ended_be16 b : ended (WPA_GET_BE16 b).
Proof. unfold WPA_GET_BE16. ends. Qed.
#[local] Hint Resolve ends_ensure_init ended_be16 : ends.
Lemma ended_verify akmp ptk data : ended (wpa_verify_key_mic akmp ptk data).
Proof. unfold wpa_verify_key_mic. ends. Qed.
#[local] Hint Resolve ended_verify : ends.
Lemma ended_try m snonce data pmks : ended (try_pmks a m snonce data pmks).
Proof. induction pmks; cbn [try_pmks]; ends. Qed.
Lemma ends_eapol_key_data m v kde l len enc : ends (eapol_key_data m v kde l len enc).
Proof. unfold eapol_key_data. ends. Qed.
#[local] Hint Resolve ended_try ends_eapol_key_data : ends.
Lemma ends_send_frame info rsc nonce kde l idx enc v : ends (__wpa_send_eapol a info rsc nonce kde l idx enc v).
Proof. unfold __wpa_send_eapol. ends. Qed.
#[local] Hint Resolve ends_send_frame : ends.
Lemma ends_send info rsc nonce kde l idx enc : ends (wpa_send_eapol a info rsc nonce kde l idx enc).
Proof. unfold wpa_send_eapol, register_timeout. ends. Qed.
Lemma ends_remove_ptk : ends wpa_remove_ptk.
Proof. unfold wpa_remove_ptk, cancel_timeout. ends. Qed.
#[local] Hint Resolve ends_send ends_remove_ptk : ends.
Lemma ends_event_remove e : ends (event_remove_ptk e).
Proof. unfold event_remove_ptk. ends. Qed.
#[local] Hint Resolve ends_event_remove : ends.
Lemma ends_disconnect : ends wpa_sta_disconnect.
Proof. unfold wpa_sta_disconnect, deauth_in_step_loop. ends. Qed.
Lemma ends_candidates : ends pmk_candidates.
Proof. unfold pmk_candidates. ends. Qed.
#[local] Hint Resolve ends_disconnect ends_candidates : ends.
Lemma ends_try_alt data : ends (wpa_try_alt_snonce a data).
Proof. unfold wpa_try_alt_snonce. ends. Qed.
Lemma ends_group_key_done : ends group_key_done.
Proof. unfold group_key_done. ends. Qed.
#[local] Hint Resolve ends_group_key_done : ends.

(** The states *)
Lemma ends_INITIALIZE : ends PTK_INITIALIZE.
Proof. unfold PTK_INITIALIZE, enter. ends. Qed.
Lemma ends_DISCONNECT : ends PTK_DISCONNECT.
Proof. unfold PTK_DISCONNECT, enter. ends. Qed.
Lemma ends_DISCONNECTED : ends PTK_DISCONNECTED.
Proof. unfold PTK_DISCONNECTED, enter. ends. Qed.
Lemma ends_AUTHENTICATION : ends PTK_AUTHENTICATION.
Proof. unfold PTK_AUTHENTICATION, enter. ends. Qed.
Lemma ends_AUTHENTICATION2 : ends (PTK_AUTHENTICATION2 a).
Proof. unfold PTK_AUTHENTICATION2, enter. ends. Qed.
Lemma ends_put_pmk key len : ends (put_pmk key len).
Proof. unfold put_pmk. ends. Qed.
#[local] Hint Resolve ends_put_pmk : ends.
Lemma ends_INITPMK : ends PTK_INITPMK.
Proof. unfold PTK_INITPMK, enter. ends. Qed.
Lemma ends_INITPSK : ends PTK_INITPSK.
Proof. unfold PTK_INITPSK, enter. ends. Qed.
Lemma ends_inc_ctr : ends inc_TimeoutCtr.
Proof. unfold inc_TimeoutCtr. ends. Qed.
#[local] Hint Resolve ends_inc_ctr : ends.
Lemma ends_PTKSTART : ends (PTK_PTKSTART a).
Proof. unfold PTK_PTKSTART, enter. ends. Qed.
Lemma ends_PTKCALCNEGOTIATING : ends (PTK_PTKCALCNEGOTIATING a).
Proof. unfold PTK_PTKCALCNEGOTIATING, enter, cancel_timeout. ends. Qed.
Lemma ends_PTKCALCNEGOTIATING2 : ends PTK_PTKCALCNEGOTIATING2.
Proof. unfold PTK_PTKCALCNEGOTIATING2, enter. ends. Qed.
Lemma ended_message_3_ie m : ended (message_3_ie a own m).
Proof. unfold message_3_ie, own_ie_octets. ends. Qed.
Lemma ends_kde_add : ends (ieee80211w_kde_add a).
Proof. unfold ieee80211w_kde_add. ends. Qed.
Lemma ends_gtk_to_send : ends (gtk_to_send a).
Proof. unfold gtk_to_send. ends. Qed.
#[local] Hint Resolve ended_message_3_ie ends_kde_add ends_gtk_to_send : ends.
Lemma ends_PTKINITNEGOTIATING : ends (PTK_PTKINITNEGOTIATING a own).
Proof. unfold PTK_PTKINITNEGOTIATING, enter. ends. Qed.
Lemma ends_handshake_completed : ends handshake_completed.
Proof. unfold handshake_completed. ends. Qed.
#[local] Hint Resolve ends_handshake_completed : ends.
Lemma ends_PTKINITDONE : ends (PTK_PTKINITDONE a).
Proof. unfold PTK_PTKINITDONE, enter, cancel_timeout, register_timeout. ends. Qed.
#[local] Hint Resolve ends_INITIALIZE ends_DISCONNECT ends_DISCONNECTED ends_AUTHENTICATION ends_AUTHENTICATION2
  ends_INITPMK ends_INITPSK ends_PTKSTART ends_PTKCALCNEGOTIATING ends_PTKCALCNEGOTIATING2 ends_PTKINITNEGOTIATING
  ends_PTKINITDONE : ends.
Lemma ends_WPA_PTK_Step : ends (WPA_PTK_Step a own).
Proof. unfold WPA_PTK_Step. ends; unfold step_from, wpa_auth_get_eapol; ends. Qed.
Lemma ends_GROUP_IDLE : ends GROUP_IDLE.
Proof. unfold GROUP_IDLE, enter_group. ends. Qed.
Lemma ends_GROUP_REKEYNEGOTIATING : ends (GROUP_REKEYNEGOTIATING a).
Proof. unfold GROUP_REKEYNEGOTIATING, enter_group. ends. Qed.
Lemma ends_GROUP_REKEYESTABLISHED : ends GROUP_REKEYESTABLISHED.
Proof. unfold GROUP_REKEYESTABLISHED, enter_group. ends. Qed.
Lemma ends_GROUP_KEYERROR : ends GROUP_KEYERROR.
Proof. unfold GROUP_KEYERROR, enter_group. ends. Qed.
#[local] Hint Resolve ends_WPA_PTK_Step ends_GROUP_IDLE ends_GROUP_REKEYNEGOTIATING ends_GROUP_REKEYESTABLISHED
  ends_GROUP_KEYERROR : ends.
Lemma ends_WPA_PTK_GROUP_Step : ends (WPA_PTK_GROUP_Step a).
Proof. unfold WPA_PTK_GROUP_Step. ends. Qed.
#[local] Hint Resolve ends_WPA_PTK_GROUP_Step : ends.
Lemma ends_station_steps : ends (station_steps a own).
Proof. unfold station_steps. ends. Qed.

End steps.

(** ** The measure *)

Definition weight (n : Z) (b : bool) : Z := if b then n else 0.

Definition ptk_rank (s : ptk_state) : Z :=
  match s with
  | WPA_PTK_INITIALIZE | WPA_PTK_PTKINITDONE => 0
  | WPA_PTK_DISCONNECTED => 1
  | WPA_PTK_DISCONNECT => 2
  | WPA_PTK_PTKINITNEGOTIATING => 5
  | WPA_PTK_PTKCALCNEGOTIATING2 => 6
  | WPA_PTK_PTKCALCNEGOTIATING => 7
  | WPA_PTK_PTKSTART => 8
  | WPA_PTK_INITPMK | WPA_PTK_INITPSK => 9
  | WPA_PTK_AUTHENTICATION2 => 15
  | WPA_PTK_AUTHENTICATION => 21
  end.

(** The state of the group key handshake, with its counter *)
Definition group_key_rank (s : ptk_group_state) (ctr : Z) : Z :=
  match s with
  | WPA_PTK_GROUP_IDLE => weight 8 (bool_decide (dot11RSNAConfigGroupUpdateCount ≤ ctr))
  | WPA_PTK_GROUP_REKEYNEGOTIATING => 7 + weight 1 (bool_decide (ctr ≤ dot11RSNAConfigGroupUpdateCount))
  | WPA_PTK_GROUP_REKEYESTABLISHED | WPA_PTK_GROUP_KEYERROR => 1
  end.

Definition negotiates_group_key (s : ptk_group_state) : bool :=
  match s with WPA_PTK_GROUP_REKEYNEGOTIATING => true | _ => false end.

(** How many steps a station can cause at most *)
Definition work (m : wpa_state_machine) : Z :=
  ptk_rank (wpa_ptk_state m) + group_key_rank (wpa_ptk_group_state m) (GTimeoutCtr m) +
  weight 5 (Disconnect m) + weight 2 (DeauthenticationRequest m) + weight 22 (AuthenticationRequest m) +
  weight 21 (ReAuthenticationRequest m) + weight 9 (PTKRequest m) + weight 7 (EAPOLKeyReceived m) +
  weight 2 (TimeoutEvt m) + weight 3 (update_snonce m) + weight 3 (PtkGroupInit m) + weight 9 (PInitAKeys m) +
  weight 9 (negb (negotiates_group_key (wpa_ptk_group_state m)) && GUpdateStationKeys m).

(** ... and its group *)
Definition group_work (g : WpaSm.wpa_group) : Z :=
  if GInit g then 0 else
  match wpa_group_state g with
  | WPA_GROUP_FATAL_FAILURE => 0
  | WPA_GROUP_SETKEYSDONE => weight 16 (GTKReKey g)
  | WPA_GROUP_SETKEYS | WPA_GROUP_GTK_INIT => 6 + weight 11 (GTKReKey g)
  end.

Lemma weight_bounds n b : 0 ≤ n → 0 ≤ weight n b ≤ n.
Proof. destruct b; cbn; lia. Qed.

Lemma work_bounds m : 0 ≤ work m ≤ 121.
Proof.
  unfold work.
  assert (0 ≤ ptk_rank (wpa_ptk_state m) ≤ 21) by (destruct (wpa_ptk_state m); cbn; lia).
  assert (0 ≤ group_key_rank (wpa_ptk_group_state m) (GTimeoutCtr m) ≤ 8).
  { destruct (wpa_ptk_group_state m); cbn -[Z.add]; try lia; match goal with |- context [weight ?n ?b] =>
      pose proof (weight_bounds n b ltac:(lia)) end; lia. }
  repeat match goal with |- context [weight ?n ?b] => let H := fresh in
    pose proof (weight_bounds n b ltac:(lia)) as H; generalize dependent (weight n b); intros end.
  lia.
Qed.

Lemma group_work_bounds g : 0 ≤ group_work g ≤ 17.
Proof. unfold group_work. destruct (GInit g), (wpa_group_state g), (GTKReKey g); cbn; lia. Qed.

(** A step: there is less to do when it leads to another turn. *)
Definition down (m m' : wpa_state_machine) : Prop :=
  (sm_changed m' = sm_changed m ∧ work m' ≤ work m) ∨ work m' < work m.

Lemma down_trans m1 m2 m3 : down m1 m2 → down m2 m3 → down m1 m3.
Proof. unfold down. intros [[? ?]|?] [[? ?]|?]; [left; split; [congruence|lia]|right; lia..]. Qed.

Section down.
Context {C : Crypto} {E : Wpa_env} (a : wpa_authenticator).

(** What a step leaves of the fields the measure looks at *)
Definition same_work (m m' : wpa_state_machine) : Prop := work m' = work m ∧ sm_changed m' = sm_changed m.

(** The measure of a station that is written out *)
Ltac work_of m :=
  fields m; unfold work; cbn [setter compose id fst snd entered entered_group deauthed forget starting negotiating completing
    completed calculating initialized idle rekeying rekeying_sent established key_error
    wpa_ptk_state wpa_ptk_group_state Init DeauthenticationRequest AuthenticationRequest ReAuthenticationRequest
    Disconnect GTimeoutCtr TimeoutEvt EAPOLKeyReceived GUpdateStationKeys PInitAKeys PTKRequest PtkGroupInit
    update_snonce sm_changed] in *.

Lemma sent_work m m' : sent m m' → same_work m m'.
Proof. intros (? & ? & ? & ->). unfold same_work; work_of m. by split. Qed.

Lemma pmk_put_work key len m m' : pmk_put key len m m' → same_work m m'.
Proof. intros (? & _ & _ & _ & ->). unfold same_work; work_of m. by split. Qed.

Lemma initpmk_down m m' : wpa_ptk_state m = WPA_PTK_AUTHENTICATION2 → initpmk m m' → work m' < work m.
Proof.
  intros Hs [->|(key & len & Hp & _)].
  - work_of m. subst. cbn [ptk_rank]. destruct Disconnect0; cbn [weight]; lia.
  - apply pmk_put_work in Hp as [-> _]. work_of m. subst. cbn [ptk_rank]. lia.
Qed.

(** Flags that are set and a state that is known give their weight. *)
Ltac weigh :=
  cbn [weight andb orb negb ptk_rank group_key_rank negotiates_group_key] in *; rewrite ?andb_false_r; cbn [weight];
  repeat match goal with |- context [weight ?n ?b] => let H := fresh in
    pose proof (weight_bounds n b ltac:(lia)) as H; generalize dependent (weight n b); intros end;
  try lia.

Lemma ptk_rank_nonneg s : 0 ≤ ptk_rank s.
Proof. destruct s; cbn; lia. Qed.

Lemma initpsk_down m m' : wpa_ptk_state m = WPA_PTK_AUTHENTICATION2 → initpsk m m' → work m' < work m.
Proof.
  intros Hs [i Hi]. cbn zeta in Hi.
  assert (same_work (entered WPA_PTK_INITPSK m <| req_replay_counter_used := false |>) m') as [-> _].
  { destruct (env_psks i _); [by subst|]. by eapply pmk_put_work. }
  clear Hi. work_of m. subst. weigh.
Qed.

Lemma starts_down m :
  requested m = false → starts m → work (starting m) < work m.
Proof.
  intros Hr Hs. unfold starts in Hs. work_of m.
  destruct Hs as [->|[[-> _]|[(-> & _ & ->)|(-> & _ & _ & ->)]]]; weigh.
Qed.

Lemma calculates_down m m' : calculates m → calculated a m m' → work m' < work m.
Proof.
  intros Hc Hcalc. assert (work m' = work (calculating m)) as ->.
  { destruct Hcalc as [->|(? & ? & ? & ? & _ & _ & _ & _ & ->)]; [done|]. work_of m. done. }
  unfold calculates, pairwise_frame in Hc. clear Hcalc. work_of m.
  destruct Hc as [[-> Hf]|[(-> & _ & Hf)|[-> ->]]]; [|  |weigh].
  - destruct EAPOLKeyReceived0; [weigh|done].
  - destruct EAPOLKeyReceived0; [weigh|done].
Qed.

Lemma deauthed_work m : work (deauthed m) = work m - weight 2 (DeauthenticationRequest m) + 2.
Proof. work_of m. cbn [weight]. lia. Qed.
Lemma disconnect_work m : work (m <| Disconnect := true |>) ≤ work m + 5.
Proof. work_of m. destruct Disconnect0; cbn [weight]; lia. Qed.
Lemma clear_work m : work (m <| sm_changed := false |>) = work m.
Proof. work_of m. done. Qed.
Lemma stepping_work m b : work (m <| in_step_loop := b |>) = work m.
Proof. work_of m. done. Qed.
Lemma promised_work m : work m ≤ work (m <| GUpdateStationKeys := true |>) ≤ work m + 9.
Proof.
  work_of m. destruct (negotiates_group_key _), GUpdateStationKeys0; cbn [weight negb andb]; lia.
Qed.
Lemma completed_work m : work (completed m) ≤ work m + 9.
Proof. work_of m. destruct (decide _), PInitAKeys0; cbn [weight]; lia. Qed.
Lemma completing_work m : wpa_ptk_state m = WPA_PTK_PTKINITNEGOTIATING → EAPOLKeyReceived m = true →
  work (completing m) = work m - 12 ∧ work (completing m <| pairwise_set := true |>) = work (completing m).
Proof. intros Hs Hf. work_of m. subst. cbn [weight ptk_rank]. lia. Qed.

Lemma completes_down m m' : completes m → initdone m m' → work m' < work m.
Proof.
  intros (_ & Hs & Hu & Hf & _) Hd. unfold pairwise_frame in Hf. destruct (EAPOLKeyReceived m) eqn:Hr; [|done].
  destruct (completing_work m Hs Hr) as [H1 H2]. destruct Hd as [->|[->| ->]].
  - rewrite deauthed_work. pose proof (weight_bounds 2 (DeauthenticationRequest (completing m)) ltac:(lia)). lia.
  - pose proof (completed_work (completing m <| pairwise_set := true |>)). lia.
  - pose proof (completed_work (completing m)). lia.
Qed.

(** A step of the first machine *)
Lemma ptk_step_down m m' : Init m = false → ptk_step a m m' → down m m'.
Proof.
  intros Hi Hs. destruct Hs as [[?|[Hr Hs]]|_ Hs|_ Hd Hs|_ Hd Hda Hs|i ok _ Hd Hda Hau Hs|m' Hr Hs Hp|m' Hr Hs Hp|
    m' _ Hd Hda Hau Hre Hs Hp|m' Hr Hs Hp|Hr Hs Hv|m' Hr Hs Hp|m' Hs Hp|Hr Hs].
  - congruence.
  - right. pose proof (ptk_rank_nonneg (wpa_ptk_state m)).
    work_of m. subst. destruct (decide _); weigh.
  - right. pose proof (ptk_rank_nonneg (wpa_ptk_state m)). unfold gives_up in Hs. clear Hi. work_of m.
    destruct Hs as [->|[_ [->|[[-> _]|[[->| ->] _]]]]]; destruct DeauthenticationRequest0; weigh.
  - right. pose proof (ptk_rank_nonneg (wpa_ptk_state m)). work_of m. subst.
    destruct Hs as [->|[_ ->]]; weigh.
  - right. pose proof (ptk_rank_nonneg (wpa_ptk_state m)). work_of m. subst. weigh.
  - right. pose proof (ptk_rank_nonneg (wpa_ptk_state m)). work_of m. subst.
    destruct Hs as [->|[_ ->]]; destruct ok; weigh.
  - right. by apply initpmk_down.
  - right. by apply initpsk_down.
  - right. destruct (sent_work _ _ Hp) as [-> _]. destruct Hs as [Hs|[Hr Hs]]; [|by apply starts_down].
    pose proof (ptk_rank_nonneg (wpa_ptk_state m)). clear Hp. work_of m. subst. weigh.
  - right. by eapply calculates_down.
  - right. work_of m. subst. weigh.
  - right. destruct (sent_work _ _ Hp) as [-> _]. clear Hp. work_of m.
    destruct Hs as [->|(-> & -> & ->)]; weigh.
  - right. by eapply completes_down.
  - left. split; [done|lia].
Qed.

Lemma group_key_rank_nonneg s ctr : 0 ≤ group_key_rank s ctr.
Proof. destruct s; cbn; try lia; case_bool_decide; cbn; lia. Qed.

(** Sending the group key, with the counter at its end or not *)
Lemma rekeyed_down m m' :
  (wpa_ptk_group_state m = WPA_PTK_GROUP_IDLE ∧ wants_group_key m = true) ∨
    (wpa_ptk_group_state m = WPA_PTK_GROUP_REKEYNEGOTIATING ∧ answered m = false ∧
     GTimeoutCtr m ≤ dot11RSNAConfigGroupUpdateCount ∧ TimeoutEvt m = true) →
  rekeyed m m' → work m' < work m.
Proof.
  intros Hs [[Hc ->]|[Hc Hsent]].
  - work_of m. destruct Hs as [[-> _]|(-> & _ & Hn & ->)]; cbn [group_key_rank negotiates_group_key];
      rewrite (bool_decide_eq_false_2 (GTimeoutCtr0 + 1 ≤ _)) by lia; rewrite bool_decide_eq_true_2 by lia; weigh.
  - destruct (sent_work _ _ Hsent) as [-> _]. clear Hsent. unfold wants_group_key in Hs. work_of m. cbn [group_key_rank negotiates_group_key].
    rewrite (bool_decide_eq_true_2 (GTimeoutCtr0 + 1 ≤ _)) by lia.
    destruct Hs as [[-> Hw]|(-> & _ & Hn & ->)]; cbn [group_key_rank negotiates_group_key].
    + destruct GUpdateStationKeys0.
      * destruct (decide _), PInitAKeys0; weigh.
      * apply andb_prop in Hw as [Hw ->]. apply bool_decide_eq_true in Hw. rewrite decide_True by done. weigh.
    + rewrite (bool_decide_eq_true_2 (GTimeoutCtr0 ≤ _)) by lia. destruct (decide _), PInitAKeys0; weigh.
Qed.

(** A step of the second machine *)
Lemma group_key_step_down m m' : Init m = false → group_key_step m m' → down m m'.
Proof.
  intros Hi Hs. pose proof (group_key_rank_nonneg (wpa_ptk_group_state m) (GTimeoutCtr m)) as Hn.
  destruct Hs as [Hg|m' Hg Hs Hr|Hg Hs Ha|Hg Hs Ha Hc|Hg Hs|Hg Hs].
  - right. rewrite Hi in Hg. cbn [orb] in Hg. work_of m. subst. change (group_key_rank WPA_PTK_GROUP_IDLE 0) with 0.
    destruct wpa_ptk_group_state0; cbn [group_key_rank negotiates_group_key] in *; weigh; destruct GUpdateStationKeys0; weigh.
  - right. by eapply rekeyed_down.
  - right. unfold answered in Ha. work_of m. subst. destruct EAPOLKeyReceived0; [weigh|done].
  - right. clear Hn. work_of m. subst. cbn [group_key_rank]. rewrite (bool_decide_eq_false_2 (GTimeoutCtr0 ≤ _)) by lia.
    destruct Disconnect0; weigh.
  - right. clear Hn. work_of m. change (group_key_rank WPA_PTK_GROUP_IDLE 0) with 0.
    destruct Hs as [->| ->]; weigh; destruct GUpdateStationKeys0; weigh.
  - left. split; [done|lia].
Qed.

(** The machines of a station that is initialized come to rest. *)
Lemma initialize_down m : Init m = true →
  work (idle (initialized m) <| PtkGroupInit := false |>) ≤ work m ∧
  sm_changed (idle (initialized m) <| PtkGroupInit := false |>) = false ∧ work (initialized m) ≤ work m ∧
  sm_changed (initialized m) = false ∧ Init (initialized m) = true.
Proof.
  intros Hi. pose proof (group_key_rank_nonneg (wpa_ptk_group_state m) (GTimeoutCtr m)) as Hn.
  pose proof (ptk_rank_nonneg (wpa_ptk_state m)) as Hn'.
  work_of m. subst. cbn [ptk_rank andb]. change (group_key_rank WPA_PTK_GROUP_IDLE 0) with 0.
  split_and!; try done; destruct (decide _), PInitAKeys0; weigh.
Qed.

Lemma requested_init m : Init m = true → requested m = true.
Proof. unfold requested. by intros ->. Qed.

Ltac not_init Hi :=
  match goal with
  | H : completes _ |- _ => destruct H as [H _]; not_init Hi
  | H : requested _ = false |- _ => rewrite (requested_init _ Hi) in H; discriminate H
  | H : Init _ = false |- _ => rewrite Hi in H; discriminate H
  | H : _ || _ = false |- _ => rewrite Hi in H; discriminate H
  end.

Lemma ptk_step_init m m' : Init m = true → ptk_step a m m' → m' = initialized m.
Proof. intros Hi H. destruct H; [reflexivity|exfalso; not_init Hi..]. Qed.

Lemma group_key_step_init m m' : Init m = true → group_key_step m m' → m' = idle m <| PtkGroupInit := false |>.
Proof. intros Hi H. destruct H; [reflexivity|exfalso; not_init Hi..]. Qed.

(** What no step changes *)
Definition steady (m : wpa_state_machine) : bool * Z * bool * bool := (Init m, group m, in_step_loop m, pending_deinit m).

Lemma sent_steady m m' : sent m m' → steady m' = steady m.
Proof. intros (? & ? & ? & ->). fields m. reflexivity. Qed.
Lemma pmk_put_steady key len m m' : pmk_put key len m m' → steady m' = steady m.
Proof. intros (? & _ & _ & _ & ->). fields m. reflexivity. Qed.

Lemma ptk_step_steady m m' : ptk_step a m m' → steady m' = steady m.
Proof.
  intros Hs. destruct Hs as [_|_ _|_ _ _|_ _ _ _|i ok _ _ _ _ _|m' _ _ Hp|m' _ _ [i Hp]|
    m' _ _ _ _ _ _ Hp|m' _ _ Hp|_ _ _|m' _ _ Hp|m' _ Hp|_ _]; try (fields m; reflexivity).
  - destruct Hp as [->|(key & len & Hp & _)]; [fields m; reflexivity|]. rewrite (pmk_put_steady _ _ _ _ Hp). fields m. reflexivity.
  - cbn zeta in Hp. destruct (env_psks i _); [subst; fields m; reflexivity|].
    rewrite (pmk_put_steady _ _ _ _ Hp). fields m. reflexivity.
  - rewrite (sent_steady _ _ Hp). fields m. reflexivity.
  - destruct Hp as [->|(? & ? & ? & ? & _ & _ & _ & _ & ->)]; fields m; reflexivity.
  - rewrite (sent_steady _ _ Hp). fields m. reflexivity.
  - destruct Hp as [->|[->| ->]]; fields m; reflexivity.
Qed.

Lemma group_key_step_steady m m' : group_key_step m m' → steady m' = steady m.
Proof.
  intros Hs. destruct Hs as [_|m' _ _ Hr|_ _ _|_ _ _ _|_ _|_ _]; try (fields m; reflexivity).
  destruct Hr as [[_ ->]|[_ Hr]]; [fields m; reflexivity|]. rewrite (sent_steady _ _ Hr). fields m. reflexivity.
Qed.

(** A turn of a station: both machines *)
Lemma turn_down m m1 m2 : sm_changed m = false → ptk_step a m m1 → group_key_step m1 m2 → down m m2.
Proof.
  intros Hc H1 H2. destruct (Init m) eqn:Hi.
  - destruct (initialize_down m Hi) as (Hw & Hc2 & _ & _ & Hi1).
    apply (ptk_step_init _ _ Hi) in H1 as ->. apply (group_key_step_init _ _ Hi1) in H2 as ->.
    left. split; [congruence|done].
  - pose proof (ptk_step_down m m1 Hi H1) as Hd1. eapply down_trans; [exact Hd1|].
    apply group_key_step_down; [|done]. apply ptk_step_steady in H1. unfold steady in H1. congruence.
Qed.

End down.

(** ** The group whose mark the loop looks at *)

(** Whether the first group changed *)
Definition first_changed (w : world) : bool := from_option g_changed false (head (groups w)).

Lemma first_found w f w' : first_ptr w = Ok (f, w') → w' = w ∧ ∃ h, head (groups w) = Some h ∧ g_ptr h = f.
Proof.
  unfold first_ptr, first_group. destruct (groups w) as [|h l]; [done|]. cbn. intros [= <- <-].
  split; [done|]. by exists h.
Qed.

Lemma find_first w h : head (groups w) = Some h → find_group (g_ptr h) w = Ok h.
Proof. unfold find_group. destruct (groups w) as [|h' l]; [done|]. intros [= ->]. cbn. by rewrite bool_decide_true. Qed.

Lemma first_changed_put g g0 w :
  find_group (g_ptr g) w = Ok g0 → first_changed (put_group g w) = first_changed w ∨
  first_changed (put_group g w) = g_changed g ∧ first_changed w = g_changed g0.
Proof.
  unfold first_changed, put_group, find_group. cbn [groups setter]. destruct (groups w) as [|h l]; [by left|].
  cbn [map head from_option option_map List.find]. destruct (decide (g_ptr h = g_ptr g)) as [Hg|Hg]; [|by left].
  rewrite bool_decide_true by done. intros [= ->]. by right.
Qed.

(** ** What a station sees of what others do *)

(** The station at [r] is stepping, as one of the group at [g]. *)
Record sees (r g : Z) (w : world) (m : wpa_state_machine) (G : WpaSm.wpa_group) : Prop := {
  sees_station : find_station r w = Ok m;
  sees_group : find_group g w = Ok G;
  sees_of : group m = g;
  sees_stepping : in_step_loop m = true }.

(** The station up to [k] is as it was, or is to be disconnected. *)
Definition lower (k : wpa_state_machine → wpa_state_machine) (r g : Z) (w w' : world) : Prop := ∀ m G,
  sees r g w m G → ∃ m' G', sees r g w' m' G' ∧
    ((k m' = k m ∧ group_work G' ≤ group_work G ∧
      (first_changed w' = true → first_changed w = true ∨ group_work G' < group_work G)) ∨
     (k m' = (k m) <| Disconnect := true |> ∧ group_work G' + 6 ≤ group_work G)).

Lemma lower_refl k r g w : lower k r g w w.
Proof. intros m G Hs. exists m, G. split; [done|left]. split_and!; auto; lia. Qed.

Lemma lower_trans k r g w1 w2 w3 : lower k r g w1 w2 → lower k r g w2 w3 → lower k r g w1 w3.
Proof.
  intros H1 H2 m G Hs. destruct (H1 m G Hs) as (m2 & G2 & Hs2 & Hc1). destruct (H2 m2 G2 Hs2) as (m3 & G3 & Hs3 & Hc2).
  exists m3, G3. split; [done|].
  destruct Hc1 as [(E1 & L1 & F1)|(E1 & L1)], Hc2 as [(E2 & L2 & F2)|(E2 & L2)]; [left|right..].
  - split; [congruence|]. split; [lia|]. intros Hf. destruct (F2 Hf) as [Hf2|]; [|right; lia].
    destruct (F1 Hf2); [by left|right; lia].
  - split; [|lia]. by rewrite E2, E1.
  - split; [|lia]. by rewrite E2, E1.
  - split; [|lia]. by rewrite E2, E1.
Qed.

(** The group at [g] has no key to renew. *)
Definition settled_group (g : Z) (w : world) : Prop := ∀ G, find_group g w = Ok G → GTKReKey G = false.
(** No station is to be removed. *)
Definition alive (w : world) : Prop := ∀ q m, find_station q w = Ok m → pending_deinit m = false.

(** A group that marks a change has less to do than before. *)
Definition group_down (g : Z) (w w' : world) : Prop := ∀ G, find_group g w = Ok G → ∃ G', find_group g w' = Ok G' ∧
  group_work G' ≤ group_work G ∧ (g_changed G' = true → g_changed G = true ∨ group_work G' < group_work G).

Lemma group_down_refl g w : group_down g w w.
Proof. intros G HG. exists G. split; [done|]. split; [lia|]. by left. Qed.

Lemma group_down_trans g w1 w2 w3 : group_down g w1 w2 → group_down g w2 w3 → group_down g w1 w3.
Proof.
  intros H1 H2 G HG. destruct (H1 G HG) as (G2 & HG2 & L2 & C2). destruct (H2 G2 HG2) as (G3 & HG3 & L3 & C3).
  exists G3. split; [done|]. split; [lia|]. intros Hc. destruct (C3 Hc) as [Hc2|]; [|right; lia].
  destruct (C2 Hc2); [by left|right; lia].
Qed.

(** What others leave: a settled group settled, the group with no more to do, no station to be removed, and the
    stations in [X] with no more to do *)
Record passes (k : wpa_state_machine → wpa_state_machine) (X : Z → Prop) (g : Z) (w w' : world) : Prop := {
  pa_settled : settled_group g w → settled_group g w';
  pa_group : group_down g w w';
  pa_alive : alive w → alive w';
  pa_lower : ∀ r, X r → lower k r g w w' }.

Lemma passes_refl k X g w : passes k X g w w.
Proof. split; [done|apply group_down_refl|done|]. intros r _. apply lower_refl. Qed.

Lemma passes_trans k X g w1 w2 w3 : passes k X g w1 w2 → passes k X g w2 w3 → passes k X g w1 w3.
Proof.
  intros [S1 D1 A1 L1] [S2 D2 A2 L2]. split; [auto|by eapply group_down_trans|auto|]. intros r Hr. eapply lower_trans; [by apply L1|by apply L2].
Qed.

Lemma passes_weaken k (X Y : Z → Prop) g w w' : (∀ r, Y r → X r) → passes k X g w w' → passes k Y g w w'.
Proof. intros HXY [? ? ? L]. split; [done..|]. intros r Hr. by apply L, HXY. Qed.

(** A station that still has to be given the new key *)
Definition promised (m : wpa_state_machine) : wpa_state_machine := m <| GUpdateStationKeys := true |>.

Lemma passes_promised X g w w' : passes id X g w w' → passes promised X g w w'.
Proof.
  intros [? ? ? L]. split; [done..|]. intros r Hr m G Hs. destruct (L r Hr m G Hs) as (m' & G' & Hs' & Hc).
  exists m', G'. split; [done|]. cbn [id] in Hc. destruct Hc as [[-> Hc]|[-> Hc]]; [left|right]; (split; [done|exact Hc]).
Qed.

(** A group that differs in what does not matter here *)
Definition same_group (G G' : WpaSm.wpa_group) : Prop :=
  g_ptr G' = g_ptr G ∧ group_work G' = group_work G ∧ g_changed G' = g_changed G ∧ GTKReKey G' = GTKReKey G.

Lemma rest_same_group G G' : g_rest G' = g_rest G → same_group G G'.
Proof.
  intros H. unfold same_group, group_work.
  assert (g_ptr G' = g_ptr G) as -> by (apply (f_equal g_ptr) in H; exact H).
  assert (GInit G' = GInit G) as -> by (apply (f_equal GInit) in H; exact H).
  assert (wpa_group_state G' = wpa_group_state G) as -> by (apply (f_equal wpa_group_state) in H; exact H).
  assert (GTKReKey G' = GTKReKey G) as -> by (apply (f_equal GTKReKey) in H; exact H).
  assert (g_changed G' = g_changed G) as -> by (apply (f_equal g_changed) in H; exact H). done.
Qed.

Lemma core_same_group G G' : g_core G' = g_core G → same_group G G'.
Proof. intros H. apply rest_same_group. apply (f_equal (λ x, x <| GKeyDoneStations := 0 |>)) in H. exact H. Qed.

Lemma same_find_station w w' q : stations w' = stations w → find_station q w' = find_station q w.
Proof. unfold find_station. by intros ->. Qed.
Lemma same_find_group w w' q : groups w' = groups w → find_group q w' = find_group q w.
Proof. unfold find_group. by intros ->. Qed.
Lemma same_first w w' : groups w' = groups w → first_changed w' = first_changed w.
Proof. unfold first_changed. by intros ->. Qed.

Lemma passes_same_parts k X g w w' : same_parts w w' → passes k X g w w'.
Proof.
  intros [Hs Hg]. split.
  - unfold settled_group. rewrite (same_find_group w w') by done. auto.
  - intros G HG. destruct (group_down_refl g w G HG) as (G' & HG' & H). exists G'.
    by rewrite (same_find_group w w').
  - unfold alive. intros Ha q. rewrite (same_find_station w w') by done. apply Ha.
  - intros r _ m G [H1 H2 H3 H4]. exists m, G. split.
    + split; [by rewrite (same_find_station w w') by done|by rewrite (same_find_group w w') by done|done..].
    + left. rewrite (same_first w w') by done. split_and!; auto; lia.
Qed.

Lemma passes_put_group k X g p G G' w :
  find_group p w = Ok G → same_group G G' → passes k X g w (put_group G' w).
Proof.
  intros Hf (Hp & Hw & Hc & Hr). pose proof (find_group_ptr _ _ _ Hf) as Hpt. rewrite Hpt in Hp.
  assert (first_changed (put_group G' w) = first_changed w) as Hfc.
  { rewrite <- Hp in Hf. destruct (first_changed_put _ _ _ Hf) as [?|[-> ->]]; [done|exact Hc]. }
  split; [| |done|].
  - intros Hs G0 Hf0. destruct (decide (p = g)) as [<-|Hn].
    + rewrite (find_put_group p G' G) in Hf0 by done. injection Hf0 as <-. rewrite Hr. by apply Hs.
    + rewrite find_put_other_group in Hf0 by congruence. by apply Hs.
  - intros G0 HG0. destruct (decide (p = g)) as [<-|Hn].
    + assert (G0 = G) as -> by congruence. exists G'. split; [by apply (find_put_group p G' G)|]. rewrite Hw, Hc.
      split; [lia|]. by left.
    + destruct (group_down_refl g w G0 HG0) as (G1 & HG1 & Hd). exists G1. by rewrite find_put_other_group by congruence.
  - intros r _ m G0 [H1 H2 H3 H4]. destruct (decide (p = g)) as [<-|Hn].
    + assert (G0 = G) as -> by congruence. exists m, G'. split; [split; [exact H1|by apply (find_put_group p G' G)|done..]|left].
      rewrite Hfc, Hw. split_and!; auto; lia.
    + exists m, G0. split; [split; [exact H1|by rewrite find_put_other_group by congruence|done..]|left].
      rewrite Hfc. split_and!; auto; lia.
Qed.

(** An operation on the station at [p] that keeps [k] of it *)
Lemma passes_put_station k (X : Z → Prop) g p m m' w :
  find_station p w = Ok m → sm_ptr m' = p → pending_deinit m' = pending_deinit m →
  (X p → k m' = k m ∧ group m' = group m ∧ in_step_loop m' = in_step_loop m) →
  passes k X g w (put_station m' w).
Proof.
  intros Hf Hp Hd Hk. split; [done|exact (group_down_refl g w)| |].
  - intros Ha q m0 Hq. destruct (decide (p = q)) as [<-|Hn].
    + rewrite (find_put_station p m' m) in Hq by done. injection Hq as <-. rewrite Hd. by apply (Ha p).
    + rewrite find_put_other in Hq by congruence. by apply (Ha q).
  - intros r Hr m0 G [H1 H2 H3 H4]. destruct (decide (p = r)) as [<-|Hn].
    + assert (m0 = m) as -> by congruence. destruct (Hk Hr) as (K1 & K2 & K3). exists m', G. split.
      * split; [by apply (find_put_station p m' m)|exact H2|congruence..].
      * left. split_and!; auto; lia.
    + exists m0, G. split; [|left; split_and!; auto; lia].
      split; [by rewrite find_put_other by congruence|exact H2|done..].
Qed.

(** ** Operations of the authenticator *)

(** From [P] the operation ends, in a state of [Q] if it is defined. *)
Definition leads {A} (P : world → Prop) (m : W A) (Q : A → world → Prop) : Prop :=
  ∀ w, P w → ended (m w) ∧ ∀ x w', m w = Ok (x, w') → Q x w'.

Lemma leads_bind {A B} P (m : W A) R (f : A → W B) Q :
  leads P m R → (∀ x, leads (R x) (f x) Q) → leads P (m ≫= f) Q.
Proof.
  intros Hm Hf w Hp. destruct (Hm w Hp) as [He Hr]. split.
  - unfold ended, mbind, sm_bind. cbn. destruct (m w) as [[x w1]| |] eqn:Hmw; [|done|by destruct He].
    by destruct (Hf x w1 (Hr _ _ eq_refl)).
  - intros y w' H. apply bind_inv in H as (x & w1 & H1 & H2). by apply (Hf x w1 (Hr _ _ H1)).
Qed.

Lemma bind_ok {A B} (m : W A) (f : A → W B) w x w' : m w = Ok (x, w') → (m ≫= f) w = f x w'.
Proof. intros H. unfold mbind, sm_bind. by rewrite H. Qed.
Lemma bind_same {A B} (m m' : W A) (f : A → W B) w : m w = m' w → (m ≫= f) w = (m' ≫= f) w.
Proof. intros H. unfold mbind, sm_bind. by rewrite H. Qed.
Lemma bind_undef {A B} (m : W A) (f : A → W B) w k : m w = Undef k → (m ≫= f) w = Undef k.
Proof. intros H. unfold mbind, sm_bind. by rewrite H. Qed.

Lemma leads_intro {A} (P : world → Prop) (m : W A) Q :
  ends m → (∀ w x w', P w → m w = Ok (x, w') → Q x w') → leads P m Q.
Proof. intros He Hq w Hp. split; [apply He|eauto]. Qed.

Lemma leads_ret {A} (P : A → world → Prop) (x : A) : leads (P x) (mret x) P.
Proof. apply leads_intro; [apply ends_ret|]. intros w y w' Hp H. by apply ret_inv in H as [-> ->]. Qed.

Lemma leads_weaken {A} (P P' : world → Prop) (m : W A) (Q Q' : A → world → Prop) :
  leads P' m Q' → (∀ w, P w → P' w) → (∀ x w, Q' x w → Q x w) → leads P m Q.
Proof. intros H HP HQ w Hp. destruct (H w (HP w Hp)). split; eauto. Qed.

Lemma ended_find_station p w : ended (find_station p w).
Proof. unfold find_station. by destruct (List.find _ _). Qed.
Lemma ended_find_group p w : ended (find_group p w).
Proof. unfold find_group. by destruct (List.find _ _). Qed.
#[export] Hint Resolve ended_find_station ended_find_group : ends.

Lemma ends_s_get {A} p (f : wpa_state_machine → A) : ends (s_get p f).
Proof. intros w. unfold s_get. ends. Qed.
Lemma ends_s_upd p f : ends (s_upd p f).
Proof. intros w. unfold s_upd. ends. Qed.
Lemma ends_gr_get {A} p (f : WpaSm.wpa_group → A) : ends (gr_get p f).
Proof. intros w. unfold gr_get. ends. Qed.
Lemma ends_gr_upd p f : ends (gr_upd p f).
Proof. intros w. unfold gr_upd. ends. Qed.
Lemma ends_first_ptr : ends first_ptr.
Proof. intros w. unfold first_ptr, first_group. destruct (groups w); ends. Qed.
Lemma ends_at_group {A} p (m : wpa_authenticator → S_M grp A) : (∀ a, ends (m a)) → ends (at_group p m).
Proof. intros Hm w. unfold at_group. ends. apply Hm. Qed.
Lemma ends_at_station {A} p (m : wpa_authenticator → own_ie → S_M sta A) : (∀ a o, ends (m a o)) → ends (at_station p m).
Proof. intros Hm w. unfold at_station. ends. apply Hm. Qed.
#[export] Hint Resolve ends_s_get ends_s_upd ends_gr_get ends_gr_upd ends_first_ptr : ends.

(** An operation on the keys of a group *)
Lemma at_group_passes {A} k X g p (op : wpa_authenticator → S_M grp A) w x w' :
  (∀ a G n o y gr, op a (mk_grp G n o) = Ok (y, gr) → gran 0 G o gr) →
  at_group p op w = Ok (x, w') → passes k X g w w'.
Proof.
  intros Hop H. apply at_group_inv in H as (G & gr & Hg & Hr & Hs). apply Hop in Hr as [Hc _].
  eapply passes_trans; [|by apply passes_same_parts]. by apply (passes_put_group k X g p G), core_same_group.
Qed.

(** ** The machine of a group *)

Lemma passes_transition k X g G G' w :
  find_group g w = Ok G → g_ptr G' = g → (GTKReKey G = false → GTKReKey G' = false) → group_work G' < group_work G →
  passes k X g w (put_group G' w).
Proof.
  intros Hf Hp Hr Hw. split; [| |done|].
  - intros Hs G0 Hf0. rewrite (find_put_group g G' G) in Hf0 by done. injection Hf0 as <-. by apply Hr, Hs.
  - intros G0 HG0. assert (G0 = G) as -> by congruence. exists G'. split; [by apply (find_put_group g G' G)|].
    split; [lia|]. by right.
  - intros r _ m G0 [H1 H2 H3 H4]. assert (G0 = G) as -> by congruence.
    exists m, G'. split; [split; [exact H1|by apply (find_put_group g G' G)|done..]|left].
    split_and!; [done|lia|]. intros _. by right.
Qed.

(** The station at [q] is as it was, or is to be disconnected. *)
Definition disconnected_at (w w' : world) (q : Z) : Prop :=
  find_station q w' = find_station q w ∨
  ∃ m, find_station q w = Ok m ∧ find_station q w' = Ok (m <| Disconnect := true |>).

Lemma disconnect_cb_all g l w x w' :
  for_each (wpa_group_disconnect_cb g) l w = Ok (x, w') → groups w' = groups w ∧ ∀ q, disconnected_at w w' q.
Proof.
  revert w. induction l as [|p l IH]; intros w H; cbn [for_each] in H.
  { apply ret_inv in H as [_ ->]. split; [done|]. by left. }
  apply bind_inv in H as (? & w1 & H1 & H). apply s_upd_inv in H1 as (mp & Hmp & ->).
  destruct (IH _ H) as [Hg Hst]. split; [exact Hg|]. intros q.
  pose proof (find_station_ptr _ _ _ Hmp) as Hp. unfold disconnected_at in *. specialize (Hst q).
  destruct (decide (p = q)) as [<-|Hn].
  - rewrite (find_put_station p _ mp) in Hst by (done || by destruct (decide _)). rewrite Hmp.
    destruct (decide (group mp = g)); [|destruct Hst as [?|(m & Hm & ?)]; [by left|right; exists m; by split]].
    right. exists mp. split; [done|]. destruct Hst as [->|(m & Hm & ->)]; [done|]. by injection Hm as <-.
  - rewrite find_put_other in Hst; [done|]. destruct (decide _); cbn; congruence.
Qed.

(** All stations of the group are to be disconnected: [w0] is the state before the
    transition that fails. *)
Lemma fatal_passes X g G0 G w0 w x w' :
  find_group g w0 = Ok G0 → 6 ≤ group_work G0 → stations w = stations w0 →
  find_group g w = Ok G → GInit G = false → (GTKReKey G0 = false → GTKReKey G = false) →
  wpa_group_fatal_failure g w = Ok (x, w') → passes id X g w0 w'.
Proof.
  intros Hf0 Hw0 Hst Hf Hi Hr H. unfold wpa_group_fatal_failure, for_each_sta in H.
  apply bind_inv in H as (? & w1 & H1 & H). apply gr_upd_inv in H1 as (G1 & Hf1 & ->).
  assert (G1 = G) as -> by congruence. apply bind_inv in H as (l & w2 & H2 & H).
  injection H2 as _ <-. apply disconnect_cb_all in H as [Hg Hall].
  set (G' := G <| g_changed := true |> <| wpa_group_state := WPA_GROUP_FATAL_FAILURE |>) in *.
  pose proof (find_group_ptr _ _ _ Hf) as Hp.
  assert (find_group g w' = Ok G') as Hf'.
  { rewrite (same_find_group _ _ _ Hg). by apply (find_put_group g G' G). }
  assert (group_work G' = 0) as Hw'.
  { unfold group_work. change (GInit G') with (GInit G). by rewrite Hi. }
  assert (∀ q, disconnected_at w0 w' q) as Hall'.
  { intros q. unfold disconnected_at. rewrite <- (same_find_station w0 w q) by done. exact (Hall q). }
  split.
  - intros Hs G2 Hf2. assert (G2 = G') as -> by congruence. change (GTKReKey G = false). by apply Hr, Hs.
  - intros G2 HG2. assert (G2 = G0) as -> by congruence. exists G'. split; [done|]. rewrite Hw'. split; [lia|]. right. lia.
  - intros Ha q m' Hq. destruct (Hall' q) as [E|(m & Hm & E)]; rewrite E in Hq.
    + exact (Ha q m' Hq).
    + injection Hq as <-. exact (Ha q m Hm).
  - intros r _ m G2 [H1 H2 H3 H4]. assert (G2 = G0) as -> by congruence.
    destruct (Hall' r) as [E|(m1 & Hm1 & E)].
    + rewrite H1 in E. exists m, G'. split; [by split|left]. rewrite Hw'. split_and!; [done|lia|]. right. lia.
    + assert (m1 = m) as -> by congruence. exists (m <| Disconnect := true |>), G'. split; [by split|right].
      rewrite Hw'. split; [done|lia].
Qed.

Lemma ends_for_each cb l : (∀ p, ends (cb p)) → ends (for_each cb l).
Proof. intros Hcb. induction l; cbn [for_each]; ends. Qed.

Section group_machine.
Context {C : Crypto} {E : Wpa_env}.

Lemma ends_config g : ends (at_group g wpa_group_config_group_keys).
Proof. apply ends_at_group. intros a. apply ends_config_keys. Qed.
Lemma ends_update g : ends (at_group g wpa_gtk_update).
Proof. apply ends_at_group. intros a. apply ends_gtk_update. Qed.
Lemma ends_fatal g : ends (wpa_group_fatal_failure g).
Proof.
  unfold wpa_group_fatal_failure, for_each_sta. apply ends_bind; [ends|]. intros _. apply ends_bind; [ends|].
  intros l. apply ends_for_each. intros p. unfold wpa_group_disconnect_cb. ends.
Qed.
#[local] Hint Resolve ends_config ends_update ends_fatal : ends.
Lemma ends_setkeysdone g : ends (wpa_group_setkeysdone g).
Proof. unfold wpa_group_setkeysdone. ends. Qed.
Lemma ends_gtk_init g : ends (wpa_group_gtk_init g).
Proof. unfold wpa_group_gtk_init. ends. Qed.

Lemma config_passes k X g p w x w' : at_group p wpa_group_config_group_keys w = Ok (x, w') → passes k X g w w'.
Proof. apply at_group_passes. intros a G n o y gr. apply config_keys_run. Qed.
Lemma update_passes k X g p w x w' : at_group p wpa_gtk_update w = Ok (x, w') → passes k X g w w'.
Proof. apply at_group_passes. intros a G n o y gr. apply gtk_update_run. Qed.

(** The keys are installed, or all stations are to be disconnected. *)
Lemma setkeysdone_passes X g G w x w' :
  find_group g w = Ok G → GInit G = false → wpa_group_state G = WPA_GROUP_GTK_INIT ∨ wpa_group_state G = WPA_GROUP_SETKEYS →
  wpa_group_setkeysdone g w = Ok (x, w') → passes id X g w w'.
Proof.
  intros Hf Hi Hs H. unfold wpa_group_setkeysdone in H.
  apply bind_inv in H as (? & w1 & H1 & H). apply gr_upd_inv in H1 as (G0 & Hf0 & ->).
  assert (G0 = G) as -> by congruence.
  set (G1 := G <| g_changed := true |> <| wpa_group_state := WPA_GROUP_SETKEYSDONE |>) in *.
  pose proof (find_group_ptr _ _ _ Hf) as Hp.
  assert (find_group g (put_group G1 w) = Ok G1) as Hf1 by (by apply (find_put_group g G1 G)).
  apply bind_inv in H as (r & w2 & H2 & H). unfold when in H. destruct (bool_decide (r < 0)).
  - apply at_group_inv in H2 as (G1' & gr & Hf1' & Hr & Hs2 & Hg2). assert (G1' = G1) as -> by congruence.
    apply (config_keys_run _ 0) in Hr as [Hc _].
    assert (g_ptr (gsm gr) = g) as Hp2 by (apply (f_equal g_ptr) in Hc; by rewrite <- Hp).
    eapply (fatal_passes X g G (gsm gr) w w2); [exact Hf| |exact Hs2| | |intros Hr2|exact H].
    + unfold group_work. rewrite Hi. destruct Hs as [->| ->], (GTKReKey G); cbn; lia.
    + rewrite (same_find_group _ _ _ Hg2). by apply (find_put_group g _ G1).
    + apply (f_equal GInit) in Hc. by rewrite <- Hi.
    + apply (f_equal GTKReKey) in Hc. by rewrite <- Hr2.
  - apply ret_inv in H as [_ ->]. eapply passes_trans; [|by eapply config_passes].
    apply (passes_transition id X g G); [done..|]. unfold group_work. change (GInit G1) with (GInit G). rewrite Hi.
    change (wpa_group_state G1) with WPA_GROUP_SETKEYSDONE. change (GTKReKey G1) with (GTKReKey G).
    destruct Hs as [->| ->], (GTKReKey G); cbn; lia.
Qed.

Lemma gtk_init_passes X g G w x w' :
  find_group g w = Ok G → GInit G = true → wpa_group_gtk_init g w = Ok (x, w') → passes id X g w w'.
Proof.
  intros Hf Hi H. unfold wpa_group_gtk_init in H.
  apply bind_inv in H as (? & w1 & H1 & H). apply gr_upd_inv in H1 as (G0 & Hf0 & ->).
  assert (G0 = G) as -> by congruence.
  apply bind_inv in H as (? & w2 & H2 & H). apply ret_inv in H as [_ ->].
  eapply passes_trans; [|by eapply update_passes].
  match goal with |- passes _ _ _ _ (put_group ?G1 _) => set (G' := G1) end.
  pose proof (find_group_ptr _ _ _ Hf) as Hp. assert (group_work G' = 0) as Hw.
  { unfold group_work. change (GInit G') with (GInit G). by rewrite Hi. }
  split; [| |done|].
  - intros Hs G1 Hf1. rewrite (find_put_group g G' G) in Hf1 by done. injection Hf1 as <-. exact (Hs G Hf).
  - intros G1 HG1. assert (G1 = G) as -> by congruence. exists G'. split; [by apply (find_put_group g G' G)|].
    pose proof (group_work_bounds G). split; [lia|]. intros Hc. discriminate Hc.
  - intros r _ m G1 [H3 H4 H5 H6]. assert (G1 = G) as -> by congruence. exists m, G'.
    split; [split; [exact H3|by apply (find_put_group g G' G)|done..]|left].
    pose proof (group_work_bounds G). split; [done|]. split; [lia|].
    intros Hc. left. rewrite <- Hp in Hf. destruct (first_changed_put G' G w Hf) as [Heq|[Heq _]]; rewrite Heq in Hc; [exact Hc|done].
Qed.

Section step.
Context (step : Z → W unit).

(** What holds where a group was read *)
Lemma leads_get_group P g : leads P (gr_get g id) (λ G w, P w ∧ find_group g w = Ok G).
Proof.
  apply leads_intro; [ends|]. intros w x w' Hp H. apply group_get_inv in H as (G & Hf & -> & ->). by split.
Qed.

(** A group with no key to renew makes no station step. *)
Lemma settled_step_leads X g w0 :
  leads (λ w, passes id X g w0 w ∧ settled_group g w) (wpa_group_sm_step step g)
        (λ _ w, passes id X g w0 w ∧ settled_group g w).
Proof.
  unfold wpa_group_sm_step. eapply leads_bind; [apply leads_get_group|]. intros G.
  assert (∀ op : W unit, ends op →
    (∀ w x w', find_group g w = Ok G → GTKReKey G = false → op w = Ok (x, w') → passes id X g w w') →
    leads (λ w, (passes id X g w0 w ∧ settled_group g w) ∧ find_group g w = Ok G) op
          (λ _ w, passes id X g w0 w ∧ settled_group g w)) as Hop.
  { intros op He Hpass. apply leads_intro; [done|]. intros w x w' [[Hw Hs] Hf] H.
    pose proof (Hpass w x w' Hf (Hs G Hf) H) as Hp. split; [by eapply passes_trans|by apply (pa_settled _ _ _ _ _ Hp)]. }
  assert (∀ w x w', (mret tt : W unit) w = Ok (x, w') → passes id X g w w') as Hret.
  { intros w x w' H. apply ret_inv in H as [_ ->]. apply passes_refl. }
  destruct (GInit G) eqn:Hi; [apply Hop; [apply ends_gtk_init|intros; by eapply gtk_init_passes]|].
  destruct (wpa_group_state G) eqn:Hst; unfold when.
  - destruct (GTKAuthenticator G); [|apply Hop; [ends|eauto]].
    apply Hop; [apply ends_setkeysdone|intros; eapply setkeysdone_passes; eauto].
  - destruct (decide _); [apply Hop; [apply ends_setkeysdone|intros; eapply setkeysdone_passes; eauto]|].
    destruct (GTKReKey G) eqn:Hr; [|apply Hop; [ends|eauto]].
    intros w [[_ Hs] Hf]. by rewrite (Hs G Hf) in Hr.
  - destruct (GTKReKey G) eqn:Hr; [|apply Hop; [ends|eauto]].
    intros w [[_ Hs] Hf]. by rewrite (Hs G Hf) in Hr.
  - apply Hop; [ends|eauto].
Qed.

(** ** The loop *)

Definition cheaper (p g : Z) (w w' : world) : Prop := ∀ m G, sees p g w m G → ∃ m' G', sees p g w' m' G' ∧
  sm_changed m' = sm_changed m ∧ work m' + group_work G' ≤ work m + group_work G ∧
  (first_changed w' = true → first_changed w = true ∨ work m' + group_work G' < work m + group_work G).

Lemma lower_cheaper p g w w' : lower id p g w w' → cheaper p g w w'.
Proof.
  intros H m G Hs. destruct (H m G Hs) as (m' & G' & Hs' & Hc). exists m', G'. split; [done|]. cbn [id] in Hc.
  destruct Hc as [(-> & Hle & Hf)|[-> Hle]].
  - split; [done|]. split; [lia|]. intros Hc. destruct (Hf Hc); [by left|right; lia].
  - pose proof (disconnect_work m). split; [done|]. split; [lia|]. intros _. right. lia.
Qed.

(** The stations that are not the one at [p] *)
Definition others (p : Z) (r : Z) : Prop := r ≠ p.

Lemma passes_clear k X g f G w :
  find_group f w = Ok G → passes k X g w (put_group (G <| g_changed := false |>) w).
Proof.
  intros Hf. pose proof (find_group_ptr _ _ _ Hf) as Hp. set (G' := G <| g_changed := false |>).
  assert (first_changed (put_group G' w) = true → first_changed w = true) as Hfc.
  { rewrite <- Hp in Hf. destruct (first_changed_put G' G w Hf) as [->|[-> _]]; done. }
  split; [| |done|].
  - intros Hs G0 Hf0. destruct (decide (f = g)) as [<-|Hn].
    + rewrite (find_put_group f G' G) in Hf0 by done. injection Hf0 as <-. by apply (Hs G).
    + rewrite find_put_other_group in Hf0 by (cbn; congruence). by apply Hs.
  - intros G0 HG0. destruct (decide (f = g)) as [<-|Hn].
    + assert (G0 = G) as -> by congruence. exists G'. split; [by apply (find_put_group f G' G)|].
      change (group_work G') with (group_work G). split; [lia|]. intros Hc. discriminate Hc.
    + destruct (group_down_refl g w G0 HG0) as (G1 & HG1 & Hd). exists G1.
      by rewrite find_put_other_group by (cbn; congruence).
  - intros r _ m G0 [H1 H2 H3 H4]. destruct (decide (f = g)) as [<-|Hn].
    + assert (G0 = G) as -> by congruence. exists m, G'. split; [split; [exact H1|by apply (find_put_group f G' G)|done..]|left].
      split; [done|]. split; [change (group_work G') with (group_work G); lia|]. auto.
    + exists m, G0. split; [split; [exact H1|by rewrite find_put_other_group by (cbn; congruence)|done..]|left].
      split_and!; auto; lia.
Qed.

Section loop.
Context (p g : Z) (Inv : world → Prop) (HInv : ∀ w w', Inv w → passes id (others p) g w w' → Inv w').

(** The station at [p] is stepping and has at most [n] to do; [Q] is what else is
    known of it. *)
Definition at_most (n : Z) (Q : wpa_state_machine → Z → Prop) (w : world) : Prop :=
  ∃ m G, sees p g w m G ∧ work m + group_work G ≤ n ∧ Q m (work m + group_work G).

Definition turning (n : Z) (Q : wpa_state_machine → Z → Prop) (w : world) : Prop := Inv w ∧ alive w ∧ at_most n Q w.

Lemma clear_changed n : leads (turning n (λ _ _, True)) (s_upd p (λ m, m <| sm_changed := false |>))
  (λ _, turning n (λ m _, sm_changed m = false)).
Proof.
  apply leads_intro; [ends|]. intros w x w' (Hi & Ha & m & G & [H1 H2 H3 H4] & Hn & _) H.
  apply s_upd_inv in H as (m0 & Hm0 & ->). assert (m0 = m) as -> by congruence.
  pose proof (find_station_ptr _ _ _ H1) as Hp.
  assert (passes id (others p) g w (put_station (m <| sm_changed := false |>) w)) as Hpass.
  { apply (passes_put_station id _ g p m); [done..|]. intros Hx. by destruct Hx. }
  split_and!; [by eapply HInv|by apply (pa_alive _ _ _ _ _ Hpass)|].
  exists (m <| sm_changed := false |>), G. split; [split; [by apply (find_put_station p _ m)|exact H2|done..]|].
  rewrite clear_work. by split.
Qed.

Lemma first_leads P : leads P first_ptr (λ f w, P w ∧ ∃ h, head (groups w) = Some h ∧ g_ptr h = f).
Proof. apply leads_intro; [ends|]. intros w x w' Hp H. by apply first_found in H as [-> Hf]. Qed.

Lemma clear_first n Q f :
  leads (λ w, turning n Q w ∧ ∃ h, head (groups w) = Some h ∧ g_ptr h = f)
    (gr_upd f (λ g, g <| g_changed := false |>)) (λ _ w, turning n Q w ∧ first_changed w = false).
Proof.
  apply leads_intro; [ends|]. intros w x w' [(Hi & Ha & m & G & Hs & Hn & HQ) (h & Hh & <-)] H.
  pose proof (find_first _ _ Hh) as Hf. apply gr_upd_inv in H as (h' & Hf' & ->). assert (h' = h) as -> by congruence.
  assert (passes id (λ _, True) g w (put_group (h <| g_changed := false |>) w)) as Hpass by (by eapply passes_clear).
  destruct (pa_lower _ _ _ _ _ Hpass p I m G Hs) as (m' & G' & [S1 S2 S3 S4] & _).
  destruct Hs as [S1' S2' S3' S4'].
  assert (m' = m) as -> by (change (find_station p w = Ok m') in S1; congruence).
  split; [split_and!|].
  - eapply HInv; [done|]. by eapply passes_weaken; [|exact Hpass].
  - by apply (pa_alive _ _ _ _ _ Hpass).
  - exists m, G'. assert (group_work G' = group_work G) as ->; [|by split; [split|]].
    destruct (decide (g_ptr h = g)) as [Hg|Hx].
    + rewrite (find_put_group g _ h) in S2 by (rewrite <- ?Hg; done). injection S2 as <-.
      assert (h = G) as -> by congruence. done.
    + rewrite find_put_other_group in S2 by done. congruence.
  - unfold first_changed, put_group. cbn [groups setter]. destruct (groups w) as [|h' l]; [done|]. injection Hh as ->.
    cbn [map head from_option option_map]. by rewrite decide_True.
Qed.

Lemma station_turn n :
  leads (λ w, turning n (λ m _, sm_changed m = false) w ∧ first_changed w = false) (at_station p station_steps)
    (λ x w, turning n (λ m k, sm_changed m = true → k < n) w ∧ first_changed w = false ∧ x = false).
Proof.
  apply leads_intro; [apply ends_at_station; intros; apply ends_station_steps|].
  intros w x w' [(Hi & Ha & m & G & [S1 S2 S3 S4] & Hn & HQ) Hf] H.
  apply at_station_inv in H as (m0 & G0 & s' & Hm0 & HG0 & Hr & Hs). assert (m0 = m) as -> by congruence.
  rewrite S3 in HG0. assert (G0 = G) as -> by congruence.
  pose proof (find_station_ptr _ _ _ S1) as Hp. apply (station_steps_run _ _ p) in Hr as (m1 & H1 & H2 & H3 & -> & Hmv); [|done].
  assert (pending_deinit m1 = false) as Hd1.
  { apply ptk_step_steady in H1. unfold steady in H1. injection H1 as _ _ _ ->. by eapply Ha. }
  specialize (H2 Hd1). pose proof (turn_down _ _ _ _ HQ H1 H2) as Hdown.
  pose proof (ptk_step_steady _ _ _ H1) as E1. pose proof (group_key_step_steady _ _ H2) as E2. rewrite E1 in E2. clear H1 H2 H3 E1.
  destruct s' as [m2 [G2 n2 o2] F2]. destruct Hmv as [Hp2 Hg2 _ _]. cbn [sm grp_of gsm] in *.
  unfold steady in E2. injection E2 as _ Eg El Ed. apply rest_same_group in Hg2 as Hsame.
  assert (passes id (others p) g w (put_group G2 w)) as P1 by (by eapply passes_put_group).
  assert (passes id (others p) g (put_group G2 w) (put_station m2 (put_group G2 w))) as P2.
  { apply (passes_put_station id _ g p m); [exact S1|done..|]. intros Hx. by destruct Hx. }
  assert (passes id (others p) g w w') as Hpass.
  { eapply passes_trans; [exact P1|]. eapply passes_trans; [exact P2|]. by apply passes_same_parts. }
  destruct Hs as [Hs Hg].
  assert (sees p g w' m2 G2) as Hsees.
  { split; [|rewrite (same_find_group _ _ _ Hg)|congruence..].
    - rewrite (same_find_station _ _ _ Hs). by apply (find_put_station p _ m).
    - change (find_group g (put_group G2 w) = Ok G2). apply (find_put_group g _ G); [done|].
      destruct Hsame as [-> _]. by eapply find_group_ptr. }
  assert (group_work G2 = group_work G) as Hw by apply Hsame.
  split; [split_and!|split].
  - by eapply HInv.
  - by apply (pa_alive _ _ _ _ _ Hpass).
  - exists m2, G2. split; [done|]. rewrite Hw. unfold down in Hdown. split; [lia|]. intros Hc.
    destruct Hdown as [[Hc' _]|]; [congruence|lia].
  - rewrite (same_first _ _ Hg). change (first_changed (put_group G2 w) = false).
    pose proof (find_group_ptr _ _ _ S2) as Hpt. destruct Hsame as (Hpt2 & _ & Hc2 & _). rewrite <- Hpt, <- Hpt2 in S2.
    destruct (first_changed_put G2 G w S2) as [->|[-> Hc1]]; [done|congruence].
  - rewrite Ed. by eapply Ha.
Qed.

Context (HG : ∀ w0, leads (λ w, (Inv w ∧ alive w) ∧ w = w0) (wpa_group_sm_step step g)
                     (λ _ w, (Inv w ∧ alive w) ∧ cheaper p g w0 w)).

Lemma group_turn n :
  leads (λ w, turning n (λ m k, sm_changed m = true → k < n) w ∧ first_changed w = false) (wpa_group_sm_step step g)
    (λ _ w, turning n (λ m k, sm_changed m = true ∨ first_changed w = true → k < n) w).
Proof.
  intros w [(Hi & Ha & m & G & Hs & Hn & HQ) Hf]. destruct (HG w w) as [He Hq]; [done|]. split; [done|].
  intros x w' H. destruct (Hq x w' H) as [[Hi' Ha'] Hc]. destruct (Hc m G Hs) as (m' & G' & Hs' & Ec & Hle & Hlt).
  split_and!; [done..|]. exists m', G'. split; [done|]. split; [lia|]. intros [Hx|Hx].
  - rewrite Ec in Hx. specialize (HQ Hx). lia.
  - destruct (Hlt Hx); [congruence|lia].
Qed.

Lemma get_leads {A} P (f : wpa_state_machine → A) q :
  leads P (s_get q f) (λ x w, P w ∧ ∃ m, find_station q w = Ok m ∧ x = f m).
Proof. apply leads_intro; [ends|]. intros w x w' Hp H. apply s_get_inv in H as (m & Hm & -> & ->). eauto. Qed.

Lemma get_group_leads {A} P (f : WpaSm.wpa_group → A) q :
  leads P (gr_get q f) (λ x w, P w ∧ ∃ G, find_group q w = Ok G ∧ x = f G).
Proof. apply leads_intro; [ends|]. intros w x w' Hp H. apply group_get_inv in H as (G & Hg & -> & ->). eauto. Qed.

(** Enough turns are allowed. *)
Lemma step_loop_leads fuel n : n < Z.of_nat fuel →
  leads (turning n (λ _ _, True)) (step_loop step fuel p) (λ _, turning n (λ _ _, True)).
Proof.
  revert n. induction fuel as [|fuel IH]; intros n Hn; cbn [step_loop].
  { intros w (_ & _ & m & G & _ & Hw & _). pose proof (work_bounds m). pose proof (group_work_bounds G). lia. }
  eapply leads_bind; [apply get_leads|]. intros gone.
  destruct gone.
  { apply leads_intro; [ends|]. intros w x w' [Hw _] H. by apply ret_inv in H as [_ ->]. }
  eapply leads_bind.
  { eapply leads_weaken; [apply (clear_changed n)|by intros w [Hw _]|]. intros x w H. exact H. }
  intros []. eapply leads_bind; [apply first_leads|]. intros f.
  eapply leads_bind; [apply clear_first|]. intros []. eapply leads_bind; [apply station_turn|]. intros gone.
  destruct gone; [intros w (_ & _ & Hd); discriminate Hd|].
  eapply leads_bind; [apply get_leads|]. intros g'.
  apply (leads_bind _ _ (λ _ w, turning n (λ m k, sm_changed m = true ∨ first_changed w = true → k < n) w)).
  { intros w [(Hw & Hf & _) (m & Hm & ->)]. pose proof Hw as (_ & _ & m' & G & Hs & _).
    assert (m' = m) as -> by (destruct Hs; congruence). rewrite (sees_of _ _ _ _ _ Hs). by apply (group_turn n). }
  intros []. eapply leads_bind; [apply get_leads|]. intros again.
  eapply leads_bind; [apply first_leads|]. intros f'.
  eapply leads_bind; [apply get_group_leads|]. intros group_again.
  assert (∀ w, (((turning n (λ m k, sm_changed m = true ∨ first_changed w = true → k < n) w ∧
    (∃ m, find_station p w = Ok m ∧ again = sm_changed m)) ∧ (∃ h, head (groups w) = Some h ∧ g_ptr h = f')) ∧
    (∃ G, find_group f' w = Ok G ∧ group_again = g_changed G)) →
    turning (if again || group_again then n - 1 else n) (λ _ _, True) w) as Hnext.
  { intros w [[[(Hi & Ha & m & G & Hs & Hw & HQ) (m' & Hm' & ->)] (h & Hh & <-)] (G' & HG' & ->)].
    assert (m' = m) as -> by (destruct Hs; congruence). rewrite (find_first _ _ Hh) in HG'. injection HG' as <-.
    split_and!; [done..|]. exists m, G. split; [done|]. split; [|done].
    assert (first_changed w = g_changed h) as Hfc.
    { unfold first_changed. by rewrite Hh. }
    destruct (sm_changed m || g_changed h) eqn:Hor; [|done]. apply orb_true_iff in Hor. rewrite <- Hfc in Hor.
    specialize (HQ Hor). lia. }
  destruct (again || group_again).
  - eapply leads_weaken; [apply (IH (n - 1)); lia|exact Hnext|].
    intros x w (Hi & Ha & m & G & Hs & Hw & HQ). split_and!; [done..|]. exists m, G. split_and!; [done|lia|done].
  - apply leads_intro; [ends|]. intros w x w' Hw H. apply ret_inv in H as [_ ->]. by apply Hnext.
Qed.
End loop.

Lemma fuel_enough m G : work m + group_work G < Z.of_nat step_fuel.
Proof. pose proof (work_bounds m). pose proof (group_work_bounds G). unfold step_fuel. lia. Qed.

(** Without its group a station cannot step. *)
Lemma step_loop_no_group p fuel :
  leads (λ w, alive w ∧ ∃ m, find_station p w = Ok m ∧ ∀ G, find_group (group m) w ≠ Ok G) (step_loop step (S fuel) p)
    (λ _ _, False).
Proof.
  cbn [step_loop]. eapply leads_bind; [apply (get_leads _ pending_deinit p)|]. intros gone.
  destruct gone; [intros w [(Ha & m & Hm & _) (m' & Hm' & Hd)]; by rewrite (Ha p m' Hm') in Hd|].
  set (P := λ w, ∃ m, find_station p w = Ok m ∧ ∀ G, find_group (group m) w ≠ Ok G).
  apply (leads_bind _ _ (λ _, P)).
  { apply leads_intro; [ends|]. intros w x w' [(_ & m & Hm & Hg) _] H. apply s_upd_inv in H as (m' & Hm' & ->).
    assert (m' = m) as -> by congruence. exists (m <| sm_changed := false |>). split; [|exact Hg].
    apply (find_put_station p _ m); [done|]. by apply find_station_ptr in Hm. }
  intros []. eapply leads_bind; [apply first_leads|]. intros f. apply (leads_bind _ _ (λ _, P)).
  { apply leads_intro; [ends|]. intros w x w' [(m & Hm & Hg) _] H. apply gr_upd_inv in H as (G & HG & ->).
    exists m. split; [exact Hm|]. intros G' HG'. destruct (decide (f = group m)) as [->|Hn]; [by eapply Hg|].
    apply find_group_ptr in HG as Hp. rewrite find_put_other_group in HG' by (cbn; congruence). by eapply Hg. }
  intros []. apply (leads_bind _ _ (λ _ _, False)); [|done].
  apply leads_intro; [apply ends_at_station; intros; apply ends_station_steps|].
  intros w x w' (m & Hm & Hg) H. apply at_station_inv in H as (m' & G & s' & Hm' & HG & _).
  assert (m' = m) as -> by congruence. by eapply Hg.
Qed.

(** The station at [p], one of the group at [g] if there is one *)
Definition of_group (p g : Z) (w : world) : Prop := ∀ m, find_station p w = Ok m → group m = g.

Lemma stepping_passes (b : bool) p g m w :
  find_station p w = Ok m → passes id (others p) g w (put_station (m <| in_step_loop := b |>) w).
Proof.
  intros Hm. pose proof (find_station_ptr _ _ _ Hm). apply (passes_put_station id _ g p m); [done..|].
  intros Hx. by destruct Hx.
Qed.

Section enter.
Context (p g : Z) (Inv : world → Prop) (HInv : ∀ w w', Inv w → passes id (others p) g w w' → Inv w')
  (HG : ∀ w0, leads (λ w, (Inv w ∧ alive w) ∧ w = w0) (wpa_group_sm_step step g)
                     (λ _ w, (Inv w ∧ alive w) ∧ cheaper p g w0 w)).

(** The step of a station ends. *)
Lemma step_station_leads :
  leads (λ w, Inv w ∧ alive w ∧ of_group p g w) (step_station step p) (λ _ w, Inv w ∧ alive w).
Proof.
  unfold step_station. eapply leads_bind; [apply (get_leads _ in_step_loop p)|]. intros recursive.
  destruct recursive.
  { apply leads_intro; [ends|]. intros w x w' [(Hi & Ha & _) _] H. by apply ret_inv in H as [_ ->]. }
  apply (leads_bind _ _ (λ _ w, Inv w ∧ alive w ∧ ∃ m, find_station p w = Ok m ∧ group m = g ∧ in_step_loop m = true)).
  { apply leads_intro; [ends|]. intros w x w' [(Hi & Ha & Ho) _] H. apply s_upd_inv in H as (m & Hm & ->).
    pose proof (stepping_passes true p g m w Hm) as Hp. split; [by eapply HInv|]. split; [by apply (pa_alive _ _ _ _ _ Hp)|].
    exists (m <| in_step_loop := true |>). split; [|split; [exact (Ho m Hm)|done]].
    apply (find_put_station p _ m); [done|]. by apply find_station_ptr in Hm. }
  intros []. apply (leads_bind _ _ (λ _ w, Inv w ∧ alive w)).
  { intros w (Hi & Ha & m & Hm & Hg & Hl). destruct (find_group g w) as [G| |] eqn:HGf.
    - destruct (step_loop_leads p g Inv HInv HG step_fuel (work m + group_work G) (fuel_enough m G) w) as [He Hq].
      { split_and!; [done..|]. exists m, G. split; [by split|]. split; [lia|done]. }
      split; [exact He|]. intros x w' H. by destruct (Hq x w' H) as (? & ? & _).
    - destruct (step_loop_no_group p 199 w) as [He Hq].
      { split; [done|]. exists m. split; [done|]. rewrite Hg, HGf. done. }
      split; [exact He|]. intros x w' H. by destruct (Hq x w' H).
    - by apply ended_find_group in HGf. }
  intros []. apply (leads_bind _ _ (λ _ w, Inv w ∧ alive w)).
  { apply leads_intro; [ends|]. intros w x w' [Hi Ha] H. apply s_upd_inv in H as (m & Hm & ->).
    pose proof (stepping_passes false p g m w Hm) as Hp. split; [by eapply HInv|by apply (pa_alive _ _ _ _ _ Hp)]. }
  intros []. eapply leads_bind; [apply (get_leads _ pending_deinit p)|]. intros gone. destruct gone.
  { intros w [[_ Ha] (m & Hm & Hd)]. by rewrite (Ha p m Hm) in Hd. }
  apply leads_intro; [ends|]. intros w x w' [[Hi Ha] _] H. by apply ret_inv in H as [_ ->].
Qed.
End enter.

(** A station of a group with no key to renew: what it does to others *)
Lemma settled_station_leads p g w0 :
  leads (λ w, (settled_group g w ∧ alive w ∧ of_group p g w) ∧ w = w0) (step_station step p)
    (λ _ w, passes id (λ _, True) g w0 w).
Proof.
  intros w [(Hs & Ha & Ho) ->].
  destruct (step_station_leads p g (λ w, passes id (others p) g w0 w ∧ settled_group g w)) with (w := w0) as [He Hq].
  - intros w1 w2 [H1 H2] H. split; [by eapply passes_trans|by apply (pa_settled _ _ _ _ _ H)].
  - intros w1 w [[[H1 H2] Ha1] ->]. destruct (settled_step_leads (λ _, True) g w1 w1) as [He Hq]; [split; [apply passes_refl|done]|].
    split; [exact He|]. intros x w' H. destruct (Hq x w' H) as [Hp Hs']. split; [split; [split|]|].
    + eapply passes_trans; [exact H1|]. by eapply passes_weaken; [|exact Hp].
    + done.
    + by apply (pa_alive _ _ _ _ _ Hp).
    + apply lower_cheaper. by apply (pa_lower _ _ _ _ _ Hp).
  - split; [split; [apply passes_refl|done]|]. by split.
  - split; [exact He|]. intros x w' H. destruct (Hq x w' H) as [[[P1 P2 P4 P3] _] _]. split; [done..|].
    intros r _. destruct (decide (r = p)) as [->|Hn]; [|by apply P3]. intros m G [S1 S2 S3 S4]. clear He Hq.
    unfold step_station in H. apply bind_inv in H as (rec & w1 & H1 & H). apply s_get_inv in H1 as (m0 & Hm0 & -> & ->).
    assert (m0 = m) as -> by congruence. rewrite S4 in H. apply ret_inv in H as [_ ->].
    destruct (lower_refl id p g w0 m G) as (m' & G' & Hl); [by split|]. by exists m', G'.
Qed.

(** ** Renewing the key of a group makes its stations step *)

Context (g : Z) (Hstep : ∀ q w0, leads (λ w, (settled_group g w ∧ alive w ∧ of_group q g w) ∧ w = w0) (step q)
                          (λ _ w, passes id (λ _, True) g w0 w)).

Definition renewing (w0 w : world) : Prop := settled_group g w ∧ alive w ∧ passes promised (λ _, True) g w0 w.

Lemma renewing_next w0 w w' : renewing w0 w → passes promised (λ _, True) g w w' → renewing w0 w'.
Proof.
  intros (Hs & Ha & Hp) H. split_and!; [by apply (pa_settled _ _ _ _ _ H)|by apply (pa_alive _ _ _ _ _ H)|by eapply passes_trans].
Qed.

Lemma update_key_passes (b : bool) q m w :
  find_station q w = Ok m → passes promised (λ _, True) g w (put_station (m <| GUpdateStationKeys := b |>) w).
Proof.
  intros Hm. pose proof (find_station_ptr _ _ _ Hm). by apply (passes_put_station _ _ g q m).
Qed.

Lemma count_passes q w x w' :
  at_station q (λ _ _, set_GKeyDoneStations inc_int) w = Ok (x, w') → passes promised (λ _, True) g w w'.
Proof.
  intros H. apply at_station_inv in H as (m & G & s' & Hm & HGf & Hr & Hs). apply set_count_run in Hr as (k & _ & ->).
  cbn [sm grp_of gsm] in Hs. pose proof (find_group_ptr _ _ _ HGf). pose proof (find_station_ptr _ _ _ Hm).
  eapply passes_trans; [apply (passes_put_group _ _ g (group m) G (G <| GKeyDoneStations := k |>)); [done|split_and!; done]|].
  eapply passes_trans; [|by apply passes_same_parts]. by apply (passes_put_station _ _ g q m).
Qed.

Lemma update_sta_leads w0 q : leads (renewing w0) (wpa_group_update_sta step g q) (λ _, renewing w0).
Proof.
  unfold wpa_group_update_sta. eapply leads_bind; [apply (get_leads _ id q)|]. intros m.
  destruct (decide (group m ≠ g)) as [|Hg].
  { apply leads_intro; [ends|]. intros w x w' [Hw _] H. by apply ret_inv in H as [_ ->]. }
  destruct (decide (wpa_ptk_state m ≠ WPA_PTK_PTKINITDONE)).
  { apply leads_intro; [ends|]. intros w x w' [Hw _] H. apply s_upd_inv in H as (m' & Hm' & ->).
    eapply renewing_next; [exact Hw|]. by apply (update_key_passes _ q). }
  assert (group m = g) as Hg' by (destruct (decide (group m = g)); [done|by destruct Hg]).
  apply (leads_bind _ _ (λ _ w, renewing w0 w ∧ of_group q g w)).
  { apply leads_intro; [apply ends_at_station; intros; apply ends_set_count; intros; ends|].
    intros w x w' [Hw (m' & Hm & ->)] H. split; [eapply renewing_next; [exact Hw|by eapply count_passes]|].
    apply at_station_inv in H as (m & G & s' & Hm2 & HGf & Hr & [Hs _]). apply set_count_run in Hr as (k & _ & ->).
    assert (m = m') as -> by congruence. cbn [sm grp_of gsm] in Hs. intros m Hm3.
    rewrite (same_find_station _ _ _ Hs) in Hm3. pose proof (find_station_ptr _ _ _ Hm2).
    rewrite (find_put_station q m' m') in Hm3 by done. injection Hm3 as <-. exact Hg'. }
  intros []. apply (leads_bind _ _ (λ _ w, renewing w0 w ∧ of_group q g w)).
  { apply leads_intro; [ends|]. intros w x w' [Hw Ho] H. apply s_upd_inv in H as (m' & Hm' & ->). split.
    - eapply renewing_next; [exact Hw|]. by apply (update_key_passes _ q).
    - intros m2 Hm2. pose proof (find_station_ptr _ _ _ Hm').
      rewrite (find_put_station q _ m') in Hm2 by done. injection Hm2 as <-. exact (Ho m' Hm'). }
  intros []. intros w [Hw Ho]. destruct Hw as (Hs & Ha & Hp). destruct (Hstep q w w) as [He Hq]; [done|].
  split; [exact He|]. intros x w' H. eapply renewing_next; [by split_and!|]. apply passes_promised. by eapply Hq.
Qed.

Lemma for_each_leads (P : world → Prop) cb l : (∀ q, leads P (cb q) (λ _, P)) → leads P (for_each cb l) (λ _, P).
Proof.
  intros Hcb. induction l as [|q l IH]; cbn [for_each]; [apply (leads_ret (λ _, P))|].
  eapply leads_bind; [apply Hcb|]. by intros [].
Qed.

(** New keys: what the stations get to do is less than what the group had. *)
Lemma setkeys_leads w0 G :
  find_group g w0 = Ok G → GInit G = false → GTKReKey G = true →
  wpa_group_state G = WPA_GROUP_SETKEYS ∨ wpa_group_state G = WPA_GROUP_SETKEYSDONE →
  leads (λ w, alive w ∧ w = w0) (wpa_group_setkeys step g) (λ _ w, (alive w ∧ group_down g w0 w) ∧ ∀ p, cheaper p g w0 w).
Proof.
  intros HGf Hi Hr Hst. pose proof (find_group_ptr _ _ _ HGf) as Hp. unfold wpa_group_setkeys.
  set (ok w1 := settled_group g w1 ∧ alive w1 ∧ stations w1 = stations w0 ∧ ∃ G1, find_group g w1 = Ok G1 ∧ group_work G1 = 6).
  apply (leads_bind _ _ (λ _, ok)).
  { apply leads_intro; [ends|]. intros w x w' [Ha ->] H. apply gr_upd_inv in H as (G' & HG' & ->).
    assert (G' = G) as -> by congruence.
    match goal with |- ok (put_group ?H0 _) => set (G1 := H0) end.
    assert (find_group g (put_group G1 w0) = Ok G1) as Hf1 by (by apply (find_put_group g G1 G)).
    split_and!; [|exact Ha|done|].
    - intros G2 HG2. assert (G2 = G1) as -> by congruence. done.
    - exists G1. split; [done|]. unfold group_work. change (GInit G1) with (GInit G). by rewrite Hi. }
  intros []. apply (leads_bind _ _ (λ _, ok)).
  { apply leads_intro; [apply ends_update|]. intros w x w' (Hs & Ha & Hst' & G1 & HG1 & Hw1) H.
    pose proof (update_passes id (λ _, True) g _ _ _ _ H) as Hpass.
    apply at_group_inv in H as (G1' & gr & HG1' & Hrun & Hs2 & Hg2). assert (G1' = G1) as -> by congruence.
    apply (gtk_update_run _ 0) in Hrun as [Hc _]. apply core_same_group in Hc as (Hc1 & Hc2 & _ & _).
    split_and!; [by apply (pa_settled _ _ _ _ _ Hpass)|by apply (pa_alive _ _ _ _ _ Hpass)|by rewrite Hs2|].
    exists (gsm gr). split; [|by rewrite Hc2]. rewrite (same_find_group _ _ _ Hg2).
    apply (find_put_group g _ G1); [done|]. rewrite Hc1. by eapply find_group_ptr. }
  intros _. apply (leads_bind _ _ (λ _, ok)).
  { apply leads_intro; [ends|]. intros w x w' (Hs & Ha & Hst' & G1 & HG1 & Hw1) H.
    apply gr_upd_inv in H as (G1' & HG1' & ->). assert (G1' = G1) as -> by congruence.
    pose proof (find_group_ptr _ _ _ HG1) as Hp1.
    assert (passes id (λ _, True) g w (put_group (G1 <| GKeyDoneStations := 0 |>) w)) as Hpass.
    { apply (passes_put_group id _ g g G1); [done|by split_and!]. }
    split_and!; [by apply (pa_settled _ _ _ _ _ Hpass)|by apply (pa_alive _ _ _ _ _ Hpass)|done|].
    exists (G1 <| GKeyDoneStations := 0 |>). split; [by apply (find_put_group g _ G1)|exact Hw1]. }
  intros []. intros w (Hs & Ha & Hst' & G1 & HG1 & Hw1). unfold for_each_sta.
  destruct (for_each_leads (renewing w) (wpa_group_update_sta step g) (map sm_ptr (stations w)) (update_sta_leads w) w)
    as [He Hq]; [split_and!; [done..|apply passes_refl]|].
  split; [exact He|]. intros x w' H. destruct (Hq x w' H) as (_ & Ha' & Hpass).
  assert (16 ≤ group_work G) as H16.
  { unfold group_work. rewrite Hi, Hr. by destruct Hst as [->| ->]. }
  split.
  { split; [done|]. intros G0 HG0. assert (G0 = G) as -> by congruence.
    destruct (pa_group _ _ _ _ _ Hpass G1 HG1) as (G2 & HG2 & Hle & _). exists G2. split; [done|]. split; [lia|]. right. lia. }
  intros p m G0 [S1 S2 S3 S4]. assert (G0 = G) as -> by congruence.
  assert (sees p g w m G1) as Hsee by (split; [by rewrite (same_find_station w0 w)|done..]).
  destruct (pa_lower _ _ _ _ _ Hpass p I m G1 Hsee) as (m' & G' & Hs' & Hc).
  exists m', G'. split; [done|].
  pose proof (promised_work m) as [_ Hm]. pose proof (promised_work m') as [Hm' _].
  change (m <| GUpdateStationKeys := true |>) with (promised m) in Hm.
  change (m' <| GUpdateStationKeys := true |>) with (promised m') in Hm'.
  destruct Hc as [(Hk & Hle & _)|[Hk Hle]]; rewrite Hk in Hm'.
  - assert (sm_changed m' = sm_changed m) as -> by (apply (f_equal sm_changed) in Hk; exact Hk).
    split; [done|]. split; [lia|]. intros _. right. lia.
  - pose proof (disconnect_work (promised m)).
    assert (sm_changed m' = sm_changed m) as -> by (apply (f_equal sm_changed) in Hk; exact Hk).
    split; [done|]. split; [lia|]. intros _. right. lia.
Qed.

(** The step of a group ends and leaves its stations less to do. *)
Lemma group_step_leads w0 :
  leads (λ w, alive w ∧ w = w0) (wpa_group_sm_step step g) (λ _ w, (alive w ∧ group_down g w0 w) ∧ ∀ p, cheaper p g w0 w).
Proof.
  intros w [Ha ->]. destruct (find_group g w0) as [G|k|] eqn:HGf.
  2:{ assert (wpa_group_sm_step step g w0 = Undef k) as ->; [|done].
      apply bind_undef. unfold gr_get. by rewrite HGf. }
  2:{ by apply ended_find_group in HGf. }
  destruct (GTKReKey G) eqn:Hr.
  2:{ destruct (settled_step_leads (λ _, True) g w0 w0) as [He Hq].
      { split; [apply passes_refl|]. intros G' HG'. by assert (G' = G) as -> by congruence. }
      split; [exact He|]. intros x w' H. destruct (Hq x w' H) as [Hp _].
      split; [split; [by apply (pa_alive _ _ _ _ _ Hp)|apply (pa_group _ _ _ _ _ Hp)]|].
      intros p. apply lower_cheaper. by apply (pa_lower _ _ _ _ _ Hp). }
  assert (∀ op : W unit, ends op → (∀ x w', op w0 = Ok (x, w') → passes id (λ _, True) g w0 w') →
    ended (op w0) ∧ ∀ x w', op w0 = Ok (x, w') → (alive w' ∧ group_down g w0 w') ∧ ∀ p, cheaper p g w0 w') as Hop.
  { intros op He Hp. split; [apply He|]. intros x w' H. specialize (Hp x w' H).
    split; [split; [by apply (pa_alive _ _ _ _ _ Hp)|apply (pa_group _ _ _ _ _ Hp)]|].
    intros p. apply lower_cheaper. by apply (pa_lower _ _ _ _ _ Hp). }
  assert (∀ x w', (mret tt : W unit) w0 = Ok (x, w') → passes id (λ _, True) g w0 w') as Hret.
  { intros x w' H. apply ret_inv in H as [_ ->]. apply passes_refl. }
  assert (wpa_group_sm_step step g w0 = (if GInit G then wpa_group_gtk_init g else match wpa_group_state G with
    | WPA_GROUP_FATAL_FAILURE => mret tt | WPA_GROUP_GTK_INIT => when (GTKAuthenticator G) (wpa_group_setkeysdone g)
    | WPA_GROUP_SETKEYSDONE => wpa_group_setkeys step g
    | WPA_GROUP_SETKEYS => if decide (GKeyDoneStations G = 0) then wpa_group_setkeysdone g else wpa_group_setkeys step g
    end) w0) as ->.
  { unfold wpa_group_sm_step. rewrite (bind_ok _ _ w0 G w0) by (unfold gr_get; by rewrite HGf). cbn [id]. by rewrite Hr. }
  destruct (GInit G) eqn:Hi; [apply Hop; [apply ends_gtk_init|intros; by eapply gtk_init_passes]|].
  destruct (wpa_group_state G) eqn:Hst; unfold when.
  - destruct (GTKAuthenticator G); [|apply Hop; [ends|eauto]].
    apply Hop; [apply ends_setkeysdone|intros; eapply setkeysdone_passes; eauto].
  - destruct (decide _); [apply Hop; [apply ends_setkeysdone|intros; eapply setkeysdone_passes; eauto]|].
    apply (setkeys_leads w0 G); auto.
  - apply (setkeys_leads w0 G); auto.
  - apply Hop; [ends|eauto].
Qed.
End step.

(** A station that steps because its group renews the key makes no other step. *)
Lemma nested_leads depth g q w0 :
  leads (λ w, (settled_group g w ∧ alive w ∧ of_group q g w) ∧ w = w0) (_ ← nested_step (S depth) q; mret tt)
    (λ _ w, passes id (λ _, True) g w0 w).
Proof.
  eapply leads_bind; [apply settled_station_leads|]. intros r.
  apply leads_intro; [ends|]. intros w x w' Hw H. by apply ret_inv in H as [_ ->].
Qed.

Lemma sm_step_leads depth p : leads alive (nested_step (S (S depth)) p) (λ _, alive).
Proof.
  intros w Ha. cbn [nested_step].
  destruct (find_station p w) as [m|k|] eqn:Hm; [| |by apply ended_find_station in Hm].
  2:{ unfold step_station. rewrite (bind_undef _ _ w k); [done|]. unfold s_get. by rewrite Hm. }
  destruct (step_station_leads (λ q, _ ← step_station (λ q, _ ← nested_step depth q; mret tt) q; mret tt)
    p (group m) (λ _, True)) with (w := w) as [He Hq].
  - done.
  - intros w0 w1 [[_ Ha1] ->]. destruct (group_step_leads (λ q, _ ← nested_step (S depth) q; mret tt) (group m)
      (λ q w2, nested_leads depth (group m) q w2) w0 w0) as [He Hq]; [done|].
    split; [exact He|]. intros x w' H. destruct (Hq x w' H) as [[Ha' _] Hc]. done.
  - split; [done|]. split; [done|]. intros m' Hm'. congruence.
  - split; [exact He|]. intros x w' H. by destruct (Hq x w' H).
Qed.

Lemma sm_step_alive p : leads alive (wpa_sm_step p) (λ _, alive).
Proof.
  intros w Ha. unfold wpa_sm_step. destruct (stations w) as [|m l] eqn:Hs; [|by apply sm_step_leads].
  assert (find_station p w = Undef OutOfBounds) as Hf by (unfold find_station; by rewrite Hs).
  cbn [nested_step length]. unfold step_station. rewrite (bind_undef _ _ w OutOfBounds); [done|].
  unfold s_get. by rewrite Hf.
Qed.

(** The step of a group that no station is stepping *)
Lemma group_step_alive p w0 :
  leads (λ w, alive w ∧ w = w0) (group_step p) (λ _ w, alive w ∧ group_down p w0 w).
Proof.
  intros w Hw. destruct (group_step_leads (λ q, _ ← wpa_sm_step q; mret tt) p) with (w0 := w0) (w := w) as [He Hq]; [|done|].
  { intros q w1 w2 Hw2. rewrite (bind_same _ (nested_step (S (length (stations w2))) q)) by reflexivity.
    exact (nested_leads (length (stations w2)) p q w1 w2 Hw2). }
  split; [exact He|]. intros x w' H. by destruct (Hq x w' H).
Qed.

(** C17. The steps of a station end: whatever requests and events wait at a station, its
    group and the other stations, [wpa_sm_step] runs its loop, and the loops of the
    stations that step because the group renewed its key, within the turns the model
    allows, and leaves no station to be removed. *)
Theorem wpa_sm_step_ends p w :
  alive w → wpa_sm_step p w ≠ Stuck ∧ ∀ r w', wpa_sm_step p w = Ok (r, w') → alive w'.
Proof. intros Ha. destruct (sm_step_alive p w Ha) as [He Hq]. split; [exact He|]. intros r w' H. by eapply Hq. Qed.

(** C19. A turn refines the machines of the standard: what [WPA_PTK_Step] and
    [WPA_PTK_GROUP_Step] do to a station in the authenticator is one step of each of
    the relations [ptk_step] and [group_key_step]; the other stations are untouched, of
    the group only keys and the count of stations that wait for one change, and the
    effects are harmless ones unless message 4 completes the handshake. *)
Theorem station_turn_refines p w x w' :
  alive w → at_station p station_steps w = Ok (x, w') →
  ∃ m m1 m' G G', find_station p w = Ok m ∧ find_station p w' = Ok m' ∧
    ptk_step (auth w) m m1 ∧ group_key_step m1 m' ∧ (∀ q, q ≠ p → find_station q w' = find_station q w) ∧
    find_group (group m) w = Ok G ∧ find_group (group m) w' = Ok G' ∧
    g_rest G' = g_rest G ∧ counted m G m' G' ∧ extends (ptk_effect p m) (out w) (out w').
Proof.
  intros Ha H. unfold at_station in H. apply bind_Ok_inv in H as (m & Hm & H). apply bind_Ok_inv in H as (G & HG & H).
  apply bind_Ok_inv in H as ([y s'] & Hr & H). pose proof (find_station_ptr _ _ _ Hm) as Hp.
  apply (station_steps_run _ _ p) in Hr as (m1 & H1 & H2 & _ & _ & Hmv); [|done].
  assert (pending_deinit m1 = false) as Hd.
  { apply ptk_step_steady in H1. unfold steady in H1. injection H1 as _ _ _ ->. by eapply Ha. }
  destruct s' as [m' [G' n' o'] F']. destruct Hmv as [Hp' Hg' Hc Ho]. cbn [sm grp_of gsm g_out g_calls failures fst snd] in *.
  injection H as _ <-. pose proof (rest_same_group _ _ Hg') as (Hpt & _).
  pose proof (find_group_ptr _ _ _ HG) as Hpt0. exists m, m1, m', G, G'.
  split; [done|]. split; [by apply (find_put_station p _ m)|]. split; [done|]. split; [by apply H2|].
  split; [intros q Hq; rewrite find_put_other by congruence; done|]. split; [done|].
  split; [|split; [done|by split]]. change (find_group (group m) (put_group G' w) = Ok G').
  apply (find_put_group _ _ G); [done|congruence].
Qed.

End group_machine.

(** ** A run: a station steps and its group renews the key *)

#[local] Existing Instance toy_crypto.
#[local] Existing Instance toy_env.

Definition ends_station (p : Z) : wpa_state_machine :=
  (zero_station p (take 5 ex_sta ++ [p]) 1000) <| wpa_ptk_state := WPA_PTK_PTKINITDONE |> <| PTK_valid := true |>.
Definition ends_group : WpaSm.wpa_group :=
  (zero_group 1000) <| GTKReKey := true |> <| wpa_group_state := WPA_GROUP_SETKEYSDONE |> <| GTK_len := 16 |>
    <| GN := 1 |> <| GM := 2 |> <| GN_igtk := 4 |> <| GM_igtk := 5 |>.
Definition ends_world : world := mk_world ex_auth (mk_own_ie None 0) [ends_group] [ends_station 1; ends_station 2] 0 0 0 0%nat [].

Lemma ends_world_alive : alive ends_world.
Proof.
  intros q m. unfold find_station, ends_world. cbn [stations List.find].
  destruct (bool_decide _); [intros H; by injection H as <-|].
  destruct (bool_decide _); [intros H; by injection H as <-|done].
Qed.

Definition ends_view (r : outcome (Z * world)) : option (Z * list ptk_group_state * list bool) :=
  match r with
  | Ok (x, w) => Some (x, map wpa_ptk_group_state (stations w), map GUpdateStationKeys (stations w))
  | _ => None
  end.

(** The step of the first station makes both wait for the new key; only the second is
    sent it, since its step cleared the mark that the group had changed. *)
Lemma wpa_sm_step_ends_witness :
  alive ends_world ∧ wpa_sm_step 1 ends_world ≠ Stuck ∧
  ends_view (wpa_sm_step 1 ends_world) =
    Some (0, [WPA_PTK_GROUP_IDLE; WPA_PTK_GROUP_REKEYNEGOTIATING], [true; true]).
Proof.
  split; [exact ends_world_alive|]. split; [exact (proj1 (wpa_sm_step_ends 1 ends_world ends_world_alive))|].
  vm_compute. reflexivity.
Defined.

Definition turn_of (r : outcome (bool * world)) : option (list ptk_group_state) :=
  match r with Ok (_, w) => Some (map wpa_ptk_group_state (stations w)) | _ => None end.

(** The first station is sent the group key it waits for. *)
Definition turn_world : world :=
  ends_world <| stations := [(ends_station 1) <| GUpdateStationKeys := true |>; ends_station 2] |>.

Lemma turn_world_alive : alive turn_world.
Proof.
  intros q m. unfold find_station, turn_world. cbn [stations List.find setter].
  destruct (bool_decide _); [intros H; by injection H as <-|].
  destruct (bool_decide _); [intros H; by injection H as <-|done].
Qed.

Lemma station_turn_refines_witness :
  turn_of (at_station 1 station_steps turn_world) = Some [WPA_PTK_GROUP_REKEYNEGOTIATING; WPA_PTK_GROUP_IDLE] ∧
  ∃ w' m m1 m', ptk_step (auth turn_world) m m1 ∧ group_key_step m1 m' ∧ find_station 1 w' = Ok m' ∧
    find_station 2 w' = find_station 2 turn_world.
Proof.
  assert (turn_of (at_station 1 station_steps turn_world) =
    Some [WPA_PTK_GROUP_REKEYNEGOTIATING; WPA_PTK_GROUP_IDLE]) as Hv by (vm_compute; reflexivity).
  split; [exact Hv|]. destruct (at_station 1 station_steps turn_world) as [[x w']| |] eqn:Hr; [|discriminate Hv..].
  destruct (station_turn_refines 1 turn_world x w' turn_world_alive Hr) as (m & m1 & m' & G & G' & H1 & H2 & H3 & H4 & H5 & _).
  exists w', m, m1, m'. split; [exact H3|]. split; [exact H4|]. split; [exact H2|]. by apply H5.
Defined.
