(* ===== verification/WpaFrames.v ===== *)
(** * WPA authenticator: the frames that are sent

    What [__wpa_send_eapol] of [src/ap/wpa_auth.c] writes is what the functions that
    read EAPOL-Key frames find: the fields at their places, the key data in its
    length, and a MIC that [wpa_verify_key_mic] accepts. *)

From Stdlib Require Import ZArith Lia Strings.String.
From stdpp Require Import base option list numbers decidable.
From S2P Require Import Prelude CLib Common Ieee8021x WpaCommon WpaKeys Pmksa WpaIe WpaSm WpaSteps WpaAuth WpaSafety.
Local Open Scope Z_scope.

(** ** The key information *)

(** Flags without the version of the descriptor *)
Definition info_flags (info : Z) : Prop := Z.land info 65528 = info.

Lemma land_range x n : 0 ≤ n → Z.land x (Z.ones n) = x → 0 ≤ x < 2 ^ n.
Proof. intros Hn H. rewrite Z.land_ones in H by done. rewrite <- H. apply Z.mod_pos_bound. by apply Z.pow_pos_nonneg. Qed.

Lemma flags_16 info : info_flags info → Z.land info 65535 = info ∧ Z.land info 7 = 0.
Proof. unfold info_flags. intros <-. split; rewrite <- Z.land_assoc; [done|]. by rewrite Z.land_0_r. Qed.

Section info.
Context {C : Crypto} (m : wpa_state_machine) (info v idx : Z) (encr : bool)
  (Hf : info_flags info) (Hv : v = 1 ∨ v = 2 ∨ v = 3) (Hi : 0 ≤ idx ≤ 3).

(** What is added to the flags and the version *)
Lemma eapol_key_info_with : ∃ x, eapol_key_info m info v idx encr = Z.lor (Z.lor info v) x ∧
  Z.land x 65535 = x ∧ Z.land x 7 = 0.
Proof.
  unfold eapol_key_info. destruct (decide _).
  - destruct encr; [by exists WPA_KEY_INFO_ENCR_KEY_DATA|]. exists 0. by rewrite Z.lor_0_r.
  - exists (Z.shiftl idx WPA_KEY_INFO_KEY_INDEX_SHIFT). split; [done|].
    assert (idx = 0 ∨ idx = 1 ∨ idx = 2 ∨ idx = 3) as [->|[->|[->| ->]]] by lia; done.
Qed.

Lemma eapol_key_info_range : 0 ≤ eapol_key_info m info v idx encr < 2 ^ 16.
Proof.
  destruct eapol_key_info_with as (x & -> & Hx & _). destruct (flags_16 _ Hf) as [H16 _].
  apply land_range; [lia|]. change (Z.ones 16) with 65535. rewrite !Z.land_lor_distr_l, H16, Hx. do 2 f_equal.
  by destruct Hv as [->|[->| ->]].
Qed.

Lemma eapol_key_info_version : Z.land (eapol_key_info m info v idx encr) WPA_KEY_INFO_TYPE_MASK = v.
Proof.
  destruct eapol_key_info_with as (x & -> & _ & Hx). destruct (flags_16 _ Hf) as [_ H7].
  change WPA_KEY_INFO_TYPE_MASK with 7. rewrite !Z.land_lor_distr_l, H7, Hx, Z.lor_0_r, Z.lor_0_l.
  by destruct Hv as [->|[->| ->]].
Qed.
End info.

(** ** The places of the fields *)

Lemma slice_at b1 b2 b3 i n : length b1 = i → length b2 = n → slice (b1 ++ b2 ++ b3) i n = Ok b2.
Proof. intros <- <-. apply slice_mid. Qed.

Lemma drop_at (b1 b2 : bytes) i : length b1 = i → drop i (b1 ++ b2) = b2.
Proof. intros <-. apply drop_app_length. Qed.

Lemma write_at b1 d b2 b3 i : length b1 = i → length d = length b2 → write (b1 ++ b2 ++ b3) i d = Ok (b1 ++ d ++ b3).
Proof.
  intros <- Hd. unfold write. rewrite decide_True by (rewrite !length_app; lia). rewrite Hd.
  by rewrite take_app_length, <- drop_drop, drop_app_length, drop_app_length.
Qed.

Section layout.
Context (a : wpa_authenticator) (m : wpa_state_machine) (len info klen : Z) (replay nonce iv rsc : bytes)
  (Hr : length replay = WPA_REPLAY_COUNTER_LEN) (Hn : length nonce = WPA_NONCE_LEN) (Hiv : length iv = 16%nat)
  (Hrsc : length rsc = WPA_KEY_RSC_LEN) (rest : bytes).

Definition key_head := eapol_key_head a m len info klen replay nonce iv rsc.

Lemma key_head_length : length key_head = key_mic_at.
Proof.
  unfold key_head, eapol_key_head. rewrite !length_app, Hr, Hn, Hiv, Hrsc. reflexivity.
Qed.

Lemma key_head_info : 0 ≤ info < 2 ^ 16 → WPA_GET_BE16 (drop key_info_at (key_head ++ rest)) = Ok info.
Proof.
  intros Hi. unfold key_head, eapol_key_head. cbn [app WPA_PUT_BE16 drop key_info_at].
  by apply (get_put_be16 info).
Qed.

Lemma key_head_type : rd (key_head ++ rest) 4 =
  Ok (if decide (sm_wpa (assoc m) = WPA_VERSION_WPA2) then EAPOL_KEY_TYPE_RSN else EAPOL_KEY_TYPE_WPA).
Proof. reflexivity. Qed.

(** The nine octets before the replay counter *)
Lemma key_head_split : ∃ pre, length pre = replay_counter_at ∧
  key_head ++ rest = pre ++ replay ++ nonce ++ iv ++ rsc ++ replicate 8 0 ++ rest.
Proof.
  eexists ([_; _; _; _; _; _; _; _; _]). split; [reflexivity|].
  unfold key_head, eapol_key_head. rewrite <- !app_assoc. cbn [app WPA_PUT_BE16]. reflexivity.
Qed.

Lemma key_head_replay : slice (key_head ++ rest) replay_counter_at WPA_REPLAY_COUNTER_LEN = Ok replay.
Proof. destruct key_head_split as (pre & Hp & ->). by apply slice_at. Qed.

Lemma key_head_nonce : slice (key_head ++ rest) key_nonce_at WPA_NONCE_LEN = Ok nonce.
Proof.
  destruct key_head_split as (pre & Hp & ->). rewrite (app_assoc pre). apply slice_at; [|done].
  by rewrite length_app, Hp, Hr.
Qed.
End layout.

(** ** The MIC *)

Section mic.
Context {C : Crypto} {HC : CryptoOk C}.

Lemma eapol_mic_length key len v buf h : wpa_eapol_key_mic key len v buf = Some h → length h = 16%nat.
Proof.
  unfold wpa_eapol_key_mic. destruct (decide _).
  { intros H%hmac_md5_len. unfold zlen, MD5_MAC_LEN in H. lia. }
  destruct (decide _).
  { destruct (hmac_sha1 _ _) as [x|] eqn:Hx; [|done]. cbn. intros [= <-]. apply hmac_sha1_len in Hx.
    rewrite length_take. unfold zlen, SHA1_MAC_LEN, MD5_MAC_LEN in *. lia. }
  destruct (decide _); [|done]. intros H%omac1_aes_128_len. unfold zlen in H. lia.
Qed.

(** The MIC over the frame with zeros in its place *)
Lemma mic_verifies akm ptk head rest v h info :
  wpa_mic_len akm = 16 → length head = key_mic_at → (2 ≤ length rest)%nat →
  WPA_GET_BE16 (drop key_info_at (head ++ h ++ rest)) = Ok info → Z.land info WPA_KEY_INFO_TYPE_MASK = v →
  wpa_eapol_key_mic (kck ptk) (kck_len ptk) v (head ++ replicate 16 0 ++ rest) = Some h →
  wpa_verify_key_mic akm ptk (head ++ h ++ rest) = Ok 0.
Proof.
  intros Ha Hh Hr Hi Hv Hm. pose proof (eapol_mic_length _ _ _ _ _ Hm) as Hl. unfold wpa_verify_key_mic.
  rewrite Ha. change (Z.to_nat 16) with 16%nat. unfold zlen. rewrite !length_app, Hh, Hl.
  rewrite decide_False by (unfold sizeof_ieee802_1x_hdr, sizeof_wpa_eapol_key, key_mic_at; lia).
  rewrite Hi, bind_Ok, (slice_at head h rest) by done. rewrite bind_Ok, (write_at head (replicate 16 0) h rest) by done.
  rewrite bind_Ok, Hv, Hm. rewrite decide_True; [done|]. unfold overlay. rewrite Hl. cbn [drop replicate]. by rewrite app_nil_r.
Qed.
End mic.

(** ** The key data *)

Section data.
Context {C : Crypto} {HC : CryptoOk C} {E : Wpa_env} (a : wpa_authenticator).

Definition padded (kde_len : Z) (k : bytes) : bytes :=
  k ++ (if decide (pad_len kde_len = 0) then [] else 0xdd :: replicate (Z.to_nat (pad_len kde_len - 1)) 0).

(** What is in the frame for the octets [k] *)
Definition key_data_of (m : wpa_state_machine) (v : Z) (encr : bool) (iv k kd : bytes) : Prop :=
  if encr then
    if wraps_keys m v then aes_wrap (take (Z.to_nat (kek_len (PTK m))) (kek (PTK m))) (padded (zlen k) k) = Some kd
    else kd = rc4_skip (iv ++ take 16 (kek (PTK m))) 256 k
  else kd = k.

Definition data_space (m : wpa_state_machine) (v kde_len : Z) (encr : bool) : Z :=
  if wraps_keys m v && encr then kde_len + pad_len kde_len + 8 else kde_len.

Lemma pad_len_range n : 0 ≤ pad_len n < 8.
Proof. unfold pad_len. pose proof (Z.mod_pos_bound n 8 ltac:(lia)). case_decide; lia. Qed.

Lemma padded_length n k : zlen k = n → zlen (padded n k) = n + pad_len n.
Proof.
  intros <-. unfold padded. pose proof (pad_len_range (zlen k)). unfold zlen in *. rewrite length_app.
  case_decide; cbn [length]; [lia|]. rewrite length_replicate. lia.
Qed.

Lemma eapol_key_data_shape m m0 v kde kde_len encr g n o F iv kd lf s' :
  length (Counter g) = WPA_NONCE_LEN → 0 ≤ kde_len →
  eapol_key_data m v kde kde_len (data_space m v kde_len encr) encr (mk_sta m0 (mk_grp g n o) F) = Ok (Some (iv, kd, lf), s') →
  length iv = 16%nat ∧
  ((kde = None ∧ lf = 0) ∨
   ∃ k, kde = Some k ∧ (Z.to_nat kde_len ≤ length k)%nat ∧ lf = zlen kd ∧ zlen kd = data_space m v kde_len encr ∧
     key_data_of m v encr iv (take (Z.to_nat kde_len) k) kd).
Proof.
  intros Hc Hl H. unfold eapol_key_data in H. destruct kde as [k|]; [|run H; simplify_eq; split; [done|by left]].
  run H. rename H0 into Hk. apply slice_start in Hk as [-> Hlen]. rewrite length_take in Hlen.
  assert (zlen (take (Z.to_nat kde_len) k) = kde_len) as Hz by (unfold zlen; rewrite length_take; lia).
  unfold key_data_of, data_space in *. destruct encr.
  2:{ run H. simplify_eq. split; [done|right]. exists k. rewrite andb_false_r. split_and!; try done. lia. }
  run H. destruct (env_mem n); cbn [negb] in H; [|run H; done].
  destruct (wraps_keys m v); cbn [andb] in *.
  - destruct (aes_wrap _ _) as [c|] eqn:Hw; run H; [|done]. simplify_eq. split; [done|right]. exists k.
    pose proof (aes_wrap_len _ _ _ Hw) as Hcl. fold (padded kde_len (take (Z.to_nat kde_len) k)) in Hw, Hcl.
    rewrite (padded_length kde_len) in Hcl by done. rewrite Hz. split_and!; try done; lia.
  - case_decide; run H; [|done]. simplify_eq.
    match goal with |- length ?i = _ ∧ _ => assert (length i = 16%nat) as Hi by (rewrite length_drop, Hc; reflexivity) end.
    split; [exact Hi|right]. exists k. rewrite rc4_skip_len, Hz. split_and!; try done; lia.
Qed.
End data.

(** ** The frame *)

Lemma info_mic {C : Crypto} m info v idx encr :
  has_flag info WPA_KEY_INFO_MIC = true → has_flag (eapol_key_info m info v idx encr) WPA_KEY_INFO_MIC = true.
Proof.
  unfold has_flag. rewrite !negb_true_iff, !Z.eqb_neq. intros Hi Hz. apply Hi. clear Hi.
  assert (∃ y, eapol_key_info m info v idx encr = Z.lor info y) as [y Hy].
  { unfold eapol_key_info. destruct (decide _); [destruct encr|]; rewrite <- ?Z.lor_assoc; eauto. }
  rewrite Hy, Z.land_lor_distr_l in Hz. by apply Z.lor_eq_0_iff in Hz as [? _].
Qed.

Section frame.
Context {C : Crypto} {HC : CryptoOk C} {E : Wpa_env} (a : wpa_authenticator).

(** What callers give, and the state of the station and its group: everything has the
    length of its array, the suites use a MIC of 16 octets with a known version, and
    the hash functions do not fail. *)
Record sending (m : wpa_state_machine) (G : WpaSm.wpa_group) (info idx : Z) (rsc nonce : option bytes) : Prop := {
  sd_info : info_flags info;
  sd_mic : has_flag info WPA_KEY_INFO_MIC = true;
  sd_idx : 0 ≤ idx ≤ 3;
  sd_nonce : ∀ x, nonce = Some x → length x = WPA_NONCE_LEN;
  sd_rsc : ∀ x, rsc = Some x → length x = WPA_KEY_RSC_LEN;
  sd_counter : length (Counter G) = WPA_NONCE_LEN;
  sd_replay : ∃ c l, key_replay m = c :: l ∧ length (counter c) = WPA_REPLAY_COUNTER_LEN;
  sd_mic_len : wpa_mic_len (sm_key_mgmt (assoc m)) = 16;
  sd_version : key_version m 0 ≠ 0;
  sd_hash : ∀ buf, wpa_eapol_key_mic (kck (PTK m)) (kck_len (PTK m)) (key_version m 0) buf ≠ None }.

Lemma key_version_cases m : key_version m 0 ≠ 0 → key_version m 0 = 1 ∨ key_version m 0 = 2 ∨ key_version m 0 = 3.
Proof.
  unfold key_version. rewrite decide_False by (intros Hx; by apply Hx).
  destruct (_ || _); [intros Hx; by destruct Hx|]. destruct (wpa_use_aes_cmac m); [by auto|]. case_decide; auto.
Qed.

(** A frame with the fields of a station is parsed to them. *)
Lemma parse_sent m info len klen replay nonce iv rsc mic lf kd :
  0 ≤ info < 2 ^ 16 → 0 ≤ lf < 2 ^ 16 → lf ≤ zlen kd → wpa_mic_len (sm_key_mgmt (assoc m)) = 16 → length mic = 16%nat →
  length replay = WPA_REPLAY_COUNTER_LEN → length nonce = WPA_NONCE_LEN → length iv = 16%nat → length rsc = WPA_KEY_RSC_LEN →
  parse_eapol_key m (key_head a m len info klen replay nonce iv rsc ++ mic ++ WPA_PUT_BE16 lf ++ kd) =
    Ok (Some (mk_rx_key info replay nonce (take (Z.to_nat lf) kd))).
Proof.
  intros Hi Hlf Hle Hm Hmic Hr Hn Hiv Hrsc. unfold parse_eapol_key, keyhdrlen. rewrite Hm. rewrite (decide_False (P := 16 = 24)) by lia.
  change (Z.to_nat (sizeof_ieee802_1x_hdr + sizeof_wpa_eapol_key)) with 99%nat.
  set (rest := mic ++ WPA_PUT_BE16 lf ++ kd).
  pose proof (key_head_length a m len info klen replay nonce iv rsc Hr Hn Hiv Hrsc) as Hh. unfold key_mic_at in Hh.
  pose proof (key_head_info a m len info klen replay nonce iv rsc rest Hi) as H1.
  pose proof (key_head_type a m len info klen replay nonce iv rsc rest) as H2.
  pose proof (key_head_replay a m len info klen replay nonce iv rsc Hr rest) as H3.
  pose proof (key_head_nonce a m len info klen replay nonce iv rsc Hr Hn rest) as H4.
  set (head := key_head a m len info klen replay nonce iv rsc) in *.
  assert (zlen (head ++ rest) = 99 + zlen kd) as Hz.
  { unfold zlen, rest. rewrite !length_app, Hh, Hmic. change (length (WPA_PUT_BE16 lf)) with 2%nat. lia. }
  rewrite Hz. pose proof (zlen_nonneg kd). rewrite decide_False by lia. rewrite H1, bind_Ok.
  assert (drop (99 - 2) (head ++ rest) = WPA_PUT_BE16 lf ++ kd) as ->.
  { unfold rest. rewrite (app_assoc head mic). apply drop_at. rewrite length_app. lia. }
  rewrite (get_put_be16 lf) by done. rewrite bind_Ok. rewrite decide_False by lia.
  change (Z.to_nat sizeof_ieee802_1x_hdr) with 4%nat. rewrite H2, bind_Ok.
  rewrite decide_False by (destruct (decide (sm_wpa (assoc m) = WPA_VERSION_WPA2)); intros [X1 X2]; [by apply X2|by apply X1]).
  rewrite H3, bind_Ok, H4, bind_Ok.
  assert (slice (head ++ rest) 99 (Z.to_nat lf) = Ok (take (Z.to_nat lf) kd)) as ->; [|done].
  unfold rest. rewrite (app_assoc head mic), (app_assoc (head ++ mic)). rewrite <- (take_drop (Z.to_nat lf) kd) at 1.
  apply slice_at; [|rewrite length_take; unfold zlen in *; lia]. rewrite !length_app, Hh, Hmic. reflexivity.
Qed.

Definition head_counter (m : wpa_state_machine) : bytes := from_option counter [] (head (key_replay m)).

Lemma inc_byte_array_length b : length (inc_byte_array b) = length b.
Proof.
  unfold inc_byte_array. generalize (length b) at 1. intros k. revert b.
  induction k as [|k IH]; intros b; [done|]. cbn [inc_byte_loop]. destruct (decide _); [apply length_insert|].
  by rewrite IH, length_insert.
Qed.

Lemma next_counter m : ∀ c l, key_replay m = c :: l → length (counter c) = WPA_REPLAY_COUNTER_LEN →
  from_option counter [] (head (next_replay (key_replay m))) = inc_byte_array (counter c) ∧
  length (inc_byte_array (counter c)) = WPA_REPLAY_COUNTER_LEN.
Proof. intros c l -> Hl. split; [done|]. by rewrite inc_byte_array_length. Qed.

(** C20. What is sent is read back: a frame of [__wpa_send_eapol] with a MIC is parsed
    by the function that reads EAPOL-Key frames to the key information, the replay
    counter the station keeps, the nonce and the key data that was given - encrypted as
    the version of the descriptor says -, and its MIC is right under the key of the
    station. *)
Theorem sent_frame_read m G n o F info rsc nonce kde kde_len idx encr x s' :
  sending m G info idx rsc nonce → 0 ≤ kde_len ≤ 60000 →
  __wpa_send_eapol a info rsc nonce kde kde_len idx encr 0 (mk_sta m (mk_grp G n o) F) = Ok (x, s') →
  g_out (grp_of s') = o ∨
  ∃ frame iv kd, let v := key_version m 0 in let akm := sm_key_mgmt (assoc m) in
    g_out (grp_of s') = Send_eapol (sm_addr (assoc m)) frame (pairwise_set m) ::
      Set_eapol (sm_addr (assoc m)) WPA_EAPOL_inc_EapolFramesTx true :: o ∧
    parse_eapol_key m frame = Ok (Some (mk_rx_key (eapol_key_info m info v idx encr) (head_counter (sm s'))
      (default (replicate WPA_NONCE_LEN 0) nonce) kd)) ∧
    (∀ k, kde = Some k → key_data_of m v encr iv (take (Z.to_nat kde_len) k) kd) ∧ (kde = None → kd = []) ∧
    wpa_verify_key_mic akm (PTK m) frame = Ok 0.
Proof.
  intros [Hf Hmic Hi Hn Hrsc HC' (c & l & Hkr & Hc) Hml Hv Hh] Hl H.
  pose proof (key_version_cases m Hv) as Hvc. destruct (next_counter m c l Hkr Hc) as [Hnc Hnl].
  pose proof (eapol_key_info_range m info _ idx encr Hf Hvc Hi) as Hrange.
  pose proof (eapol_key_info_version m info _ idx encr Hf Hvc Hi) as Hver.
  pose proof (info_mic m info (key_version m 0) idx encr Hmic) as Hmic'.
  open H. fields_in H. run H. destruct (env_mem n); cbn [negb] in H; [|run H; by left].
  run H. rename Hrun into Hd. fields_in H. rewrite Hnc in H.
  pose proof Hd as Hd'. apply eapol_key_data_run in Hd' as (g' & n' & -> & _).
  destruct x1 as [[[iv kd] lf]|]; [|run H; by left].
  apply (eapol_key_data_shape m _ _ _ _ encr) in Hd as [Hiv Hkd]; [|done|lia].
  rewrite Hmic' in H. cbn [andb] in H. destruct (PTK_valid m); cbn [negb] in H; [|run H; by left].
  rewrite Hml in H. change (Z.to_nat 16) with 16%nat in H.
  set (nonce' := default (replicate WPA_NONCE_LEN 0) nonce) in *.
  set (rsc' := default (replicate WPA_KEY_RSC_LEN 0) rsc) in *.
  assert (length nonce' = WPA_NONCE_LEN) as Hn' by (unfold nonce'; destruct nonce; cbn; auto).
  assert (length rsc' = WPA_KEY_RSC_LEN) as Hrsc' by (unfold rsc'; destruct rsc; cbn; auto).
  match type of H with context [eapol_key_head a m ?L ?I ?K ?R ?N ?V ?S] =>
    change (eapol_key_head a m L I K R N V S) with (key_head a m L I K R N V S) in H;
    pose proof (key_head_length a m L I K R N V S Hnl Hn' Hiv Hrsc') as Hhl; set (len := L) in *; set (klen := K) in * end.
  set (info' := eapol_key_info m info (key_version m 0) idx encr) in *.
  set (hd := key_head a m len info' klen (inc_byte_array (counter c)) nonce' iv rsc') in *.
  set (rest := WPA_PUT_BE16 lf ++ kd) in *.
  destruct (wpa_eapol_key_mic (kck (PTK m)) (kck_len (PTK m)) (key_version m 0) (hd ++ replicate 16 0 ++ rest)) as [h|] eqn:Hm;
    [|by destruct (Hh (hd ++ replicate 16 0 ++ rest))].
  pose proof (eapol_mic_length _ _ _ _ _ Hm) as Hhlen. cbn [default from_option id] in H.
  rewrite (write_at hd h (replicate 16 0) rest) in H by done. run H. injection H0 as <-. right.
  exists (hd ++ h ++ rest), iv, (take (Z.to_nat lf) kd). cbn zeta. cbn [grp_of g_out sm].
  assert (0 ≤ lf < 2 ^ 16 ∧ lf ≤ zlen kd) as [Hlf Hle].
  { pose proof (zlen_nonneg kd). destruct Hkd as [[_ ->]|(k & _ & _ & -> & Hz & _)]; [lia|].
    split; [|lia]. rewrite Hz. unfold data_space. pose proof (pad_len_range kde_len). destruct (_ && _); lia. }
  split; [done|]. split; [|split; [|split]].
  - unfold head_counter. cbn [key_replay]. rewrite Hnc. by apply parse_sent.
  - intros k ->. destruct Hkd as [[? _]|(k' & [= <-] & _ & -> & _ & Hk)]; [done|].
    unfold zlen. by rewrite Nat2Z.id, (take_ge kd).
  - intros ->. destruct Hkd as [[_ ->]|(k' & ? & _)]; done.
  - apply (mic_verifies _ _ _ _ (key_version m 0) _ info'); try done.
    + unfold rest. rewrite length_app. cbn. lia.
    + by apply key_head_info.
Qed.
End frame.

(** ** A frame: message 3 with its key data encrypted *)

#[local] Existing Instance toy_crypto.
#[local] Existing Instance toy_env.

Definition frame_sta : wpa_state_machine :=
  let m := zero_station 2000 ex_sta 1000 in
  m <| assoc := (assoc m) <| sm_wpa := WPA_VERSION_WPA2 |> <| sm_key_mgmt := WPA_KEY_MGMT_PSK_SHA256 |>
                  <| sm_pairwise := WPA_CIPHER_CCMP |> |>
    <| PTK := sup_ptk (replicate 32 7) |> <| PTK_valid := true |>.
Definition frame_info : Z :=
  Z.lor (Z.lor (Z.lor (Z.lor WPA_KEY_INFO_SECURE WPA_KEY_INFO_MIC) WPA_KEY_INFO_ACK) WPA_KEY_INFO_INSTALL) WPA_KEY_INFO_KEY_TYPE.
Definition frame_out : outcome (unit * sta) :=
  __wpa_send_eapol ex_auth frame_info (Some (replicate 8 1)) (Some (replicate 32 5)) (Some [221; 3; 1; 2; 3]) 5 1 true 0
    (mk_sta frame_sta (mk_grp (zero_group 1000) 0%nat []) 0).
Definition frame_sent : option bytes :=
  match frame_out with Ok (_, s) => match g_out (grp_of s) with Send_eapol _ f _ :: _ => Some f | _ => None end | _ => None end.

Lemma frame_sending : sending frame_sta (zero_group 1000) frame_info 1 (Some (replicate 8 1)) (Some (replicate 32 5)).
Proof.
  split; try done; try (by intros x [= <-]).
  by eexists _, _.
Qed.

(** What the frame is: computed *)
Definition frame_octets : bytes := Eval vm_compute in default [] frame_sent.
Definition frame_data : bytes := Eval vm_compute in drop 99 frame_octets.

Lemma frame_out_is : match frame_out with Ok (_, s) => Some (g_out (grp_of s), head_counter (sm s)) | _ => None end =
  Some ([Send_eapol ex_sta frame_octets false; Set_eapol ex_sta WPA_EAPOL_inc_EapolFramesTx true], [0; 0; 0; 0; 0; 0; 0; 1]).
Proof. vm_compute. reflexivity. Qed.

Lemma frame_data_is iv kd :
  key_data_of frame_sta (key_version frame_sta 0) true iv (take (Z.to_nat 5) [221; 3; 1; 2; 3]) kd → kd = frame_data.
Proof.
  assert (wraps_keys frame_sta (key_version frame_sta 0) = true) as Hw by (vm_compute; reflexivity).
  assert (aes_wrap (take (Z.to_nat (kek_len (PTK frame_sta))) (kek (PTK frame_sta)))
    (padded (zlen (take (Z.to_nat 5) [221; 3; 1; 2; 3])) (take (Z.to_nat 5) [221; 3; 1; 2; 3])) = Some frame_data) as Hk
    by (vm_compute; reflexivity).
  unfold key_data_of. rewrite Hw, Hk. intros H. by injection H as <-.
Qed.

Strategy expand [frame_out].
Lemma sent_frame_read_witness :
  parse_eapol_key frame_sta frame_octets =
    Ok (Some (mk_rx_key (eapol_key_info frame_sta frame_info (key_version frame_sta 0) 1 true)
      [0; 0; 0; 0; 0; 0; 0; 1] (replicate 32 5) frame_data)) ∧
  zlen frame_data = 16 ∧ wpa_verify_key_mic (sm_key_mgmt (assoc frame_sta)) (PTK frame_sta) frame_octets = Ok 0.
Proof.
  pose proof frame_out_is as Hf. destruct frame_out as [[[] s]| |] eqn:Ho; [|discriminate Hf..]. unfold frame_out in Ho.
  injection Hf as Hout Hc. assert (CryptoOk toy_crypto) as HC by exact toy_crypto_ok.
  destruct (sent_frame_read ex_auth frame_sta (zero_group 1000) 0 [] 0 frame_info (Some (replicate 8 1))
    (Some (replicate 32 5)) (Some [221; 3; 1; 2; 3]) 5 1 true tt s frame_sending ltac:(lia) Ho)
    as [Hn|(frame & iv & kd & Hs & Hp & Hk & _ & Hv)]; [rewrite Hn in Hout; discriminate Hout|].
  rewrite Hout in Hs. injection Hs as <-. rewrite Hc in Hp. apply frame_data_is in Hk as ->; [|reflexivity].
  split; [exact Hp|]. split; [reflexivity|exact Hv].
Defined.
