(* ===== verification/WpaOps.v ===== *)
(** * WPA authenticator: every operation ends

    [WpaEnds] shows that the steps of stations end. Here: the loop over a group and the
    loop over all groups when the group key is renewed, and with them every operation the
    access point calls ([perform] of [WpaSafety]). What holds between operations
    ([settled_world]) is kept by each of them. [to_rest] is the triple of this file, with
    the tactic [rests]. *)

From Stdlib Require Import ZArith Lia Strings.String.
From stdpp Require Import base option list numbers decidable.
From S2P Require Import Prelude CLib Common Reltime Eloop Ieee8021x WpaCommon WpaKeys Pmksa WpaIe WpaSm WpaSteps WpaAuth.
From S2P Require Import WpaTriples WpaSafety WpaEnds.
Local Open Scope Z_scope.

(** ** Addresses of groups *)

Definition group_ptrs (w : world) : list Z := map g_ptr (groups w).

(** Groups are only taken away from those of [l]. *)
Definition within_ptrs (l : list Z) (w : world) : Prop := sublist (group_ptrs w) l.

Lemma put_group_ptrs g w : group_ptrs (put_group g w) = group_ptrs w.
Proof.
  unfold group_ptrs, put_group. cbn [groups setter]. rewrite map_map. apply map_ext. intros g'. by case_decide.
Qed.

Lemma within_put_group l g w : within_ptrs l w → within_ptrs l (put_group g w).
Proof. unfold within_ptrs. by rewrite put_group_ptrs. Qed.

Lemma within_same l w w' : groups w' = groups w → within_ptrs l w → within_ptrs l w'.
Proof. unfold within_ptrs, group_ptrs. by intros ->. Qed.

Lemma sublist_map_filter {A} (f : A → Z) (P : A → Prop) `{∀ x, Decision (P x)} l : sublist (map f (filter P l)) (map f l).
Proof.
  induction l as [|x l IH]; [done|]. rewrite filter_cons. case_decide; cbn [map]; [by apply sublist_skip|by apply sublist_cons].
Qed.

(** The number of elements behind [q] *)
Fixpoint after (q : Z) (l : list Z) : nat :=
  match l with [] => 0%nat | x :: l => if decide (x = q) then length l else after q l end.

Lemma after_length q l : (after q l ≤ length l)%nat.
Proof. induction l; cbn; [lia|]. case_decide; lia. Qed.

Lemma after_sublist q l l' : sublist l l' → (after q l ≤ after q l')%nat.
Proof.
  induction 1 as [|x l l' Hs IH|x l l' Hs IH]; cbn [after]; [lia| |].
  - apply sublist_length in Hs. by case_decide.
  - apply sublist_length in Hs. pose proof (after_length q l). case_decide; lia.
Qed.

Lemma after_next p q l : NoDup (map g_ptr l) → next_in p l = Some q → (after q (map g_ptr l) < after p (map g_ptr l))%nat.
Proof.
  induction l as [|g l IH]; [done|]. cbn [map next_in after]. intros [Hn Hd]%list.NoDup_cons Hq.
  destruct (decide (g_ptr g = p)) as [Hp|Hp].
  - destruct l as [|g' l]; [done|]. injection Hq as <-. cbn [map head] in *.
    rewrite decide_False by (intros He; apply Hn; rewrite He; by left). cbn [after]. rewrite decide_True by done. cbn. lia.
  - rewrite decide_False; [by apply IH|]. intros He. apply Hn. rewrite He. clear - Hq.
    induction l as [|g' l IH]; [done|]. cbn [next_in] in Hq. case_decide.
    + destruct l as [|g2 l]; [done|]. injection Hq as <-. right. by left.
    + right. by apply IH.
Qed.

(** ** Worlds between the steps of the stations in [X] *)

Definition flags (m : wpa_state_machine) : Z * bool * bool := (sm_ptr m, pending_deinit m, in_step_loop m).

(** No station is to be removed, and only stations in [X] are stepping. *)
Definition undisturbed (X : Z → Prop) (w : world) : Prop :=
  ∀ m, m ∈ stations w → pending_deinit m = false ∧ (in_step_loop m = true → X (sm_ptr m)).

Definition resting (l : list Z) (X : Z → Prop) (w : world) : Prop := within_ptrs l w ∧ undisturbed X w.

Lemma resting_alive l X w : resting l X w → alive w.
Proof. intros [_ Hc] p m [Hin _]%find_station_in. by apply Hc. Qed.

Lemma resting_same l X w w' : same_parts w w' → resting l X w → resting l X w'.
Proof. intros [Hs Hg] [Hl Hc]. split; [by eapply within_same|]. unfold undisturbed. by rewrite Hs. Qed.

Lemma resting_put_group l X g w : resting l X w → resting l X (put_group g w).
Proof. intros [Hl Hc]. split; [by apply within_put_group|exact Hc]. Qed.

Lemma resting_put_station l X p m m' w :
  find_station p w = Ok m → flags m' = flags m → resting l X w → resting l X (put_station m' w).
Proof.
  unfold flags. intros [Hin _]%find_station_in [= Hp Hd Hi] [Hl Hc]. split; [exact Hl|].
  intros m0 [->|[H0 _]]%in_put_station; [|by apply Hc]. rewrite Hp, Hd, Hi. by apply Hc.
Qed.

Lemma resting_fewer l X w w' : (∀ m, m ∈ stations w' → m ∈ stations w) → sublist (groups w') (groups w) →
  resting l X w → resting l X w'.
Proof.
  intros Hs Hg [Hl Hc]. split; [|intros m Hm; by apply Hc, Hs]. unfold within_ptrs, group_ptrs in *. etrans; [|exact Hl].
  clear - Hg. induction Hg; cbn [map]; by constructor.
Qed.

Lemma filter_sublist {A} (P : A → Prop) `{∀ x, Decision (P x)} (l : list A) : sublist (filter P l) l.
Proof. induction l as [|x l IH]; [done|]. rewrite filter_cons. case_decide; by constructor. Qed.

(** ** Operations that keep a world resting *)

Section resting.
Context {C : Crypto} {E : Wpa_env} (l : list Z).
Abbreviation kept X m := (keeps (resting l X) m).

Section kept.
Context (X : Z → Prop).

Lemma kept_upd (f : world → world) : (∀ w, same_parts w (f w)) → kept X (w_upd f).
Proof. intros Hf w x w' Hw H. apply w_upd_inv in H as ->. by eapply resting_same. Qed.
Lemma kept_emit e : kept X (w_emit e).
Proof. by apply kept_upd. Qed.
Lemma kept_ask {A} (f : nat → A) : kept X (w_ask f).
Proof. intros w x w' Hw H. unfold w_ask in H. simplify_eq. by eapply (resting_same _ _ w). Qed.
Lemma kept_gr_upd p f : kept X (gr_upd p f).
Proof. intros w x w' Hw H. apply gr_upd_inv in H as (g & _ & ->). by apply resting_put_group. Qed.
Lemma kept_s_upd p f : (∀ m, flags (f m) = flags m) → kept X (s_upd p f).
Proof. intros Hf w x w' Hw H. apply s_upd_inv in H as (m & Hm & ->). by eapply resting_put_station. Qed.
Lemma kept_at_group {A} p (op : wpa_authenticator → S_M grp A) : kept X (at_group p op).
Proof.
  intros w x w' Hw H. apply at_group_inv in H as (g & gr & _ & _ & Hs). eapply resting_same; [exact Hs|].
  by apply resting_put_group.
Qed.

(** The operation leaves the flags of a station that is to stay. *)
Lemma kept_at_station {A} p (op : wpa_authenticator → own_ie → S_M sta A) :
  (∀ a ow m g n o F x s', at_ptr m p → pending_deinit m = false →
     op a ow (mk_sta m (mk_grp g n o) F) = Ok (x, s') → flags (sm s') = flags m) →
  kept X (at_station p op).
Proof.
  intros Hop w x w' Hw H. apply at_station_inv in H as (m & g & s' & Hm & _ & H & Hs). eapply resting_same; [exact Hs|].
  pose proof (resting_alive _ _ _ Hw _ _ Hm) as Hd. pose proof (find_station_ptr _ _ _ Hm) as Hp.
  eapply (resting_put_station _ _ p m); [exact Hm|by eapply Hop|by apply resting_put_group].
Qed.

Lemma kept_done p : kept X (at_station p (λ _ _, group_key_done)).
Proof. apply kept_at_station. intros a ow m g n o F x s' Hp _ H. apply (group_key_done_run p) in H as [-> _ _ _]; done. Qed.
Lemma kept_count p f : kept X (at_station p (λ _ _, set_GKeyDoneStations f)).
Proof. apply kept_at_station. intros a ow m g n o F x s' Hp _ H. by apply set_count_run in H as (k & _ & ->). Qed.
Lemma kept_steps p : kept X (at_station p station_steps).
Proof.
  apply kept_at_station. intros a ow m g n o F x s' Hp Hd H.
  apply (station_steps_run _ _ p) in H as (m1 & H1 & H2 & _ & _ & Hmv); [|done].
  apply ptk_step_steady in H1. unfold steady in H1. injection H1 as _ _ Hi1 Hd1. rewrite Hd in Hd1.
  specialize (H2 Hd1). apply group_key_step_steady in H2. unfold steady in H2. injection H2 as _ _ Hi2 Hd2.
  destruct Hmv as [Hp2 _ _ _]. unfold flags. unfold at_ptr in Hp. congruence.
Qed.
#[local] Hint Resolve kept_emit kept_ask kept_gr_upd kept_at_group kept_done kept_count kept_steps : keeps.
#[local] Hint Extern 1 (triple _ (s_upd _ _) _) =>
  apply kept_s_upd; let m := fresh in intros m; first [reflexivity|cbv beta; case_decide; reflexivity] : keeps.

Lemma kept_group_get p : kept X (wpa_group_get p).
Proof. unfold wpa_group_get. keeps. Qed.
Lemma kept_group_free p : kept X (wpa_group_free p).
Proof.
  unfold wpa_group_free. apply keeps_bind; [|intros _; apply kept_emit]. intros w x w' Hw H. apply w_upd_inv in H as ->.
  destruct (groups w) as [|f l0] eqn:Hg; [done|]. eapply (resting_fewer _ _ w); [done| |exact Hw].
  rewrite Hg. apply sublist_skip, filter_sublist.
Qed.
#[local] Hint Resolve kept_group_get kept_group_free : keeps.
Lemma kept_group_put p : kept X (wpa_group_put p).
Proof. unfold wpa_group_put. keeps. Qed.
#[local] Hint Resolve kept_group_put : keeps.
Lemma kept_drop_station p : kept X (w_upd (λ w, w <| stations := filter (λ m, sm_ptr m ≠ p) (stations w) |>)).
Proof.
  intros w x w' Hw H. apply w_upd_inv in H as ->. eapply (resting_fewer _ _ w); [|done|exact Hw].
  cbn. by intros m [_ Hm]%list_elem_of_filter.
Qed.
#[local] Hint Resolve kept_drop_station : keeps.
Lemma kept_free_sta p : kept X (wpa_free_sta_sm p).
Proof. unfold wpa_free_sta_sm. keeps. Qed.

Context (step : Z → W unit) (Hstep : ∀ q, kept X (step q)).
#[local] Hint Resolve Hstep : keeps.

Lemma kept_update_sta g q : kept X (wpa_group_update_sta step g q).
Proof. unfold wpa_group_update_sta. keeps. Qed.
Lemma kept_fatal g : kept X (wpa_group_fatal_failure g).
Proof. unfold wpa_group_fatal_failure. keeps. apply keeps_for_each. intros q. unfold wpa_group_disconnect_cb. keeps. Qed.
#[local] Hint Resolve kept_update_sta kept_fatal : keeps.
Lemma kept_sm_step g : kept X (wpa_group_sm_step step g).
Proof.
  unfold wpa_group_sm_step, wpa_group_gtk_init, wpa_group_setkeysdone, wpa_group_setkeys. keeps; apply keeps_for_each; keeps.
Qed.
#[local] Hint Resolve kept_sm_step : keeps.
Lemma kept_loop fuel p : kept X (step_loop step fuel p).
Proof. induction fuel as [|fuel IH]; [by intros w x w' _ H|]. cbn [step_loop]. keeps. Qed.
End kept.

(** The station itself is stepping while it steps, and not afterwards. *)
Definition or_this (X : Z → Prop) (p : Z) (q : Z) : Prop := X q ∨ q = p.

Lemma set_stepping X p (b : bool) w : ∀ x w', resting l (or_this X p) w →
  s_upd p (λ m, m <| in_step_loop := b |>) w = Ok (x, w') → resting l (if b then or_this X p else X) w'.
Proof.
  intros x w' [Hl Hc] H. apply s_upd_inv in H as (m & Hm & ->). apply find_station_in in Hm as [Hin Hp].
  split; [exact Hl|]. intros m0 [->|[H0 Hne]]%in_put_station.
  - cbn. split; [by apply Hc|]. intros ->. by right.
  - destruct (Hc m0 H0) as [Hd Hi]. split; [done|]. change (sm_ptr m0 ≠ sm_ptr m) in Hne. intros Hs. destruct (Hi Hs) as [Hx|Heq]; [|congruence].
    destruct b; [by left|done].
Qed.

Lemma resting_weaken (X Y : Z → Prop) w : (∀ q, X q → Y q) → resting l X w → resting l Y w.
Proof. intros Hxy [Hl Hc]. split; [done|]. intros m Hm. destruct (Hc m Hm). auto. Qed.

Lemma kept_station X step p : (∀ q, kept (or_this X p) (step q)) → kept X (step_station step p).
Proof.
  intros Hstep. unfold step_station. apply keeps_bind; [apply keeps_s_get|]. intros [|]; [apply keeps_ret|].
  apply (triple_bind _ _ (λ _, resting l (or_this X p))).
  { intros w x w' Hw H. apply (set_stepping X p true _ _ _) in H; [done|]. eapply resting_weaken; [|exact Hw]. by left. }
  intros _. apply (triple_bind _ _ (λ _, resting l (or_this X p))); [by apply kept_loop|].
  intros _. apply (triple_bind _ _ (λ _, resting l X)).
  { intros w x w' Hw H. by apply (set_stepping X p false _ _ _) in H. }
  intros _. pose proof (kept_free_sta X p). keeps.
Qed.

Lemma kept_nested depth X p : kept X (nested_step depth p).
Proof.
  revert X p. induction depth as [|depth IH]; intros X p; [by intros w x w' _ H|]. cbn [nested_step]. apply kept_station.
  intros q. keeps.
Qed.
Lemma kept_wpa_sm_step X p : kept X (wpa_sm_step p).
Proof. intros w x w' Hw H. unfold wpa_sm_step in H. by eapply kept_nested. Qed.
Lemma kept_group_step X p : kept X (group_step p).
Proof. unfold group_step. apply kept_sm_step. intros q. pose proof (kept_wpa_sm_step X). keeps. Qed.

(** ** Ending at rest *)

(** No station is stepping or to be removed. *)
Definition at_rest : world → Prop := resting l (λ _, False).
Abbreviation to_rest m := (leads at_rest m (λ _, at_rest)).

Lemma leads_keeps {A} (P : world → Prop) (m : W A) : ends m → keeps P m → leads P m (λ _, P).
Proof. apply leads_intro. Qed.

(** What is known of the result *)
Lemma leads_pure {A} (P : world → Prop) (φ : Prop) (m : W A) Q : (φ → leads P m Q) → leads (λ w, P w ∧ φ) m Q.
Proof. intros Hm w [Hw Hp]. by apply Hm. Qed.

Lemma rests_intro {A} (m : W A) : ends m → keeps at_rest m → to_rest m.
Proof. apply leads_intro. Qed.

Lemma rests_bind {A B} (m : W A) (f : A → W B) : to_rest m → (∀ x, to_rest (f x)) → to_rest (m ≫= f).
Proof. intros Hm Hf. by eapply leads_bind. Qed.

Lemma rests_ret {A} (x : A) : to_rest (mret x).
Proof. apply (leads_ret (λ _, at_rest)). Qed.

Lemma rests_sm_step p : to_rest (wpa_sm_step p).
Proof.
  intros w Hw. split; [|intros x w' H; by eapply kept_wpa_sm_step].
  destruct (sm_step_alive p w) as [He _]; [by eapply resting_alive|exact He].
Qed.

Lemma rests_group_step p w0 : leads (λ w, at_rest w ∧ w = w0) (group_step p) (λ _ w, at_rest w ∧ group_down p w0 w).
Proof.
  intros w [Hw ->]. destruct (group_step_alive p w0 w0) as [He Hq]; [split; [by eapply resting_alive|done]|].
  split; [exact He|]. intros x w' H. split; [by eapply kept_group_step|]. by eapply Hq.
Qed.

(** ** The loop over a group *)

(** The transitions that are left *)
Definition transitions_left (g : WpaSm.wpa_group) : nat :=
  let n := group_work g in
  if decide (n = 0) then 0 else if decide (n = 6) then 1 else if decide (n = 16) then 2 else 3.

Lemma group_work_values g : group_work g = 0 ∨ group_work g = 6 ∨ group_work g = 16 ∨ group_work g = 17.
Proof.
  unfold group_work. destruct (GInit g), (wpa_group_state g), (GTKReKey g); vm_compute; tauto.
Qed.

Lemma level_down g g' : group_work g' < group_work g → (transitions_left g' < transitions_left g)%nat.
Proof.
  unfold transitions_left. pose proof (group_work_values g) as H. pose proof (group_work_values g') as H'. cbv zeta.
  repeat case_decide; lia.
Qed.

Lemma level_bound g : (transitions_left g < group_fuel)%nat.
Proof. unfold transitions_left, group_fuel. repeat case_decide; lia. Qed.

(** The group at [p] has less to do than [fuel] turns. *)
Definition nearly (p : Z) (fuel : nat) (w : world) : Prop :=
  (0 < fuel)%nat ∧ ∀ g, find_group p w = Ok g → (transitions_left g < fuel)%nat.

Lemma unchanged_group p w x w' : gr_upd p (λ g, g <| g_changed := false |>) w = Ok (x, w') →
  ∃ g, find_group p w = Ok g ∧ find_group p w' = Ok (g <| g_changed := false |>).
Proof.
  intros (g & Hg & ->)%gr_upd_inv. exists g. split; [done|]. apply (find_put_group p _ g); [done|].
  by apply find_group_ptr in Hg.
Qed.

Lemma group_loop_rests fuel p : leads (λ w, at_rest w ∧ nearly p fuel w) (group_loop fuel p) (λ _, at_rest).
Proof.
  induction fuel as [|fuel IH]; intros w [Hw [Hf Hn]]; [lia|]. cbn [group_loop].
  revert w Hw Hf Hn. intros w0 Hw Hf Hn.
  apply (leads_bind (λ w, w = w0) _ (λ _ w, at_rest w ∧ ∃ g, find_group p w = Ok g ∧ g_changed g = false ∧ (transitions_left g ≤ fuel)%nat));
    [|intros _|done].
  { apply leads_intro; [apply ends_gr_upd|]. intros w x w' -> H. split; [by eapply kept_gr_upd|].
    apply unchanged_group in H as (g & Hg & Hg'). eexists. split; [exact Hg'|]. split; [done|].
    specialize (Hn g Hg). change (transitions_left (g <| g_changed := false |>)) with (transitions_left g). lia. }
  apply (leads_bind _ _ (λ _ w, at_rest w ∧ ∀ g, find_group p w = Ok g → g_changed g = true → (transitions_left g < fuel)%nat)); [|intros _].
  { intros w (Hr & g & Hg & Hc & Hl). destruct (rests_group_step p w w) as [He Hq]; [done|]. split; [exact He|].
    intros x w' H. destruct (Hq x w' H) as [Hr' Hd]. split; [done|]. intros g' Hg' Hc'.
    destruct (Hd g Hg) as (g2 & Hg2 & _ & Hd2). assert (g2 = g') as -> by congruence.
    destruct (Hd2 Hc') as [?|Hlt%level_down]; [congruence|lia]. }
  apply (leads_bind _ _ (λ (b : bool) w, at_rest w ∧ (b = true → nearly p fuel w))); [|intros [|]].
  - apply leads_intro; [apply ends_gr_get|]. intros w x w' [Hr Hl] H. apply group_get_inv in H as (g & Hg & -> & ->).
    split; [done|]. intros Hc. split; [specialize (Hl g Hg Hc); lia|]. intros g' Hg'. assert (g' = g) as -> by congruence. auto.
  - eapply leads_weaken; [exact IH| |done]. intros w [Hr Hl]. auto.
  - eapply leads_weaken; [apply (leads_ret (λ _, at_rest))| |done]. by intros w [Hr _].
Qed.

(** ** Renewing the key of every group *)

Lemma kept_group_loop X fuel p : kept X (group_loop fuel p).
Proof.
  induction fuel as [|fuel IH]; [by intros w x w' _ H|]. cbn [group_loop]. pose proof (kept_group_step X).
  pose proof (kept_gr_upd X). keeps.
Qed.

Lemma rests_group_loop p : to_rest (group_loop group_fuel p).
Proof.
  eapply leads_weaken; [apply group_loop_rests| |done]. intros w Hw. split; [done|]. split; [unfold group_fuel; lia|].
  intros g _. apply level_bound.
Qed.

(** ** Every operation *)

Lemma rests_upd (f : world → world) : (∀ w, same_parts w (f w)) → to_rest (w_upd f).
Proof. intros Hf. apply rests_intro; [done|by apply kept_upd]. Qed.
Lemma rests_emit e : to_rest (w_emit e).
Proof. by apply rests_upd. Qed.
Lemma rests_get {A} (f : world → A) : to_rest (w_get f).
Proof. apply rests_intro; [done|apply keeps_w_get]. Qed.
Lemma rests_conf {A} (f : wpa_auth_config → A) : to_rest (w_conf f).
Proof. apply rests_get. Qed.
Lemma rests_ask {A} (f : nat → A) : to_rest (w_ask f).
Proof. apply rests_intro; [done|apply kept_ask]. Qed.
Lemma rests_s_get {A} p (f : wpa_state_machine → A) : to_rest (s_get p f).
Proof. apply rests_intro; [apply ends_s_get|apply keeps_s_get]. Qed.
Lemma rests_gr_get {A} p (f : WpaSm.wpa_group → A) : to_rest (gr_get p f).
Proof. apply rests_intro; [apply ends_gr_get|apply keeps_gr_get]. Qed.
Lemma rests_first_ptr : to_rest first_ptr.
Proof. apply rests_intro; [apply ends_first_ptr|apply keeps_first_ptr]. Qed.
Lemma rests_gr_upd p f : to_rest (gr_upd p f).
Proof. apply rests_intro; [apply ends_gr_upd|apply kept_gr_upd]. Qed.
Lemma rests_s_upd p f : (∀ m, flags (f m) = flags m) → to_rest (s_upd p f).
Proof. intros Hf. apply rests_intro; [apply ends_s_upd|by apply kept_s_upd]. Qed.
Lemma rests_lift {A} (o : outcome A) : ended o → to_rest (lift_outcome o).
Proof. intros Ho. apply rests_intro; [by apply ends_lift|apply keeps_lift]. Qed.
Lemma rests_when b (m : W unit) : to_rest m → to_rest (when b m).
Proof. intros Hm. destruct b; [done|apply rests_ret]. Qed.
Lemma rests_at_group {A} p (op : wpa_authenticator → S_M grp A) : (∀ a, ends (op a)) → to_rest (at_group p op).
Proof. intros Hop. apply rests_intro; [by apply ends_at_group|apply kept_at_group]. Qed.
Lemma rests_at_station {A} p (op : wpa_authenticator → own_ie → S_M sta A) : (∀ a ow, ends (op a ow)) →
  (∀ a ow m g n o F x s', at_ptr m p → op a ow (mk_sta m (mk_grp g n o) F) = Ok (x, s') → flags (sm s') = flags m) →
  to_rest (at_station p op).
Proof.
  intros He Hf. apply rests_intro; [by apply ends_at_station|]. apply kept_at_station. intros. by eapply Hf.
Qed.
Lemma rests_for_each cb ps : (∀ p, to_rest (cb p)) → to_rest (for_each cb ps).
Proof. intros Hcb. induction ps; [apply rests_ret|]. by apply rests_bind. Qed.

Lemma rests_count p f : (∀ z, ended (f z)) → to_rest (at_station p (λ _ _, set_GKeyDoneStations f)).
Proof. intros Hf. apply rests_intro; [apply ends_at_station; intros; by apply ends_set_count|apply kept_count]. Qed.
Lemma rests_done p : to_rest (at_station p (λ _ _, group_key_done)).
Proof. apply rests_intro; [apply ends_at_station; intros; apply ends_group_key_done|apply kept_done]. Qed.
End resting.

Abbreviation to_rest l m := (leads (at_rest l) m (λ _, at_rest l)).

Create HintDb rests.
#[export] Hint Resolve rests_ret rests_emit rests_get rests_conf rests_ask rests_s_get rests_gr_get rests_first_ptr rests_gr_upd
  rests_group_loop rests_sm_step rests_done rests_for_each : rests.
#[export] Hint Extern 1 (leads _ (s_upd _ _) _) =>
  apply rests_s_upd; let m := fresh in intros m; first [reflexivity|cbv beta; case_decide; reflexivity] : rests.
#[export] Hint Extern 1 (leads _ (w_upd _) _) => apply rests_upd; intros ?; split; reflexivity : rests.

Ltac rests :=
  cbv beta zeta;
  repeat first
    [ solve [auto with rests nocore]
    | apply rests_bind; [|intros ?]
    | apply rests_when
    | apply rests_lift; solve [ends]
    | match goal with |- leads _ (if ?b then _ else _) _ => destruct b end
    | match goal with |- leads _ (match ?x with _ => _ end) _ => destruct x end ].

Section ops.
Context {C : Crypto} {E : Wpa_env}.

Lemma rests_group_get l p : to_rest l (wpa_group_get p).
Proof. unfold wpa_group_get. rests. Qed.
Lemma rests_group_put l p : to_rest l (wpa_group_put p).
Proof.
  apply rests_intro; [|apply kept_group_put]. unfold wpa_group_put, wpa_group_free.
  assert (∀ f, ends (w_upd f)) by done. unfold w_emit. ends.
Qed.
#[local] Hint Resolve rests_group_get rests_group_put : rests.

(** ** Renewing the key of every group *)

Lemma rest_shrink l w : at_rest l w → at_rest (group_ptrs w) w.
Proof. intros [_ Hc]. split; [by unfold within_ptrs|done]. Qed.
Lemma rest_grow l l' w : sublist l l' → at_rest l w → at_rest l' w.
Proof. intros Hl [Hw Hc]. split; [unfold within_ptrs in *; by etrans|done]. Qed.

(** The next group has fewer behind it. *)
Lemma next_group l p q w : NoDup l → at_rest l w → next_in p (groups w) = Some q → (after q (group_ptrs w) < after p l)%nat.
Proof.
  intros Hn [Hw _] Hq. eapply Nat.lt_le_trans; [apply (after_next p q (groups w))|by apply after_sublist]; [|exact Hq].
  by eapply sublist_NoDup.
Qed.

Lemma rests_rekey_groups fuel l p : NoDup l → (∀ q, p = Some q → (after q l < fuel)%nat) → to_rest l (rekey_groups fuel p).
Proof.
  revert l p. induction fuel as [|fuel IH]; intros l [p|] Hn Hf; cbn [rekey_groups]; [specialize (Hf p eq_refl); lia|rests| |rests].
  apply rests_bind; [rests|intros _]. apply rests_bind; [rests|intros _]. apply rests_bind; [rests|intros _].
  apply (leads_bind _ _ (λ next w, at_rest l w ∧ NoDup (group_ptrs w) ∧ ∀ q, next = Some q → (after q (group_ptrs w) < fuel)%nat)).
  { apply leads_intro; [done|]. intros w x w' Hw H. unfold w_get in H. injection H as <- <-. split; [done|].
    split; [by eapply sublist_NoDup; [|apply Hw]|]. intros q Hq. specialize (Hf p eq_refl).
    pose proof (next_group _ _ _ _ Hn Hw Hq). lia. }
  intros next w (Hw & Hnd & Hq).
  assert (to_rest (group_ptrs w) (wpa_group_put p;; rekey_groups fuel next)) as Hk
    by (apply rests_bind; [rests|intros _; by apply IH]).
  destruct (Hk w (rest_shrink _ _ Hw)) as [He Hr]. split; [exact He|]. intros x w' H.
  eapply rest_grow; [apply Hw|by eapply Hr].
Qed.

Context (l : list Z) (Hl : NoDup l).

Lemma rests_rekey_gtk : to_rest l wpa_rekey_gtk_timeout.
Proof.
  unfold wpa_rekey_gtk_timeout. intros w Hw. apply (rest_shrink l) in Hw as Hs.
  assert (to_rest (group_ptrs w) (rekey_groups (length (groups w)) (g_ptr <$> head (groups w));;
    secs ← w_conf wpa_group_rekey;
    when (negb (bool_decide (secs = 0))) (w_emit (Register_timeout wpa_rekey_gtk secs 0)))) as Hk.
  { apply rests_bind; [|intros _; rests]. apply rests_rekey_groups; [by eapply sublist_NoDup; [|apply Hw]|].
    intros q Hq. unfold group_ptrs. destruct (groups w) as [|g gs]; [done|]. injection Hq as <-. cbn.
    rewrite decide_True by done. rewrite length_map. lia. }
  destruct (Hk w Hs) as [He Hr]. split; [exact He|]. intros x w' H. eapply rest_grow; [apply Hw|by eapply Hr].
Qed.
#[local] Hint Resolve rests_rekey_gtk : rests.

(** ** Requests and events *)

Lemma rests_event_remove e p : to_rest l (at_station p (λ _ _, event_remove_ptk e)).
Proof.
  apply rests_at_station; [intros; apply ends_event_remove|]. intros a ow m g n o F x s' Hp H.
  apply (event_remove_run _ p) in H as (m' & [-> _ _ _] & [[-> _]|[->| ->]]); done.
Qed.

Lemma request_new_ptk_flags m g n o F x s' : wpa_request_new_ptk (mk_sta m (mk_grp g n o) F) = Ok (x, s') → flags (sm s') = flags m.
Proof. intros H. open H. by run H. Qed.

Lemma rests_request p : to_rest l (request_new_ptk p).
Proof.
  apply rests_at_station; [intros; unfold wpa_request_new_ptk; ends|]. intros a ow m g n o F x s' _ H.
  by eapply request_new_ptk_flags.
Qed.

Lemma rests_smk_send p info nonce kde encr : to_rest l (smk_send p info nonce kde encr).
Proof.
  apply rests_at_station; [intros; apply ends_send_frame|]. intros a ow m g n o F x s' Hp H.
  apply (send_frame_run _ _ _ _ _ _ _ _ _ p) in H as (kr & _ & [-> _ _ _]); done.
Qed.
#[local] Hint Resolve rests_event_remove rests_request rests_smk_send : rests.

Lemma rests_sm_event_rest e p : to_rest l (sm_event_rest e p).
Proof. unfold sm_event_rest. rests. Qed.
#[local] Hint Resolve rests_sm_event_rest : rests.

Lemma rests_sm_event e p : to_rest l (wpa_auth_sm_event e p).
Proof.
  assert (to_rest l (at_station p (λ _ _, set_GKeyDoneStations dec_int))) by (apply rests_count; ends).
  unfold wpa_auth_sm_event. rests.
Qed.
#[local] Hint Resolve rests_sm_event : rests.

Lemma rests_disconnect_now p : to_rest l (disconnect_now p).
Proof. unfold disconnect_now. rests. Qed.
Lemma rests_sta_associated p : to_rest l (wpa_auth_sta_associated p).
Proof. unfold wpa_auth_sta_associated. rests. Qed.
#[local] Hint Resolve rests_disconnect_now : rests.

Lemma rests_group_free p : to_rest l (wpa_group_free p).
Proof. apply rests_intro; [|apply kept_group_free]. unfold wpa_group_free, w_emit. assert (∀ f, ends (w_upd f)) by done. ends. Qed.

Lemma rests_free_sta p : to_rest l (wpa_free_sta_sm p).
Proof. pose proof (rests_done l p). unfold wpa_free_sta_sm. rests. apply rests_intro; [done|apply kept_drop_station]. Qed.

(** A station at rest is not stepping: it goes at once. *)
Lemma rests_sta_deinit p : to_rest l (wpa_auth_sta_deinit p).
Proof.
  unfold wpa_auth_sta_deinit.
  apply (leads_bind _ _ (λ m w, at_rest l w ∧ in_step_loop m = false)).
  { apply leads_intro; [apply ends_s_get|]. intros w m w' Hw H. apply s_get_inv in H as (m' & Hm & -> & ->).
    split; [done|]. apply find_station_in in Hm as [Hin _]. destruct Hw as [_ Hw]. destruct (Hw m' Hin) as [_ Hi].
    cbn [id]. by destruct (in_step_loop m'). }
  intros m. apply leads_pure. intros Hi. rewrite Hi. pose proof (rests_free_sta p). rests.
Qed.

Lemma rests_sta_init ptr pos addr : to_rest l (wpa_auth_sta_init ptr pos addr).
Proof.
  unfold wpa_auth_sta_init. rests. apply rests_intro; [done|]. intros w y w' [Hg Hc] H. apply w_upd_inv in H as ->.
  split; [exact Hg|]. intros m Hm. cbn [stations setter] in Hm.
  assert (m = zero_station z addr x ∨ m ∈ take pos (stations w) ++ drop pos (stations w)) as [->|Hm']; [|done|].
  { apply elem_of_app in Hm as [Hm|[Hm|Hm]%elem_of_cons]; [right|by left|right]; apply elem_of_app; auto. }
  rewrite take_drop in Hm'. by apply Hc.
Qed.

Lemma rests_rekey_gmk : to_rest l wpa_rekey_gmk_timeout.
Proof. unfold wpa_rekey_gmk_timeout. rests. Qed.
Lemma rests_rekey_ptk p : to_rest l (wpa_rekey_ptk_timeout p).
Proof. unfold wpa_rekey_ptk_timeout. rests. Qed.
Lemma rests_eapol_timeout p : to_rest l (wpa_send_eapol_timeout_handler p).
Proof. unfold wpa_send_eapol_timeout_handler. rests. Qed.
Lemma rests_error_report p b : to_rest l (wpa_receive_error_report p b).
Proof. unfold wpa_receive_error_report. rests. Qed.
#[local] Hint Resolve rests_error_report : rests.

(** ** Reception *)

Lemma ended_be16_at b : ended (WPA_GET_BE16 b).
Proof. unfold WPA_GET_BE16. ends. Qed.
Lemma ended_kde_octets data f n : ended (kde_octets data f n).
Proof. unfold kde_octets. ends. Qed.
Lemma ended_ie_octets data f : ended (ie_octets data f).
Proof. unfold ie_octets. ends. Qed.
Lemma ended_repeated_ie k kde : ended (repeated_ie k kde).
Proof. pose proof (ended_ie_octets (rx_data k)). unfold repeated_ie. ends. Qed.
Lemma ended_parse_kde data : bytes_ok data → ended (wpa_parse_kde_ies data).
Proof.
  intros Hd. destruct (kde_loop_inside (S (length data)) data 0 no_kdes) as (r & k & H & _); [done|lia|by split|].
  unfold wpa_parse_kde_ies. by rewrite H.
Qed.
Lemma ended_parse_key m data : ended (parse_eapol_key m data).
Proof. pose proof ended_be16_at. unfold parse_eapol_key. ends. Qed.
#[local] Hint Resolve ended_be16_at ended_kde_octets ended_ie_octets ended_repeated_ie ended_parse_kde ended_parse_key
  ended_verify : ends.

Lemma rests_select addr : to_rest l (select_sta addr).
Proof. apply rests_get. Qed.
Lemma rests_smk_m1 p nonce data : bytes_ok data → to_rest l (wpa_smk_m1 p nonce data).
Proof. intros Hd. pose proof rests_select. unfold wpa_smk_m1, wpa_smk_send_error. rests. Qed.
Lemma rests_smk_m3 p nonce data : bytes_ok data → to_rest l (wpa_smk_m3 p nonce data).
Proof.
  intros Hd. pose proof rests_select. unfold wpa_smk_m3, wpa_send_smk_m4, wpa_send_smk_m5, wpa_smk_send_error. rests.
Qed.
Lemma rests_smk_error p data : bytes_ok data → to_rest l (wpa_smk_error p data).
Proof. intros Hd. pose proof rests_select. unfold wpa_smk_error, wpa_smk_send_error. rests. Qed.
#[local] Hint Resolve rests_smk_m1 rests_smk_m3 rests_smk_error : rests.

Lemma rests_check_message p k msg : bytes_ok (rx_data k) → to_rest l (check_message p k msg).
Proof. intros Hd. unfold check_message, check_message_2. rests. Qed.

Lemma rests_try_alt p data : to_rest l (at_station p (λ a _, wpa_try_alt_snonce a data)).
Proof.
  apply rests_at_station; [intros; apply ends_try_alt|]. intros a ow m g n o F x s' Hp H.
  apply (try_alt_run _ _ p) in H as [_ [[_ ->]|(_ & i & pmk & _ & _ & ->)]]; done.
Qed.
#[local] Hint Resolve rests_check_message rests_try_alt : rests.

Lemma rests_check_mic p data msg : to_rest l (check_mic p data msg).
Proof. unfold check_mic. rests. Qed.
Lemma rests_request_frame p k msg : bytes_ok (rx_data k) → to_rest l (receive_request p k msg).
Proof. intros Hd. unfold receive_request. rests. Qed.
Lemma rests_keep_frame p k data : to_rest l (keep_frame p k data).
Proof. unfold keep_frame. rests. Qed.
#[local] Hint Resolve rests_check_mic rests_request_frame rests_keep_frame : rests.

Lemma replay_flags m k msg m' : check_replay m k msg = Some m' → flags m' = flags m.
Proof. unfold check_replay. intros H. repeat case_match; by simplify_eq. Qed.

(** The station that was looked at is put back with other fields. *)
Lemma rests_put_back p m m' : flags m' = flags m →
  leads (λ w, at_rest l w ∧ find_station p w = Ok m) (s_upd p (λ _, m')) (λ _, at_rest l).
Proof.
  intros Hf. apply leads_intro; [apply ends_s_upd|]. intros w x w' [Hw Hm] H. apply s_upd_inv in H as (m0 & _ & ->).
  by eapply resting_put_station.
Qed.

Lemma rests_look p :
  leads (at_rest l) (s_get p id) (λ m w, at_rest l w ∧ find_station p w = Ok m).
Proof.
  apply leads_intro; [apply ends_s_get|]. intros w m w' Hw H. apply s_get_inv in H as (m' & Hm & -> & ->). done.
Qed.

Lemma leads_drop {A} (P Q : world → Prop) (m : W A) R : leads P m R → leads (λ w, P w ∧ Q w) m R.
Proof. intros Hm w [Hw _]. by apply Hm. Qed.

Lemma rests_receive_key p k data : bytes_ok (rx_data k) → to_rest l (receive_key p k data).
Proof.
  intros Hd. unfold receive_key. cbv zeta. eapply leads_bind; [apply rests_look|]. intros m.
  destruct (negb _); [apply leads_drop; rests|].
  destruct (check_replay _ _ _) as [m'|] eqn:Hr; [|apply leads_drop; rests].
  eapply leads_bind; [apply rests_put_back; by eapply replay_flags|]. intros []. rests.
Qed.

Lemma parse_key_bytes m data k : bytes_ok data → parse_eapol_key m data = Ok (Some k) → bytes_ok (rx_data k).
Proof.
  intros Hd H. unfold parse_eapol_key in H. cbv zeta in H. case_decide; [done|].
  apply bind_Ok_inv in H as (? & _ & H).
  apply bind_Ok_inv in H as (n & _ & H). case_decide; [done|].
  apply bind_Ok_inv in H as (? & _ & H). case_decide; [done|].
  apply bind_Ok_inv in H as (? & _ & H). apply bind_Ok_inv in H as (? & _ & H). apply bind_Ok_inv in H as (kd & Hk & H).
  injection H as <-. cbn [rx_data]. unfold slice in Hk. case_match; [|done]. injection Hk as <-.
  by apply Forall_take, Forall_drop.
Qed.

Lemma rests_receive p data : bytes_ok data → to_rest l (wpa_receive p data).
Proof.
  intros Hd. unfold wpa_receive. apply rests_bind; [rests|intros wpa]. case_decide; [rests|].
  apply rests_bind; [rests|intros m].
  apply (leads_bind _ _ (λ k w, at_rest l w ∧ parse_eapol_key m data = Ok k)).
  { apply leads_intro; [apply ends_lift; ends|]. intros w k w' Hw Hr. by apply lift_inv in Hr as [Hk ->]. }
  intros k. apply leads_pure. intros Hk. destruct k as [k|]; [|rests].
  apply rests_receive_key. by eapply parse_key_bytes.
Qed.


(** ** Elements and the cache *)

Lemma ended_and_then m f : ended m → (∀ acc, ended (f acc)) → ended (and_then m f).
Proof. intros Hm Hf. unfold and_then. apply ended_bind; [done|]. intros [acc|]; [apply Hf|done]. Qed.
Lemma ended_set_len acc : ended (set_len acc).
Proof. done. Qed.
Lemma ended_put_suites len ss acc : ended (put_suites len ss acc).
Proof. unfold put_suites. ends. Qed.
#[local] Hint Resolve ended_set_len ended_put_suites : ends.
Lemma ended_write_wpa c len : ended (wpa_write_wpa_ie c len).
Proof. unfold wpa_write_wpa_ie. repeat first [apply ended_and_then; [|intros ?] | progress ends]. Qed.
Lemma ended_write_rsn c len pm : ended (wpa_write_rsn_ie c len pm).
Proof.
  unfold wpa_write_rsn_ie, put_pmkid, put_mgmt_group.
  repeat first [apply ended_and_then; [|intros ?] | progress ends].
Qed.
#[local] Hint Resolve ended_write_wpa ended_write_rsn : ends.
Lemma ended_gen_ie mem c o : ended (wpa_auth_gen_wpa_ie mem c o).
Proof.
  unfold wpa_auth_gen_wpa_ie, gen_buf, add_ie. repeat first [apply ended_and_then; [|intros ?] | progress ends].
Qed.

Lemma ended_then p f : ended p → (∀ d pos n, ended (f d pos n)) → ended (then_ p f).
Proof. intros Hp Hf. unfold then_. apply ended_bind; [done|]. intros [d pos n|]; [apply Hf|done]. Qed.
Lemma ended_parsed p : ended p → ended (parsed p).
Proof. intros Hp. unfold parsed. by apply ended_bind; [|intros []]. Qed.
Lemma ended_le16 b : ended (WPA_GET_LE16 b).
Proof. unfold WPA_GET_LE16. ends. Qed.
Lemma ended_be32 b : ended (WPA_GET_BE32 b).
Proof. unfold WPA_GET_BE32. ends. Qed.
Lemma ended_selector b : ended (RSN_SELECTOR_GET b).
Proof. apply ended_be32. Qed.
#[local] Hint Resolve ended_le16 ended_be32 ended_selector : ends.
Lemma ended_or_suites f n b left_ acc : ended (or_suites f n b left_ acc).
Proof. revert b left_ acc. induction n; intros; cbn [or_suites]; ends. Qed.
#[local] Hint Resolve ended_or_suites : ends.
Lemma ended_suite_list f put b s d pos n : ended (suite_list f put b s d pos n).
Proof. unfold suite_list. ends. Qed.
#[local] Hint Resolve ended_suite_list : ends.
Lemma ended_parse_rsn ie n : ended (wpa_parse_wpa_ie_rsn ie n).
Proof.
  unfold wpa_parse_wpa_ie_rsn, rsn_fields, rsn_header, rsn_group, rsn_pairwise_suites, rsn_no_cmac, parse_capabilities,
    rsn_pmkids, rsn_mgmt_group.
  repeat first [apply ended_parsed | apply ended_then; [|intros ???] | progress ends].
Qed.
Lemma ended_parse_wpa ie n : ended (wpa_parse_wpa_ie_wpa ie n).
Proof.
  unfold wpa_parse_wpa_ie_wpa, wpa_fields, wpa_header, wpa_group_suite, parse_capabilities.
  repeat first [apply ended_parsed | apply ended_then; [|intros ???] | progress ends].
Qed.
#[local] Hint Resolve ended_parse_rsn ended_parse_wpa ended_gen_ie : ends.

Lemma ended_guard k b : ended (guard_ub k b).
Proof. unfold guard_ub. by destruct b. Qed.
#[local] Hint Resolve ended_guard : ends.
Lemma ended_expiration h q env c : ended (pmksa_cache_set_expiration h q env c).
Proof. unfold pmksa_cache_set_expiration. ends. Qed.
Lemma ended_link h q env e c : ended (pmksa_cache_link_entry h q env e c).
Proof. pose proof ended_expiration. unfold pmksa_cache_link_entry. ends. Qed.
#[local] Hint Resolve ended_expiration ended_link : ends.
Lemma ended_cache_add h q env m p key id k aa spa_ t d akm c :
  ended (pmksa_cache_auth_add h q env m p key id k aa spa_ t d akm c).
Proof. unfold pmksa_cache_auth_add. ends. Qed.
Lemma ended_add_okc h q env m p e aa id c : ended (pmksa_cache_add_okc h q env m p e aa id c).
Proof. unfold pmksa_cache_add_okc. ends. Qed.
Lemma ended_search {A} (f : bytes → option A) ids i n : ended (search_pmkids f ids i n).
Proof. revert i. induction n; intros i; cbn [search_pmkids]; unfold nth_pmkid; ends. Qed.
#[local] Hint Resolve ended_cache_add ended_add_okc ended_search : ends.
Lemma ended_validate h q v a s ie : ended (wpa_validate_wpa_ie h q v a s ie).
Proof. unfold wpa_validate_wpa_ie, validate_ie, parse_ie, find_pmksa, keep_ie. ends. Qed.

(** ** The authenticator and its groups *)

Lemma rests_group_turn p : to_rest l (group_step p).
Proof.
  intros w Hw. destruct (rests_group_step l p w w) as [He Hq]; [done|]. split; [exact He|].
  intros x w' H. by destruct (Hq x w' H).
Qed.
Lemma rests_gen_ie : to_rest l gen_wpa_ie.
Proof. unfold gen_wpa_ie. rests. Qed.
Lemma rests_update p : to_rest l (at_group p wpa_gtk_update).
Proof. apply rests_at_group, ends_gtk_update. Qed.
Lemma rests_config p : to_rest l (at_group p wpa_group_config_group_keys).
Proof. apply rests_at_group, ends_config_keys. Qed.
#[local] Hint Resolve rests_group_turn rests_gen_ie rests_update rests_config : rests.

Lemma rests_init_keys : to_rest l wpa_init_keys.
Proof. unfold wpa_init_keys. rests. Qed.
Lemma rests_reconfig c : to_rest l (wpa_reconfig c).
Proof. unfold wpa_reconfig. rests. Qed.
Lemma rests_gtk_rekey : to_rest l wpa_gtk_rekey.
Proof. unfold wpa_gtk_rekey. rests. Qed.
Lemma rests_reconfig_keys : to_rest l wpa_auth_reconfig_group_keys.
Proof. unfold wpa_auth_reconfig_group_keys. rests. apply rests_for_each. intros p. rests. Qed.
Lemma rests_release vlan : to_rest l (wpa_auth_release_group vlan).
Proof. unfold wpa_auth_release_group, group_of_vlan. rests. Qed.
Lemma rests_tx_status p ack : to_rest l (wpa_auth_eapol_key_tx_status p ack).
Proof. unfold wpa_auth_eapol_key_tx_status. rests. Qed.

(** ** The PMKSA cache *)

Lemma clear_flags es m : flags (foldr clear_pmksa m es) = flags m.
Proof. induction es as [|e es IH]; [done|]. cbn [foldr]. rewrite <- IH. unfold clear_pmksa. by repeat case_match. Qed.

Lemma rests_map f : (∀ m, flags (f m) = flags m) → to_rest l (w_upd (λ w, w <| stations := map f (stations w) |>)).
Proof.
  intros Hf. apply rests_intro; [done|]. intros w x w' [Hg Hc] H. apply w_upd_inv in H as ->. split; [exact Hg|].
  intros m Hm. cbn [stations setter] in Hm. apply list_elem_of_fmap in Hm as (m0 & -> & Hm).
  specialize (Hf m0). unfold flags in Hf. injection Hf as _ -> ->. by apply Hc.
Qed.

Lemma rests_on_cache {A} (f : rsn_pmksa_cache → outcome (A * rsn_pmksa_cache)) : (∀ c, ended (f c)) → to_rest l (on_cache f).
Proof. intros Hf. unfold on_cache. rests. apply rests_map. intros m. apply clear_flags. Qed.
#[local] Hint Extern 1 (leads _ (on_cache _) _) => apply rests_on_cache; intros ?; ends : rests.

Section cache.
Context (h q : Z).
Lemma rests_cache_add x key id k addr t akm : to_rest l (cache_add h q x key id k addr t akm).
Proof. unfold cache_add. rests. Qed.
#[local] Hint Resolve rests_cache_add : rests.
Lemma rests_pmksa_add x p key t : to_rest l (wpa_auth_pmksa_add h q x p key t).
Proof. unfold wpa_auth_pmksa_add. rests. Qed.
Lemma rests_pmksa_add_sae x addr key id : to_rest l (wpa_auth_pmksa_add_sae h q x addr key id).
Proof. unfold wpa_auth_pmksa_add_sae. rests. Qed.
Lemma rests_pmksa_timeout env : to_rest l (pmksa_timeout h q env).
Proof. unfold pmksa_timeout. apply rests_on_cache. intros c. pose proof (ended_expiration h q). unfold pmksa_cache_expire. ends. Qed.
Lemma rests_validate v p ie : to_rest l (validate_wpa_ie h q v p ie).
Proof. pose proof (ended_validate h q v). unfold validate_wpa_ie. rests. Qed.
End cache.

Lemma rests_pmksa_remove addr : to_rest l (wpa_auth_pmksa_remove addr).
Proof. unfold wpa_auth_pmksa_remove. apply rests_on_cache. intros c. apply ended_ok. Qed.
Lemma rests_pmksa_flush : to_rest l wpa_auth_pmksa_flush.
Proof. unfold wpa_auth_pmksa_flush. apply rests_on_cache. intros c. apply ended_ok. Qed.
Lemma rests_das attr : to_rest l (wpa_auth_radius_das_disconnect_pmksa attr).
Proof. unfold wpa_auth_radius_das_disconnect_pmksa. apply rests_on_cache. intros c. apply ended_ok. Qed.
Lemma rests_clear_pmksa p e : to_rest l (wpa_auth_sta_clear_pmksa p e).
Proof. unfold wpa_auth_sta_clear_pmksa. rests. Qed.
Lemma rests_set_to_sm e p : to_rest l (wpa_auth_pmksa_set_to_sm e p).
Proof. unfold wpa_auth_pmksa_set_to_sm. rests. Qed.
End ops.

(** ** New groups *)

(** The addresses with that of a new group *)
Definition with_new (ptr : option Z) (ps : list Z) : list Z :=
  match ptr, ps with
  | None, _ => ps
  | Some p, [] => [p]
  | Some p, f :: ps => f :: p :: ps
  end.

Lemma with_new_sublist ptr ps : sublist ps (with_new ptr ps).
Proof. destruct ptr as [p|], ps as [|f ps]; cbn; [apply sublist_nil_l|by apply sublist_skip, sublist_cons|done..]. Qed.

Lemma with_new_NoDup ptr ps : NoDup ps → from_option (.∉ ps) True ptr → NoDup (with_new ptr ps).
Proof.
  destruct ptr as [p|], ps as [|f ps]; cbn; intros Hn Hp; [apply NoDup_singleton| |done..].
  apply list.NoDup_cons in Hn as [Hf Hn]. rewrite not_elem_of_cons in Hp. destruct Hp as [Hpf Hp].
  repeat rewrite list.NoDup_cons. rewrite not_elem_of_cons. auto.
Qed.

(** Between operations: groups have different addresses, and no station is stepping
    or to be removed. *)
Definition settled_world (w : world) : Prop := NoDup (group_ptrs w) ∧ undisturbed (λ _, False) w.

Section perform.
Context {C : Crypto} {E : Wpa_env}.

Lemma rests_group_init ptr vlan delay ps :
  leads (λ w, undisturbed (λ _, False) w ∧ group_ptrs w = ps) (wpa_group_init ptr vlan delay)
    (λ _, at_rest (with_new ptr ps)).
Proof.
  destruct ptr as [p|]; cbn [wpa_group_init].
  2:{ apply leads_intro; [done|]. intros w x w' [Hc <-] H. apply ret_inv in H as [_ ->]. split; [by unfold within_ptrs|done]. }
  eapply leads_bind; [apply leads_keeps; [done|apply keeps_w_conf]|]. intros cipher. cbv zeta.
  apply (leads_bind _ _ (λ _, at_rest (with_new (Some p) ps))).
  { apply leads_intro; [done|]. intros w x w' [Hc Hps] H. apply w_upd_inv in H as ->. split; [|exact Hc].
    unfold within_ptrs, group_ptrs in *. cbn [groups setter]. subst ps. by destruct (groups w). }
  intros []. pose proof (rests_group_turn (with_new (Some p) ps)). rests.
  - apply rests_at_group, ends_init_gmk.
  - apply rests_intro; [done|]. intros w y w' Hw Hr. apply w_upd_inv in Hr as ->.
    eapply (resting_fewer _ _ w); [done|apply filter_sublist|exact Hw].
Qed.

Lemma rests_get_group ptr vlan ps :
  leads (λ w, undisturbed (λ _, False) w ∧ group_ptrs w = ps) (get_group ptr vlan) (λ _, at_rest (with_new ptr ps)).
Proof.
  unfold get_group. eapply leads_bind; [apply leads_keeps; [done|apply keeps_w_get]|]. intros [q|].
  - apply leads_intro; [done|]. intros w x w' [Hc <-] H. apply ret_inv in H as [_ ->].
    split; [apply with_new_sublist|exact Hc].
  - eapply leads_bind; [apply rests_group_init|]. intros ok. rests.
Qed.

Lemma rests_ensure ptr vlan ps :
  leads (λ w, undisturbed (λ _, False) w ∧ group_ptrs w = ps) (wpa_auth_ensure_group ptr vlan)
    (λ _, at_rest (with_new ptr ps)).
Proof.
  unfold wpa_auth_ensure_group. eapply leads_bind; [apply rests_get_group|]. intros q.
  pose proof (rests_group_get (with_new ptr ps)). rests.
Qed.

Lemma rests_set_vlan ptr p vlan ps :
  leads (λ w, undisturbed (λ _, False) w ∧ group_ptrs w = ps) (wpa_auth_sta_set_vlan ptr p vlan)
    (λ _, at_rest (with_new ptr ps)).
Proof.
  unfold wpa_auth_sta_set_vlan. eapply leads_bind; [apply rests_get_group|]. intros q.
  pose proof (rests_group_get (with_new ptr ps)). pose proof (rests_group_put (with_new ptr ps)). rests.
Qed.

(** ** Every operation *)

(** Frames are octets, and memory is given out once. *)
Definition call_ok (op : wpa_op) (w : world) : Prop :=
  match op with
  | Op_receive _ data => bytes_ok data
  | Op_ensure_group (Some p) _ | Op_set_vlan (Some p) _ _ => p ∉ group_ptrs w
  | _ => True
  end.

(** The addresses after an operation are among these. *)
Definition ptrs_after (op : wpa_op) (ps : list Z) : list Z :=
  match op with Op_ensure_group ptr _ | Op_set_vlan ptr _ _ => with_new ptr ps | _ => ps end.

Context (expire_handler cache_ptr : Z).
Abbreviation perform := (perform expire_handler cache_ptr).

Lemma rests_ignore {A} l (m : W A) : to_rest l m → to_rest l (ignore m).
Proof. intros Hm. apply rests_bind; [done|]. intros _. apply rests_ret. Qed.

Create HintDb operations.
#[local] Hint Resolve rests_receive rests_sm_event rests_sta_associated rests_sta_init rests_sta_deinit rests_rekey_gmk rests_rekey_gtk
  rests_rekey_ptk rests_eapol_timeout rests_init_keys rests_reconfig rests_gtk_rekey rests_reconfig_keys rests_release
  rests_tx_status rests_pmksa_add rests_cache_add rests_pmksa_add_sae rests_pmksa_remove rests_pmksa_flush rests_das
  rests_pmksa_timeout rests_clear_pmksa rests_set_to_sm rests_validate : operations.

(** The operations that add no group *)
Lemma perform_rests op l : NoDup l → (∀ ptr vlan, op ≠ Op_ensure_group ptr vlan) → (∀ ptr p vlan, op ≠ Op_set_vlan ptr p vlan) →
  (∀ p data, op = Op_receive p data → bytes_ok data) → to_rest l (perform op).
Proof.
  intros Hl H1 H2 H3. destruct op; cbn [WpaSafety.perform]; try (by exfalso; eapply H1); try (by exfalso; eapply H2);
    try apply rests_ignore; try (solve [eauto with operations]).
  - unfold wpa_auth_sta_no_wpa. rests.
  - rests.
  - unfold wpa_auth_sm_notify. rests.
  - unfold wpa_auth_countermeasures_start. rests.
Qed.

Lemma perform_leads op ps w : NoDup ps → undisturbed (λ _, False) w → group_ptrs w = ps → call_ok op w →
  ended (perform op w) ∧ ∀ x w', perform op w = Ok (x, w') → at_rest (ptrs_after op ps) w'.
Proof.
  intros Hn Hc Hps Ho. assert (at_rest ps w) as Hr by (split; [unfold within_ptrs; by rewrite Hps|exact Hc]).
  assert (∀ A (m : W A) l, leads (λ w, undisturbed (λ _, False) w ∧ group_ptrs w = ps) m (λ _, at_rest l) →
    ended (ignore m w) ∧ ∀ x w', ignore m w = Ok (x, w') → at_rest l w') as Hi.
  { intros A m l Hm. eapply (leads_bind _ m (λ _, at_rest l) _ (λ _, at_rest l)); [exact Hm| |done]. intros x. apply rests_ret. }
  destruct op; try (apply perform_rests; [exact Hn|done|done| |exact Hr]; intros; by simplify_eq).
  - apply Hi, rests_ensure.
  - apply Hi, rests_set_vlan.
Qed.

Lemma settled_of l w : NoDup l → at_rest l w → settled_world w.
Proof. intros Hn [Hw Hc]. split; [by eapply sublist_NoDup|exact Hc]. Qed.

(** The first group of the authenticator *)
Lemma init_rests ptr pmksa addr c :
  leads (λ _, True) (wpa_init ptr pmksa addr c) (λ (ok : bool) w, ok = true → at_rest (with_new ptr []) w).
Proof.
  unfold wpa_init. apply (leads_bind _ _ (λ _ _, True)); [by apply leads_intro|]. intros mem.
  destruct (negb mem); [apply leads_intro; [done|]; intros w x w' _ [-> _]%ret_inv; done|].
  apply (leads_bind _ _ (λ _, at_rest [])).
  { apply leads_intro; [done|]. intros w x w' _ ->%w_upd_inv. split; [by unfold within_ptrs|]. by intros m ?%not_elem_of_nil. }
  intros []. eapply leads_bind; [apply rests_gen_ie|]. intros r. cbv beta.
  destruct (decide _); [apply leads_intro; [done|]; intros w x w' _ [-> _]%ret_inv; done|].
  eapply leads_bind; [eapply leads_weaken; [apply (rests_group_init ptr 0 true [])| |done]|].
  { intros w [Hw Hc]. split; [exact Hc|]. by apply sublist_nil_r in Hw. }
  intros ok. apply (leads_weaken _ (at_rest (with_new ptr [])) _ _ (λ _, at_rest (with_new ptr []))); [|done|done].
  unfold register_rekeying. rests.
Qed.

(** C18. Every operation the access point calls on the authenticator ends, in any
    interleaving: [wpa_init] and then every operation of [perform], among them
    the reception of any frame, renewing the keys of all groups and the steps of stations
    that follow, return or run into undefined behaviour within the turns the model
    allows for its loops. After each of them no station is stepping or to be removed and
    the groups have different addresses, so the next one ends as well. *)
Theorem operations_end :
  (∀ ptr pmksa addr c w0, wpa_init ptr pmksa addr c w0 ≠ Stuck ∧
     ∀ w, wpa_init ptr pmksa addr c w0 = Ok (true, w) → settled_world w) ∧
  (∀ op w, settled_world w → call_ok op w → perform op w ≠ Stuck ∧
     ∀ w', perform op w = Ok (tt, w') → settled_world w').
Proof.
  split.
  - intros ptr pmksa addr c w0. destruct (init_rests ptr pmksa addr c w0 I) as [He Hq]. split; [exact He|].
    intros w H. apply (settled_of (with_new ptr [])); [|by eapply Hq].
    apply with_new_NoDup; [apply NoDup_nil_2|]. destruct ptr; [apply not_elem_of_nil|done].
  - intros op w [Hn Hc] Ho. destruct (perform_leads op (group_ptrs w) w Hn Hc eq_refl Ho) as [He Hq]. split; [exact He|].
    intros w' H. apply (settled_of (ptrs_after op (group_ptrs w))); [|by eapply Hq].
    destruct op; try done; apply with_new_NoDup; try done; by destruct ptr.
Qed.
End perform.

(** ** A run: the keys of two groups are renewed *)

#[local] Existing Instance toy_crypto.
#[local] Existing Instance toy_env.

Definition second_group : WpaSm.wpa_group := ends_group <| g_ptr := 2000 |> <| vlan_id := 7 |> <| references := 1 |>.
Definition two_groups : world :=
  ends_world <| groups := [ends_group; second_group] |>
    <| stations := [ends_station 1; (ends_station 2) <| group := 2000 |>] |>.

Lemma two_groups_settled : settled_world two_groups.
Proof.
  split; [exact (bool_decide_eq_true_1 (NoDup (group_ptrs two_groups)) eq_refl)|]. intros m Hm. cbn [two_groups stations setter] in Hm.
  apply elem_of_cons in Hm as [->|[->|?%not_elem_of_nil]%elem_of_cons]; done.
Qed.

Definition groups_of (r : outcome (unit * world)) : option (list (group_state * bool) * list ptk_group_state) :=
  match r with
  | Ok (_, w) => Some (map (λ g, (wpa_group_state g, GTKReKey g)) (groups w), map wpa_ptk_group_state (stations w))
  | _ => None
  end.

Lemma operations_end_witness :
  groups_of (perform 3 4 Op_rekey_gtk two_groups) =
    Some ([(WPA_GROUP_SETKEYS, false); (WPA_GROUP_SETKEYS, false)],
          [WPA_PTK_GROUP_REKEYNEGOTIATING; WPA_PTK_GROUP_REKEYNEGOTIATING]) ∧
  (perform 3 4 Op_rekey_gtk two_groups ≠ Stuck ∧
   ∀ w, perform 3 4 Op_rekey_gtk two_groups = Ok (tt, w) → settled_world w).
Proof.
  split; [vm_compute; reflexivity|]. exact (proj2 (operations_end 3 4) Op_rekey_gtk two_groups two_groups_settled I).
Defined.
